(* ===== verification/_CoqProject ===== *)
-Q . S2P
Prelude.v
Primality.v
Modulus.v
Field.v
JsText.v
Edwards.v
Tonelli.v
Accumulator.v
FieldElement.v
Slashing.v
NullifierStore.v
JsNumber.v
Padding.v
Quantization.v
ClaudePricing.v
EthRate.v
Profile.v
Storage.v
Limiter.v
Json.v
ProofVerifier.v
Gateway.v
ExitWatcher.v
Interleaving.v
GatewayWorld.v
HexText.v
JsonText.v
RefundSigner.v
NoteClient.v
NoteProtocol.v
ClientCommands.v
Wire.v
NoteFixture.v
RequestForm.v
Quote.v
AppGovernance.v
Keys.v
Platforms.v
KeyBinding.v
Dstack.v
Attestation.v
Blockchain.v
Utf8.v
JsCoerce.v
Pricing.v
Providers.v
CostEstimation.v
Encryption.v
Http.v
Startup.v
Api.v
Script.v
VerifyAttestation.v
Checks.v
Release.v
Demo.v
DemoVerdict.v
DemoFixture.v
Credits.v
CreditsLedger.v
CreditsHistory.v
CreditsAdmin.v
CreditsTree.v
CreditsMembership.v
CreditsFixture.v
Circuits.v
Proving.v
System.v
SystemFixture.v
Solvency.v
SolvencyFixture.v
