(* ===== verification/Prelude.v ===== *)
(** * Longjing: a verification library of the gateway and of its client

    Longjing sells API calls (Claude's) against anonymous prepaid notes. A client deposits
    ether under a Poseidon commitment, then sends each request with a nullifier, a
    rate-limiting signal (RLN), a Groth16 proof that the note can pay, and the refund
    accumulator of the note, rerandomized. The gateway, a NestJS server meant to run in a
    TEE, checks the request, calls the provider, signs the accumulator with the refund
    added, and slashes a note that uses one nullifier for two payloads. This library models
    the TypeScript of the repository, the server under [src/] and the client under
    [scripts/client/], the contract that holds the deposits and the circuits of the proofs.
    File names below are relative to the root of the repository.

    ** Parts and their files

    The language, used by every part:
    - [Prelude]: exceptions and results ([result], [let*]); asynchronous handlers as trees
      of calls ([prog]), their runs and logs; tactics and list lemmas.
    - [JsText], [HexText], [Utf8]: code units, UTF-8 both ways, Buffer and hexadecimal
      forms, [BigInt(text)], [toString]. [JsNumber]: binary64 numbers over [spec_float].
      [Json], [JsonText], [JsCoerce]: [JSON.parse], [JSON.stringify], property reads that
      throw, [String(v)] and [Number(v)].

    The accumulator ([src/longjing/accumulator.ts]): [Primality], [Modulus] (BN254's scalar
    field is prime), [Field] (reduction, power, inverse), [Tonelli] (square roots),
    [Edwards] (the group law of a complete twisted Edwards curve, for any field),
    [Accumulator] (Baby Jubjub, hash to curve, commitments and refunds).

    The gateway ([src/longjing/]):
    - [FieldElement]: [dto/field-element.ts], [dto/api-request.dto.ts],
      [utils/payload-signal.util.ts]. [Padding], [Quantization]: [utils/].
    - [Slashing] ([slashing.service.ts]); [NullifierStore] ([nullifier-store.service.ts],
      the table as a finite map, time as an argument); [Storage] (its SQL over rows, the
      files, starts and crashes; [src/database/database.service.ts]); [Limiter]
      ([utils/concurrency-limiter.ts], [compute-limiter.service.ts],
      [contract-ready.guard.ts]); [EthRate] ([eth-rate-oracle.service.ts]);
      [ProofVerifier] ([proof-verifier.service.ts], [snarkjs-proof.service.ts]);
      [RefundSigner] ([refund-signer.service.ts]); [Blockchain] ([blockchain.service.ts],
      [chain.ts]) as a state machine over the answers it awaits; [CostEstimation]
      ([cost-estimation.service.ts]).
    - [Gateway] ([longjing.service.ts]): [handleRequest] as a program over the operations
      of those services. [ExitWatcher] ([exit-watcher.service.ts]): another such program.
    - [Interleaving]: requests, exits and the environment interleaved at every await, the
      services seen through the class [GatewayServices]. [GatewayWorld]: the modelled
      services put together and shown to be an instance of it.

    Prices: [ClaudePricing] ([src/pricing/claude-pricing.ts]), [Pricing]
    ([src/pricing/]: tables, cache, cost functions), [Providers] ([src/providers/]).

    The client: [NoteClient] ([scripts/client/note.ts]); [ClientCommands] ([prove.ts]): the
    commands over the note files; [NoteProtocol]: the client's code against the gateway's;
    [RequestForm]: the client's requests against the gateway's validation; [NoteFixture]
    ([src/longjing/note.fixture.ts], [scripts/testing/generate-settlement-fixtures.ts]): the
    server and notes the circuits are tested with.

    The enclave:
    - [Profile] ([src/config/profile.ts], [env.validation.ts], [src/keys/key-policy.ts]).
    - [Keys] ([src/keys/dstack-v1.client.ts], [key-derivation.service.ts]).
    - [Platforms] ([src/attestation/platforms/]); [Quote] ([report-data.ts],
      [tdx-quote.ts]); [Dstack]: what an honest enclave answers, the TD report of Intel and
      the event log of dstack; [Attestation] ([tee-key-manager.service.ts],
      [attestation.service.ts], [attestation.controller.ts]); [KeyBinding]
      ([key-binding.ts]) and [AppGovernance] ([app-governance.ts],
      [credits-governance.ts], [src/governance/release-batch.ts]): what a client checks.
    - [Encryption] ([src/encryption/mlkem-encryption.service.ts]).
    - [Http]: middleware, guard, interceptors, filter, health and logger, composed as
      [app.module.ts] installs them. [Wire]: the bodies of requests, replies and errors as
      JSON, read with the rules of the validation pipe. [Api]: the routes of the controllers
      ([longjing.controller.ts], [attestation.controller.ts], [health.controller.ts]) over
      their services, behind those layers and the JSON body parser. [Startup]: [src/tls/], [src/config/secrets.service.ts]
      and the bootstrap of [src/main.ts].

    The commands: [Script] is their monad, of programs that print, throw and may stop.
    [VerifyAttestation] ([scripts/testing/verify-attestation.ts]) runs the client's checks
    on a server; [Release] ([scripts/governance/propose-release.ts]) writes the batch of a
    release; [Checks] ([scripts/testing/check-verifier-keys.ts], [check-static-analysis.ts],
    [scripts/setup/fetch-circuits.ts]) holds the checks of the build. [Demo]
    ([scripts/demo/demo.ts]) is the scripted run of the whole system as a program over a
    store of typed cells, the outside world being the record [Actors]; [DemoVerdict] shows
    what its exit code means, with rules on the cells each step changes; [DemoFixture] is a
    chain and a gateway on which it passes.

    The contract ([contracts/src/LongjingCredits.sol]): [Credits] has its functions as
    transactions that return a state or revert, recipients calling back included;
    [CreditsLedger] its money, [CreditsHistory] the life of a note and of an exit,
    [CreditsAdmin] its timelock, [CreditsTree] its tree and its ring of roots,
    [CreditsMembership] what a path to a known root proves, [CreditsFixture] a small deployment.

    The circuits ([circuits/]): [Circuits] has each template as the function from its inputs
    to its outputs, [None] when its constraints have no solution. [Proving] is snarkjs around
    them, from the texts of the client to public signals. [System] puts client, circuits,
    slasher and contract together, [Solvency] gateway, verifier, circuit and contract;
    [SystemFixture] and [SolvencyFixture] are small such systems.

    ** How code is modelled

    A service is a record of its fields; a method is a function from the state to the state
    and a [result], the exception being NestJS's with its status or an error by class and
    message. Where other handlers can run in the middle of a method and it matters, the
    method is a [prog] or the service a step function over awaited answers; elsewhere a
    method is one step. Numbers are binary64, BigInts are [Z], strings that can hold any
    text are lists of UTF-16 code units and other strings are [string]. A [Map] whose order
    shows is a list, otherwise a [gmap]. Time, random bytes and the answers of the network
    are arguments. Third-party code is a parameter: the hash functions, Poseidon, circomlibjs
    (record [Circomlib] with the laws [circomlib_ok]), snarkjs, ethers, the Anthropic client,
    dstack, SQLite's storage, the templates of circomlib (record [Templates] with
    the laws [templates_ok]), NestJS, the body parser of Express ([express_json]). Its laws are named hypotheses, and each
    property that has one comes with an instance that satisfies it.

    ** What is proved

    - Serving: one provider call and one signature per nullifier in any interleaving; the
      order of the checks; a retry gets the same reply when the checks pass again; a second
      signal is slashed; the refund and the signed accumulator add up.
    - The store: the first signal wins, clean-up is invisible, the migration keeps the
      signals only, the rate limit holds in any window.
      Its SQL implements the map ([rows_refine_map]), and a spent nullifier stays spent
      across restarts and crashes ([one_signal_across_restarts]).
    - The API: a printed body that fits the body parser reaches the handler and the reply
      comes back ([printed_body_reaches_the_handler]); an invalid body changes nothing
      ([invalid_body_changes_nothing]); a production server whose contract does not answer
      serves its attestation only ([unready_production_serves_attestation_only]).
    - Cryptographic arithmetic: the group law, square roots and hash to curve terminate and
      are correct, a refund cycle opens to the next opening, a revealed key is recovered.
    - The client: a note stays certified, an honest reply is folded in, the proof arrives as
      it left, a request passes the validation exactly when its payload and model are ones
      the gateway takes ([client_request_is_valid]); over any use of the commands no
      note file is lost and its note stays certified ([notes_on_disk_are_kept]), a request
      printed is on disk and a retry prints it again ([printed_body_is_on_disk],
      [pending_request_is_kept]); the fixture's server moves a note as the gateway and the
      client do ([respond_is_the_protocol]).
    - The chain: a connection at rest is verified or closed; a retry connects.
    - The enclave: keys are derived or absent, production attests with dstack, a passing
      check means the keys are the enclave's and event logs bind, unless the very inputs
      hashed collide; the answer of an honest enclave passes ([honest_quote_read]);
      governance that passes holds on chain and its history is complete, the verifier's
      PASSED means that all this was checked, the certificate served is the one attested, a
      payload encrypted to the server is read by it.
    - The commands: a written release leaves exactly its build allowed
      ([written_release_is_exact]); a checked verification key is the one of its proving key
      and of its Solidity verifier ([check_circuit_sound]); the analysers' findings and
      their baselines answer each other ([static_analysis_passes_iff]); the circuits on disk
      are the ones pinned ([fetched_files_are_pinned]); the demo exits with 0 exactly when
      what it expects was checked and held ([demo_exit_zero_iff]), and then its values show
      it ([demo_exit_zero_shows]).
    - The contract: every wei is accounted for ([every_wei_is_accounted]), its log says the
      life of each note ([note_lifecycle]), an exit cannot be stopped
      ([exit_cannot_be_stopped]), settings wait for their delay ([changes_wait]), the tree
      is the notes ([tree_is_the_notes]), the roots a request may use are the last thirty
      ([known_roots_are_the_last_thirty]).
    - The circuits: a request and a withdrawal proof prove exactly what they mean over the
      integers, for any inputs ([request_circuit_exact], [settlement_circuit_exact]).
    - End to end: behind every provider call in production there is a note of the contract
      whose deposit and refunds pay for it at the maximum price
      ([served_request_is_solvent]); an honest note can prove its next request under a known root
      ([honest_request_is_proved]); its exit is accepted and paid to the wei
      ([honest_exit_is_paid]); one index used for two messages reveals the key, and the
      contract slashes the note ([index_used_twice_is_slashed]).
    - Money: rates are recent, the price table implements a price book, estimates and
      cached prices are recent.
    - Where the code does not do what it means to, the theorem says what it does:
      [production_never_starts], [compose_hash_can_be_forged], [unsettled_request_is_lost],
      [oracle_ignores_cache_tokens], [update_leaves_fallback_cached],
      [empty_endpoint_loses_pricing], [invalid_date_loses_pricing],
      [tiers_are_not_validated], [cache_ignores_metadata], [deposit_can_be_negative],
      [estimate_without_endpoint_is_refused], [unverified_contract_is_served],
      [watched_exits_gap], [refusals_are_not_protected],
      [bodyless_requests_share_a_tracker], [published_measurement_ignores_mrtd],
      [timestamp_is_not_enforced], [other_platforms_need_no_quote],
      [advised_measurement_ignores_rtmr2], [trailing_app_skips_governance],
      [plain_http_passes_without_a_certificate], [payload_over_the_body_limit],
      [unreadable_block_retires_nothing], [failed_provider_refund_is_lost],
      [demo_against_deployment_exits_1], [memory_forgets], [final_exit_root_still_known].

    ** Fuel and bounds

    [sqrt] carries fuel for its four loops and hashing to the curve a number of attempts:
    [sqrt_correct] and [hashToCurve_correct] show that they return. [JSON_parse] has
    two units of fuel per code unit and two more, as each nested value consumes a code unit,
    and [stringify_parse] shows that printed values are read back with it; [toString] has one per bit, [BigInt_toString] shows it is enough.
    [readHistory] takes a fuel; [history_is_complete] names what is enough when the block
    range is positive (with a range of zero or less the code itself never ends). The shortest
    decimal form of a double is searched up to the 17 digits IEEE 754 says are enough. The
    scans of a text ([scan_constants], [scan_certificates], [all_images]) have its length as
    fuel, as each step consumes a character. The other loops are structural.

    ** Not modelled

    - That Groth16 proofs are sound, that the hash functions have no collisions and that
      nobody knows a discrete logarithm between the generators. The theorems speak of what a
      satisfied circuit or an accepted signature shows. [served_request_is_solvent] assumes
      of the one proof it is about that it is no forgery ([not_forged]), and allows for a
      collision on the pairs that were hashed; those on the tree of the contract assume of
      the one history they are about that no hash stored above the leaves was 0, which the
      contract reads as an empty node ([reachable_nonzero]); those on attestation end in a
      collision of the named inputs ([report_data_collision], [replay_collision]). snarkjs is assumed to prove
      exactly the inputs that have a witness ([proves]; [circuit_publishes] follows from it by
      [request_publishes]), to print field elements in decimal ([circuit_texts]), and
      circomlib and circomlibjs to agree ([agrees]).
    - Of [contracts/src/], the generated [SettlementVerifier.sol], and [LongjingAppOwner.sol]
      and [IDstackApp.sol], which the client's checks read through a chain reader.
      OpenZeppelin's [Ownable], [Pausable] and [ReentrancyGuard] are written out in [Credits]
      as documented.
    - [scripts/testing/compute-poseidon.ts], [generate-admin-keypair.ts] and
      [scripts/deploy/generate-poseidon-contract.js]: each calls one library, and prints or
      writes a file.
    - [src/providers/claude/dto/] and [claude.config.ts]: decorated classes and constants no
      code path reads.
    - The modules' declarations of what NestJS injects, and the rules of class-validator
      themselves, which [Wire] and [LongjingRequestDto_valid] state as documented.
    - Log lines, except the production logger; Swagger; the helmet headers. *)

From Stdlib Require Export ZArith Lia Bool.
From stdpp Require Export base decidable option list list_numbers gmap strings pretty.
From Stdlib Require Export Strings.Byte.

Global Set Default Goal Selector "!".
Open Scope Z_scope.

(** ** Exceptions and results *)

(** What a JavaScript [throw] raises: a NestJS [HttpException] with its status,
    or a plain error with its class name. *)
Inductive exn : Type :=
| HttpException (status : Z) (message : string)
| JsError (name message : string).

#[export] Instance exn_eq_dec : EqDecision exn.
Proof. solve_decision. Defined.

Definition BadRequestException (m : string) : exn := HttpException 400 m.
Definition UnauthorizedException (m : string) : exn := HttpException 401 m.
Definition ForbiddenException (m : string) : exn := HttpException 403 m.
Definition NotFoundException (m : string) : exn := HttpException 404 m.
Definition ThrottlerException (m : string) : exn := HttpException 429 m.
Definition ServiceUnavailableException (m : string) : exn := HttpException 503 m.
Definition Error (m : string) : exn := JsError "Error" m.
Definition SyntaxError (m : string) : exn := JsError "SyntaxError" m.
Definition TypeError (m : string) : exn := JsError "TypeError" m.
Definition RangeError (m : string) : exn := JsError "RangeError" m.

Inductive result (A : Type) : Type :=
| Ok (a : A)
| Throw (e : exn).
Arguments Ok {A} a.
Arguments Throw {A} e.

#[export] Instance result_eq_dec {A} `{EqDecision A} : EqDecision (result A).
Proof. solve_decision. Defined.

Definition rbind {A B} (m : result A) (f : A -> result B) : result B :=
  match m with Ok a => f a | Throw e => Throw e end.

Definition rmap {A B} (f : A -> B) (m : result A) : result B :=
  rbind m (fun a => Ok (f a)).

Definition of_option {A} (e : exn) (o : option A) : result A :=
  match o with Some a => Ok a | None => Throw e end.

Definition is_ok {A} (m : result A) : bool :=
  match m with Ok _ => true | Throw _ => false end.

Declare Scope js_scope.
Delimit Scope js_scope with js.
Notation "'let*' x ':=' c 'in' k" := (rbind c (fun x => k))
  (at level 10, x name, c at level 200, k at level 200) : js_scope.
Notation "'let*' ' p ':=' c 'in' k" := (rbind c (fun p => k))
  (at level 10, p strict pattern, c at level 200, k at level 200) : js_scope.
Notation "c ';;;' k" := (rbind c (fun _ => k))
  (at level 199, right associativity) : js_scope.
Open Scope js_scope.

Lemma rbind_ok {A B} (m : result A) (f : A -> result B) b :
  rbind m f = Ok b <-> exists a, m = Ok a /\ f a = Ok b.
Proof.
  destruct m as [a|e]; simpl; split.
  - intros H. by exists a.
  - by intros (a' & [= ->] & H).
  - done.
  - by intros (a' & ? & _).
Qed.

Lemma rbind_throw {A B} (m : result A) (f : A -> result B) e :
  rbind m f = Throw e <-> m = Throw e \/ exists a, m = Ok a /\ f a = Throw e.
Proof.
  destruct m as [a|e']; simpl; split.
  - intros H. right. by exists a.
  - by intros [?|(a' & [= ->] & H)].
  - intros [= ->]. by left.
  - by intros [[= ->]|(a' & ? & _)].
Qed.

Lemma rbind_assoc {A B C} (m : result A) (f : A -> result B) (g : B -> result C) :
  rbind (rbind m f) g = rbind m (fun a => rbind (f a) g).
Proof. by destruct m. Qed.

(** ** Effects: programs over named operations *)

(** An asynchronous handler is a tree of calls to the services it uses. [Call]
    runs one operation atomically and continues with its answer; whatever
    other handlers do may happen between two calls. *)
Section Programs.
Context {E : Type -> Type}.

Inductive prog (A : Type) : Type :=
| Done (a : A)
| Call {X : Type} (op : E X) (k : X -> prog A).

Fixpoint pbind {A B} (p : prog A) (f : A -> prog B) : prog B :=
  match p with
  | Done _ a => f a
  | Call _ op k => Call _ op (fun x => pbind (k x) f)
  end.
End Programs.
Arguments prog E A : clear implicits.
Arguments Done {E A} a.
Arguments Call {E A X} op k.

Definition perform {E : Type -> Type} {X} (op : E X) : prog E X :=
  Call op (fun x => Done x).

Declare Scope prog_scope.
Delimit Scope prog_scope with prog.
Notation "'do' x '<-' c ';;' k" := (pbind c (fun x => k))
  (at level 10, x name, c at level 99, k at level 200) : prog_scope.
Notation "'await' x '<-' op ';;' k" := (Call op (fun x => k))
  (at level 10, x name, op at level 99, k at level 200) : prog_scope.

(** Running a program against a handler of its operations. *)
Section Run.
Context {E : Type -> Type} {W : Type} (handle : forall X, E X -> W -> W * X).

Fixpoint run {A} (p : prog E A) (w : W) : W * A :=
  match p with
  | Done a => (w, a)
  | Call op k => let '(w', x) := handle _ op w in run (k x) w'
  end.

Lemma run_pbind {A B} (p : prog E A) (f : A -> prog E B) w :
  run (pbind p f) w = let '(w', a) := run p w in run (f a) w'.
Proof.
  revert w; induction p as [a|X op k IH]; intros w; simpl; [done|].
  destruct (handle X op w) as [w' x]. apply IH.
Qed.
End Run.
Arguments run {E W} handle {A} p w.

(** A run with the log of what was called and answered. *)
Inductive event (E : Type -> Type) : Type :=
| Ev {X : Type} (op : E X) (ans : X).
Arguments Ev {E X} op ans.

Section Logged.
Context {E : Type -> Type} {W : Type} (handle : forall X, E X -> W -> W * X).

Fixpoint run_log {A} (p : prog E A) (w : W) : W * A * list (event E) :=
  match p with
  | Done a => (w, a, [])
  | Call op k =>
      let '(w1, x) := handle _ op w in
      let '(w2, a, log) := run_log (k x) w1 in
      (w2, a, Ev op x :: log)
  end.

Lemma run_log_run {A} (p : prog E A) w : fst (run_log p w) = run handle p w.
Proof.
  revert w; induction p as [a|X op k IH]; intros w; cbn [run_log run]; [done|].
  destruct (handle X op w) as [w1 x]. rewrite <- IH.
  by destruct (run_log (k x) w1) as [[w2 a] log].
Qed.

Lemma run_log_pbind {A B} (p : prog E A) (f : A -> prog E B) w :
  run_log (pbind p f) w =
  let '(w1, a, log1) := run_log p w in
  let '(w2, b, log2) := run_log (f a) w1 in
  (w2, b, log1 ++ log2).
Proof.
  revert w; induction p as [a|X op k IH]; intros w; cbn [pbind run_log].
  - by destruct (run_log (f a) w) as [[w2 b] log].
  - destruct (handle X op w) as [w1 x]. rewrite IH.
    destruct (run_log (k x) w1) as [[w2 a] log1].
    by destruct (run_log (f a) w2) as [[w3 b] log2].
Qed.
End Logged.
Arguments run_log {E W} handle {A} p w.

(** Runs the next call of a logged run and keeps its answer. *)
Ltac log_step H :=
  cbn [run_log pbind perform] in H;
  match type of H with
  | context [?h ?X ?op ?w] =>
      match type of (h X op w) with
      | (_ * _)%type => destruct (h X op w) as [? ?] eqn:?
      end
  end; cbn [run_log pbind] in H.

(** ** Generic list and option lemmas *)

Lemma bool_decide_spec_eq (P Q : Prop) `{Decision P, Decision Q} :
  (P <-> Q) -> bool_decide P = bool_decide Q.
Proof. apply bool_decide_ext. Qed.

Lemma filter_filter_and {A} (P Q : A -> Prop) `{!forall x, Decision (P x), !forall x, Decision (Q x)}
  (l : list A) :
  (forall x, P x -> Q x) -> filter P (filter Q l) = filter P l.
Proof.
  intros HPQ. induction l as [|x l IH]; [done|].
  rewrite (filter_cons Q), (filter_cons P).
  destruct (decide (Q x)) as [HQ|HQ], (decide (P x)) as [HP|HP].
  - rewrite filter_cons, decide_True by done. by rewrite IH.
  - by rewrite filter_cons, decide_False.
  - by destruct HQ; apply HPQ.
  - done.
Qed.

Lemma filter_all {A} (P : A -> Prop) `{!forall x, Decision (P x)} (l : list A) :
  Forall P l -> filter P l = l.
Proof.
  induction 1 as [|x l Hx Hl IH]; [done|]. by rewrite filter_cons, decide_True, IH.
Qed.

Lemma filter_none {A} (P : A -> Prop) `{!forall x, Decision (P x)} (l : list A) :
  Forall (fun x => ~ P x) l -> filter P l = [].
Proof.
  induction 1 as [|x l Hx Hl IH]; [done|]. by rewrite filter_cons, decide_False, IH.
Qed.

Lemma filter_length_mono {A} (P Q : A -> Prop) `{!forall x, Decision (P x), !forall x, Decision (Q x)}
  (l : list A) :
  (forall x, x ∈ l -> P x -> Q x) -> (length (filter P l) <= length (filter Q l))%nat.
Proof.
  induction l as [|x l IH]; intros Himp; [done|]. rewrite !filter_cons.
  assert (Hl : (length (filter P l) <= length (filter Q l))%nat).
  { apply IH. intros y Hy. apply Himp. by right. }
  destruct (decide (P x)) as [HP|HP], (decide (Q x)) as [HQ|HQ]; simpl; try lia.
  destruct HQ. apply Himp; [by left|done].
Qed.

(** ** Automation *)

Create HintDb longjing.

(** Splits the booleans of a hypothesis or goal into propositions. *)
Ltac bool_simpl :=
  repeat match goal with
  | H : _ && _ = true |- _ => apply andb_true_iff in H as [? ?]
  | H : _ || _ = false |- _ => apply orb_false_iff in H as [? ?]
  | H : negb _ = true |- _ => apply negb_true_iff in H
  | H : negb _ = false |- _ => apply negb_false_iff in H
  | H : bool_decide _ = true |- _ => apply bool_decide_eq_true in H
  | H : bool_decide _ = false |- _ => apply bool_decide_eq_false in H
  | H : (_ =? _)%Z = true |- _ => apply Z.eqb_eq in H
  | H : (_ =? _)%Z = false |- _ => apply Z.eqb_neq in H
  | H : (_ <? _)%Z = true |- _ => apply Z.ltb_lt in H
  | H : (_ <? _)%Z = false |- _ => apply Z.ltb_ge in H
  | H : (_ <=? _)%Z = true |- _ => apply Z.leb_le in H
  | H : (_ <=? _)%Z = false |- _ => apply Z.leb_gt in H
  end.

(** Follows the only branch a hypothesis about [rbind] leaves open. *)
Ltac inv_ok :=
  repeat match goal with
  | H : rbind _ _ = Ok _ |- _ => apply rbind_ok in H as (? & ? & ?)
  | H : Ok _ = Ok _ |- _ => injection H as H
  | H : Throw _ = Ok _ |- _ => discriminate H
  | H : Ok _ = Throw _ |- _ => discriminate H
  end; simplify_eq/=.
