(* ===== verification/Primality.v ===== *)
(** * Primality certificates

    Trial division for small numbers and Pocklington's criterion for large
    ones, both decided by computation. The scalar field of BN254 is proved
    prime in [Field.v] with them. *)

From Stdlib Require Import ZArith Lia List Bool Zdivisibility Znumtheory Zpow_facts Zmod Zstar.
Import ListNotations.
Open Scope Z_scope.

(** ** Prime divisors *)

Lemma prime_divisor_le n : 1 < n -> exists q, Z.prime q /\ (q | n).
Proof.
  intros Hn. pattern n; apply (Z_lt_induction (fun m => 1 < m -> exists q, Z.prime q /\ (q | m)));
    [|lia|exact Hn].
  intros m IH Hm.
  destruct (prime_dec m) as [Hp|Hnp].
  - exists m. split; [now apply prime_alt|apply Z.divide_refl].
  - assert (exists d, 1 < d < m /\ (d | m)) as (d & Hd & Hdm).
    { apply not_prime_divide in Hnp as (d & ? & ?); [eauto|lia]. }
    destruct (IH d ltac:(lia) ltac:(lia)) as (q & Hq & Hqd).
    exists q. split; [exact Hq|]. now transitivity d.
Qed.

Lemma composite_small_prime n :
  1 < n -> ~ Z.prime n -> exists r, Z.prime r /\ (r | n) /\ r * r <= n.
Proof.
  intros Hn Hnp.
  assert (exists d, 1 < d < n /\ (d | n)) as (d & Hd & [e He]).
  { rewrite prime_alt in Hnp. apply not_prime_divide in Hnp as (d & ? & ?); [eauto|lia]. }
  assert (1 < e < n) by nia.
  destruct (Z_le_gt_dec d e).
  - destruct (prime_divisor_le d) as (r & Hr & Hrd); [lia|].
    exists r. split; [exact Hr|]. split; [apply Z.divide_trans with d; [exact Hrd|exists e; lia]|].
    apply Z.divide_pos_le in Hrd; [|lia]. pose proof (Z.prime_ge_2 _ Hr). nia.
  - destruct (prime_divisor_le e) as (r & Hr & Hre); [lia|].
    exists r. split; [exact Hr|]. split; [apply Z.divide_trans with e; [exact Hre|exists d; lia]|].
    apply Z.divide_pos_le in Hre; [|lia]. pose proof (Z.prime_ge_2 _ Hr). nia.
Qed.

(** ** Trial division by 2 and the odd numbers up to [2 * k + 1] *)

Definition trial_step (n : Z) (s : Z * bool) : Z * bool :=
  let '(d, ok) := s in (d + 2, ok && negb (n mod d =? 0)).

Definition trial_division (n : Z) (k : positive) : bool :=
  let '(d, ok) := Pos.iter (trial_step n) (3, true) k in
  (3 <? n) && negb (n mod 2 =? 0) && ok && (n <? d * d).

Lemma trial_iter n k :
  let '(d, ok) := Pos.iter (trial_step n) (3, true) k in
  d = 3 + 2 * Z.pos k /\
  (ok = true -> forall e, Z.odd e = true -> 3 <= e < d -> n mod e <> 0).
Proof.
  induction k as [|k IH] using Pos.peano_ind.
  - change (Pos.iter (trial_step n) (3, true) 1) with (5, true && negb (n mod 3 =? 0)).
    split; [reflexivity|]. intros H e Ho He. simpl andb in H.
    apply negb_true_iff, Z.eqb_neq in H.
    assert (e = 3 \/ e = 4) as [-> | ->] by lia; [exact H|discriminate].
  - rewrite Pos.iter_succ. destruct (Pos.iter (trial_step n) (3, true) k) as [d ok].
    destruct IH as [Hd IH]. cbn [trial_step]. split; [lia|].
    intros [Hok Hm]%andb_true_iff e Ho He. apply negb_true_iff, Z.eqb_neq in Hm.
    destruct (Z_lt_le_dec e d); [now apply IH; [| |lia]|].
    assert (e = d \/ e = d + 1) as [-> | ->] by lia; [exact Hm|].
    exfalso. rewrite Hd in Ho. replace (3 + 2 * Z.pos k + 1) with (2 * (2 + Z.pos k)) in Ho by lia.
    rewrite Z.odd_mul in Ho. discriminate.
Qed.

Lemma trial_division_prime n k : trial_division n k = true -> Z.prime n.
Proof.
  unfold trial_division. pose proof (trial_iter n k) as H.
  destruct (Pos.iter (trial_step n) (3, true) k) as [d ok]. destruct H as [Hd H].
  intros [[[Hn H2]%andb_true_iff Hok]%andb_true_iff Hlt]%andb_true_iff.
  apply Z.ltb_lt in Hn, Hlt. apply negb_true_iff, Z.eqb_neq in H2.
  destruct (prime_dec n) as [Hp|Hnp]; [now apply prime_alt|].
  destruct (composite_small_prime n) as (r & Hr & Hrn & Hrr); [lia|now rewrite prime_alt|].
  pose proof (Z.prime_ge_2 _ Hr).
  assert (n mod r = 0) as Hm by now apply Z.mod0_divide.
  destruct (Z.odd r) eqn:Ho.
  - destruct (Z.eq_dec r 2) as [->|]; [discriminate|].
    exfalso. apply (H Hok r Ho); [nia|exact Hm].
  - assert (Z.even r = true) as [q Hq]%Z.even_spec by now rewrite <- Z.negb_odd, Ho.
    exfalso. apply H2. apply Z.mod0_divide. apply Z.divide_trans with r; [exists q; lia|exact Hrn].
Qed.

(** ** Pocklington's criterion *)

Lemma pow_1_gcd r (x : Zstar r) a b :
  Zstar.pow x a = Zstar.one -> Zstar.pow x b = Zstar.one -> Zstar.pow x (Z.gcd a b) = Zstar.one.
Proof.
  intros Ha Hb. destruct (Z.gcd_bezout a b _ eq_refl) as (u & v & <-).
  rewrite Zstar.pow_add_r, (Z.mul_comm u), (Z.mul_comm v), !Zstar.pow_mul_r, Ha, Hb.
  rewrite !Zstar.pow_1_l. apply Zstar.mul_1_l.
Qed.

Lemma pow_1_multiple r (x : Zstar r) a b :
  (a | b) -> Zstar.pow x a = Zstar.one -> Zstar.pow x b = Zstar.one.
Proof.
  intros [c ->] Ha. rewrite Z.mul_comm, Zstar.pow_mul_r, Ha. apply Zstar.pow_1_l.
Qed.

Lemma zstar_pow_one_iff r (Hr : Z.prime r) a e :
  0 <= e -> Z.coprime a r ->
  Zstar.pow (Zstar.of_Zmod (Zmod.of_Z r a)) e = Zstar.one <-> (r | a ^ e - 1).
Proof.
  intros He Hc. pose proof (Z.prime_ge_2 _ Hr).
  assert (Hc' : Z.coprime (Zmod.to_Z (Zmod.of_Z r a)) r).
  { rewrite Zmod.unsigned_of_Z. now apply Z.coprime_mod_l_iff. }
  rewrite <- Zstar.to_Zmod_inj_iff, Zstar.to_Zmod_pow, Zstar.to_Zmod_of_Zmod by exact Hc'.
  rewrite Zstar.to_Zmod_1, <- Zmod.unsigned_inj_iff.
  rewrite Zmod.unsigned_pow_nonneg_r, Zmod.unsigned_of_Z, Z.mod_pow_l by lia.
  rewrite Zmod.unsigned_1. split; intros H'.
  - apply Z.cong_iff_0 in H'. now apply Z.mod_divide in H'; [|lia].
  - apply Z.cong_iff_0. now apply Z.mod0_divide.
Qed.

Definition product (qs : list Z) : Z := fold_right Z.mul 1 qs.

(** [n - 1 = product qs * r], [a] has order [n - 1] at every prime of [qs]. *)
Definition pocklington (n a r : Z) (qs : list Z) : bool :=
  (1 <? n) && (n - 1 =? product qs * r) && (n <? product qs * product qs) &&
  (Zpow_mod a (n - 1) n =? 1) &&
  forallb (fun q => Z.gcd (Zpow_mod a ((n - 1) / q) n - 1) n =? 1) qs.

Lemma prime_divides_product p qs :
  Z.prime p -> Forall Z.prime qs -> (p | product qs) -> In p qs.
Proof.
  intros Hp Hqs. induction Hqs as [|q qs Hq Hqs IH]; simpl.
  - intros H%Z.divide_1_r. pose proof (Z.prime_ge_2 _ Hp). lia.
  - intros [H|H]%Z.divide_prime_mul; [|now right; apply IH|exact Hp].
    left. symmetry. now apply Z.divide_prime_prime.
Qed.

Lemma product_pos qs : Forall Z.prime qs -> 0 < product qs.
Proof.
  induction 1 as [|q qs Hq _ IH]; simpl; [lia|]. pose proof (Z.prime_ge_2 _ Hq). nia.
Qed.

Lemma product_divisible q qs : In q qs -> (q | product qs).
Proof.
  induction qs as [|x qs IH]; simpl; [easy|]. intros [->|H].
  - apply Z.divide_factor_l.
  - now apply Z.divide_mul_r, IH.
Qed.

Lemma gcd_proper_prime_cofactor f m :
  0 < f -> Z.gcd f m <> f -> exists q, Z.prime q /\ (q | f) /\ (Z.gcd f m | f / q).
Proof.
  intros Hf Hg. destruct (Z.gcd_divide_l f m) as [c Hc].
  assert (0 < Z.gcd f m).
  { pose proof (Z.gcd_nonneg f m). assert (Z.gcd f m <> 0) by (intros E; rewrite E in *; lia). lia. }
  assert (c <> 1) by (intros ->; lia).
  assert (1 < c) by nia.
  destruct (prime_divisor_le c) as (q & Hq & [e He]); [lia|].
  exists q. pose proof (Z.prime_ge_2 _ Hq). split; [exact Hq|]. split.
  - exists (e * Z.gcd f m). nia.
  - exists e. symmetry. apply Z.div_unique_exact; [lia|]. rewrite Hc at 1. rewrite He. ring.
Qed.

Section Pocklington.
Context (n a r : Z) (qs : list Z).
Context (Hcheck : pocklington n a r qs = true) (Hqs : Forall Z.prime qs).

Let f := product qs.

Lemma pocklington_unfold :
  1 < n /\ n - 1 = f * r /\ n < f * f /\ (n | a ^ (n - 1) - 1) /\
  forall q, In q qs -> Z.gcd (a ^ ((n - 1) / q) - 1) n = 1.
Proof.
  revert Hcheck. unfold pocklington. fold f.
  intros [[[[Hn Hf]%andb_true_iff Hff]%andb_true_iff Hp]%andb_true_iff Hg]%andb_true_iff.
  apply Z.ltb_lt in Hn, Hff. apply Z.eqb_eq in Hf, Hp.
  rewrite Zpow_mod_correct in Hp by lia.
  split; [exact Hn|]. split; [exact Hf|]. split; [exact Hff|]. split.
  - apply Z.mod_divide; [lia|]. rewrite Zminus_mod, Hp, (Z.mod_small 1 n), Z.sub_diag by lia.
    now apply Z.mod_0_l; lia.
  - intros q Hq. rewrite forallb_forall in Hg. specialize (Hg q Hq). apply Z.eqb_eq in Hg.
    rewrite Zpow_mod_correct in Hg by lia.
    rewrite <- Z.gcd_mod_l in Hg. rewrite Zminus_mod_idemp_l, Z.gcd_mod_l in Hg. exact Hg.
Qed.

(** Every prime divisor of [n] is 1 modulo the factored part of [n - 1]. *)
Lemma pocklington_divisor p : Z.prime p -> (p | n) -> (f | p - 1).
Proof.
  intros Hp Hpn. destruct pocklington_unfold as (Hn & Hf & Hff & Ha & Hg).
  pose proof (Z.prime_ge_2 _ Hp).
  assert (0 < f) by now apply product_pos.
  assert (Hca : Z.coprime a p).
  { symmetry. apply Z.coprime_prime_l; [exact Hp|]. intros Hpa.
    assert (Hpow : (p | a ^ (n - 1))) by (apply Zpow_facts.Zpower_divide || idtac;
      replace (n - 1) with (Z.succ (n - 2)) by lia; rewrite Z.pow_succ_r by lia;
      now apply Z.divide_mul_l).
    assert (Hd : (p | a ^ (n - 1) - 1)) by now transitivity n.
    pose proof (Z.divide_sub_r _ _ _ Hpow Hd) as H1.
    replace (a ^ (n - 1) - (a ^ (n - 1) - 1)) with 1 in H1 by lia.
    apply Z.divide_1_r in H1. lia. }
  destruct (Z.eq_dec (Z.gcd f (p - 1)) f) as [E|E]; [rewrite <- E; apply Z.gcd_divide_r|].
  exfalso.
  destruct (gcd_proper_prime_cofactor f (p - 1)) as (q & Hq & Hqf & Hgq); [lia|exact E|].
  assert (Hin : In q qs) by now apply prime_divides_product.
  set (b := Zstar.pow (Zstar.of_Zmod (Zmod.of_Z p a)) r).
  pose proof (Z.prime_ge_2 _ Hq).
  assert (Hq0 : f / q * q = f) by (destruct Hqf as [c ->]; rewrite Z.div_mul; lia).
  assert (0 <= r) by nia.
  assert (Hbf : Zstar.pow b f = Zstar.one).
  { unfold b. rewrite <- Zstar.pow_mul_r, Z.mul_comm, <- Hf.
    apply zstar_pow_one_iff; [exact Hp|lia|exact Hca|]. now transitivity n. }
  assert (Hbp : Zstar.pow b (p - 1) = Zstar.one) by (apply Zstar.fermat; exact Hp).
  pose proof (pow_1_gcd _ _ _ _ Hbf Hbp) as Hbg.
  apply (pow_1_multiple _ _ _ _ Hgq) in Hbg.
  unfold b in Hbg. rewrite <- Zstar.pow_mul_r in Hbg.
  assert (0 <= f / q) by (apply Z.div_pos; lia).
  apply zstar_pow_one_iff in Hbg; [|exact Hp|nia|exact Hca].
  replace (r * (f / q)) with ((n - 1) / q) in Hbg.
  2:{ symmetry. apply Z.div_unique_exact; [lia|]. rewrite Hf, <- Hq0 at 1. ring. }
  assert (Hd1 : (p | 1)) by (rewrite <- (Hg q Hin); now apply Z.gcd_greatest).
  apply Z.divide_1_r in Hd1. lia.
Qed.

Theorem pocklington_prime : Z.prime n.
Proof.
  destruct pocklington_unfold as (Hn & Hf & Hff & Ha & Hg).
  destruct (prime_dec n) as [Hp|Hnp]; [now apply prime_alt|]. exfalso.
  destruct (composite_small_prime n) as (p & Hp & Hpn & Hpp); [lia|now rewrite prime_alt|].
  pose proof (Z.prime_ge_2 _ Hp). assert (0 < f) by now apply product_pos.
  pose proof (pocklington_divisor p Hp Hpn) as Hd.
  apply Z.divide_pos_le in Hd; [|lia]. nia.
Qed.
End Pocklington.
