(* ===== verification/Modulus.v ===== *)
(** * The BN254 scalar field order and its primality *)

From Stdlib Require Import List Zdivisibility.
From S2P Require Import Prelude Primality.

Definition FIELD_MODULUS : Z :=
  21888242871839275222246405745257275088548364400416034343698204186575808495617.

Lemma pock_12048837557 : Z.prime 12048837557.
Proof.
  apply (pocklington_prime _ 2 196 [93001; 661]); [by vm_compute|].
  repeat constructor; [apply (trial_division_prime _ 200) | apply (trial_division_prime _ 20)];
    by vm_compute.
Qed.

Lemma pock_1670836401704629 : Z.prime 1670836401704629.
Proof.
  apply (pocklington_prime _ 2 324 [5156902474397]); [by vm_compute|].
  constructor; [|constructor].
  apply (pocklington_prime _ 2 428 [12048837557]); [by vm_compute|].
  constructor; [apply pock_12048837557|constructor].
Qed.

Lemma pock_13818364434197438864469338081 : Z.prime 13818364434197438864469338081.
Proof.
  apply (pocklington_prime _ 2 209796131360 [65865678001877903]); [by vm_compute|].
  constructor; [|constructor].
  apply (pocklington_prime _ 2 102990218 [639533339]); [by vm_compute|].
  constructor; [|constructor].
  apply (pocklington_prime _ 2 458 [1637; 853]); [by vm_compute|].
  repeat constructor; [apply (trial_division_prime _ 30) | apply (trial_division_prime _ 30)];
    by vm_compute.
Qed.

Lemma FIELD_MODULUS_prime : Z.prime FIELD_MODULUS.
Proof.
  apply (pocklington_prime _ 2 948026174865265269726259848413184
           [13818364434197438864469338081; 1670836401704629]); [by vm_compute|].
  constructor; [apply pock_13818364434197438864469338081|].
  constructor; [apply pock_1670836401704629|constructor].
Qed.
