(* ===== verification/Field.v ===== *)
(** * The scalar field of BN254

    The base arithmetic of [src/longjing/accumulator.ts] and of
    [recoverSecretKey] in [src/longjing/slashing.service.ts]: reduction,
    square-and-multiply and Fermat inversion over integers, with the bridge to
    the field [Zmod]. The modulus and its primality are in [Modulus.v]. *)

From Stdlib Require Import List Zdivisibility Zpow_facts Zmod ZmodInv Field.
From S2P Require Import Prelude Primality.
From S2P Require Export Modulus.

(** ** Arithmetic as the code writes it *)

(** [mod] of accumulator.ts: JavaScript's [%] truncates, so the sum is reduced twice. *)
Definition mod_p (x : Z) : Z :=
  Z.rem (Z.rem x FIELD_MODULUS + FIELD_MODULUS) FIELD_MODULUS.

(** The loop [while (e > 0n) { if (e & 1n) r = r*b % p; b = b*b % p; e >>= 1n }]
    on a positive exponent: one constructor per bit, least significant first. *)
Fixpoint square_multiply (e : positive) (result b : Z) : Z :=
  match e with
  | xH => Z.rem (result * b) FIELD_MODULUS
  | xO e' => square_multiply e' result (Z.rem (b * b) FIELD_MODULUS)
  | xI e' => square_multiply e' (Z.rem (result * b) FIELD_MODULUS) (Z.rem (b * b) FIELD_MODULUS)
  end.

Definition pow (base exp : Z) : Z :=
  match exp with
  | Z.pos e => square_multiply e 1 (mod_p base)
  | _ => 1
  end.

Definition inv (x : Z) : Z := pow x (FIELD_MODULUS - 2).

(** ** What they compute *)

Lemma FIELD_MODULUS_pos : 0 < FIELD_MODULUS.
Proof. done. Qed.

Lemma mod_p_spec x : mod_p x = x mod FIELD_MODULUS.
Proof.
  unfold mod_p. pose proof FIELD_MODULUS_pos as HP.
  pose proof (Z.rem_bound_abs x FIELD_MODULUS ltac:(lia)).
  rewrite Z.rem_mod_nonneg by lia.
  rewrite (Z.rem_eq x) by lia. rewrite Z.mul_comm.
  replace (x - x ÷ FIELD_MODULUS * FIELD_MODULUS + FIELD_MODULUS)
    with (x + (1 - x ÷ FIELD_MODULUS) * FIELD_MODULUS) by ring.
  by apply Z_mod_plus_full.
Qed.

Lemma mod_p_range x : 0 <= mod_p x < FIELD_MODULUS.
Proof. rewrite mod_p_spec. by apply Z.mod_pos_bound. Qed.

Lemma mod_p_small x : 0 <= x < FIELD_MODULUS -> mod_p x = x.
Proof. intros. rewrite mod_p_spec. by apply Z.mod_small. Qed.

Lemma rem_mul_nonneg a b :
  0 <= a -> 0 <= b -> Z.rem (a * b) FIELD_MODULUS = a * b mod FIELD_MODULUS.
Proof. intros. apply Z.rem_mod_nonneg; [nia|done]. Qed.

Lemma square_multiply_spec e result b :
  0 <= result -> 0 <= b ->
  square_multiply e result b = result * b ^ Z.pos e mod FIELD_MODULUS.
Proof.
  pose proof FIELD_MODULUS_pos as HP.
  revert result b; induction e as [e IH|e IH|]; intros r b Hr Hb; cbn [square_multiply];
    rewrite ?rem_mul_nonneg by lia.
  - rewrite IH by (apply Z.mod_pos_bound; lia).
    rewrite Pos2Z.inj_xI, Z.pow_add_r, Z.pow_1_r, Z.pow_mul_r, Z.pow_2_r by lia.
    rewrite Z.mul_mod_idemp_l, <- Z.mul_mod_idemp_r, Z.mod_pow_l, Z.mul_mod_idemp_r by lia.
    f_equal. ring.
  - rewrite IH by (try apply Z.mod_pos_bound; lia).
    rewrite Pos2Z.inj_xO, Z.pow_mul_r, Z.pow_2_r by lia.
    by rewrite <- Z.mul_mod_idemp_r, Z.mod_pow_l, Z.mul_mod_idemp_r by lia.
  - by rewrite Z.pow_1_r.
Qed.

Lemma pow_spec b e : 0 <= e -> pow b e = b ^ e mod FIELD_MODULUS.
Proof.
  intros He. destruct e as [|e|e]; [done| |lia]. cbn [pow].
  rewrite square_multiply_spec by (try apply mod_p_range; lia).
  by rewrite Z.mul_1_l, mod_p_spec, Z.mod_pow_l.
Qed.

Lemma pow_range b e : 0 <= pow b e < FIELD_MODULUS.
Proof.
  destruct (Z.leb_spec 0 e).
  - rewrite pow_spec by done. by apply Z.mod_pos_bound.
  - destruct e; [lia|lia|done].
Qed.

Arguments pow : simpl never.
Arguments inv : simpl never.
Arguments mod_p : simpl never.

Lemma FIELD_MODULUS_big : 2 ^ 253 < FIELD_MODULUS.
Proof. done. Qed.

Lemma FIELD_MODULUS_gt : 1000000 < FIELD_MODULUS.
Proof. done. Qed.

#[global] Opaque FIELD_MODULUS pow.

(** ** The bridge to [Zmod FIELD_MODULUS] *)

Abbreviation F := (Zmod FIELD_MODULUS).
Abbreviation toF := (Zmod.of_Z FIELD_MODULUS).

Lemma F_mod_p x : toF (mod_p x) = toF x.
Proof. rewrite mod_p_spec. apply Zmod.of_Z_mod. Qed.

Lemma F_eq_iff x y : toF x = toF y <-> mod_p x = mod_p y.
Proof. rewrite !mod_p_spec. apply Zmod.of_Z_inj. Qed.

Lemma F_eq_small x y :
  0 <= x < FIELD_MODULUS -> 0 <= y < FIELD_MODULUS -> toF x = toF y -> x = y.
Proof. intros Hx Hy H%F_eq_iff. by rewrite !mod_p_small in H. Qed.

Lemma F_unsigned_range (x : F) : 0 <= Zmod.unsigned x < FIELD_MODULUS.
Proof. by apply Zmod.unsigned_pos_bound. Qed.

Lemma F_pow b e : 0 <= e -> toF (pow b e) = Zmod.pow (toF b) e.
Proof. intros. by rewrite pow_spec, Zmod.of_Z_mod, Zmod.of_Z_pow. Qed.

Lemma F_pow_inv (x : F) : Zmod.pow x (FIELD_MODULUS - 2) = Zmod.inv x.
Proof.
  pose proof FIELD_MODULUS_gt.
  destruct (Zmod.eqb_spec x Zmod.zero) as [->|Hx].
  - rewrite Zmod.pow_0_l by lia. by rewrite Zmod.inv_0.
  - apply Zmod.fermat_inv; [done|apply FIELD_MODULUS_prime].
Qed.

Lemma F_inv x : toF (inv x) = Zmod.inv (toF x).
Proof. pose proof FIELD_MODULUS_gt. unfold inv. rewrite F_pow by lia. apply F_pow_inv. Qed.

Lemma inv_range x : 0 <= inv x < FIELD_MODULUS.
Proof. unfold inv. exact (pow_range x (FIELD_MODULUS - 2)). Qed.

#[global] Opaque inv.

#[export] Existing Instance FIELD_MODULUS_prime.

Lemma F_mul_0 (x y : F) : Zmod.mul x y = Zmod.zero -> x = Zmod.zero \/ y = Zmod.zero.
Proof. apply Zmod.mul_0_iff_prime, FIELD_MODULUS_prime. Qed.

Lemma F_mul_inv_l (x : F) : x <> Zmod.zero -> Zmod.mul (Zmod.inv x) x = Zmod.one.
Proof. apply Zmod.mul_inv_same_l_prime, FIELD_MODULUS_prime. Qed.

(** ** The field structure, with its notations *)

Lemma F_field_theory :
  Field_theory.field_theory (@Zmod.zero FIELD_MODULUS) Zmod.one Zmod.add Zmod.mul Zmod.sub
    Zmod.opp Zmod.mdiv Zmod.inv eq.
Proof. apply Zmod.field_theory, FIELD_MODULUS_prime. Qed.

Definition F_dec (x y : F) : {x = y} + {x <> y}.
Proof.
  destruct (Zmod.eqb x y) eqn:E; [left|right].
  - by destruct (Zmod.eqb_spec x y).
  - by destruct (Zmod.eqb_spec x y).
Defined.

Lemma toF_zero : toF 0 = Zmod.zero.
Proof. apply Zmod.of_Z_0. Qed.

Lemma toF_one : toF 1 = Zmod.one.
Proof. apply Zmod.of_Z_1. Qed.

Lemma toF_eq_0 x : toF x = Zmod.zero <-> mod_p x = 0.
Proof.
  rewrite <- toF_zero, F_eq_iff. rewrite (mod_p_small 0); [done|].
  pose proof FIELD_MODULUS_gt. lia.
Qed.

(** Rewrites an image in [F] of an integer expression into field operations. *)
Ltac to_F :=
  repeat first [ rewrite F_mod_p | rewrite F_inv | rewrite Zmod.of_Z_add
               | rewrite Zmod.of_Z_sub | rewrite Zmod.of_Z_mul | rewrite toF_one
               | rewrite toF_zero ].

Declare Scope F_scope.
Delimit Scope F_scope with F.
Notation "x + y" := (@Zmod.add FIELD_MODULUS x y) : F_scope.
Notation "x * y" := (@Zmod.mul FIELD_MODULUS x y) : F_scope.
Notation "x - y" := (@Zmod.sub FIELD_MODULUS x y) : F_scope.
Notation "x / y" := (@Zmod.mdiv FIELD_MODULUS x y) : F_scope.
Notation "- x" := (@Zmod.opp FIELD_MODULUS x) : F_scope.
Notation "x ^ n" := (@Zmod.pow FIELD_MODULUS x n) : F_scope.
Notation "0" := (@Zmod.zero FIELD_MODULUS) : F_scope.
Notation "1" := (@Zmod.one FIELD_MODULUS) : F_scope.

(** ** Euler's criterion, the easy half *)

Definition HALF : Z := (FIELD_MODULUS - 1) / 2.

Lemma HALF_double : 2 * HALF = FIELD_MODULUS - 1.
Proof. by vm_compute. Qed.

Lemma HALF_pos : 0 < HALF.
Proof. pose proof HALF_double. pose proof FIELD_MODULUS_gt. lia. Qed.

Lemma HALF_eq : (FIELD_MODULUS - 1) / 2 = HALF.
Proof. reflexivity. Qed.

#[global] Opaque HALF.

Lemma F_fermat (x : F) : x <> 0%F -> (x ^ (FIELD_MODULUS - 1))%F = 1%F.
Proof.
  intros Hx. replace (FIELD_MODULUS - 1) with (Z.pred FIELD_MODULUS) by lia.
  apply Zmod.fermat_nz; [done|apply FIELD_MODULUS_prime].
Qed.

Lemma F_euler_square (x : F) : x <> 0%F -> ((x * x) ^ HALF)%F = 1%F.
Proof.
  intros Hx. rewrite <- Zmod.pow_2_r, <- Zmod.pow_mul_r_nonneg, HALF_double; [|lia|].
  - by apply F_fermat.
  - pose proof HALF_pos; lia.
Qed.

Lemma F_one_neq_zero : 1%F <> 0%F.
Proof. rewrite <- toF_one. intros H%toF_eq_0. by rewrite mod_p_small in H. Qed.

Lemma F_nonzero_mul (x y : F) : x <> 0%F -> y <> 0%F -> (x * y)%F <> 0%F.
Proof. by intros Hx Hy [?|?]%F_mul_0. Qed.

Lemma F_pow_nonzero (x : F) n : 0 <= n -> x <> 0%F -> (x ^ n)%F <> 0%F.
Proof.
  intros Hn Hx. revert n Hn. apply natlike_ind.
  - rewrite Zmod.pow_0_r. apply F_one_neq_zero.
  - intros n Hn IH. rewrite Zmod.pow_succ_nonneg_r by done. by apply F_nonzero_mul.
Qed.

Add Field F_field_local : F_field_theory.

(** The square roots of one are one and minus one. *)
Lemma F_square_one (x : F) : (x * x)%F = 1%F -> x = 1%F \/ x = (- (1))%F.
Proof.
  intros H. assert (H0 : ((x - 1) * (x + 1))%F = 0%F).
  { transitivity (x * x - 1)%F; [ring|]. rewrite H. ring. }
  apply F_mul_0 in H0 as [H0|H0]; [left|right].
  - transitivity (x - 1 + 1)%F; [ring|]. rewrite H0. ring.
  - transitivity (x + 1 - 1)%F; [ring|]. rewrite H0. ring.
Qed.

(** 5 is not a square: the computation behind the loop that looks for one. *)
Lemma pow_5_half : pow 5 HALF = FIELD_MODULUS - 1.
Proof. vm_compute. reflexivity. Qed.

Lemma F_neg_one : toF (FIELD_MODULUS - 1) = (- (1))%F.
Proof.
  rewrite <- toF_one, <- Zmod.of_Z_opp. apply F_eq_iff.
  rewrite !mod_p_spec. replace (FIELD_MODULUS - 1) with (- (1) + 1 * FIELD_MODULUS) by lia.
  by rewrite Z_mod_plus_full.
Qed.

Lemma F_neg_one_neq : (- (1))%F <> 1%F.
Proof.
  rewrite <- F_neg_one, <- toF_one. intros H. pose proof FIELD_MODULUS_gt.
  apply F_eq_small in H; lia.
Qed.

Lemma F_five_half : (toF 5 ^ HALF)%F = (- (1))%F.
Proof.
  pose proof HALF_pos. rewrite <- F_pow by lia. by rewrite pow_5_half, F_neg_one.
Qed.

Lemma F_five_nonsquare (x : F) : (x * x)%F <> toF 5.
Proof.
  intros H. destruct (F_dec x 0%F) as [->|Hx].
  - rewrite Zmod.mul_0_l in H. symmetry in H. apply toF_eq_0 in H.
    rewrite mod_p_small in H; [done|]. pose proof FIELD_MODULUS_gt. lia.
  - pose proof (F_euler_square x Hx) as E. rewrite H, F_five_half in E. by apply F_neg_one_neq.
Qed.
