(* ===== verification/JsText.v ===== *)
(** * Text and bytes as JavaScript has them

    Code units and UTF-8, [Buffer] conversions ('hex', big-endian integers),
    [BigInt(string)] and [toString] of a BigInt, and the character classes of
    the regular expressions the code tests. Strings that hold identifiers and
    field elements are [string]; a character is one code unit below 256. *)

From Stdlib Require Import Ascii String.
From S2P Require Import Prelude.
Open Scope Z_scope.

(** ** Characters *)

Definition code (c : ascii) : Z := Z.of_N (N_of_ascii c).

Definition between (lo hi : Z) (c : ascii) : bool := (lo <=? code c) && (code c <=? hi).

Definition is_digit : ascii -> bool := between 48 57.
Definition is_hex_digit (c : ascii) : bool := is_digit c || between 97 102 c || between 65 70 c.
Definition is_alpha (c : ascii) : bool := between 97 122 c || between 65 90 c.
Definition is_space (c : ascii) : bool := between 9 13 c || (code c =? 32) || (code c =? 160).

Fixpoint chars (s : string) : list ascii :=
  match s with EmptyString => [] | String c s => c :: chars s end.

Fixpoint of_chars (l : list ascii) : string :=
  match l with [] => EmptyString | c :: l => String c (of_chars l) end.

Definition str_all (f : ascii -> bool) (s : string) : bool := forallb f (chars s).

(** [string.length]. *)
Definition str_len (s : string) : Z := Z.of_nat (String.length s).

Lemma chars_of_chars l : chars (of_chars l) = l.
Proof. induction l as [|c l IH]; [done|]. simpl. by rewrite IH. Qed.

Lemma of_chars_chars s : of_chars (chars s) = s.
Proof. induction s as [|c s IH]; [done|]. simpl. by rewrite IH. Qed.

Lemma chars_app s t : chars (s +:+ t) = chars s ++ chars t.
Proof. induction s as [|c s IH]; [done|]. simpl. by rewrite <- IH. Qed.

Lemma chars_length s : length (chars s) = String.length s.
Proof. induction s as [|c s IH]; [done|]. simpl. by rewrite IH. Qed.

Lemma code_range c : 0 <= code c < 256.
Proof. unfold code. pose proof (N_ascii_bounded c). lia. Qed.

Lemma code_inj c1 c2 : code c1 = code c2 -> c1 = c2.
Proof.
  unfold code. intros H. rewrite <- (ascii_N_embedding c1), <- (ascii_N_embedding c2).
  f_equal. lia.
Qed.

(** [toLowerCase], on ASCII letters. *)
Definition lower (c : ascii) : ascii :=
  if between 65 90 c then ascii_of_N (Z.to_N (code c + 32)) else c.

Definition toLowerCase (s : string) : string := of_chars (map lower (chars s)).

Definition upper (c : ascii) : ascii :=
  if between 97 122 c then ascii_of_N (Z.to_N (code c - 32)) else c.

Definition toUpperCase (s : string) : string := of_chars (map upper (chars s)).

Fixpoint drop_spaces (l : list ascii) : list ascii :=
  match l with c :: l' => if is_space c then drop_spaces l' else l | [] => [] end.

(** [trim()]. *)
Definition trim (s : string) : string :=
  of_chars (rev (drop_spaces (rev (drop_spaces (chars s))))).

(** [split(sep)] on a single character. *)
Fixpoint split_chars (sep : ascii) (l : list ascii) : list (list ascii) :=
  match l with
  | [] => [[]]
  | c :: l' =>
      if Ascii.eqb c sep then [] :: split_chars sep l'
      else match split_chars sep l' with
           | w :: ws => (c :: w) :: ws
           | [] => [[c]]
           end
  end.

Definition split (sep : ascii) (s : string) : list string :=
  map of_chars (split_chars sep (chars s)).

(** [startsWith], [slice(from)], [includes]. *)
Fixpoint chars_prefix (p l : list ascii) : bool :=
  match p, l with
  | [], _ => true
  | a :: p', b :: l' => Ascii.eqb a b && chars_prefix p' l'
  | _ :: _, [] => false
  end.

Definition startsWith (s p : string) : bool := chars_prefix (chars p) (chars s).

Fixpoint chars_includes (p l : list ascii) : bool :=
  chars_prefix p l || match l with [] => false | _ :: l' => chars_includes p l' end.

Definition includes (s p : string) : bool := chars_includes (chars p) (chars s).

Definition slice_from (n : nat) (s : string) : string := of_chars (drop n (chars s)).

(** [array.join(sep)]. *)
Fixpoint join (sep : string) (l : list string) : string :=
  match l with
  | [] => EmptyString
  | [s] => s
  | s :: l' => s +:+ sep +:+ join sep l'
  end.

(** ** Bytes *)

Abbreviation byte := Byte.byte.

Definition byteZ (b : byte) : Z := Z.of_N (Byte.to_N b).

Definition byte_of (z : Z) : byte :=
  match Byte.of_N (Z.to_N (z mod 256)) with Some b => b | None => x00 end.

Lemma byteZ_range b : 0 <= byteZ b < 256.
Proof. unfold byteZ. pose proof (Byte.to_N_bounded b). lia. Qed.

Lemma byte_of_byteZ b : byte_of (byteZ b) = b.
Proof.
  unfold byte_of. rewrite Z.mod_small by apply byteZ_range.
  unfold byteZ. by rewrite N2Z.id, Byte.of_to_N.
Qed.

Lemma byteZ_byte_of z : byteZ (byte_of z) = z mod 256.
Proof.
  unfold byte_of. pose proof (Z.mod_pos_bound z 256 ltac:(lia)).
  destruct (Byte.of_N (Z.to_N (z mod 256))) as [b|] eqn:E.
  - apply Byte.to_of_N in E. unfold byteZ. rewrite E. lia.
  - apply Byte.of_N_None_iff in E. lia.
Qed.

Lemma byteZ_inj a b : byteZ a = byteZ b -> a = b.
Proof. intros H. by rewrite <- (byte_of_byteZ a), <- (byte_of_byteZ b), H. Qed.

#[export] Instance byte_eq_dec : EqDecision byte.
Proof. intros a b. destruct (Byte.byte_eq_dec a b); [by left|by right]. Defined.

(** ** UTF-8 of a sequence of UTF-16 code units ([Buffer.from(s)], 'utf8') *)

Definition is_high (u : Z) : bool := (0xD800 <=? u) && (u <=? 0xDBFF).
Definition is_low (u : Z) : bool := (0xDC00 <=? u) && (u <=? 0xDFFF).

Definition utf8_point (p : Z) : list byte :=
  if p <? 0x80 then [byte_of p]
  else if p <? 0x800 then
    [byte_of (0xC0 + p / 64); byte_of (0x80 + p mod 64)]
  else if p <? 0x10000 then
    [byte_of (0xE0 + p / 4096); byte_of (0x80 + p / 64 mod 64); byte_of (0x80 + p mod 64)]
  else
    [byte_of (0xF0 + p / 262144); byte_of (0x80 + p / 4096 mod 64);
     byte_of (0x80 + p / 64 mod 64); byte_of (0x80 + p mod 64)].

(** A lone surrogate is encoded as U+FFFD. *)
Fixpoint utf8 (l : list Z) : list byte :=
  match l with
  | [] => []
  | u :: l' =>
      if is_high u then
        match l' with
        | v :: l'' => if is_low v
                      then utf8_point (0x10000 + (u - 0xD800) * 1024 + (v - 0xDC00)) ++ utf8 l''
                      else utf8_point 0xFFFD ++ utf8 l'
        | [] => utf8_point 0xFFFD
        end
      else if is_low u then utf8_point 0xFFFD ++ utf8 l'
      else utf8_point u ++ utf8 l'
  end.

Definition code_units (s : string) : list Z := map code (chars s).

(** [Buffer.from(s)]. *)
Definition Buffer_from (s : string) : list byte := utf8 (code_units s).

(** [Buffer.byteLength(s, 'utf8')]. *)
Definition byteLength (l : list Z) : Z := Z.of_nat (length (utf8 l)).

(** ** Hexadecimal *)

Definition hex_digit (n : Z) : ascii :=
  ascii_of_N (Z.to_N (if n <? 10 then 48 + n else 87 + n)).

Definition hex_value (c : ascii) : option Z :=
  if is_digit c then Some (code c - 48)
  else if between 97 102 c then Some (code c - 87)
  else if between 65 70 c then Some (code c - 55)
  else None.

(** [buffer.toString('hex')]. *)
Fixpoint to_hex_chars (l : list byte) : list ascii :=
  match l with
  | [] => []
  | b :: l' => hex_digit (byteZ b / 16) :: hex_digit (byteZ b mod 16) :: to_hex_chars l'
  end.

Definition to_hex (l : list byte) : string := of_chars (to_hex_chars l).

(** [Buffer.from(s, 'hex')]: stops at the first pair that is not two digits. *)
Fixpoint of_hex_chars (l : list ascii) : list byte :=
  match l with
  | a :: b :: l' =>
      match hex_value a, hex_value b with
      | Some x, Some y => byte_of (16 * x + y) :: of_hex_chars l'
      | _, _ => []
      end
  | _ => []
  end.

Definition of_hex (s : string) : list byte := of_hex_chars (chars s).

Lemma hex_value_digit n : 0 <= n < 16 -> hex_value (hex_digit n) = Some n.
Proof.
  intros H.
  assert (Hn : n ∈ seqZ 0 16) by (apply elem_of_seqZ; lia).
  clear H; revert n Hn. apply Forall_forall. by repeat constructor.
Qed.

Lemma of_hex_to_hex l : of_hex (to_hex l) = l.
Proof.
  unfold of_hex, to_hex. rewrite chars_of_chars.
  induction l as [|b l IH]; [done|].
  pose proof (byteZ_range b). pose proof (Z.mod_pos_bound (byteZ b) 16 ltac:(lia)).
  assert (0 <= byteZ b / 16 < 16) by (split; [apply Z.div_pos|apply Z.div_lt_upper_bound]; lia).
  simpl. rewrite !hex_value_digit, IH by lia.
  rewrite <- (Z_div_mod_eq_full (byteZ b) 16). by rewrite byte_of_byteZ.
Qed.

Lemma to_hex_length l : String.length (to_hex l) = (2 * length l)%nat.
Proof.
  unfold to_hex. rewrite <- chars_length, chars_of_chars.
  induction l as [|b l IH]; [done|]. simpl. lia.
Qed.

(** ** Big-endian integers *)

Definition be_value (l : list byte) : Z := fold_left (fun acc b => acc * 256 + byteZ b) l 0.

Fixpoint be_bytes (n : nat) (z : Z) : list byte :=
  match n with
  | O => []
  | S n' => byte_of (z / 256 ^ Z.of_nat n') :: be_bytes n' z
  end.

Lemma be_bytes_length n z : length (be_bytes n z) = n.
Proof. induction n as [|n IH]; [done|]. simpl. by rewrite IH. Qed.

Lemma be_value_acc l acc :
  fold_left (fun acc b => acc * 256 + byteZ b) l acc
  = acc * 256 ^ Z.of_nat (length l) + be_value l.
Proof.
  unfold be_value. revert acc.
  induction l as [|b l IH]; intros acc; cbn [fold_left length]; [simpl; lia|].
  rewrite IH, (IH (0 * 256 + byteZ b)). rewrite Nat2Z.inj_succ, Z.pow_succ_r by lia. ring.
Qed.

Lemma be_value_cons b l : be_value (b :: l) = byteZ b * 256 ^ Z.of_nat (length l) + be_value l.
Proof. unfold be_value. cbn [fold_left]. by rewrite be_value_acc. Qed.

Lemma be_value_nonneg l : 0 <= be_value l.
Proof.
  induction l as [|b l IH]; [done|]. rewrite be_value_cons.
  pose proof (byteZ_range b). pose proof (Z.pow_nonneg 256 (Z.of_nat (length l))). nia.
Qed.

Lemma be_value_bytes n z : be_value (be_bytes n z) = z mod 256 ^ Z.of_nat n.
Proof.
  induction n as [|n IH]; [by rewrite Z.mod_1_r|].
  cbn [be_bytes]. rewrite be_value_cons, be_bytes_length, IH, byteZ_byte_of.
  rewrite Nat2Z.inj_succ, Z.pow_succ_r by lia.
  assert (0 < 256 ^ Z.of_nat n) by (apply Z.pow_pos_nonneg; lia).
  rewrite (Z.mul_comm 256), Z.rem_mul_r by lia. ring.
Qed.

(** ** Decimal text and [BigInt(s)] *)

Fixpoint dec_value (acc : Z) (l : list ascii) : Z :=
  match l with [] => acc | c :: l' => dec_value (acc * 10 + (code c - 48)) l' end.

Fixpoint hex_value_of (acc : Z) (l : list ascii) : option Z :=
  match l with
  | [] => Some acc
  | c :: l' => match hex_value c with Some d => hex_value_of (acc * 16 + d) l' | None => None end
  end.

(** One or more decimal digits. *)
Definition parse_digits (l : list ascii) : option Z :=
  match l with
  | [] => None
  | _ => if forallb is_digit l then Some (dec_value 0 l) else None
  end.

(** Digits after an 0o or 0b prefix. *)
Fixpoint radix_value (r acc : Z) (l : list ascii) : option Z :=
  match l with
  | [] => Some acc
  | c :: l' => if between 48 (47 + r) c then radix_value r (acc * r + (code c - 48)) l' else None
  end.

Definition nonempty {A} (l : list A) : bool := match l with [] => false | _ => true end.

(** StringToBigInt: surrounding white space is dropped, an empty string is 0,
    a radix prefix takes no sign. [None] is the SyntaxError. *)
Definition BigInt_of_string (s : string) : option Z :=
  match chars (trim s) with
  | [] => Some 0
  | c0 :: c1 :: l =>
      if (code c0 =? 48) && (code (lower c1) =? 120) then
        if nonempty l then hex_value_of 0 l else None
      else if (code c0 =? 48) && (code (lower c1) =? 111) then
        if nonempty l then radix_value 8 0 l else None
      else if (code c0 =? 48) && (code (lower c1) =? 98) then
        if nonempty l then radix_value 2 0 l else None
      else if code c0 =? 45 then option_map Z.opp (parse_digits (c1 :: l))
      else if code c0 =? 43 then parse_digits (c1 :: l)
      else parse_digits (c0 :: c1 :: l)
  | l => parse_digits l
  end.

(** [BigInt(s)]. *)
Definition BigInt (s : string) : result Z :=
  of_option (SyntaxError "Cannot convert to a BigInt") (BigInt_of_string s).

(** [z.toString()] of a BigInt. *)
Fixpoint dec_digits (fuel : nat) (z : Z) (acc : list ascii) : list ascii :=
  match fuel with
  | O => acc
  | S f =>
      let acc' := ascii_of_N (Z.to_N (48 + z mod 10)) :: acc in
      if z <? 10 then acc' else dec_digits f (z / 10) acc'
  end.

Definition toString (z : Z) : string :=
  let digits := dec_digits (S (Z.to_nat (Z.log2 (Z.abs z)))) (Z.abs z) [] in
  of_chars (if z <? 0 then ascii_of_N 45 :: digits else digits).

(** ** [BigInt] reads back what [toString] prints *)

Definition digit_char (n : Z) : ascii := ascii_of_N (Z.to_N (48 + n)).

Lemma code_digit_char n : 0 <= n < 10 -> code (digit_char n) = 48 + n.
Proof.
  intros H.
  assert (Hn : n ∈ seqZ 0 10) by (apply elem_of_seqZ; lia).
  clear H; revert n Hn. apply Forall_forall. by repeat constructor.
Qed.

Lemma dec_digits_value f z acc :
  0 <= z < 2 ^ Z.of_nat f -> dec_value 0 (dec_digits f z acc) = dec_value z acc.
Proof.
  revert z acc; induction f as [|f IH]; intros z acc Hz.
  { replace z with 0 by (simpl in Hz; lia). done. }
  rewrite Nat2Z.inj_succ, Z.pow_succ_r in Hz by lia.
  pose proof (Z.mod_pos_bound z 10 ltac:(lia)).
  cbn [dec_digits]. fold (digit_char (z mod 10)). destruct (Z.ltb_spec z 10).
  - cbn [dec_value]. rewrite code_digit_char by done. rewrite Z.mod_small by lia. f_equal. lia.
  - rewrite IH.
    + cbn [dec_value]. rewrite code_digit_char by done. f_equal.
      pose proof (Z_div_mod_eq_full z 10). lia.
    + split; [apply Z.div_pos; lia|apply Z.div_lt_upper_bound; lia].
Qed.

Lemma dec_digits_digits f z acc :
  0 <= z -> forallb is_digit acc = true -> forallb is_digit (dec_digits f z acc) = true.
Proof.
  revert z acc; induction f as [|f IH]; intros z acc Hz Hacc; [done|].
  pose proof (Z.mod_pos_bound z 10 ltac:(lia)).
  cbn [dec_digits]. fold (digit_char (z mod 10)).
  assert (Hd : forallb is_digit (digit_char (z mod 10) :: acc) = true).
  { cbn [forallb]. rewrite Hacc, andb_true_r. unfold is_digit, between.
    rewrite code_digit_char by done. apply andb_true_iff. split; apply Z.leb_le; lia. }
  destruct (z <? 10); [done|]. apply IH; [apply Z.div_pos; lia|done].
Qed.

Lemma dec_digits_nonempty f z acc : dec_digits (S f) z acc <> [].
Proof.
  revert z acc; induction f as [|f IH]; intros z acc.
  { cbn [dec_digits]. by destruct (z <? 10). }
  cbn [dec_digits]. destruct (z <? 10); [done|]. apply IH.
Qed.

Lemma is_digit_not_space c : is_digit c = true -> is_space c = false.
Proof.
  unfold is_digit, is_space, between. intros H%andb_true_iff. destruct H as [H1 H2].
  bool_simpl.
  repeat (apply orb_false_iff; split); first [apply Z.eqb_neq; lia|apply andb_false_iff].
  right. apply Z.leb_gt. lia.
Qed.

Definition no_space_ends (l : list ascii) : Prop :=
  forall c, (head l = Some c \/ last l = Some c) -> is_space c = false.

Lemma drop_spaces_head l : (forall c, head l = Some c -> is_space c = false) -> drop_spaces l = l.
Proof. destruct l as [|c l]; [done|]. intros H. simpl. by rewrite (H c). Qed.

Lemma trim_id l : no_space_ends l -> chars (trim (of_chars l)) = l.
Proof.
  intros H. unfold trim. rewrite !chars_of_chars.
  rewrite (drop_spaces_head l) by (intros c Hc; apply H; by left).
  rewrite drop_spaces_head; [by rewrite rev_involutive|].
  intros c Hc. apply H. right. by rewrite <- head_reverse; unfold reverse; rewrite <- rev_alt.
Qed.

Lemma digits_parse l : l <> [] -> forallb is_digit l = true -> parse_digits l = Some (dec_value 0 l).
Proof. destruct l as [|c l]; [done|]. intros _ H. unfold parse_digits. by rewrite H. Qed.

Lemma is_digit_code c : is_digit c = true -> 48 <= code c <= 57.
Proof. unfold is_digit, between. intros. bool_simpl. lia. Qed.

Lemma BigInt_digits l :
  l <> [] -> forallb is_digit l = true -> BigInt_of_string (of_chars l) = Some (dec_value 0 l).
Proof.
  intros Hne Hd. unfold BigInt_of_string.
  assert (Hall : forall c, c ∈ l -> is_digit c = true).
  { intros c Hc. rewrite forallb_forall in Hd. apply Hd. by apply list_elem_of_In. }
  rewrite trim_id.
  2: { intros c Hc. apply is_digit_not_space, Hall. destruct Hc as [Hc|Hc].
       - destruct l; simplify_eq/=. apply list_elem_of_here.
       - apply last_Some in Hc as [l' ->]. apply elem_of_app. right. apply list_elem_of_here. }
  destruct l as [|c0 [|c1 l]]; [done|by apply digits_parse|].
  assert (H0 := is_digit_code c0 (Hall c0 ltac:(apply list_elem_of_here))).
  assert (H1 := is_digit_code c1 (Hall c1 ltac:(apply list_elem_of_further, list_elem_of_here))).
  assert (Hl : lower c1 = c1).
  { unfold lower, between. destruct (Z.leb_spec 65 (code c1)); [lia|done]. }
  rewrite Hl.
  destruct (Z.eqb_spec (code c1) 120); [lia|]. destruct (Z.eqb_spec (code c1) 111); [lia|].
  destruct (Z.eqb_spec (code c1) 98); [lia|]. destruct (Z.eqb_spec (code c0) 45); [lia|].
  destruct (Z.eqb_spec (code c0) 43); [lia|].
  rewrite !andb_false_r. by apply digits_parse.
Qed.

Lemma fuel_enough z : 0 <= z -> z < 2 ^ Z.of_nat (S (Z.to_nat (Z.log2 z))).
Proof.
  intros Hz. rewrite Nat2Z.inj_succ, Z2Nat.id by apply Z.log2_nonneg.
  destruct (decide (z = 0)) as [->|]; [done|]. apply Z.log2_spec; lia.
Qed.

Theorem BigInt_toString z : BigInt_of_string (toString z) = Some z.
Proof.
  unfold toString. set (ds := dec_digits _ (Z.abs z) []).
  assert (Hne : ds <> []) by apply dec_digits_nonempty.
  assert (Hd : forallb is_digit ds = true) by (apply dec_digits_digits; [lia|done]).
  assert (Hv : dec_value 0 ds = Z.abs z).
  { unfold ds. rewrite dec_digits_value; [done|].
    split; [lia|]. apply fuel_enough; lia. }
  destruct (Z.ltb_spec z 0) as [Hz|Hz]; [|rewrite BigInt_digits by done; f_equal; lia].
  unfold BigInt_of_string. rewrite trim_id.
  2: { intros c [Hc|Hc]; [by simplify_eq/=|].
       destruct ds as [|d ds'] eqn:E; [done|]. rewrite last_cons_cons in Hc.
       apply last_Some in Hc as [l' Hl]. apply is_digit_not_space.
       rewrite Hl, forallb_app in Hd. apply andb_true_iff in Hd as [_ Hd].
       simpl in Hd. by rewrite andb_true_r in Hd. }
  destruct ds as [|d ds'] eqn:E; [done|].
  replace (code (ascii_of_N 45)) with 45 by done. cbn [andb].
  change (45 =? 48) with false. cbn [andb]. change (45 =? 45) with true.
  rewrite digits_parse by done. rewrite Hv. simpl. f_equal. lia.
Qed.

Lemma toString_inj a b : toString a = toString b -> a = b.
Proof. intros H. pose proof (BigInt_toString a) as Ha. rewrite H, BigInt_toString in Ha. congruence. Qed.

Lemma toString_ok z : BigInt (toString z) = Ok z.
Proof. unfold BigInt. by rewrite BigInt_toString. Qed.
