(* ===== verification/Edwards.v ===== *)
(** * The group law of complete twisted Edwards curves

    A generic theory used by [Accumulator.v]: over a field where [a] is a
    nonzero square and [d] is not a square, the addition law
    [((x1y2+y1x2)/(1+k), (y1y2-ax1x2)/(1-k))] with [k = d x1 x2 y1 y2] never
    divides by zero on the curve [a x^2 + y^2 = 1 + d x^2 y^2], and makes the
    curve a commutative group. Nothing here is specific to the program. *)

From Stdlib Require Import Field Ring.
From S2P Require Import Prelude.

Section Edwards.
Context {K : Type} (zero one : K) (add mul sub : K -> K -> K) (opp : K -> K)
  (div : K -> K -> K) (inv : K -> K).
Hypothesis K_field : field_theory zero one add mul sub opp div inv eq.
Hypothesis K_dec : forall x y : K, {x = y} + {x <> y}.

Add Field K_field : K_field.

Declare Scope K_scope.
Notation "x + y" := (add x y) : K_scope.
Notation "x * y" := (mul x y) : K_scope.
Notation "x - y" := (sub x y) : K_scope.
Notation "x / y" := (div x y) : K_scope.
Notation "- x" := (opp x) : K_scope.
Notation "0" := zero : K_scope.
Notation "1" := one : K_scope.
Local Open Scope K_scope.

Variables a d sqrt_a : K.
Hypothesis a_square : sqrt_a * sqrt_a = a.
Hypothesis a_nonzero : a <> 0.
Hypothesis d_nonsquare : forall t, t * t <> d.
Hypothesis two_nonzero : 1 + 1 <> 0.

Definition on_curve (P : K * K) : Prop :=
  d * P.1 * P.1 * P.2 * P.2 = a * P.1 * P.1 + P.2 * P.2 - 1.

Definition kfactor (P Q : K * K) : K := d * P.1 * Q.1 * P.2 * Q.2.

Definition eadd (P Q : K * K) : K * K :=
  ((P.1 * Q.2 + P.2 * Q.1) / (1 + kfactor P Q),
   (P.2 * Q.2 - a * P.1 * Q.1) / (1 - kfactor P Q)).

Definition eopp (P : K * K) : K * K := (- P.1, P.2).
Definition eid : K * K := (0, 1).

Lemma integral x y : x * y = 0 -> x = 0 \/ y = 0.
Proof.
  intros H. destruct (K_dec x 0) as [->|Hx]; [by left|right].
  transitivity (x * y / x); [by field|]. rewrite H. by field.
Qed.

Lemma mul_nonzero x y : x <> 0 -> y <> 0 -> x * y <> 0.
Proof. by intros Hx Hy [?|?]%integral. Qed.

Lemma sub_zero x y : x - y = 0 -> x = y.
Proof. intros H. transitivity (x - y + y); [ring|]. rewrite H. ring. Qed.

(** A product of the form [d * u^2 = w^2] needs [u = 0]. *)
Lemma d_times_square u w : d * (u * u) = w * w -> u = 0.
Proof.
  intros H. destruct (K_dec u 0) as [->|Hu]; [done|].
  exfalso. apply (d_nonsquare (w / u)).
  transitivity (w * w / (u * u)); [by field|]. rewrite <- H. by field.
Qed.

Lemma completeness_square P Q :
  on_curve P -> on_curve Q -> kfactor P Q * kfactor P Q <> 1.
Proof.
  destruct P as [x1 y1], Q as [x2 y2]; unfold on_curve, kfactor; simpl.
  intros H1 H2. set (e := d * x1 * x2 * y1 * y2). intros He.
  assert (Hk : d * (x1 * x1 * y1 * y1) * (a * x2 * x2 + y2 * y2)
               = a * x1 * x1 + y1 * y1).
  { transitivity (d * (x1 * x1 * y1 * y1) * (1 + (a * x2 * x2 + y2 * y2 - 1))); [ring|].
    rewrite <- H2.
    transitivity (d * x1 * x1 * y1 * y1 + e * e); [unfold e; ring|].
    rewrite He, H1. ring. }
  assert (Hplus : d * (x1 * y1 * (sqrt_a * x2 + y2) * (x1 * y1 * (sqrt_a * x2 + y2)))
                  = (sqrt_a * x1 + e * y1) * (sqrt_a * x1 + e * y1)).
  { transitivity (d * (x1 * x1 * y1 * y1) * (a * x2 * x2 + y2 * y2)
                  + (1 + 1) * sqrt_a * x1 * y1 * e);
      [rewrite <- a_square; unfold e; ring|].
    rewrite Hk. transitivity (a * x1 * x1 + e * e * y1 * y1 + (1 + 1) * sqrt_a * x1 * y1 * e);
      [rewrite He; ring|rewrite <- a_square; ring]. }
  assert (Hminus : d * (x1 * y1 * (sqrt_a * x2 - y2) * (x1 * y1 * (sqrt_a * x2 - y2)))
                  = (sqrt_a * x1 - e * y1) * (sqrt_a * x1 - e * y1)).
  { transitivity (d * (x1 * x1 * y1 * y1) * (a * x2 * x2 + y2 * y2)
                  - (1 + 1) * sqrt_a * x1 * y1 * e);
      [rewrite <- a_square; unfold e; ring|].
    rewrite Hk. transitivity (a * x1 * x1 + e * e * y1 * y1 - (1 + 1) * sqrt_a * x1 * y1 * e);
      [rewrite He; ring|rewrite <- a_square; ring]. }
  apply d_times_square in Hplus, Hminus.
  assert (Hxy : e = 0).
  { destruct (integral _ _ Hplus) as [H|Hp].
    { unfold e. transitivity (d * (x1 * y1) * x2 * y2); [ring|]. rewrite H. ring. }
    destruct (integral _ _ Hminus) as [H|Hm].
    { unfold e. transitivity (d * (x1 * y1) * x2 * y2); [ring|]. rewrite H. ring. }
    assert (Hy : (1 + 1) * y2 = 0).
    { transitivity (sqrt_a * x2 + y2 - (sqrt_a * x2 - y2)); [ring|].
      rewrite Hp, Hm. ring. }
    destruct (integral _ _ Hy) as [?|Hy2]; [done|].
    unfold e. rewrite Hy2. ring. }
  rewrite Hxy in He. apply two_nonzero.
  transitivity ((1 + 1) * 1); [ring|]. rewrite <- He. ring.
Qed.

(** Completeness: neither denominator of the addition law vanishes. *)
Lemma complete_plus P Q : on_curve P -> on_curve Q -> 1 + kfactor P Q <> 0.
Proof.
  intros HP HQ H. apply (completeness_square P Q HP HQ).
  transitivity ((1 + kfactor P Q) * (kfactor P Q - 1) + 1); [ring|]. rewrite H. ring.
Qed.

Lemma complete_minus P Q : on_curve P -> on_curve Q -> 1 - kfactor P Q <> 0.
Proof.
  intros HP HQ H. apply (completeness_square P Q HP HQ).
  transitivity ((1 - kfactor P Q) * (- kfactor P Q - 1) + 1); [ring|]. rewrite H. ring.
Qed.

Lemma on_curve_eid : on_curve eid.
Proof. unfold on_curve, eid; simpl. ring. Qed.

Lemma on_curve_eopp P : on_curve P -> on_curve (eopp P).
Proof.
  unfold on_curve, eopp; destruct P as [x y]; simpl. intros H.
  transitivity (d * x * x * y * y); [ring|]. rewrite H. ring.
Qed.

Lemma on_curve_eadd P Q : on_curve P -> on_curve Q -> on_curve (eadd P Q).
Proof.
  intros HP HQ.
  pose proof (complete_plus P Q HP HQ) as Hp.
  pose proof (complete_minus P Q HP HQ) as Hm.
  destruct P as [x1 y1], Q as [x2 y2];
    unfold on_curve, eadd, kfactor in *; simpl in *.
  field [HP HQ]. by split.
Qed.

Lemma eadd_comm P Q : eadd P Q = eadd Q P.
Proof. unfold eadd, kfactor. f_equal; f_equal; ring. Qed.

Lemma eadd_id_l P : eadd eid P = P.
Proof.
  destruct P as [x y]; unfold eadd, kfactor, eid; simpl.
  assert (H0 : d * 0 * x * 1 * y = 0) by ring. rewrite H0.
  assert (1 <> 0) by (intros H; apply two_nonzero; rewrite H; ring).
  assert (1 + 0 <> 0) by (intros H'; apply H; rewrite <- H'; ring).
  assert (1 - 0 <> 0) by (intros H'; apply H; rewrite <- H'; ring).
  f_equal; field; done.
Qed.

Lemma eadd_id_r P : eadd P eid = P.
Proof. by rewrite eadd_comm, eadd_id_l. Qed.

Lemma eadd_opp P : on_curve P -> eadd P (eopp P) = eid.
Proof.
  intros HP. pose proof (on_curve_eopp P HP) as HQ.
  pose proof (complete_plus P _ HP HQ) as Hp.
  pose proof (complete_minus P _ HP HQ) as Hm.
  destruct P as [x y]; unfold eadd, kfactor, eid, eopp, on_curve in *; simpl in *.
  f_equal; [by field|]. field_simplify_eq; [|done].
  transitivity (d * x * x * y * y + 1); [rewrite HP; ring|ring].
Qed.

Lemma denom_triple P Q R : on_curve P -> on_curve Q -> on_curve R ->
  let k := kfactor P Q in
  let n := d * (P.1 * Q.2 + P.2 * Q.1) * R.1 * (P.2 * Q.2 - a * P.1 * Q.1) * R.2 in
  (1 + k) * (1 - k) + n <> 0 /\ (1 + k) * (1 - k) - n <> 0.
Proof.
  intros HP HQ HR k n.
  pose proof (complete_plus P Q HP HQ) as Hp.
  pose proof (complete_minus P Q HP HQ) as Hm.
  pose proof (complete_plus _ R (on_curve_eadd P Q HP HQ) HR) as Hp'.
  pose proof (complete_minus _ R (on_curve_eadd P Q HP HQ) HR) as Hm'.
  fold k in Hp, Hm.
  assert (Hk : kfactor (eadd P Q) R = n / ((1 + k) * (1 - k))).
  { unfold kfactor at 1, eadd; simpl. fold k. unfold n. field. by split. }
  rewrite Hk in Hp', Hm'.
  split; intros H.
  - apply Hp'. transitivity (((1 + k) * (1 - k) + n) / ((1 + k) * (1 - k)));
      [field; by split|]. rewrite H. field. by split.
  - apply Hm'. transitivity (((1 + k) * (1 - k) - n) / ((1 + k) * (1 - k)));
      [field; by split|]. rewrite H. field. by split.
Qed.

Lemma nonzero_ext x y : x <> 0 -> x = y -> y <> 0.
Proof. by intros H <-. Qed.

Lemma eadd_assoc P Q R : on_curve P -> on_curve Q -> on_curve R ->
  eadd (eadd P Q) R = eadd P (eadd Q R).
Proof.
  intros HP HQ HR.
  pose proof (complete_plus P Q HP HQ) as H1.
  pose proof (complete_minus P Q HP HQ) as H2.
  pose proof (complete_plus Q R HQ HR) as H3.
  pose proof (complete_minus Q R HQ HR) as H4.
  destruct (denom_triple P Q R HP HQ HR) as [H5 H6].
  destruct (denom_triple Q R P HQ HR HP) as [H7 H8].
  destruct P as [x1 y1], Q as [x2 y2], R as [x3 y3];
    unfold on_curve, eadd, kfactor in *; simpl in *.
  f_equal; field [HP HQ HR]; repeat split; try done;
    first [ refine (nonzero_ext _ _ H5 _); ring | refine (nonzero_ext _ _ H6 _); ring
          | refine (nonzero_ext _ _ H7 _); ring | refine (nonzero_ext _ _ H8 _); ring ].
Qed.

(** ** Multiples of a point *)

Fixpoint etimes (n : nat) (P : K * K) : K * K :=
  match n with O => eid | S n => eadd P (etimes n P) end.

Lemma on_curve_etimes n P : on_curve P -> on_curve (etimes n P).
Proof.
  intros HP. induction n as [|n IH]; simpl; [apply on_curve_eid|].
  by apply on_curve_eadd.
Qed.

Lemma etimes_add n m P : on_curve P -> etimes (n + m)%nat P = eadd (etimes n P) (etimes m P).
Proof.
  intros HP. induction n as [|n IH]; simpl; [by rewrite eadd_id_l|].
  rewrite IH. symmetry. apply eadd_assoc; auto using on_curve_etimes.
Qed.

Lemma etimes_double n P : on_curve P -> etimes n (eadd P P) = etimes (2 * n)%nat P.
Proof.
  intros HP. induction n as [|n IH]; [done|].
  replace (2 * S n)%nat with (S (S (2 * n))) by lia. simpl etimes. rewrite IH.
  apply eadd_assoc; auto using on_curve_etimes.
Qed.

Lemma etimes_1 P : etimes 1 P = P.
Proof. simpl. apply eadd_id_r. Qed.

Lemma eadd_swap P Q R S :
  on_curve P -> on_curve Q -> on_curve R -> on_curve S ->
  eadd (eadd P Q) (eadd R S) = eadd (eadd P R) (eadd Q S).
Proof.
  intros. rewrite !eadd_assoc by auto using on_curve_eadd. f_equal.
  rewrite <- !eadd_assoc by auto using on_curve_eadd.
  by rewrite (eadd_comm Q R).
Qed.
End Edwards.
