(* ===== verification/Tonelli.v ===== *)
(** * Square roots modulo the field order

    [sqrt] of [src/longjing/accumulator.ts] (Tonelli-Shanks). Its four loops
    carry fuel; [sqrt_correct] shows that the fuel is always enough and that
    the answer is a root exactly when there is one. *)

From Stdlib Require Import Field Ring Zmod ZmodInv.
From S2P Require Import Prelude Field.
Open Scope Z_scope.

(** ** Square roots (Tonelli-Shanks) *)

(** [while (!(q & 1n)) { q >>= 1n; s++ }]. *)
Fixpoint split_twos (fuel : nat) (q s : Z) : option (Z * Z) :=
  match fuel with
  | O => None
  | S f => if Z.land q 1 =? 0 then split_twos f (Z.shiftr q 1) (s + 1) else Some (q, s)
  end.

(** [while (pow(z, (p - 1) / 2) === 1n) z++]. *)
Fixpoint find_nonresidue (fuel : nat) (z : Z) : option Z :=
  match fuel with
  | O => None
  | S f => if pow z ((FIELD_MODULUS - 1) / 2) =? 1 then find_nonresidue f (z + 1) else Some z
  end.

(** [while (t2 !== 1n) { t2 = t2 * t2 % p; i++ }]. *)
Fixpoint order_exponent (fuel : nat) (t2 i : Z) : option Z :=
  match fuel with
  | O => None
  | S f => if t2 =? 1 then Some i
           else order_exponent f (Z.rem (t2 * t2) FIELD_MODULUS) (i + 1)
  end.

(** The main loop: [None] when a loop runs out of fuel. *)
Fixpoint tonelli_loop (fuel : nat) (m c t r : Z) : option Z :=
  match fuel with
  | O => None
  | S f =>
      if t =? 1 then Some r
      else
        match order_exponent fuel t 0 with
        | None => None
        | Some i =>
            let b := pow c (Z.shiftl 1 (m - i - 1)) in
            let c' := Z.rem (b * b) FIELD_MODULUS in
            tonelli_loop f i c' (Z.rem (t * c') FIELD_MODULUS) (Z.rem (r * b) FIELD_MODULUS)
        end
  end.

(** The inner [option] is the code's [bigint | undefined]. *)
Definition sqrt_run (fuel : nat) (x : Z) : option (option Z) :=
  let n := mod_p x in
  if n =? 0 then Some (Some 0)
  else if negb (pow n ((FIELD_MODULUS - 1) / 2) =? 1) then Some None
  else
    '(q, s) ← split_twos fuel (FIELD_MODULUS - 1) 0;
    z ← find_nonresidue fuel 2;
    r ← tonelli_loop fuel s (pow z q) (pow n q) (pow n ((q + 1) / 2));
    Some (Some r).

Definition SQRT_FUEL : nat := 300.

Definition sqrt (x : Z) : option Z :=
  match sqrt_run SQRT_FUEL x with Some o => o | None => None end.


(** ** The loops on their own *)

Lemma split_twos_spec f q s :
  0 < q < 2 ^ Z.of_nat f -> 0 <= s ->
  exists q' s', split_twos (S f) q s = Some (q', s') /\ s <= s' /\ q = q' * 2 ^ (s' - s)
    /\ Z.odd q' = true /\ 0 < q'.
Proof.
  revert q s; induction f as [|f IH]; intros q s Hq Hs.
  { exfalso. simpl in Hq. lia. }
  remember (S f) as f1. cbn [split_twos].
  assert (Hland : Z.land q 1 = Z.b2z (Z.testbit q 0)).
  { change 1 with (Z.ones 1). rewrite Z.land_ones, Z.bit0_mod by lia. done. }
  rewrite Hland. destruct (Z.testbit q 0) eqn:E; simpl.
  - exists q, s. rewrite Z.sub_diag. rewrite <- Z.bit0_odd. repeat split; try lia; try done.
  - subst f1. assert (Hdiv : q = 2 * Z.shiftr q 1).
    { rewrite Z.shiftr_div_pow2, Z.pow_1_r by lia.
      rewrite Z.bit0_odd in E. pose proof (Z_div_mod_eq_full q 2).
      rewrite Zmod_odd, E in H. lia. }
    rewrite Nat2Z.inj_succ, Z.pow_succ_r in Hq by lia.
    destruct (IH (Z.shiftr q 1) (s + 1)) as (q' & s' & -> & Hs' & Hq' & Ho & Hp); [lia..|].
    exists q', s'. repeat split; try done; [lia|].
    rewrite Hdiv, Hq'. replace (s' - s) with (Z.succ (s' - (s + 1))) by lia.
    rewrite Z.pow_succ_r by lia. ring.
Qed.

Lemma split_twos_enough f q s :
  (0 < f)%nat -> 0 < q < 2 ^ Z.of_nat (f - 1) -> 0 <= s ->
  exists q' s', split_twos f q s = Some (q', s') /\ s <= s' /\ q = q' * 2 ^ (s' - s)
    /\ Z.odd q' = true /\ 0 < q'.
Proof.
  destruct f as [|f]; [lia|]. intros _ Hq. rewrite Nat.sub_1_r in Hq. by apply split_twos_spec.
Qed.

Lemma find_nonresidue_spec f : (4 <= f)%nat ->
  exists z, find_nonresidue f 2 = Some z /\ 2 <= z <= 5 /\ pow z HALF <> 1.
Proof.
  intros Hf. do 4 (destruct f as [|f]; [lia|]). cbn [find_nonresidue].
  rewrite HALF_eq. change (2 + 1) with 3. change (3 + 1) with 4. change (4 + 1) with 5.
  destruct (Z.eqb_spec (pow 2 HALF) 1); [|exists 2; repeat split; (done || lia)].
  destruct (Z.eqb_spec (pow 3 HALF) 1); [|exists 3; repeat split; (done || lia)].
  destruct (Z.eqb_spec (pow 4 HALF) 1); [|exists 4; repeat split; (done || lia)].
  pose proof FIELD_MODULUS_gt.
  rewrite pow_5_half. destruct (Z.eqb_spec (FIELD_MODULUS - 1) 1); [lia|].
  exists 5. rewrite pow_5_half. repeat split; (done || lia).
Qed.

Lemma two_pow_nonneg k : 0 <= 2 ^ k.
Proof. apply Z.pow_nonneg. lia. Qed.

Lemma F_square_pow (x : F) k : 0 <= k -> ((x * x) ^ (2 ^ k))%F = (x ^ (2 ^ (k + 1)))%F.
Proof.
  intros Hk. rewrite <- Zmod.pow_2_r, <- Zmod.pow_mul_r_nonneg by (lia || apply two_pow_nonneg).
  f_equal. rewrite Z.pow_add_r, Z.pow_1_r by lia. ring.
Qed.

Lemma F_is_one x : 0 <= x < FIELD_MODULUS -> (x =? 1) = true <-> toF x = 1%F.
Proof.
  intros Hx. pose proof FIELD_MODULUS_gt. rewrite Z.eqb_eq, <- toF_one. split; [by intros ->|].
  intros E. apply F_eq_small in E; lia.
Qed.

Lemma rem_square_F x y : 0 <= x -> 0 <= y ->
  0 <= Z.rem (x * y) FIELD_MODULUS < FIELD_MODULUS
  /\ toF (Z.rem (x * y) FIELD_MODULUS) = (toF x * toF y)%F.
Proof.
  intros Hx Hy. pose proof FIELD_MODULUS_gt. rewrite rem_mul_nonneg by done. split.
  - apply Z.mod_pos_bound; lia.
  - by rewrite Zmod.of_Z_mod, Zmod.of_Z_mul.
Qed.

(** The inner loop finds the least [j] with [t^(2^j) = 1]. *)
Lemma order_exponent_spec (bound : nat) f t i :
  0 <= t < FIELD_MODULUS -> (bound < f)%nat ->
  (toF t ^ (2 ^ Z.of_nat bound))%F = 1%F ->
  exists j, order_exponent f t i = Some (i + j) /\ 0 <= j <= Z.of_nat bound
    /\ (toF t ^ (2 ^ j))%F = 1%F /\ (0 < j -> (toF t ^ (2 ^ (j - 1)))%F <> 1%F).
Proof.
  revert f t i; induction bound as [|n IH]; intros f t i Ht Hf H1;
    (destruct f as [|f]; [lia|]); cbn [order_exponent].
  - rewrite Z.pow_0_r, Zmod.pow_1_r in H1. rewrite (proj2 (F_is_one t Ht) H1).
    exists 0. rewrite Z.add_0_r, Z.pow_0_r, Zmod.pow_1_r. repeat split; (done || lia).
  - destruct (t =? 1) eqn:E.
    { apply F_is_one in E; [|done]. exists 0.
      rewrite Z.add_0_r, Z.pow_0_r, Zmod.pow_1_r. repeat split; (done || lia). }
    destruct (rem_square_F t t) as [Hr HrF]; [lia..|].
    destruct (IH f (Z.rem (t * t) FIELD_MODULUS) (i + 1)) as (j & -> & Hj & Hj1 & Hj2); [done|lia| |].
    { rewrite HrF, F_square_pow by lia. by rewrite Nat2Z.inj_succ in H1. }
    exists (j + 1). rewrite HrF, F_square_pow in Hj1 by lia.
    repeat split; try lia; [f_equal; lia|done|].
    intros _. replace (j + 1 - 1) with j by lia.
    destruct (decide (j = 0)) as [->|Hn].
    + rewrite Z.pow_0_r, Zmod.pow_1_r. intros H. apply (F_is_one t Ht) in H. congruence.
    + specialize (Hj2 ltac:(lia)). rewrite HrF, F_square_pow in Hj2 by lia.
      by replace (j - 1 + 1) with j in Hj2 by lia.
Qed.

Add Field F_field_tonelli : F_field_theory.

(** The loop invariant of the main loop, and what it returns. *)
Lemma tonelli_loop_spec (k : nat) f m c t r (n : F) :
  m = Z.of_nat k + 1 -> (k + 1 < f)%nat ->
  0 <= c < FIELD_MODULUS -> 0 <= t < FIELD_MODULUS -> 0 <= r < FIELD_MODULUS ->
  (toF c ^ (2 ^ (m - 1)))%F = (- (1))%F ->
  (toF t ^ (2 ^ (m - 1)))%F = 1%F ->
  (toF r * toF r)%F = (n * toF t)%F ->
  exists r', tonelli_loop f m c t r = Some r' /\ 0 <= r' < FIELD_MODULUS
    /\ (toF r' * toF r')%F = n.
Proof.
  revert f m c t r.
  induction (lt_wf k) as [k _ IH]; intros f m c t r Hm Hf Hc Ht Hr HcP HtP Hrr.
  destruct f as [|f]; [lia|]. cbn [tonelli_loop].
  destruct (t =? 1) eqn:Et.
  { apply F_is_one in Et; [|done]. exists r. split; [done|]. split; [done|].
    rewrite Hrr, Et. ring. }
  assert (Hmk : m - 1 = Z.of_nat k) by lia. rewrite Hmk in HcP, HtP.
  destruct (order_exponent_spec k (S f) t 0 Ht ltac:(lia) HtP) as (i & -> & Hi & Hi1 & Hi2).
  rewrite Z.add_0_l.
  assert (Hi0 : 0 < i).
  { destruct (decide (i = 0)) as [->|]; [|lia]. exfalso.
    rewrite Z.pow_0_r, Zmod.pow_1_r in Hi1. apply F_is_one in Hi1; [congruence|done]. }
  specialize (Hi2 Hi0).
  rewrite Z.shiftl_mul_pow2, Z.mul_1_l by lia.
  set (b := pow c (2 ^ (m - i - 1))). pose proof (pow_range c (2 ^ (m - i - 1))) as Hb. fold b in Hb.
  destruct (rem_square_F b b) as [Hc' Hc'F]; [lia..|].
  destruct (rem_square_F t (Z.rem (b * b) FIELD_MODULUS)) as [Ht' Ht'F]; [lia..|].
  destruct (rem_square_F r b) as [Hr' Hr'F]; [lia..|].
  assert (HbF : toF b = (toF c ^ (2 ^ (m - i - 1)))%F) by (apply F_pow, two_pow_nonneg).
  assert (Hc2 : ((toF b * toF b) ^ (2 ^ (i - 1)))%F = (- (1))%F).
  { rewrite F_square_pow, HbF by lia. rewrite <- Zmod.pow_mul_r_nonneg by apply two_pow_nonneg.
    rewrite <- Z.pow_add_r by lia. rewrite <- HcP. f_equal. f_equal. lia. }
  apply (IH (Z.to_nat (i - 1))); try done; try lia.
  - by rewrite Hc'F.
  - rewrite Ht'F, Hc'F, Zmod.pow_mul_l_nonneg, Hc2 by apply two_pow_nonneg.
    assert (Hsq : (toF t ^ (2 ^ (i - 1)) * toF t ^ (2 ^ (i - 1)))%F = 1%F).
    { rewrite <- Hi1, <- Zmod.pow_2_r, <- Zmod.pow_mul_r_nonneg by (lia || apply two_pow_nonneg).
      f_equal. replace (2 ^ i) with (2 ^ (i - 1 + 1)) by (f_equal; lia).
      rewrite Z.pow_add_r, Z.pow_1_r by lia. ring. }
    apply F_square_one in Hsq as [?|Hsq]; [done|]. rewrite Hsq. ring.
  - rewrite Hr'F, Ht'F, Hc'F.
    transitivity ((toF r * toF r) * (toF b * toF b))%F; [ring|]. rewrite Hrr. ring.
Qed.

(** ** [sqrt] returns, and returns a root exactly when there is one *)

Lemma pow_half_one_iff n : 0 < n < FIELD_MODULUS -> pow n HALF = 1 <-> (toF n ^ HALF)%F = 1%F.
Proof.
  intros Hn. pose proof HALF_pos. rewrite <- F_pow by lia.
  rewrite <- (F_is_one _ (pow_range n HALF)). by rewrite Z.eqb_eq.
Qed.

Lemma pow_half_square x n : 0 < n < FIELD_MODULUS -> (toF x * toF x)%F = toF n -> pow n HALF = 1.
Proof.
  intros Hn Hx. apply pow_half_one_iff; [done|]. rewrite <- Hx. apply F_euler_square.
  intros H. rewrite H, Zmod.mul_0_l in Hx. symmetry in Hx. apply toF_eq_0 in Hx.
  rewrite mod_p_small in Hx; lia.
Qed.

Lemma FIELD_MODULUS_lt_255 : FIELD_MODULUS - 1 < 2 ^ 255.
Proof. by vm_compute. Qed.

Lemma FIELD_MODULUS_lt n : (255 <= n)%nat -> FIELD_MODULUS - 1 < 2 ^ Z.of_nat n.
Proof.
  intros Hn. apply (Z.lt_le_trans _ _ _ FIELD_MODULUS_lt_255). apply Z.pow_le_mono_r; lia.
Qed.

Lemma FIELD_MODULUS_valuation q s : 0 < q -> Z.odd q = true -> FIELD_MODULUS - 1 = q * 2 ^ s ->
  0 < s -> s <= 254.
Proof.
  intros Hq Ho E Hs. pose proof FIELD_MODULUS_lt_255.
  destruct (Z.le_gt_cases s 254); [done|].
  assert (2 ^ 255 <= 2 ^ s) by (apply Z.pow_le_mono_r; lia). nia.
Qed.

Lemma sqrt_run_correct fuel x : (300 <= fuel)%nat ->
  exists o, sqrt_run fuel x = Some o /\
    match o with
    | Some r => 0 <= r < FIELD_MODULUS /\ (toF r * toF r)%F = toF x
    | None => forall y, (toF y * toF y)%F <> toF x
    end.
Proof.
  intros Hfuel. pose proof FIELD_MODULUS_gt as Hbig. pose proof HALF_pos as HH. pose proof HALF_double as HD.
  unfold sqrt_run. pose proof (mod_p_range x) as Hn. rewrite <- (F_mod_p x).
  set (n := mod_p x) in *. clearbody n. clear x. rewrite HALF_eq.
  destruct (Z.eqb_spec n 0) as [->|Hn0].
  { exists (Some 0). split; [done|]. split; [lia|]. by rewrite toF_zero, Zmod.mul_0_l. }
  destruct (Z.eqb_spec (pow n HALF) 1) as [Hh|Hh]; cbn [negb].
  2: { exists None. split; [done|]. intros y Hy. exact (Hh (pow_half_square y n ltac:(lia) Hy)). }
  destruct (split_twos_enough fuel (FIELD_MODULUS - 1) 0) as (q & s & Hsp & Hs & Hqs & Ho & Hq);
    [lia|split; [lia|apply FIELD_MODULUS_lt; lia]|lia|].
  rewrite Hsp. cbn [mbind option_bind].
  destruct (find_nonresidue_spec fuel ltac:(lia)) as (z & -> & Hz & Hz1).
  cbn [mbind option_bind]. rewrite Z.sub_0_r in Hqs.
  assert (Hs0 : 0 < s).
  { destruct (decide (s = 0)) as [->|]; [|lia]. exfalso.
    rewrite Z.pow_0_r, Z.mul_1_r in Hqs. rewrite <- Hqs, <- HD, Z.odd_mul in Ho. done. }
  pose proof (FIELD_MODULUS_valuation q s Hq Ho Hqs Hs0) as Hs254.
  assert (Hqh : q * 2 ^ (s - 1) = HALF).
  { assert (2 * (q * 2 ^ (s - 1)) = q * 2 ^ s); [|lia].
    replace s with (s - 1 + 1) at 2 by lia. rewrite Z.pow_add_r, Z.pow_1_r by lia. ring. }
  assert (Hraise : forall w, 0 <= w < FIELD_MODULUS ->
            (toF (pow w q) ^ (2 ^ (s - 1)))%F = (toF w ^ HALF)%F).
  { intros w Hw. rewrite F_pow by lia.
    rewrite <- Zmod.pow_mul_r_nonneg by (lia || apply two_pow_nonneg). by rewrite Hqh. }
  destruct (tonelli_loop_spec (Z.to_nat (s - 1)) fuel s (pow z q) (pow n q)
              (pow n ((q + 1) / 2)) (toF n)) as (r & -> & Hr & Hrr);
    try apply pow_range; try lia.
  - rewrite Hraise by lia.
    assert (Hsq : (toF z ^ HALF * toF z ^ HALF)%F = 1%F).
    { rewrite <- Zmod.pow_mul_l_nonneg by lia. apply F_euler_square.
      intros Hz0%toF_eq_0. rewrite mod_p_small in Hz0; lia. }
    apply F_square_one in Hsq as [Hsq|Hsq]; [|done].
    by destruct (Hz1 (proj2 (pow_half_one_iff z ltac:(lia)) Hsq)).
  - rewrite Hraise by lia. exact (proj1 (pow_half_one_iff n ltac:(lia)) Hh).
  - assert (Hq2 : 2 * ((q + 1) / 2) = q + 1).
    { pose proof (Z_div_mod_eq_full (q + 1) 2). rewrite Zmod_odd, Z.odd_add, Ho in H.
      simpl in H. lia. }
    rewrite !F_pow by lia. transitivity (toF n ^ (2 * ((q + 1) / 2)))%F.
    + rewrite (Z.mul_comm 2), Zmod.pow_mul_r_nonneg by lia. rewrite Zmod.pow_2_r. reflexivity.
    + rewrite Hq2. replace (q + 1) with (Z.succ q) by lia.
      by rewrite Zmod.pow_succ_nonneg_r by lia.
  - exists (Some r). split; [reflexivity|]. split; [exact Hr|exact Hrr].
Qed.

Lemma sqrt_Some x r : sqrt x = Some r -> 0 <= r < FIELD_MODULUS /\ (toF r * toF r)%F = toF x.
Proof.
  unfold sqrt. generalize SQRT_FUEL (le_n SQRT_FUEL : (300 <= SQRT_FUEL)%nat).
  intros fuel Hf. destruct (sqrt_run_correct fuel x Hf) as (o & -> & Ho). by intros ->.
Qed.

Lemma sqrt_None x : sqrt x = None -> forall y, (toF y * toF y)%F <> toF x.
Proof.
  unfold sqrt. generalize SQRT_FUEL (le_n SQRT_FUEL : (300 <= SQRT_FUEL)%nat).
  intros fuel Hf. destruct (sqrt_run_correct fuel x Hf) as (o & -> & Ho). by intros ->.
Qed.

(** ** Properties *)

(** C34: [sqrt] terminates within its fuel on every input, and answers a reduced
    square root exactly when one exists. *)
Theorem sqrt_correct fuel x : (300 <= fuel)%nat ->
  exists o, sqrt_run fuel x = Some o /\
    match o with
    | Some r => 0 <= r < FIELD_MODULUS /\ mod_p (r * r) = mod_p x
    | None => forall y, mod_p (y * y) <> mod_p x
    end.
Proof.
  intros Hf. destruct (sqrt_run_correct fuel x Hf) as (o & -> & Ho).
  exists o. split; [reflexivity|]. destruct o as [r|].
  - destruct Ho as [Hr Hrr]. split; [exact Hr|]. apply F_eq_iff. by rewrite Zmod.of_Z_mul.
  - intros y Hy. apply (Ho y). rewrite <- Zmod.of_Z_mul. by apply F_eq_iff.
Qed.

Lemma sqrt_correct_witness : exists o, sqrt_run 300 4 = Some o.
Proof. destruct (sqrt_correct 300 4 (le_n 300)) as (o & H & _). exists o. exact H. Defined.

#[global] Opaque sqrt.
