(* ===== verification/Accumulator.v ===== *)
(** * Baby Jubjub and the refund accumulator

    [src/longjing/accumulator.ts]: point addition and double-and-add, the
    Tonelli-Shanks square root, hashing to the curve, the generators and the
    accumulator [A = R G + m J + c K + s H] with its openings. SHA-256 is a
    parameter. The group law comes from [Edwards.v], read in [Zmod p]. *)

From Stdlib Require Import Field Ring Zmod ZmodInv.
From S2P Require Import Prelude Field JsText Edwards Tonelli.
Open Scope Z_scope.

(** ** Constants and points *)

Definition SUBGROUP_ORDER : Z :=
  2736030358979909402780800718157159386076813972158567259200215660948447373041.

Definition curve_A : Z := 168700.
Definition curve_D : Z := 168696.
Definition COFACTOR : Z := 8.

Definition Point : Type := (Z * Z)%type.

Definition IDENTITY : Point := (0, 1).

Definition addPoints (p q : Point) : Point :=
  let '(x1, y1) := p in
  let '(x2, y2) := q in
  let k := mod_p (curve_D * x1 * x2 * y1 * y2) in
  (mod_p ((x1 * y2 + y1 * x2) * inv (1 + k)),
   mod_p ((y1 * y2 - curve_A * x1 * x2) * inv (1 - k))).

(** The loop of [mulPoint], one constructor of the scalar per iteration. *)
Fixpoint mul_loop (e : positive) (result base : Point) : Point :=
  match e with
  | xH => addPoints result base
  | xO e' => mul_loop e' result (addPoints base base)
  | xI e' => mul_loop e' (addPoints result base) (addPoints base base)
  end.

Definition mulPoint (p : Point) (scalar : Z) : Point :=
  match scalar with
  | Z.pos e => mul_loop e IDENTITY p
  | _ => IDENTITY
  end.

Definition isOnCurve (p : Point) : bool :=
  let '(x, y) := p in
  mod_p (curve_A * x * x + y * y) =? mod_p (1 + curve_D * x * x * y * y).

Definition isIdentity (p : Point) : bool :=
  let '(x, y) := p in (x =? 0) && (y =? 1).

Definition inSubgroup (p : Point) : bool :=
  isOnCurve p && isIdentity (mulPoint p SUBGROUP_ORDER).

(** ** Generators *)

Section Hashing.
Variable sha256 : list byte -> list byte.

(** One iteration of the loop of [hashToCurve]; [None] is [continue]. *)
Definition hash_candidate (seed : string) (counter : Z) : result (option Point) :=
  let digest := to_hex (sha256 (Buffer_from seed ++ be_bytes 4 counter)) in
  let* h := BigInt ("0x" +:+ digest) in
  let x := mod_p h in
  match sqrt ((1 - curve_A * x * x) * inv (1 - curve_D * x * x)) with
  | None => Ok None
  | Some y =>
      let point := mulPoint (x, if y <? FIELD_MODULUS - y then y else FIELD_MODULUS - y) COFACTOR in
      Ok (if isIdentity point then None else Some point)
  end.

(** [writeUInt32BE] throws when the counter leaves 32 bits. *)
Fixpoint hash_from (fuel : nat) (seed : string) (counter : Z) : option (result Point) :=
  match fuel with
  | O => None
  | S f =>
      if 2 ^ 32 <=? counter then Some (Throw (RangeError "ERR_OUT_OF_RANGE"))
      else
        match hash_candidate seed counter with
        | Throw e => Some (Throw e)
        | Ok (Some point) => Some (Ok point)
        | Ok None => hash_from f seed (counter + 1)
        end
  end.

Definition hashToCurve (fuel : nat) (seed : string) : option (result Point) :=
  hash_from fuel seed 0.
End Hashing.

Definition SEED_G : string := "longjing/accumulator/G".
Definition SEED_J : string := "longjing/accumulator/J".
Definition SEED_K : string := "longjing/accumulator/K".
Definition SEED_H : string := "longjing/accumulator/H".

Record Generators : Type := { gen_G : Point; gen_J : Point; gen_K : Point; gen_H : Point }.

Definition accumulatorGenerators (sha256 : list byte -> list byte) (fuel : nat)
  : option (result Generators) :=
  match hashToCurve sha256 fuel SEED_G, hashToCurve sha256 fuel SEED_J,
        hashToCurve sha256 fuel SEED_K, hashToCurve sha256 fuel SEED_H with
  | Some g, Some j, Some k, Some h =>
      Some (let* g := g in let* j := j in let* k := k in let* h := h in
            Ok {| gen_G := g; gen_J := j; gen_K := k; gen_H := h |})
  | _, _, _, _ => None
  end.

(** ** Openings *)

Record Opening : Type := { refunds : Z; index : Z; commitment : Z; blinding : Z }.

Definition commit (gens : Generators) (o : Opening) : Point :=
  addPoints
    (addPoints
      (addPoints (mulPoint (gen_G gens) (refunds o)) (mulPoint (gen_J gens) (index o)))
      (mulPoint (gen_K gens) (commitment o)))
    (mulPoint (gen_H gens) (blinding o)).

Definition genesis (gens : Generators) (c : Z) : Point :=
  commit gens {| refunds := 0; index := 0; commitment := c; blinding := 0 |}.

Definition rerandomize (gens : Generators) (accumulator : Point) (s : Z) : Point :=
  addPoints accumulator (mulPoint (gen_H gens) s).

Definition applyRefund (gens : Generators) (accumulator : Point) (refund : Z) : Point :=
  addPoints (addPoints accumulator (mulPoint (gen_G gens) refund)) (gen_J gens).

(** ** The curve in [F] *)

Arguments addPoints : simpl never.
Arguments curve_A : simpl never.
Arguments curve_D : simpl never.

Abbreviation Fadd := (eadd Zmod.one (@Zmod.add FIELD_MODULUS) Zmod.mul Zmod.sub Zmod.mdiv
                        (toF curve_A) (toF curve_D)).
Abbreviation Fon := (on_curve Zmod.one (@Zmod.add FIELD_MODULUS) Zmod.mul Zmod.sub
                       (toF curve_A) (toF curve_D)).
Abbreviation Ftimes := (etimes Zmod.zero Zmod.one (@Zmod.add FIELD_MODULUS) Zmod.mul Zmod.sub
                          Zmod.mdiv (toF curve_A) (toF curve_D)).
Abbreviation Fid := (eid (@Zmod.zero FIELD_MODULUS) Zmod.one).

Definition toP (p : Point) : F * F := (toF p.1, toF p.2).

Definition reduced (p : Point) : Prop :=
  0 <= p.1 < FIELD_MODULUS /\ 0 <= p.2 < FIELD_MODULUS.


(** A square root of 168700, and a witness that 168696 is 5 times a square. *)
Definition sqrt_A : Z :=
  7214280148105020021932206872019688659210616427216992810330019057549499971851.
Definition root_D : Z :=
  20936703712338477133083208020974011447508234864196064925833719059568850263285.

Lemma sqrt_A_square : (toF sqrt_A * toF sqrt_A)%F = toF curve_A.
Proof. rewrite <- Zmod.of_Z_mul. apply F_eq_iff. by vm_compute. Qed.

Lemma root_D_spec : (toF 5 * (toF root_D * toF root_D))%F = toF curve_D.
Proof. rewrite <- !Zmod.of_Z_mul. apply F_eq_iff. by vm_compute. Qed.

Lemma toF_small_nonzero x : 0 < x < 1000000 -> toF x <> 0%F.
Proof.
  intros Hx H%toF_eq_0. pose proof FIELD_MODULUS_gt. rewrite mod_p_small in H; lia.
Qed.

Lemma curve_A_nonzero : toF curve_A <> 0%F.
Proof. apply toF_small_nonzero. unfold curve_A. lia. Qed.

Lemma F_two_nonzero : (1 + 1)%F <> 0%F.
Proof. rewrite <- toF_one, <- Zmod.of_Z_add. by apply toF_small_nonzero. Qed.

Add Field F_field_acc : F_field_theory.

Lemma curve_D_nonsquare (t : F) : (t * t)%F <> toF curve_D.
Proof.
  intros H. assert (Hw : toF root_D <> 0%F).
  { intros H0. pose proof root_D_spec as E. rewrite H0, !Zmod.mul_0_r in E.
    symmetry in E. revert E. apply toF_small_nonzero. unfold curve_D. lia. }
  apply (F_five_nonsquare (t / toF root_D)%F).
  transitivity (t * t / (toF root_D * toF root_D))%F; [field; done|].
  rewrite H, <- root_D_spec. by field.
Qed.

(** The group law, for points of the curve in [F]. *)
Section Group.
Let HF := F_field_theory.

Lemma Fadd_on P Q : Fon P -> Fon Q -> Fon (Fadd P Q).
Proof.
  apply (on_curve_eadd _ _ _ _ _ _ _ _ HF F_dec _ _ (toF sqrt_A));
    [apply sqrt_A_square|apply curve_D_nonsquare|apply F_two_nonzero].
Qed.

Lemma Fadd_comm P Q : Fadd P Q = Fadd Q P.
Proof. apply (eadd_comm _ _ _ _ _ _ _ _ HF). Qed.

Lemma Fadd_id_l P : Fadd Fid P = P.
Proof. apply (eadd_id_l _ _ _ _ _ _ _ _ HF). apply F_two_nonzero. Qed.

Lemma Fadd_id_r P : Fadd P Fid = P.
Proof. by rewrite Fadd_comm, Fadd_id_l. Qed.

Lemma Fadd_assoc P Q R : Fon P -> Fon Q -> Fon R -> Fadd (Fadd P Q) R = Fadd P (Fadd Q R).
Proof.
  apply (eadd_assoc _ _ _ _ _ _ _ _ HF F_dec _ _ (toF sqrt_A));
    [apply sqrt_A_square|apply curve_D_nonsquare|apply F_two_nonzero].
Qed.

Lemma Fadd_opp P : Fon P -> Fadd P (eopp Zmod.opp P) = Fid.
Proof.
  apply (eadd_opp _ _ _ _ _ _ _ _ HF F_dec _ _ (toF sqrt_A));
    [apply sqrt_A_square|apply curve_D_nonsquare|apply F_two_nonzero].
Qed.

Lemma Fid_on : Fon Fid.
Proof. apply (on_curve_eid _ _ _ _ _ _ _ _ HF). Qed.

Lemma Ftimes_on n P : Fon P -> Fon (Ftimes n P).
Proof.
  apply (on_curve_etimes _ _ _ _ _ _ _ _ HF F_dec _ _ (toF sqrt_A));
    [apply sqrt_A_square|apply curve_D_nonsquare|apply F_two_nonzero].
Qed.

Lemma Ftimes_add n m P : Fon P -> Ftimes (n + m)%nat P = Fadd (Ftimes n P) (Ftimes m P).
Proof.
  apply (etimes_add _ _ _ _ _ _ _ _ HF F_dec _ _ (toF sqrt_A));
    [apply sqrt_A_square|apply curve_D_nonsquare|apply F_two_nonzero].
Qed.

Lemma Ftimes_double n P : Fon P -> Ftimes n (Fadd P P) = Ftimes (2 * n)%nat P.
Proof.
  apply (etimes_double _ _ _ _ _ _ _ _ HF F_dec _ _ (toF sqrt_A));
    [apply sqrt_A_square|apply curve_D_nonsquare|apply F_two_nonzero].
Qed.

Lemma Fadd_swap P Q R S : Fon P -> Fon Q -> Fon R -> Fon S ->
  Fadd (Fadd P Q) (Fadd R S) = Fadd (Fadd P R) (Fadd Q S).
Proof.
  apply (eadd_swap _ _ _ _ _ _ _ _ HF F_dec _ _ (toF sqrt_A));
    [apply sqrt_A_square|apply curve_D_nonsquare|apply F_two_nonzero].
Qed.

Lemma Fcomplete P Q : Fon P -> Fon Q ->
  (1 + kfactor Zmod.mul (toF curve_D) P Q)%F <> 0%F
  /\ (1 - kfactor Zmod.mul (toF curve_D) P Q)%F <> 0%F.
Proof.
  intros HP HQ. split.
  - apply (complete_plus _ _ _ _ _ _ _ _ HF F_dec (toF curve_A) _ (toF sqrt_A) sqrt_A_square
             curve_D_nonsquare F_two_nonzero); done.
  - apply (complete_minus _ _ _ _ _ _ _ _ HF F_dec (toF curve_A) _ (toF sqrt_A) sqrt_A_square
             curve_D_nonsquare F_two_nonzero); done.
Qed.
End Group.

(** ** The integer operations compute in the group *)

Lemma toP_addPoints p q : toP (addPoints p q) = Fadd (toP p) (toP q).
Proof.
  destruct p as [x1 y1], q as [x2 y2]; unfold addPoints, toP, eadd, kfactor; cbn [fst snd].
  f_equal; to_F; unfold Zmod.mdiv; f_equal; try ring; f_equal; ring.
Qed.

Lemma addPoints_reduced p q : reduced (addPoints p q).
Proof.
  destruct p as [x1 y1], q as [x2 y2]; unfold addPoints, reduced; cbn [fst snd].
  split; apply mod_p_range.
Qed.

Lemma toP_inj p q : reduced p -> reduced q -> toP p = toP q -> p = q.
Proof.
  destruct p as [x1 y1], q as [x2 y2]; unfold reduced, toP; cbn [fst snd].
  intros [Hx1 Hy1] [Hx2 Hy2] H. apply pair_eq in H as [H1 H2].
  apply F_eq_small in H1, H2; try done. by subst.
Qed.

Lemma isOnCurve_iff p : isOnCurve p = true <-> Fon (toP p).
Proof.
  destruct p as [x y]; unfold isOnCurve, on_curve, toP; cbn [fst snd].
  rewrite Z.eqb_eq, <- F_eq_iff. to_F. split; intros H.
  - transitivity (1 + toF curve_D * toF x * toF x * toF y * toF y - 1)%F; [ring|].
    rewrite <- H. ring.
  - rewrite H. ring.
Qed.

Lemma toP_IDENTITY : toP IDENTITY = Fid.
Proof. unfold toP, IDENTITY, eid; cbn [fst snd]. by rewrite toF_zero, toF_one. Qed.

Lemma IDENTITY_reduced : reduced IDENTITY.
Proof. pose proof FIELD_MODULUS_gt. unfold reduced, IDENTITY; cbn [fst snd]. lia. Qed.

Lemma toP_mul_loop e r b : Fon (toP r) -> Fon (toP b) ->
  toP (mul_loop e r b) = Fadd (toP r) (Ftimes (Pos.to_nat e) (toP b)).
Proof.
  revert r b; induction e as [e IH|e IH|]; intros r b Hr Hb; cbn [mul_loop].
  - rewrite IH, !toP_addPoints, Ftimes_double by
      (try rewrite toP_addPoints; auto using Fadd_on).
    rewrite Fadd_assoc by auto using Ftimes_on. rewrite Pos2Nat.inj_xI. reflexivity.
  - rewrite IH, toP_addPoints, Ftimes_double by
      (try rewrite toP_addPoints; auto using Fadd_on).
    rewrite Pos2Nat.inj_xO. reflexivity.
  - rewrite toP_addPoints. change (Pos.to_nat 1) with 1%nat. cbn [etimes]. rewrite Fadd_id_r. reflexivity.
Qed.

Lemma toP_mulPoint p n : isOnCurve p = true ->
  toP (mulPoint p n) = Ftimes (Z.to_nat n) (toP p).
Proof.
  intros Hp%isOnCurve_iff. destruct n as [|n|n]; cbn [mulPoint]; try apply toP_IDENTITY.
  rewrite toP_mul_loop, toP_IDENTITY, Fadd_id_l; [done| |done].
  rewrite toP_IDENTITY. apply Fid_on.
Qed.

Lemma mul_loop_reduced e r b : reduced r -> reduced (mul_loop e r b).
Proof.
  revert r b; induction e as [e IH|e IH|]; intros r b Hr; cbn [mul_loop];
    auto using addPoints_reduced.
Qed.

Lemma mulPoint_reduced p n : reduced (mulPoint p n).
Proof. destruct n; cbn [mulPoint]; auto using IDENTITY_reduced, mul_loop_reduced. Qed.

Lemma mulPoint_on p n : isOnCurve p = true -> isOnCurve (mulPoint p n) = true.
Proof.
  intros Hp. apply isOnCurve_iff. rewrite toP_mulPoint by done.
  by apply Ftimes_on, isOnCurve_iff.
Qed.

Lemma addPoints_on p q :
  isOnCurve p = true -> isOnCurve q = true -> isOnCurve (addPoints p q) = true.
Proof.
  rewrite !isOnCurve_iff, toP_addPoints. apply Fadd_on.
Qed.

#[export] Hint Resolve addPoints_reduced mulPoint_reduced mulPoint_on addPoints_on
  IDENTITY_reduced : longjing.

(** Equal images of reduced points: the step behind every equation below. *)
Lemma point_eq p q : reduced p -> reduced q -> toP p = toP q -> p = q.
Proof. apply toP_inj. Qed.

Lemma addPoints_assoc p q r :
  isOnCurve p = true -> isOnCurve q = true -> isOnCurve r = true ->
  addPoints (addPoints p q) r = addPoints p (addPoints q r).
Proof.
  intros. apply point_eq; auto with longjing. rewrite !toP_addPoints.
  apply Fadd_assoc; by apply isOnCurve_iff.
Qed.

(** ** Properties of points *)

(** [mulPoint] is a homomorphism from the non-negative scalars. *)
Lemma mulPoint_plus p a b : isOnCurve p = true -> 0 <= a -> 0 <= b ->
  mulPoint p (a + b) = addPoints (mulPoint p a) (mulPoint p b).
Proof.
  intros Hp Ha Hb. apply point_eq; auto with longjing.
  rewrite toP_addPoints, !toP_mulPoint, Z2Nat.inj_add by done.
  by apply Ftimes_add, isOnCurve_iff.
Qed.

Lemma mulPoint_1 p : isOnCurve p = true -> reduced p -> mulPoint p 1 = p.
Proof.
  intros Hp Hr. apply point_eq; auto with longjing.
  rewrite toP_mulPoint by done. change (Z.to_nat 1) with 1%nat. cbn [etimes]. apply Fadd_id_r.
Qed.

(** ** Openings *)

Definition generators_ok (g : Generators) : Prop :=
  (isOnCurve (gen_G g) = true /\ reduced (gen_G g)) /\ (isOnCurve (gen_J g) = true /\ reduced (gen_J g))
  /\ (isOnCurve (gen_K g) = true /\ reduced (gen_K g)) /\ (isOnCurve (gen_H g) = true /\ reduced (gen_H g)).

Definition opening_ok (o : Opening) : Prop :=
  0 <= refunds o /\ 0 <= index o /\ 0 <= commitment o /\ 0 <= blinding o.

Definition opening_add (o1 o2 : Opening) : Opening :=
  {| refunds := refunds o1 + refunds o2; index := index o1 + index o2;
     commitment := commitment o1 + commitment o2; blinding := blinding o1 + blinding o2 |}.

Lemma addPoints_swap p q r s :
  isOnCurve p = true -> isOnCurve q = true -> isOnCurve r = true -> isOnCurve s = true ->
  addPoints (addPoints p q) (addPoints r s) = addPoints (addPoints p r) (addPoints q s).
Proof.
  intros. apply point_eq; auto with longjing. rewrite !toP_addPoints.
  apply Fadd_swap; by apply isOnCurve_iff.
Qed.

Lemma commit_on g o : generators_ok g -> isOnCurve (commit g o) = true.
Proof.
  intros ([? _] & [? _] & [? _] & [? _]). unfold commit. auto 8 with longjing.
Qed.

Lemma commit_reduced g o : reduced (commit g o).
Proof. apply addPoints_reduced. Qed.

Lemma commit_add g o1 o2 : generators_ok g -> opening_ok o1 -> opening_ok o2 ->
  commit g (opening_add o1 o2) = addPoints (commit g o1) (commit g o2).
Proof.
  intros ([? _] & [? _] & [? _] & [? _]) (? & ? & ? & ?) (? & ? & ? & ?).
  unfold commit, opening_add; cbn [refunds index commitment blinding].
  rewrite !mulPoint_plus by done. symmetry.
  rewrite addPoints_swap by auto 8 with longjing. f_equal.
  rewrite addPoints_swap by auto 8 with longjing. f_equal.
  by rewrite addPoints_swap by auto 8 with longjing.
Qed.

Lemma addPoints_id_r p : reduced p -> addPoints p IDENTITY = p.
Proof.
  intros. apply point_eq; auto with longjing. rewrite toP_addPoints, toP_IDENTITY. apply Fadd_id_r.
Qed.

Lemma addPoints_id_l p : reduced p -> addPoints IDENTITY p = p.
Proof.
  intros. apply point_eq; auto with longjing. rewrite toP_addPoints, toP_IDENTITY. apply Fadd_id_l.
Qed.

Lemma rerandomize_commit g o s : generators_ok g -> opening_ok o -> 0 <= s ->
  rerandomize g (commit g o) s
  = commit g {| refunds := refunds o; index := index o; commitment := commitment o;
                blinding := blinding o + s |}.
Proof.
  intros Hg Ho Hs. unfold rerandomize.
  transitivity (commit g (opening_add o {| refunds := 0; index := 0; commitment := 0; blinding := s |})).
  - rewrite commit_add by (done || (unfold opening_ok; cbn; lia)). f_equal.
    unfold commit; cbn [refunds index commitment blinding mulPoint].
    by rewrite !addPoints_id_l by auto with longjing.
  - unfold opening_add; cbn [refunds index commitment blinding].
    by rewrite !Z.add_0_r.
Qed.

Lemma applyRefund_commit g o v : generators_ok g -> opening_ok o -> 0 <= v ->
  applyRefund g (commit g o) v
  = commit g {| refunds := refunds o + v; index := index o + 1; commitment := commitment o;
                blinding := blinding o |}.
Proof.
  intros Hg Ho Hv. pose proof Hg as ([? ?] & [? ?] & [? ?] & [? ?]).
  transitivity (commit g (opening_add o {| refunds := v; index := 1; commitment := 0; blinding := 0 |})).
  - rewrite commit_add by (done || (unfold opening_ok; cbn; lia)).
    unfold applyRefund, commit at 3; cbn [refunds index commitment blinding mulPoint].
    pose proof (commit_on g o Hg).
    rewrite !addPoints_id_r by auto with longjing.
    change (mul_loop 1 IDENTITY (gen_J g)) with (mulPoint (gen_J g) 1).
    rewrite mulPoint_1 by done.
    apply addPoints_assoc; auto with longjing.
  - unfold opening_add; cbn [refunds index commitment blinding]. by rewrite !Z.add_0_r.
Qed.

(** ** Hashing to the curve *)

Lemma curve_denominator (x : F) : (1 - toF curve_D * x * x)%F <> 0%F.
Proof.
  intros H. assert (Hx : x <> 0%F).
  { intros ->. apply F_one_neq_zero. rewrite <- H. ring. }
  apply (curve_D_nonsquare (1 / x)%F).
  transitivity (1 / (x * x))%F; [by field|].
  transitivity ((1 - (1 - toF curve_D * x * x)) / (x * x))%F; [rewrite H; by field|by field].
Qed.

Lemma root_on_curve x y :
  (toF y * toF y)%F = toF ((1 - curve_A * x * x) * inv (1 - curve_D * x * x)) ->
  isOnCurve (x, y) = true.
Proof.
  intros H. apply isOnCurve_iff. unfold on_curve, toP; cbn [fst snd].
  pose proof (curve_denominator (toF x)) as Hd.
  repeat (rewrite F_inv in H || rewrite Zmod.of_Z_mul in H || rewrite Zmod.of_Z_sub in H).
  rewrite toF_one in H.
  transitivity (toF curve_D * toF x * toF x * (toF y * toF y))%F; [ring|].
  transitivity (toF curve_A * toF x * toF x + toF y * toF y - 1)%F; [|ring].
  rewrite H.
  assert (Hi : (toF curve_D * toF x * toF x
                = 1 - (1 - toF curve_D * toF x * toF x))%F) by ring.
  field. done.
Qed.

Lemma isOnCurve_neg x y : isOnCurve (x, FIELD_MODULUS - y) = isOnCurve (x, y).
Proof.
  apply Bool.eq_iff_eq_true. rewrite !isOnCurve_iff. unfold on_curve, toP; cbn [fst snd].
  assert (Hy : toF (FIELD_MODULUS - y) = (- toF y)%F).
  { rewrite <- Zmod.of_Z_opp. apply F_eq_iff. rewrite !mod_p_spec.
    replace (FIELD_MODULUS - y) with (- y + 1 * FIELD_MODULUS) by lia. by rewrite Z_mod_plus_full. }
  rewrite Hy. split; intros H.
  - transitivity (toF curve_D * toF x * toF x * - toF y * - toF y)%F; [ring|]. rewrite H. ring.
  - transitivity (toF curve_D * toF x * toF x * toF y * toF y)%F; [ring|]. rewrite H. ring.
Qed.

Section HashingFacts.
Variable sha256 : list byte -> list byte.

Lemma hash_candidate_ok seed counter P :
  hash_candidate sha256 seed counter = Ok (Some P) ->
  isOnCurve P = true /\ reduced P /\ isIdentity P = false.
Proof.
  unfold hash_candidate. intros H. apply rbind_ok in H as (h & _ & H).
  destruct (sqrt _) as [y|] eqn:E; [|discriminate].
  apply sqrt_Some in E as [Hy Hyy]. apply root_on_curve in Hyy.
  assert (Hon : isOnCurve (mulPoint (mod_p h, if y <? FIELD_MODULUS - y then y
                                              else FIELD_MODULUS - y) COFACTOR) = true).
  { apply mulPoint_on. destruct (y <? FIELD_MODULUS - y); [done|]. by rewrite isOnCurve_neg. }
  pose proof (mulPoint_reduced (mod_p h, if y <? FIELD_MODULUS - y then y
                                         else FIELD_MODULUS - y) COFACTOR) as Hred.
  set (Q := mulPoint _ COFACTOR) in *. clearbody Q.
  destruct (isIdentity Q) eqn:Hid; [discriminate|]. by injection H as ->.
Qed.

(** What a finished search means: the first counter that yields a point. *)
Definition first_candidate (seed : string) (start : Z) (P : Point) : Prop :=
  exists counter, start <= counter < 2 ^ 32
    /\ hash_candidate sha256 seed counter = Ok (Some P)
    /\ forall c, start <= c < counter -> hash_candidate sha256 seed c = Ok None.

Definition search_result (seed : string) (start : Z) (r : result Point) : Prop :=
  match r with
  | Ok P => first_candidate seed start P
  | Throw e =>
      (e = RangeError "ERR_OUT_OF_RANGE"
       /\ forall c, start <= c < 2 ^ 32 -> hash_candidate sha256 seed c = Ok None)
      \/ exists c, start <= c < 2 ^ 32 /\ hash_candidate sha256 seed c = Throw e
  end.

Lemma search_result_step seed start r :
  start < 2 ^ 32 -> hash_candidate sha256 seed start = Ok None ->
  search_result seed (start + 1) r -> search_result seed start r.
Proof.
  intros Hs Hc.
  assert (Hsplit : forall c, start <= c -> c = start \/ start + 1 <= c) by lia.
  destruct r as [P|e]; simpl.
  - intros (c & Hlt & HP & Hbefore). exists c. split; [lia|]. split; [done|].
    intros c' Hc'. destruct (Hsplit c') as [->|]; [lia|done|apply Hbefore; lia].
  - intros [[-> Hall]|(c & Hlt & He)]; [left|right].
    + split; [done|]. intros c' Hc'. destruct (Hsplit c') as [->|]; [lia|done|apply Hall; lia].
    + exists c. split; [lia|done].
Qed.

Lemma hash_from_result fuel seed start :
  0 <= start <= 2 ^ 32 -> 2 ^ 32 < start + Z.of_nat fuel ->
  exists r, hash_from sha256 fuel seed start = Some r /\ search_result seed start r.
Proof.
  revert start; induction fuel as [|f IH]; intros start H0 Hf; cbn [hash_from];
    destruct (Z.leb_spec (2 ^ 32) start) as [Hs|Hs]; try (exfalso; lia).
  - eexists. split; [reflexivity|]. left. split; [done|]. lia.
  - destruct (hash_candidate sha256 seed start) as [[P|]|e] eqn:E.
    + eexists. split; [done|]. exists start. split; [lia|]. split; [done|]. lia.
    + destruct (IH (start + 1)) as (r & -> & Hr); [lia..|].
      exists r. split; [done|]. by apply search_result_step.
    + eexists. split; [done|]. right. exists start. split; [lia|done].
Qed.

Lemma hash_from_on fuel seed start P :
  hash_from sha256 fuel seed start = Some (Ok P) ->
  isOnCurve P = true /\ reduced P.
Proof.
  revert start; induction fuel as [|f IH]; intros start; cbn [hash_from]; [done|].
  destruct (2 ^ 32 <=? start); [done|].
  destruct (hash_candidate sha256 seed start) as [[Q|]|e] eqn:E; [|apply IH|done].
  intros [= ->]. apply hash_candidate_ok in E. tauto.
Qed.

Lemma accumulatorGenerators_ok fuel g :
  accumulatorGenerators sha256 fuel = Some (Ok g) -> generators_ok g.
Proof.
  unfold accumulatorGenerators, hashToCurve. intros H.
  repeat match type of H with
  | match ?x with _ => _ end = _ => destruct x as [?|] eqn:?; [|discriminate]
  end.
  injection H as H. inv_ok. unfold generators_ok; cbn [gen_G gen_J gen_K gen_H].
  repeat match goal with
  | E : hash_from _ _ _ _ = Some (Ok _) |- _ => apply hash_from_on in E
  end. tauto.
Qed.
End HashingFacts.

(** ** Properties *)

(** The points of the curve are a commutative group under [addPoints]; both
    denominators of the addition law are always invertible. *)
Theorem addPoints_group_law p q r :
  isOnCurve p = true -> isOnCurve q = true -> isOnCurve r = true ->
  isOnCurve (addPoints p q) = true
  /\ addPoints (addPoints p q) r = addPoints p (addPoints q r)
  /\ addPoints p q = addPoints q p
  /\ (reduced p -> addPoints IDENTITY p = p)
  /\ addPoints p (- p.1, p.2) = IDENTITY.
Proof.
  intros Hp Hq Hr. repeat split.
  - by apply addPoints_on.
  - by apply addPoints_assoc.
  - apply point_eq; auto with longjing. rewrite !toP_addPoints. apply Fadd_comm.
  - intros Hred. apply point_eq; auto with longjing.
    rewrite toP_addPoints, toP_IDENTITY. apply Fadd_id_l.
  - apply point_eq; auto with longjing.
    rewrite toP_addPoints, toP_IDENTITY.
    rewrite <- (Fadd_opp (toP p)) by by apply isOnCurve_iff.
    unfold toP at 2, eopp; cbn [fst snd]. rewrite Zmod.of_Z_opp. reflexivity.
Qed.

Lemma addPoints_complete p q :
  isOnCurve p = true -> isOnCurve q = true ->
  let k := mod_p (curve_D * p.1 * q.1 * p.2 * q.2) in
  mod_p ((1 + k) * inv (1 + k)) = 1 /\ mod_p ((1 - k) * inv (1 - k)) = 1.
Proof.
  intros Hp Hq k. apply isOnCurve_iff in Hp, Hq.
  destruct (Fcomplete _ _ Hp Hq) as [H1 H2].
  assert (Hk : toF k = kfactor Zmod.mul (toF curve_D) (toP p) (toP q)).
  { unfold k, kfactor, toP; cbn [fst snd]. to_F. ring. }
  rewrite <- Hk in H1, H2. pose proof FIELD_MODULUS_gt.
  split; apply F_eq_small; try apply mod_p_range; try lia; to_F;
    rewrite Zmod.mul_comm; by apply F_mul_inv_l.
Qed.


(** A point of the curve (the base point of Baby Jubjub) for the witnesses. *)
Definition Base8 : Point :=
  (5299619240641551281634865583518297030282874472190772894086521144482721001553,
   16950150798460657717958625567821834550301663161624707787222815936182638968203).

Lemma Base8_on : isOnCurve Base8 = true.
Proof. vm_compute. reflexivity. Qed.

Lemma Base8_reduced : reduced Base8.
Proof. vm_compute. repeat split; discriminate. Qed.

Definition toy_generators : Generators :=
  {| gen_G := Base8; gen_J := Base8; gen_K := Base8; gen_H := Base8 |}.

Lemma toy_generators_ok : generators_ok toy_generators.
Proof. repeat split; try apply Base8_on; apply Base8_reduced. Qed.

Lemma addPoints_group_law_witness :
  isOnCurve Base8 = true /\
  addPoints (addPoints Base8 IDENTITY) Base8 = addPoints Base8 (addPoints IDENTITY Base8).
Proof.
  split; [exact Base8_on|].
  assert (Hid : isOnCurve IDENTITY = true) by (vm_compute; reflexivity).
  exact (proj1 (proj2 (addPoints_group_law Base8 IDENTITY Base8 Base8_on Hid Base8_on))).
Defined.

(** [commit] is a homomorphism on non-negative openings, and [mulPoint] on
    non-negative scalars: adding two accumulators adds their openings. *)
Theorem commit_homomorphism g o1 o2 : generators_ok g -> opening_ok o1 -> opening_ok o2 ->
  commit g (opening_add o1 o2) = addPoints (commit g o1) (commit g o2)
  /\ mulPoint (gen_H g) (blinding o1 + blinding o2)
     = addPoints (mulPoint (gen_H g) (blinding o1)) (mulPoint (gen_H g) (blinding o2)).
Proof.
  intros Hg H1 H2. split; [by apply commit_add|].
  destruct Hg as (_ & _ & _ & [? _]), H1 as (? & ? & ? & ?), H2 as (? & ? & ? & ?).
  by apply mulPoint_plus.
Qed.

Lemma commit_homomorphism_witness :
  let o := {| refunds := 3; index := 1; commitment := 7; blinding := 5 |} in
  commit toy_generators (opening_add o o) = addPoints (commit toy_generators o) (commit toy_generators o).
Proof.
  intros o. assert (Ho : opening_ok o) by (repeat split; discriminate).
  exact (proj1 (commit_homomorphism toy_generators o o toy_generators_ok Ho Ho)).
Defined.

(** C32: the refund cycle. A request reveals [A_pub = A + s' H]; the server signs
    [A_pub + v G + J]; the result is exactly the commitment to the note's next
    opening: refunds plus [v], index plus one, the same commitment, blinding
    plus [s']. *)
Theorem refund_cycle_opening g o s v :
  generators_ok g -> opening_ok o -> 0 <= s -> 0 <= v ->
  applyRefund g (rerandomize g (commit g o) s) v
  = commit g {| refunds := refunds o + v; index := index o + 1;
                commitment := commitment o; blinding := blinding o + s |}.
Proof.
  intros Hg Ho Hs Hv. rewrite rerandomize_commit by done.
  rewrite applyRefund_commit; [reflexivity|done| |done].
  destruct Ho as (? & ? & ? & ?). unfold opening_ok; cbn [refunds index commitment blinding]. lia.
Qed.

Lemma refund_cycle_opening_witness :
  let o := {| refunds := 0; index := 0; commitment := 9; blinding := 0 |} in
  applyRefund toy_generators (rerandomize toy_generators (commit toy_generators o) 4) 6
  = commit toy_generators {| refunds := refunds o + 6; index := index o + 1;
                             commitment := commitment o; blinding := blinding o + 4 |}.
Proof.
  intros o. assert (Ho : opening_ok o) by (repeat split; discriminate).
  assert (H4 : 0 <= 4) by discriminate. assert (H6 : 0 <= 6) by discriminate.
  exact (refund_cycle_opening toy_generators o 4 6 toy_generators_ok Ho H4 H6).
Defined.

(** [hashToCurve] returns for every hash function: the point of the first
    counter that maps to the curve away from the identity, or the RangeError of
    a counter past 32 bits, or the error of reading a malformed digest; a point
    it returns is reduced, on the curve and not the identity. *)
Theorem hashToCurve_correct (sha256 : list byte -> list byte) fuel seed :
  2 ^ 32 < Z.of_nat fuel ->
  exists r, hashToCurve sha256 fuel seed = Some r /\ search_result sha256 seed 0 r /\
    match r with
    | Ok P => isOnCurve P = true /\ reduced P /\ isIdentity P = false
    | Throw _ => True
    end.
Proof.
  intros Hf. unfold hashToCurve.
  destruct (hash_from_result sha256 fuel seed 0) as (r & -> & Hr); [lia..|].
  exists r. split; [reflexivity|]. split; [exact Hr|].
  destruct r as [P|e]; [|done]. destruct Hr as (c & _ & HP & _). by apply hash_candidate_ok in HP.
Qed.

Lemma hashToCurve_correct_witness :
  exists r, hashToCurve (fun _ => be_bytes 32 7) (Z.to_nat (2 ^ 32 + 1)) SEED_G = Some r.
Proof.
  destruct (hashToCurve_correct (fun _ => be_bytes 32 7) (Z.to_nat (2 ^ 32 + 1)) SEED_G)
    as (r & H & _).
  - rewrite Z2Nat.id; [reflexivity|discriminate].
  - exists r. exact H.
Defined.
