(* ===== verification/FieldElement.v ===== *)
(** * Field elements as text, and the payload binding of the signal

    [FIELD_ELEMENT_PATTERN] of [src/longjing/dto/field-element.ts], the request
    DTO of [dto/api-request.dto.ts], [parseFieldElement] and the signal binding
    of [utils/payload-signal.util.ts]. SHA-256, Poseidon and the length rule of
    class-validator are parameters. *)

From Stdlib Require Import Ascii String.
From S2P Require Import Prelude Field JsText.
Open Scope Z_scope.

(** ** The pattern *)

Definition length_within (lo hi : nat) (l : list ascii) : bool :=
  (lo <=? length l)%nat && (length l <=? hi)%nat.

Definition hex_text (l : list ascii) : bool := length_within 1 64 l && forallb is_hex_digit l.
Definition dec_text (l : list ascii) : bool := length_within 1 78 l && forallb is_digit l.

(** What follows the prefix [p], when the text has it. *)
Definition after_prefix (p : string) (l : list ascii) : option (list ascii) :=
  if chars_prefix (chars p) l then Some (drop (String.length p) l) else None.

(** [/^(?:(?:0x)?[0-9a-fA-F]{1,64}|-?\d{1,78})$/]. *)
Definition FIELD_ELEMENT_PATTERN (s : string) : bool :=
  let l := chars s in
  match after_prefix "0x" l with Some l' => hex_text l' | None => false end
  || hex_text l
  || match after_prefix "-" l with Some l' => dec_text l' | None => dec_text l end.

(** The decorators of [IsFieldElement]: not empty, at most 80 characters, the pattern. *)
Definition IsFieldElement (s : string) : bool :=
  negb (str_len s =? 0) && (str_len s <=? 80) && FIELD_ELEMENT_PATTERN s.

(** ** The request *)

Record RlnSignalDto : Type := { signal_x : string; signal_y : string }.
Record AccumulatorDto : Type := { acc_x : string; acc_y : string }.

(** The payload is a sequence of UTF-16 code units. *)
Record LongjingRequestDto : Type := {
  req_payload : list Z;
  req_nonce : string;
  req_nullifier : string;
  req_signal : RlnSignalDto;
  req_proof : list Z;
  req_merkleRoot : string;
  req_accumulator : AccumulatorDto;
  req_model : option string;
}.

Definition MAX_PROOF_LENGTH : Z := 4096.
Definition MAX_PAYLOAD_LENGTH : Z := 100000.

Definition RlnSignalDto_valid (s : RlnSignalDto) : bool :=
  IsFieldElement (signal_x s) && IsFieldElement (signal_y s).

Definition AccumulatorDto_valid (a : AccumulatorDto) : bool :=
  IsFieldElement (acc_x a) && IsFieldElement (acc_y a).

(** [text_length] is the length [MaxLength] counts; [models] is CLAUDE_MODELS. *)
Definition LongjingRequestDto_valid (text_length : list Z -> Z) (models : list string)
  (r : LongjingRequestDto) : bool :=
  nonempty (req_payload r) && (text_length (req_payload r) <=? MAX_PAYLOAD_LENGTH)
  && IsFieldElement (req_nonce r)
  && IsFieldElement (req_nullifier r)
  && RlnSignalDto_valid (req_signal r)
  && nonempty (req_proof r)
  && (text_length (req_proof r) <=? MAX_PROOF_LENGTH)
  && IsFieldElement (req_merkleRoot r)
  && AccumulatorDto_valid (req_accumulator r)
  && match req_model r with Some m => bool_decide (m ∈ models) | None => true end.

(** ** Parsing *)

Definition BN254_SCALAR_FIELD : Z := FIELD_MODULUS.

Definition all_digits (s : string) : bool := nonempty (chars s) && str_all is_digit s.

Definition parseFieldElement (value : string) : result Z :=
  let str := trim value in
  if startsWith str "0x" || all_digits str then BigInt str
  else BigInt ("0x" +:+ str).

(** [toBigInt] of [proof-verifier.service.ts], the verifier's own reader of the
    same texts: it also takes negative decimals, as field elements. *)
Definition toBigInt (value : string) : result Z :=
  if str_len value =? 0 then Ok 0
  else
    let str := trim value in
    if startsWith str "0x" || startsWith str "-0x" then BigInt str
    else if match after_prefix "-" (chars str) with
            | Some l => nonempty l && forallb is_digit l
            | None => all_digits str
            end
    then
      let* num := BigInt str in
      Ok (if num <? 0 then FIELD_MODULUS + num else num)
    else BigInt ("0x" +:+ str).

(** ** Binding x to the payload *)

Section Binding.
Variable sha256 : list byte -> list byte.
Variable poseidon : list Z -> Z.

Definition payloadDigest (payload : list Z) : result Z :=
  let* d := BigInt ("0x" +:+ to_hex (sha256 (utf8 payload))) in
  Ok (Z.rem d BN254_SCALAR_FIELD).

Definition payloadSignalX (payload : list Z) (nonce : Z) : result Z :=
  let* d := payloadDigest payload in
  Ok (poseidon [d; nonce]).

Definition signalXMatchesRequest (signalX : string) (payload : list Z) (nonce : string)
  : result bool :=
  match (let* x := parseFieldElement signalX in
         let* rho := parseFieldElement nonce in Ok (x, rho)) with
  | Throw _ => Ok false
  | Ok (x, rho) =>
      if BN254_SCALAR_FIELD <=? rho then Ok false
      else let* x' := payloadSignalX payload rho in Ok (x =? x')
  end.
End Binding.

(** ** Hexadecimal text *)

Lemma is_hex_digit_value c : is_hex_digit c = true -> exists d, hex_value c = Some d /\ 0 <= d < 16.
Proof.
  unfold is_hex_digit, is_digit, hex_value, between. intros H.
  unfold is_digit, between.
  destruct (Z.leb_spec 48 (code c)), (Z.leb_spec (code c) 57),
    (Z.leb_spec 97 (code c)), (Z.leb_spec (code c) 102),
    (Z.leb_spec 65 (code c)), (Z.leb_spec (code c) 70); simpl in *; try done;
    (eexists; split; [done|lia]).
Qed.

Lemma hex_value_of_digits l acc :
  forallb is_hex_digit l = true -> 0 <= acc -> exists n, hex_value_of acc l = Some n /\ 0 <= n.
Proof.
  revert acc; induction l as [|c l IH]; intros acc Hl Hacc; [by exists acc|].
  cbn [forallb] in Hl. apply andb_true_iff in Hl as [Hc Hl].
  destruct (is_hex_digit_value c Hc) as (d & Hd & Hr). cbn [hex_value_of]. rewrite Hd.
  apply IH; [done|lia].
Qed.

Lemma is_hex_digit_code c : is_hex_digit c = true ->
  48 <= code c <= 57 \/ 97 <= code c <= 102 \/ 65 <= code c <= 70.
Proof.
  unfold is_hex_digit, is_digit, between. intros H.
  apply orb_true_iff in H as [H|H]; [apply orb_true_iff in H as [H|H]|]; bool_simpl; lia.
Qed.

Lemma not_space c : 33 <= code c <= 159 -> is_space c = false.
Proof.
  unfold is_space, between. intros H.
  repeat (apply orb_false_iff; split);
    first [apply Z.eqb_neq; lia | apply andb_false_iff; right; apply Z.leb_gt; lia].
Qed.

Definition printable (l : list ascii) : Prop := Forall (fun c => 33 <= code c <= 159) l.

Lemma printable_trim l : printable l -> chars (trim (of_chars l)) = l.
Proof.
  intros H. apply trim_id. intros c Hc. apply not_space.
  unfold printable in H. rewrite Forall_forall in H. apply H. destruct Hc as [Hc|Hc].
  - destruct l; simplify_eq/=. apply list_elem_of_here.
  - apply last_Some in Hc as [l' ->]. apply elem_of_app. right. apply list_elem_of_here.
Qed.

Lemma hex_printable l : forallb is_hex_digit l = true -> printable l.
Proof.
  intros H. apply Forall_forall. intros c Hc. rewrite forallb_forall in H.
  pose proof (is_hex_digit_code c (H c (proj1 (list_elem_of_In _ _) Hc))). lia.
Qed.

Lemma BigInt_hex_text l : l <> [] -> printable l ->
  BigInt_of_string ("0x" +:+ of_chars l) = hex_value_of 0 l.
Proof.
  intros Hne Hp. change ("0x" +:+ of_chars l) with (of_chars ("0"%char :: "x"%char :: l)).
  unfold BigInt_of_string. rewrite printable_trim.
  - destruct l; [done|]. reflexivity.
  - repeat (constructor; [vm_compute; split; discriminate|]). exact Hp.
Qed.

Lemma is_digit_hex c : is_digit c = true -> is_hex_digit c = true.
Proof. unfold is_hex_digit. by intros ->. Qed.

Lemma digits_are_hex l : forallb is_digit l = true -> forallb is_hex_digit l = true.
Proof. rewrite !forallb_forall. auto using is_digit_hex. Qed.

Lemma dec_value_nonneg l acc : forallb is_digit l = true -> 0 <= acc -> 0 <= dec_value acc l.
Proof.
  revert acc; induction l as [|c l IH]; intros acc Hl Hacc; [done|].
  cbn [forallb dec_value] in *. apply andb_true_iff in Hl as [Hc Hl].
  apply is_digit_code in Hc. apply IH; [done|lia].
Qed.

Lemma length_within_bounds lo hi l : length_within lo hi l = true -> (lo <= length l <= hi)%nat.
Proof.
  unfold length_within. intros H%andb_true_iff. destruct H as [H1 H2].
  apply Nat.leb_le in H1, H2. lia.
Qed.

Lemma hex_text_spec l : hex_text l = true -> l <> [] /\ forallb is_hex_digit l = true.
Proof.
  unfold hex_text. intros H%andb_true_iff. destruct H as [H1%length_within_bounds H2].
  split; [by destruct l; simpl in *; [lia|]|done].
Qed.

Lemma dec_text_spec l : dec_text l = true -> l <> [] /\ forallb is_digit l = true.
Proof.
  unfold dec_text. intros H%andb_true_iff. destruct H as [H1%length_within_bounds H2].
  split; [by destruct l; simpl in *; [lia|]|done].
Qed.

Lemma nonempty_ne {A} (l : list A) : l <> [] -> nonempty l = true.
Proof. by destruct l. Qed.

Lemma chars_prefix_app p l : chars_prefix p (p ++ l) = true.
Proof. induction p as [|c p IH]; [by destruct l|]. simpl. by rewrite Ascii.eqb_refl. Qed.

Lemma chars_prefix_drop p l : chars_prefix p l = true -> l = p ++ drop (length p) l.
Proof.
  revert l; induction p as [|c p IH]; intros [|d l] H; simpl in *; try done.
  apply andb_true_iff in H as [->%Ascii.eqb_eq H]. f_equal. by apply IH.
Qed.

Lemma after_prefix_Some p l l' : after_prefix p l = Some l' -> l = chars p ++ l'.
Proof.
  unfold after_prefix. destruct (chars_prefix (chars p) l) eqn:E; [|done].
  intros [= <-]. rewrite <- chars_length. by apply chars_prefix_drop.
Qed.

Lemma after_prefix_app p l : after_prefix p (chars p ++ l) = Some l.
Proof.
  unfold after_prefix. rewrite chars_prefix_app, <- chars_length. by rewrite drop_app_length.
Qed.

(** A printable text is its own [trim()]. *)
Lemma trim_printable s : printable (chars s) -> trim s = s.
Proof.
  intros H. rewrite <- (of_chars_chars (trim s)), <- (of_chars_chars s) at 1.
  rewrite printable_trim by done. apply of_chars_chars.
Qed.

(** The three readings of a text that the pattern accepts. *)
Inductive reading (s : string) : Prop :=
| read_0x l : chars s = chars "0x" ++ l -> l <> [] -> forallb is_hex_digit l = true -> reading s
| read_hex : chars s <> [] -> forallb is_hex_digit (chars s) = true ->
    forallb is_digit (chars s) = false -> reading s
| read_dec : chars s <> [] -> forallb is_digit (chars s) = true -> reading s
| read_neg l : chars s = chars "-" ++ l -> l <> [] -> forallb is_digit l = true -> reading s.

Lemma pattern_reading s : FIELD_ELEMENT_PATTERN s = true -> reading s.
Proof.
  unfold FIELD_ELEMENT_PATTERN. intros H.
  apply orb_true_iff in H as [H|H]; [apply orb_true_iff in H as [H|H]|].
  - destruct (after_prefix "0x" (chars s)) as [l|] eqn:E; [|done].
    apply after_prefix_Some in E. apply hex_text_spec in H as [H1 H2]. by eapply read_0x.
  - apply hex_text_spec in H as [H1 H2].
    destruct (forallb is_digit (chars s)) eqn:E; [by apply read_dec|by apply read_hex].
  - destruct (after_prefix "-" (chars s)) as [l|] eqn:E.
    + apply after_prefix_Some in E. apply dec_text_spec in H as [H1 H2]. by eapply read_neg.
    + apply dec_text_spec in H as [H1 H2]. by apply read_dec.
Qed.

Lemma digits_not_prefix c p l : is_digit c = true -> code c <> 48 ->
  forallb is_hex_digit l = true -> chars_prefix (c :: p) l = true -> exists l', l = c :: l'.
Proof. destruct l as [|d l]; [done|]. simpl. intros _ _ _ [->%Ascii.eqb_eq _]%andb_true_iff. by exists l. Qed.

Lemma hex_no_prefix p l : forallb is_hex_digit l = true ->
  forallb is_hex_digit (chars p) = false -> chars_prefix (chars p) l = false.
Proof.
  intros Hl Hp. apply not_true_iff_false. intros H%chars_prefix_drop.
  rewrite H, forallb_app, Hp in Hl. done.
Qed.

Lemma chars_nil s : chars s = [] -> s = EmptyString.
Proof. by destruct s. Qed.

Lemma str_len_nonzero s : chars s <> [] -> (str_len s =? 0) = false.
Proof. destruct s; [done|]. intros _. apply Z.eqb_neq. unfold str_len. simpl. lia. Qed.

Lemma BigInt_chars s : BigInt s = BigInt (of_chars (chars s)).
Proof. by rewrite of_chars_chars. Qed.

(** What each reading evaluates to. *)
Lemma reading_0x s l : chars s = chars "0x" ++ l -> l <> [] -> forallb is_hex_digit l = true ->
  exists n, 0 <= n /\ parseFieldElement s = Ok n /\ toBigInt s = Ok n.
Proof.
  intros Hs Hne Hl. destruct (hex_value_of_digits l 0 Hl ltac:(lia)) as (n & Hn & Hn0).
  assert (Hp : printable (chars s)).
  { rewrite Hs. apply Forall_app. split; [|by apply hex_printable].
    repeat (constructor; [vm_compute; split; discriminate|]). constructor. }
  assert (Hsw : startsWith s "0x" = true) by (unfold startsWith; rewrite Hs; apply chars_prefix_app).
  assert (HB : BigInt s = Ok n).
  { unfold BigInt. rewrite <- (of_chars_chars s), Hs. 
    change (of_chars (chars "0x" ++ l)) with ("0x" +:+ of_chars l).
    rewrite BigInt_hex_text by (done || by apply hex_printable). by rewrite Hn. }
  exists n. split; [done|]. unfold parseFieldElement, toBigInt.
  rewrite trim_printable by done. rewrite Hsw. cbn [orb].
  rewrite str_len_nonzero by (rewrite Hs; done). by split.
Qed.

Lemma reading_hex s : chars s <> [] -> forallb is_hex_digit (chars s) = true ->
  forallb is_digit (chars s) = false ->
  exists n, 0 <= n /\ parseFieldElement s = Ok n /\ toBigInt s = Ok n.
Proof.
  intros Hne Hl Hd. destruct (hex_value_of_digits _ 0 Hl ltac:(lia)) as (n & Hn & Hn0).
  pose proof (hex_printable _ Hl) as Hp.
  assert (HB : BigInt ("0x" +:+ s) = Ok n).
  { unfold BigInt. rewrite <- (of_chars_chars s), BigInt_hex_text by done. by rewrite Hn. }
  assert (Ha : all_digits s = false) by (unfold all_digits, str_all; by rewrite Hd, andb_false_r).
  exists n. split; [done|]. unfold parseFieldElement, toBigInt, startsWith.
  rewrite trim_printable, str_len_nonzero by done.
  rewrite !hex_no_prefix by done. unfold after_prefix. rewrite hex_no_prefix by done.
  rewrite Ha. by split.
Qed.

Lemma reading_dec s : chars s <> [] -> forallb is_digit (chars s) = true ->
  exists n, 0 <= n /\ parseFieldElement s = Ok n /\ toBigInt s = Ok n.
Proof.
  intros Hne Hl. pose proof (digits_are_hex _ Hl) as Hh. pose proof (hex_printable _ Hh) as Hp.
  assert (HB : BigInt s = Ok (dec_value 0 (chars s))).
  { unfold BigInt. rewrite <- (of_chars_chars s) at 1. by rewrite BigInt_digits. }
  pose proof (dec_value_nonneg (chars s) 0 Hl ltac:(lia)).
  assert (Ha : all_digits s = true) by (unfold all_digits, str_all; by rewrite Hl, nonempty_ne).
  exists (dec_value 0 (chars s)). split; [done|]. unfold parseFieldElement, toBigInt, startsWith.
  rewrite trim_printable, str_len_nonzero by done.
  rewrite !hex_no_prefix by done. unfold after_prefix. rewrite hex_no_prefix by done.
  rewrite Ha, HB. cbn [orb rbind]. destruct (Z.ltb_spec (dec_value 0 (chars s)) 0); [lia|]. by split.
Qed.

Lemma reading_neg s l : chars s = chars "-" ++ l -> l <> [] -> forallb is_digit l = true ->
  parseFieldElement s = Throw (SyntaxError "Cannot convert to a BigInt")
  /\ toBigInt s = Ok (if 0 <? dec_value 0 l then FIELD_MODULUS - dec_value 0 l else 0).
Proof.
  intros Hs Hne Hl. pose proof (digits_are_hex _ Hl) as Hh.
  pose proof (dec_value_nonneg l 0 Hl ltac:(lia)).
  assert (Hp : printable (chars s)).
  { rewrite Hs. apply Forall_app. split; [|by apply hex_printable].
    repeat (constructor; [vm_compute; split; discriminate|]). constructor. }
  assert (Hsx : startsWith s "-0x" = false).
  { unfold startsWith. rewrite Hs.
    change (chars_prefix (chars "-0x") (chars "-" ++ l)) with (chars_prefix (chars "0x") l).
    by apply hex_no_prefix. }
  unfold parseFieldElement, toBigInt. rewrite trim_printable by done.
  rewrite str_len_nonzero by by rewrite Hs.
  assert (Hx : startsWith s "0x" = false) by (unfold startsWith; by rewrite Hs).
  assert (Ha : all_digits s = false) by (unfold all_digits, str_all; by rewrite Hs).
  rewrite Hx, Ha, Hsx, Hs, after_prefix_app. cbn [orb]. rewrite Hl, nonempty_ne by done. cbn [andb].
  split.
  - unfold BigInt. rewrite <- (of_chars_chars s), BigInt_hex_text; [by rewrite Hs|by rewrite Hs|done].
  - unfold BigInt. rewrite <- (of_chars_chars s), Hs. unfold BigInt_of_string.
    rewrite printable_trim by by rewrite <- Hs.
    destruct l as [|d l]; [done|]. 
    change (chars "-" ++ d :: l) with ("-"%char :: d :: l). cbv beta iota.
    change (code "-" =? 48) with false. cbn [andb]. change (code "-" =? 45) with true.
    rewrite digits_parse by done. cbn [option_map of_option rbind].
    destruct (Z.ltb_spec 0 (dec_value 0 (d :: l))), (Z.ltb_spec (- dec_value 0 (d :: l)) 0);
      f_equal; lia.
Qed.

(** ** Properties *)

(** On every text the request DTO accepts as a field element, the gateway's
    reader and the verifier's reader give the same non-negative integer; a
    negative decimal is the exception, which the verifier reads modulo p and the
    gateway rejects with a SyntaxError. *)
Theorem field_element_readers_agree s : IsFieldElement s = true ->
  (exists n, 0 <= n /\ parseFieldElement s = Ok n /\ toBigInt s = Ok n)
  \/ exists l, chars s = chars "-" ++ l /\ forallb is_digit l = true
     /\ parseFieldElement s = Throw (SyntaxError "Cannot convert to a BigInt")
     /\ toBigInt s = Ok (if 0 <? dec_value 0 l then FIELD_MODULUS - dec_value 0 l else 0).
Proof.
  unfold IsFieldElement. intros H%andb_true_iff. destruct H as [_ H].
  destruct (pattern_reading s H) as [l ? ? ?| | |l Hs Hne Hl].
  - left. by eapply reading_0x.
  - left. by apply reading_hex.
  - left. by apply reading_dec.
  - right. exists l. split; [done|]. split; [done|]. by apply reading_neg.
Qed.

Lemma field_element_readers_agree_witness : IsFieldElement "0x1f" = true /\
  ((exists n, 0 <= n /\ parseFieldElement "0x1f" = Ok n /\ toBigInt "0x1f" = Ok n)
   \/ exists l, chars "0x1f" = chars "-" ++ l /\ forallb is_digit l = true
     /\ parseFieldElement "0x1f" = Throw (SyntaxError "Cannot convert to a BigInt")
     /\ toBigInt "0x1f" = Ok (if 0 <? dec_value 0 l then FIELD_MODULUS - dec_value 0 l else 0)).
Proof. split; [vm_compute; reflexivity|]. apply field_element_readers_agree. vm_compute. reflexivity. Defined.

