(* ===== verification/Slashing.v ===== *)
(** * Slashing a double-spent note

    [src/longjing/slashing.service.ts]: the secret key two RLN signals reveal,
    and the transaction that slashes its note. The contract and the signer of
    [BlockchainService] are parameters; every transaction sent is recorded. *)

From Stdlib Require Import Field Ring Zmod ZmodInv.
From S2P Require Import Prelude Field JsText FieldElement.
Open Scope Z_scope.

(** ** The key two signals reveal *)

Definition recoverSecretKey (signal1 signal2 : Z * Z) : result Z :=
  let p := BN254_SCALAR_FIELD in
  let modp v := Z.rem (Z.rem v p + p) p in
  let denominator := modp (signal2.1 - signal1.1) in
  if denominator =? 0 then Throw (Error "Signals share x, so they reveal nothing")
  else
    let inverse := match p - 2 with Z.pos e => square_multiply e 1 denominator | _ => 1 end in
    Ok (modp ((signal1.2 * signal2.1 - signal2.2 * signal1.1) * inverse)).

(** ** The service *)

Record StoredSignal : Type := { st_x : string; st_y : string }.

#[export] Instance StoredSignal_eq_dec : EqDecision StoredSignal.
Proof. solve_decision. Defined.

(** What the service reads of [BlockchainService] and of the contract it builds:
    [submit] is [contract.slash(k)] answering the hash, [confirm] is [tx.wait()]. *)
Record Slasher : Type := {
  getSigner : option string;
  getContractAddress : option string;
  submit : Z -> result string;
  confirm : string -> result unit;
}.

Definition slashingContract (b : Slasher) : option (Z -> result string) :=
  match getSigner b, getContractAddress b with
  | Some _, Some address => if str_len address =? 0 then None else Some (submit b)
  | _, _ => None
  end.

Definition isEnabled (b : Slasher) : bool :=
  match slashingContract b with Some _ => true | None => false end.

(** The first component is the keys for which a transaction was submitted. *)
Definition slash (b : Slasher) (secretKey : Z) : list Z * result (option string) :=
  match slashingContract b with
  | None => ([], Ok None)
  | Some contract_slash =>
      match (let* txHash := contract_slash secretKey in
             let* _ := confirm b txHash in Ok txHash) with
      | Ok txHash => ([secretKey], Ok (Some txHash))
      | Throw _ => ([secretKey], Throw (Error "Slashing transaction failed"))
      end
  end.

Definition read_signal (s : StoredSignal) : result (Z * Z) :=
  let* x := BigInt (st_x s) in
  let* y := BigInt (st_y s) in
  Ok (x, y).

(** Never throws: the [try] logs every error. *)
Definition slashRevealed (b : Slasher) (signal1 signal2 : StoredSignal) : list Z :=
  if negb (isEnabled b) then []
  else
    match (let* s1 := read_signal signal1 in
           let* s2 := read_signal signal2 in
           recoverSecretKey s1 s2) with
    | Ok secretKey => fst (slash b secretKey)
    | Throw _ => []
    end.

Definition getSlasherAddress (b : Slasher) : option string := getSigner b.

(** ** Facts *)

Lemma recover_modp v : Z.rem (Z.rem v BN254_SCALAR_FIELD + BN254_SCALAR_FIELD) BN254_SCALAR_FIELD = mod_p v.
Proof. reflexivity. Qed.

Lemma square_multiply_inv e d : 0 <= d -> FIELD_MODULUS - 2 = Z.pos e ->
  toF (square_multiply e 1 d) = Zmod.inv (toF d).
Proof.
  intros Hd He. rewrite square_multiply_spec, Z.mul_1_l by lia. rewrite <- He.
  pose proof FIELD_MODULUS_gt.
  rewrite Zmod.of_Z_mod, Zmod.of_Z_pow by lia. apply F_pow_inv.
Qed.

Add Field F_field_slashing : F_field_theory.

Lemma recoverSecretKey_eq s1 s2 :
  recoverSecretKey s1 s2 =
  let denominator := mod_p (s2.1 - s1.1) in
  if denominator =? 0 then Throw (Error "Signals share x, so they reveal nothing")
  else Ok (mod_p ((s1.2 * s2.1 - s2.2 * s1.1) *
             match FIELD_MODULUS - 2 with Z.pos e => square_multiply e 1 denominator | _ => 1 end)).
Proof. reflexivity. Qed.

(** The recovery is a division in the field. *)
Lemma recoverSecretKey_F s1 s2 : mod_p (s2.1 - s1.1) <> 0 ->
  exists k, recoverSecretKey s1 s2 = Ok k /\ 0 <= k < FIELD_MODULUS
    /\ toF k = ((toF s1.2 * toF s2.1 - toF s2.2 * toF s1.1) / (toF s2.1 - toF s1.1))%F.
Proof.
  intros Hne. rewrite recoverSecretKey_eq. cbv zeta.
  apply Z.eqb_neq in Hne. rewrite Hne. pose proof FIELD_MODULUS_gt.
  destruct (FIELD_MODULUS - 2) as [|e|] eqn:He; [lia| |lia].
  eexists. split; [reflexivity|]. split; [apply mod_p_range|].
  rewrite F_mod_p, Zmod.of_Z_mul, square_multiply_inv by (done || apply mod_p_range).
  to_F. reflexivity.
Qed.

Lemma recoverSecretKey_shares_x s1 s2 : mod_p (s2.1 - s1.1) = 0 ->
  recoverSecretKey s1 s2 = Throw (Error "Signals share x, so they reveal nothing").
Proof. intros H. rewrite recoverSecretKey_eq. cbv zeta. by rewrite H. Qed.

Lemma mod_p_sub_0 x y : mod_p (x - y) = 0 <-> mod_p x = mod_p y.
Proof.
  rewrite <- toF_eq_0, <- F_eq_iff, Zmod.of_Z_sub. split; intros H.
  - transitivity (toF x - toF y + toF y)%F; [ring|]. rewrite H. ring.
  - rewrite H. ring.
Qed.

(** Two points of one line with different [x] reveal its constant term. *)
Lemma recover_line k a x1 y1 x2 y2 :
  mod_p y1 = mod_p (k + a * x1) -> mod_p y2 = mod_p (k + a * x2) -> mod_p x1 <> mod_p x2 ->
  recoverSecretKey (x1, y1) (x2, y2) = Ok (mod_p k).
Proof.
  intros H1 H2 Hx. assert (Hd : mod_p (x2 - x1) <> 0) by (rewrite mod_p_sub_0; congruence).
  destruct (recoverSecretKey_F (x1, y1) (x2, y2) Hd) as (k' & -> & Hr & Hk'). cbn [fst snd] in Hk'.
  f_equal. apply F_eq_small; [exact Hr|apply mod_p_range|]. rewrite F_mod_p, Hk'.
  apply F_eq_iff in H1, H2. rewrite H1, H2, !Zmod.of_Z_add, !Zmod.of_Z_mul.
  rewrite <- toF_eq_0, Zmod.of_Z_sub in Hd. field. exact Hd.
Qed.

(** What two points of one line make [slashRevealed] send. *)
Lemma slashRevealed_line b k a x1 y1 x2 y2 :
  mod_p y1 = mod_p (k + a * x1) -> mod_p y2 = mod_p (k + a * x2) ->
  slashRevealed b {| st_x := toString x1; st_y := toString y1 |}
                  {| st_x := toString x2; st_y := toString y2 |}
  = if isEnabled b && negb (mod_p x1 =? mod_p x2) then [mod_p k] else [].
Proof.
  intros H1 H2. unfold slashRevealed, read_signal. cbn [st_x st_y].
  destruct (isEnabled b) eqn:Hb; cbn [negb andb]; [|reflexivity].
  rewrite !toString_ok. cbn [rbind].
  destruct (Z.eqb_spec (mod_p x1) (mod_p x2)) as [Hx|Hx]; cbn [negb].
  { rewrite recoverSecretKey_shares_x; [reflexivity|]. apply mod_p_sub_0. by symmetry. }
  rewrite (recover_line k a) by done. unfold isEnabled in Hb. unfold slash.
  destruct (slashingContract b) as [send|]; [|discriminate].
  by destruct (rbind _ _).
Qed.

(** ** Properties *)

(** Two points of the line [y = k + a x] with different [x] reveal exactly
    its constant term [k] modulo p; two that share [x] are refused. *)
Theorem recoverSecretKey_correct k a x1 y1 x2 y2 :
  mod_p y1 = mod_p (k + a * x1) -> mod_p y2 = mod_p (k + a * x2) ->
  recoverSecretKey (x1, y1) (x2, y2)
  = if mod_p x1 =? mod_p x2 then Throw (Error "Signals share x, so they reveal nothing")
    else Ok (mod_p k).
Proof.
  intros H1 H2. destruct (Z.eqb_spec (mod_p x1) (mod_p x2)) as [Hx|Hx].
  { apply recoverSecretKey_shares_x, mod_p_sub_0. by symmetry. }
  by apply (recover_line k a).
Qed.

Lemma recoverSecretKey_correct_witness :
  recoverSecretKey (2, 17) (3, 22)
  = if mod_p 2 =? mod_p 3 then Throw (Error "Signals share x, so they reveal nothing")
    else Ok (mod_p 7).
Proof. apply (recoverSecretKey_correct 7 5 2 17 3 22); vm_compute; reflexivity. Defined.

(** When slashing is configured and the two stored signals are points of one
    line with different [x], exactly one transaction is sent, and it carries the
    key; with slashing unconfigured or a shared [x] none is sent. Nothing is
    thrown either way. *)
Theorem slashRevealed_sends_key b k a x1 y1 x2 y2 :
  mod_p y1 = mod_p (k + a * x1) -> mod_p y2 = mod_p (k + a * x2) ->
  slashRevealed b {| st_x := toString x1; st_y := toString y1 |}
                  {| st_x := toString x2; st_y := toString y2 |}
  = if isEnabled b && negb (mod_p x1 =? mod_p x2) then [mod_p k] else [].
Proof. apply slashRevealed_line. Qed.

Definition toy_slasher : Slasher :=
  {| getSigner := Some "0xsigner"%string; getContractAddress := Some "0xcontract"%string;
     submit := fun _ => Ok "0xhash"%string; confirm := fun _ => Ok tt |}.

Lemma slashRevealed_sends_key_witness :
  slashRevealed toy_slasher {| st_x := toString 2; st_y := toString 17 |}
                  {| st_x := toString 3; st_y := toString 22 |}
  = if isEnabled toy_slasher && negb (mod_p 2 =? mod_p 3) then [mod_p 7] else [].
Proof. apply (slashRevealed_sends_key toy_slasher 7 5); vm_compute; reflexivity. Defined.
