(* ===== verification/NullifierStore.v ===== *)
(** * The nullifier store

    [src/longjing/nullifier-store.service.ts]: the table (N, x, y), the
    migration of older tables, the per-nullifier rate limit and the responses
    kept for retries. The SQLite table is a map keyed by its primary key;
    [Date.now()] is an argument. [store_eq] is what a caller can observe from a
    time on: the clean-up timers are invisible to it. *)

From Stdlib Require Import String.
From S2P Require Import Prelude JsText Slashing.
Open Scope Z_scope.

Definition RATE_LIMIT_WINDOW_MS : Z := 60000.
Definition RATE_LIMIT_MAX_ATTEMPTS : nat := 3.
Definition RESPONSE_TTL_MS : Z := 10 * 60 * 1000.

(** ** State *)

Record CachedResponse (R : Type) : Type :=
  { c_signal : StoredSignal; c_response : R; c_expiresAt : Z }.
Arguments c_signal {R}.
Arguments c_response {R}.
Arguments c_expiresAt {R}.

Record store (R : Type) : Type := {
  db : gmap string StoredSignal;
  nullifierAttempts : gmap string (list Z);
  responses : gmap string (CachedResponse R);
}.
Arguments db {R}.
Arguments nullifierAttempts {R}.
Arguments responses {R}.

Definition empty_store {R} : store R :=
  {| db := ∅; nullifierAttempts := ∅; responses := ∅ |}.

Section Store.
Context {R : Type}.
Implicit Types (s : store R) (n : string) (now : Z).

(** ** Spent nullifiers *)

Definition get n s : option StoredSignal := db s !! n.

Definition exists_ n s : bool := match db s !! n with Some _ => true | None => false end.

(** One synchronous transaction: the previous signal, or [None] after inserting. *)
Definition checkAndSet n (signal : StoredSignal) s : store R * option StoredSignal :=
  match get n s with
  | Some existing => (s, Some existing)
  | None => ({| db := <[n := signal]> (db s); nullifierAttempts := nullifierAttempts s;
                responses := responses s |}, None)
  end.

Definition clear s : store R :=
  {| db := ∅; nullifierAttempts := nullifierAttempts s; responses := ∅ |}.

Definition count s : nat := size (db s).

(** ** Responses kept for retries *)

Definition rememberResponse n (signal : StoredSignal) (response : R) now s : store R :=
  {| db := db s; nullifierAttempts := nullifierAttempts s;
     responses := <[n := {| c_signal := signal; c_response := response;
                            c_expiresAt := now + RESPONSE_TTL_MS |}]> (responses s) |}.

Definition recallResponse n (signal : StoredSignal) now s : option R :=
  match responses s !! n with
  | None => None
  | Some cached =>
      if c_expiresAt cached <=? now then None
      else if negb (bool_decide (st_x (c_signal cached) = st_x signal))
              || negb (bool_decide (st_y (c_signal cached) = st_y signal)) then None
      else Some (c_response cached)
  end.

Definition cleanupResponses now s : store R :=
  {| db := db s; nullifierAttempts := nullifierAttempts s;
     responses := filter (fun kv => ~ c_expiresAt kv.2 <= now) (responses s) |}.

(** ** The rate limit *)

Definition recent now (attempts : list Z) : list Z :=
  filter (fun timestamp => now - timestamp < RATE_LIMIT_WINDOW_MS) attempts.

Definition attempts_of n s : list Z := default [] (nullifierAttempts s !! n).

Definition with_attempts (m : gmap string (list Z)) s : store R :=
  {| db := db s; nullifierAttempts := m; responses := responses s |}.

Definition cleanup_entry now (attempts : list Z) : option (list Z) :=
  let recentAttempts := recent now attempts in
  match recentAttempts with
  | [] => None
  | _ => Some (if (length recentAttempts <? length attempts)%nat then recentAttempts else attempts)
  end.

Definition cleanupRateLimitMap now s : store R :=
  with_attempts (omap (cleanup_entry now) (nullifierAttempts s)) s.

Definition checkRateLimit n now s : store R * bool :=
  let recentAttempts := recent now (attempts_of n s) in
  if (RATE_LIMIT_MAX_ATTEMPTS <=? length recentAttempts)%nat then (s, false)
  else
    let s' := with_attempts (<[n := recentAttempts ++ [now]]> (nullifierAttempts s)) s in
    (if (1000 <? size (nullifierAttempts s'))%nat then cleanupRateLimitMap now s' else s', true).

Definition getRemainingAttempts n now s : nat :=
  Nat.max 0 (RATE_LIMIT_MAX_ATTEMPTS - length (recent now (attempts_of n s))).

(** The timer of [onModuleInit], every five minutes. *)
Definition cleanup_tick now s : store R := cleanupResponses now (cleanupRateLimitMap now s).

(** ** The operations as one interface *)

Inductive op : Type :=
| OpGet (n : string)
| OpExists (n : string)
| OpCheckAndSet (n : string) (signal : StoredSignal)
| OpRemember (n : string) (signal : StoredSignal) (response : R)
| OpRecall (n : string) (signal : StoredSignal)
| OpClear
| OpCount
| OpRateLimit (n : string)
| OpRemaining (n : string)
| OpTick.

Inductive answer : Type :=
| ASignal (o : option StoredSignal)
| ABool (b : bool)
| AResponse (o : option R)
| ANat (k : nat)
| AUnit.

Definition exec (o : op) now s : store R * answer :=
  match o with
  | OpGet n => (s, ASignal (get n s))
  | OpExists n => (s, ABool (exists_ n s))
  | OpCheckAndSet n sg => let '(s', r) := checkAndSet n sg s in (s', ASignal r)
  | OpRemember n sg r => (rememberResponse n sg r now s, AUnit)
  | OpRecall n sg => (s, AResponse (recallResponse n sg now s))
  | OpClear => (clear s, AUnit)
  | OpCount => (s, ANat (count s))
  | OpRateLimit n => let '(s', b) := checkRateLimit n now s in (s', ABool b)
  | OpRemaining n => (s, ANat (getRemainingAttempts n now s))
  | OpTick => (cleanup_tick now s, AUnit)
  end.

(** A run of timed calls, with the answers in order. *)
Fixpoint exec_all (calls : list (Z * op)) s : store R * list answer :=
  match calls with
  | [] => (s, [])
  | (now, o) :: calls' =>
      let '(s1, a) := exec o now s in
      let '(s2, answers) := exec_all calls' s1 in
      (s2, a :: answers)
  end.

(** Calls in time order, none before [from]. *)
Fixpoint ordered {O : Type} (from : Z) (calls : list (Z * O)) : Prop :=
  match calls with [] => True | (now, _) :: calls' => from <= now /\ ordered now calls' end.
End Store.
Arguments op : clear implicits.
Arguments answer : clear implicits.

(** ** What is observable from a time on *)

Lemma recent_recent t1 t2 l : t1 <= t2 -> recent t2 (recent t1 l) = recent t2 l.
Proof. intros H. apply filter_filter_and. lia. Qed.

Lemma recent_app t l1 l2 : recent t (l1 ++ l2) = recent t l1 ++ recent t l2.
Proof. apply filter_app. Qed.

Section Observation.
Context {R : Type}.
Implicit Types (s : store R) (n : string) (now : Z).

Definition live_response n now s : option (CachedResponse R) :=
  match responses s !! n with
  | Some c => if c_expiresAt c <=? now then None else Some c
  | None => None
  end.

Record store_eq (now : Z) (s1 s2 : store R) : Prop := {
  se_db : db s1 = db s2;
  se_attempts n t : now <= t -> recent t (attempts_of n s1) = recent t (attempts_of n s2);
  se_responses n t : now <= t -> live_response n t s1 = live_response n t s2;
}.

#[export] Instance store_eq_equiv now : Equivalence (store_eq now).
Proof.
  split.
  - intros s. by split.
  - intros s1 s2 [H1 H2 H3]. split; [done| |]; intros; symmetry; auto.
  - intros s1 s2 s3 [H1 H2 H3] [H4 H5 H6].
    split; [congruence| |]; intros n t Ht; [rewrite H2 by done|rewrite H3 by done]; auto.
Qed.

Lemma store_eq_later now now' s1 s2 : now <= now' -> store_eq now s1 s2 -> store_eq now' s1 s2.
Proof.
  intros Hle [H1 H2 H3]. split; [done| |]; intros n t Ht; [apply H2|apply H3]; lia.
Qed.

Lemma live_response_recall n sg now s :
  recallResponse n sg now s =
  match live_response n now s with
  | None => None
  | Some cached =>
      if negb (bool_decide (st_x (c_signal cached) = st_x sg))
         || negb (bool_decide (st_y (c_signal cached) = st_y sg)) then None
      else Some (c_response cached)
  end.
Proof.
  unfold recallResponse, live_response. destruct (responses s !! n) as [c|]; [|done].
  by destruct (c_expiresAt c <=? now).
Qed.

Lemma attempts_of_cleanup n now s :
  attempts_of n (cleanupRateLimitMap now s)
  = if decide (recent now (attempts_of n s) = []) then []
    else if (length (recent now (attempts_of n s)) <? length (attempts_of n s))%nat
         then recent now (attempts_of n s) else attempts_of n s.
Proof.
  unfold attempts_of, cleanupRateLimitMap, with_attempts; cbn [nullifierAttempts].
  rewrite lookup_omap. destruct (nullifierAttempts s !! n) as [l|]; simpl; [|done].
  unfold cleanup_entry. by destruct (recent now l) eqn:E.
Qed.

Lemma cleanup_attempts n now t s : now <= t ->
  recent t (attempts_of n (cleanupRateLimitMap now s)) = recent t (attempts_of n s).
Proof.
  intros Ht. rewrite attempts_of_cleanup.
  destruct (decide (recent now (attempts_of n s) = [])) as [E|E].
  - rewrite <- (recent_recent now t (attempts_of n s)) by done. by rewrite E.
  - destruct (_ <? _)%nat; [|done]. by apply recent_recent.
Qed.

Lemma cleanup_rate_eq now s : store_eq now (cleanupRateLimitMap now s) s.
Proof. split; [done| |done]. intros n t Ht. by apply cleanup_attempts. Qed.

Lemma cleanup_responses_eq now s : store_eq now (cleanupResponses now s) s.
Proof.
  split; [done|done|]. intros n t Ht. unfold live_response, cleanupResponses; cbn [responses].
  destruct (responses s !! n) as [c|] eqn:E.
  - destruct (decide (c_expiresAt c <= now)) as [Hc|Hc].
    + rewrite map_lookup_filter_None_2 by (right; intros c' ?; simplify_eq; simpl; tauto).
      destruct (Z.leb_spec (c_expiresAt c) t); [done|lia].
    + by rewrite (map_lookup_filter_Some_2 _ _ _ c).
  - rewrite map_lookup_filter_None_2 by by left. done.
Qed.

Lemma tick_eq now s : store_eq now (cleanup_tick now s) s.
Proof. unfold cleanup_tick. rewrite cleanup_responses_eq. apply cleanup_rate_eq. Qed.

(** Every operation respects the observation, with the same answer. *)
Lemma exec_proper o now s1 s2 : store_eq now s1 s2 ->
  (exec o now s1).2 = (exec o now s2).2 /\ store_eq now (exec o now s1).1 (exec o now s2).1.
Proof.
  intros He. pose proof He as [Hdb Hat Hre].
  destruct o as [n|n|n sg|n sg r|n sg| | |n|n|]; cbn [exec].
  - unfold get. rewrite Hdb. by split.
  - unfold exists_. rewrite Hdb. by split.
  - unfold checkAndSet, get. destruct (db s1 !! n) eqn:E; rewrite Hdb in E; rewrite E; [by split|].
    split; [done|]. split; cbn; [congruence|exact Hat|exact Hre].
  - split; [done|]. split; [done|done|]. intros n' t Ht.
    unfold live_response, rememberResponse; cbn [fst responses].
    destruct (decide (n = n')) as [->|]; [by rewrite !lookup_insert_eq|].
    rewrite !lookup_insert_ne by done. by apply Hre.
  - rewrite !live_response_recall, Hre by lia. by split.
  - split; [done|]. by split.
  - unfold count. rewrite Hdb. by split.
  - unfold checkRateLimit. rewrite Hat by lia. destruct (_ <=? _)%nat; [by split|].
    cbn [fst snd]. split; [done|].
    assert (Hw : store_eq now
      (with_attempts (<[n := recent now (attempts_of n s2) ++ [now]]> (nullifierAttempts s1)) s1)
      (with_attempts (<[n := recent now (attempts_of n s2) ++ [now]]> (nullifierAttempts s2)) s2)).
    { split; [done| |done]. intros n' t Ht. unfold attempts_of, with_attempts; cbn [nullifierAttempts].
      destruct (decide (n = n')) as [->|]; [by rewrite !lookup_insert_eq|].
      rewrite !lookup_insert_ne by done. by apply Hat. }
    destruct (1000 <? _)%nat, (1000 <? _)%nat; rewrite ?cleanup_rate_eq; exact Hw.
  - unfold getRemainingAttempts. rewrite Hat by lia. by split.
  - split; [done|]. by rewrite !tick_eq.
Qed.

Lemma exec_all_proper calls now s1 s2 : ordered now calls -> store_eq now s1 s2 ->
  (exec_all calls s1).2 = (exec_all calls s2).2.
Proof.
  revert now s1 s2; induction calls as [|[t o] calls IH]; intros now s1 s2 Hord He; [done|].
  cbn [ordered exec_all] in *. destruct Hord as [Hle Hord].
  destruct (exec_proper o t s1 s2 (store_eq_later _ _ _ _ Hle He)) as [Ha Hs].
  destruct (exec o t s1) as [s1' a1], (exec o t s2) as [s2' a2]; cbn [fst snd] in *.
  specialize (IH t s1' s2' Hord Hs).
  destruct (exec_all calls s1'), (exec_all calls s2'); cbn [snd] in *. congruence.
Qed.
End Observation.

(** ** Histories of calls *)

Section Histories.
Context {R : Type}.
Implicit Types (s : store R) (calls : list (Z * op R)) (answers : list (answer R)).

(** The times at which [checkRateLimit n] answered true. *)
Fixpoint accepted (n : string) calls answers : list Z :=
  match calls, answers with
  | (now, OpRateLimit m) :: calls', ABool b :: answers' =>
      (if bool_decide (m = n) && b then [now] else []) ++ accepted n calls' answers'
  | _ :: calls', _ :: answers' => accepted n calls' answers'
  | _, _ => []
  end.

(** The signals offered under [n], and what each offer was answered. *)
Fixpoint offered (n : string) calls : list StoredSignal :=
  match calls with
  | (_, OpCheckAndSet m sg) :: calls' =>
      (if bool_decide (m = n) then [sg] else []) ++ offered n calls'
  | _ :: calls' => offered n calls'
  | [] => []
  end.

Fixpoint offer_answers (n : string) calls answers : list (option StoredSignal) :=
  match calls, answers with
  | (_, OpCheckAndSet m _) :: calls', ASignal o :: answers' =>
      (if bool_decide (m = n) then [o] else []) ++ offer_answers n calls' answers'
  | _ :: calls', _ :: answers' => offer_answers n calls' answers'
  | _, _ => []
  end.

Definition is_clear (o : op R) : bool := match o with OpClear => true | _ => false end.

Definition no_clear calls : Prop := Forall (fun c => is_clear c.2 = false) calls.

Definition in_window (w : Z) (h : list Z) : list Z :=
  filter (fun t => w <= t < w + RATE_LIMIT_WINDOW_MS) h.

(** The store remembers exactly the accepted attempts of the last minute. *)
Definition tracks (n : string) (now : Z) s (h : list Z) : Prop :=
  (forall t, now <= t -> recent t (attempts_of n s) = recent t h)
  /\ Forall (fun t => t <= now) h
  /\ forall w, (length (in_window w h) <= 3)%nat.

Lemma tracks_later n now now' s h : now <= now' -> tracks n now s h -> tracks n now' s h.
Proof.
  intros Hle (H1 & H2 & H3). split; [intros t Ht; apply H1; lia|]. split; [|done].
  eapply Forall_impl; [exact H2|]. simpl. lia.
Qed.

Lemma tracks_accept n now s h :
  tracks n now s h -> (length (recent now h) < 3)%nat -> 
  (forall w, (length (in_window w (h ++ [now])) <= 3)%nat).
Proof.
  intros (_ & Hle & Hw) Hlt w. unfold in_window. rewrite filter_app, length_app.
  rewrite filter_cons. destruct (decide (w <= now < w + RATE_LIMIT_WINDOW_MS)) as [Hn|Hn].
  - assert (length (in_window w h) <= length (recent now h))%nat.
    { apply filter_length_mono. intros t Ht ?. rewrite Forall_forall in Hle. specialize (Hle t Ht). lia. }
    unfold in_window in *. simpl. lia.
  - specialize (Hw w). unfold in_window in Hw. simpl. lia.
Qed.

Lemma tracks_eq n now s1 s2 h : store_eq now s1 s2 -> tracks n now s1 h -> tracks n now s2 h.
Proof.
  intros [_ Ha _] (H1 & H2). split; [|done]. intros t Ht. rewrite <- Ha by done. auto.
Qed.

Lemma tracks_attempts n now s s' h : attempts_of n s = attempts_of n s' ->
  tracks n now s h -> tracks n now s' h.
Proof. intros E (H1 & H2). split; [|done]. intros t Ht. rewrite <- E. auto. Qed.

Lemma checkRateLimit_answer n now s h : tracks n now s h ->
  (checkRateLimit n now s).2 = (length (recent now h) <? 3)%nat.
Proof.
  intros (H1 & _). unfold checkRateLimit, RATE_LIMIT_MAX_ATTEMPTS. rewrite H1 by lia.
  destruct (Nat.leb_spec 3 (length (recent now h))), (Nat.ltb_spec (length (recent now h)) 3);
    (done || lia).
Qed.

Lemma checkRateLimit_tracks n m now s h : tracks n now s h ->
  tracks n now (checkRateLimit m now s).1
    (h ++ if bool_decide (m = n) && (checkRateLimit m now s).2 then [now] else []).
Proof.
  intros Ht. destruct (decide (m = n)) as [->|Hne].
  - rewrite bool_decide_true by done. cbn [andb]. rewrite (checkRateLimit_answer n now s h Ht).
    pose proof Ht as (H1 & H2 & H3). unfold checkRateLimit, RATE_LIMIT_MAX_ATTEMPTS.
    rewrite H1 by lia.
    destruct (Nat.leb_spec 3 (length (recent now h))) as [Hl|Hl],
      (Nat.ltb_spec (length (recent now h)) 3) as [Hl'|Hl']; try lia; cbn [fst].
    { by rewrite app_nil_r. }
    assert (Hnew : tracks n now
      (with_attempts (<[n := recent now h ++ [now]]> (nullifierAttempts s)) s) (h ++ [now])).
    { split; [|split; [|by apply (tracks_accept n now s)]].
      - intros t Hle. unfold attempts_of, with_attempts; cbn [nullifierAttempts].
        rewrite lookup_insert_eq. cbn [default]. unfold default, id.
        by rewrite !recent_app, recent_recent by done.
      - apply Forall_app. split; [done|]. constructor; [lia|constructor]. }
    destruct (_ <? _)%nat; [|done]. eapply tracks_eq; [|exact Hnew].
    symmetry. apply cleanup_rate_eq.
  - rewrite bool_decide_false by done. cbn [andb]. rewrite app_nil_r.
    unfold checkRateLimit. destruct (_ <=? _)%nat; [done|]. cbn [fst].
    assert (Hnew : tracks n now (with_attempts (<[m := recent now (attempts_of m s) ++ [now]]>
                                  (nullifierAttempts s)) s) h).
    { eapply tracks_attempts; [|exact Ht]. unfold attempts_of, with_attempts; cbn [nullifierAttempts].
      by rewrite lookup_insert_ne. }
    destruct (_ <? _)%nat; [|done]. eapply tracks_eq; [|exact Hnew].
    symmetry. apply cleanup_rate_eq.
Qed.

Lemma exec_tracks n o now s h : tracks n now s h ->
  tracks n now (exec o now s).1 (h ++ accepted n [(now, o)] [(exec o now s).2]).
Proof.
  intros Ht. destruct o as [| |m sg| | | | |m| |]; cbn [exec accepted fst snd];
    rewrite ?app_nil_r; try done.
  - unfold checkAndSet. by destruct (get m s).
  - pose proof (checkRateLimit_tracks n m now s h Ht) as H.
    destruct (checkRateLimit m now s) as [s' b]. cbn [fst snd] in *.
    by rewrite app_nil_r.
  - eapply tracks_eq; [|exact Ht]. symmetry. apply tick_eq.
Qed.

Lemma exec_all_tracks n calls now s h : ordered now calls -> tracks n now s h ->
  let '(s', answers) := exec_all calls s in
  forall later, now <= later -> Forall (fun c => c.1 <= later) calls ->
    tracks n later s' (h ++ accepted n calls answers).
Proof.
  revert now s h; induction calls as [|[t o] calls IH]; intros now s h Hord Ht; cbn [exec_all].
  { intros later Hl _. simpl. rewrite app_nil_r. by apply (tracks_later n now). }
  destruct Hord as [Hle Hord].
  pose proof (exec_tracks n o t s h (tracks_later _ _ _ _ _ Hle Ht)) as H1.
  destruct (exec o t s) as [s1 a]. cbn [fst snd] in H1.
  specialize (IH t s1 _ Hord H1). destruct (exec_all calls s1) as [s2 answers].
  intros later Hl Hall. inversion Hall as [|? ? Htl Hall']; subst. cbn [fst] in Htl.
  specialize (IH later Htl Hall').
  replace (accepted n ((t, o) :: calls) (a :: answers))
    with (accepted n [(t, o)] [a] ++ accepted n calls answers); [by rewrite app_assoc|].
  destruct o, a; cbn [accepted]; rewrite ?app_nil_r; done.
Qed.

Lemma tracks_empty n now : tracks n now empty_store [].
Proof.
  split; [|split; [constructor|]].
  - intros t _. unfold attempts_of, empty_store; cbn [nullifierAttempts]. by rewrite lookup_empty.
  - intros w. simpl. lia.
Qed.

(** ** First writer wins *)

Lemma exec_keeps n sg o now s : is_clear o = false -> db s !! n = Some sg ->
  db (exec o now s).1 !! n = Some sg
  /\ offer_answers n [(now, o)] [(exec o now s).2] = map (fun _ => Some sg) (offered n [(now, o)]).
Proof.
  intros Hc Hs. destruct o as [| |m sg'| | | | |m| |]; cbn [exec offered offer_answers fst snd];
    try done.
  - unfold checkAndSet, get. destruct (db s !! m) as [old|] eqn:E; cbn [fst snd db].
    + split; [done|]. destruct (decide (m = n)) as [->|];
        [rewrite bool_decide_true by done|by rewrite bool_decide_false by done].
      simplify_eq. done.
    + destruct (decide (m = n)) as [->|]; [congruence|].
      rewrite lookup_insert_ne by done. by rewrite bool_decide_false by done.
  - unfold checkRateLimit. destruct (_ <=? _)%nat; [done|]. by destruct (_ <? _)%nat.
Qed.

Lemma offered_cons n t o calls : offered n ((t, o) :: calls) = offered n [(t, o)] ++ offered n calls.
Proof. destruct o; cbn [offered]; rewrite ?app_nil_r; done. Qed.

Lemma offer_answers_cons n t o a calls answers :
  offer_answers n ((t, o) :: calls) (a :: answers)
  = offer_answers n [(t, o)] [a] ++ offer_answers n calls answers.
Proof. destruct o, a; cbn [offer_answers]; rewrite ?app_nil_r; done. Qed.

Lemma exec_all_keeps n sg calls s : no_clear calls -> db s !! n = Some sg ->
  let '(s', answers) := exec_all calls s in
  db s' !! n = Some sg
  /\ offer_answers n calls answers = map (fun _ => Some sg) (offered n calls).
Proof.
  revert s; induction calls as [|[t o] calls IH]; intros s Hc Hs; cbn [exec_all]; [done|].
  inversion Hc as [|? ? Ho Hcs]; subst. cbn [snd] in Ho.
  destruct (exec_keeps n sg o t s Ho Hs) as [H1 H2].
  destruct (exec o t s) as [s1 a]. cbn [fst snd] in *.
  specialize (IH s1 Hcs H1). destruct (exec_all calls s1) as [s2 answers].
  destruct IH as [H3 H4]. split; [done|].
  by rewrite offered_cons, offer_answers_cons, map_app, H2, H4.
Qed.

Lemma exec_first n o now s : is_clear o = false -> db s !! n = None ->
  match offered n [(now, o)] with
  | [] => db (exec o now s).1 !! n = None /\ offer_answers n [(now, o)] [(exec o now s).2] = []
  | sg :: _ => db (exec o now s).1 !! n = Some sg
               /\ offered n [(now, o)] = [sg]
               /\ offer_answers n [(now, o)] [(exec o now s).2] = [None]
  end.
Proof.
  intros Hc Hs. destruct o as [| |m sg'| | | | |m| |]; cbn [exec offered offer_answers fst snd];
    try done.
  - destruct (decide (m = n)) as [->|Hne].
    + rewrite bool_decide_true by done. simpl. unfold checkAndSet, get. rewrite Hs. cbn.
      rewrite lookup_insert_eq. rewrite ?bool_decide_true by done. done.
    + rewrite bool_decide_false by done. simpl. unfold checkAndSet, get.
      destruct (db s !! m); cbn; rewrite ?lookup_insert_ne by done;
        rewrite ?bool_decide_false by done; done.
  - unfold checkRateLimit. destruct (_ <=? _)%nat; [done|]. by destruct (_ <? _)%nat.
Qed.
End Histories.

(** ** The migration of older tables *)

Definition row : Type := gmap string string.

Record Table : Type := { t_columns : list string; t_rows : list row }.

Record Database : Type := { nullifiers_table : option Table; redeemed_refunds : bool }.

Definition kept_columns : list string := ["nullifier"; "x"; "y"]%string.

Definition keep_columns (r : row) : row := filter (fun kv => kv.1 ∈ kept_columns) r.

Definition has_signal (r : row) : bool :=
  match r !! "x"%string, r !! "y"%string with Some _, Some _ => true | _, _ => false end.

(** [INSERT INTO nullifiers_new SELECT nullifier, x, y FROM nullifiers]: the
    NOT NULL and PRIMARY KEY constraints of the new table hold or it throws. *)
Definition rebuild (t : Table) : result Table :=
  if forallb (fun c => bool_decide (c ∈ t_columns t)) kept_columns
     && forallb has_signal (t_rows t)
     && bool_decide (NoDup (omap (fun r : row => r !! "nullifier"%string) (t_rows t)))
  then Ok {| t_columns := kept_columns; t_rows := map keep_columns (t_rows t) |}
  else Throw (JsError "SqliteError" "constraint failed").

Definition extra_columns (d : Database) : list string :=
  match nullifiers_table d with
  | Some t => filter (fun c => c ∉ kept_columns) (t_columns t)
  | None => []
  end.

Definition migrateToSignalsOnly (d : Database) : result Database :=
  let extra := extra_columns d in
  if negb (nonempty extra) && negb (redeemed_refunds d) then Ok d
  else
    let* t := match nullifiers_table d with
              | Some t => if nonempty extra then rmap Some (rebuild t) else Ok (Some t)
              | None => Ok None
              end in
    Ok {| nullifiers_table := t; redeemed_refunds := false |}.

(** [onModuleInit]: migrate, then CREATE TABLE IF NOT EXISTS. *)
Definition onModuleInit (d : Database) : result Database :=
  let* d' := migrateToSignalsOnly d in
  Ok {| nullifiers_table :=
          Some (match nullifiers_table d' with
                | Some t => t
                | None => {| t_columns := kept_columns; t_rows := [] |}
                end);
        redeemed_refunds := redeemed_refunds d' |}.

(** [SELECT x, y FROM nullifiers WHERE nullifier = ?]. *)
Definition row_signal (r : row) : option StoredSignal :=
  match r !! "x"%string, r !! "y"%string with
  | Some x, Some y => Some {| st_x := x; st_y := y |}
  | _, _ => None
  end.

Definition table_get (n : string) (d : Database) : option (option StoredSignal) :=
  match nullifiers_table d with
  | Some t => row_signal <$> head (filter (fun r : row => r !! "nullifier"%string = Some n) (t_rows t))
  | None => None
  end.

Lemma keep_lookup (r : row) c : c ∈ kept_columns -> keep_columns r !! c = r !! c.
Proof.
  intros Hc. unfold keep_columns. destruct (r !! c) eqn:E.
  - by apply map_lookup_filter_Some_2.
  - apply map_lookup_filter_None_2. by left.
Qed.

Lemma keep_row_signal r : row_signal (keep_columns r) = row_signal r.
Proof.
  unfold row_signal. rewrite !keep_lookup; [done| |]; unfold kept_columns; set_solver.
Qed.

Lemma filter_keep n (l : list row) :
  filter (fun r : row => r !! "nullifier"%string = Some n) (map keep_columns l)
  = map keep_columns (filter (fun r : row => r !! "nullifier"%string = Some n) l).
Proof.
  assert (Hk : forall r : row, keep_columns r !! "nullifier"%string = r !! "nullifier"%string).
  { intros r. apply keep_lookup. unfold kept_columns. set_solver. }
  induction l as [|r l IH]; [done|]. cbn [map]. rewrite !filter_cons, Hk.
  destruct (decide (r !! "nullifier"%string = Some n)); cbn [map]; by rewrite IH.
Qed.

Lemma rebuild_ok t t' : rebuild t = Ok t' ->
  t_columns t' = kept_columns /\ t_rows t' = map keep_columns (t_rows t).
Proof. unfold rebuild. destruct (_ && _); [|done]. by intros [= <-]. Qed.

Lemma extra_nil d : negb (nonempty (extra_columns d)) = true ->
  forall t, nullifiers_table d = Some t -> Forall (fun c => c ∈ kept_columns) (t_columns t).
Proof.
  unfold extra_columns. intros H t Ht. rewrite Ht in H. apply Forall_forall. intros c Hc.
  destruct (decide (c ∈ kept_columns)) as [|Hn]; [done|]. exfalso.
  assert (Hin : c ∈ filter (fun c => c ∉ kept_columns) (t_columns t)) by by apply list_elem_of_filter.
  by destruct (filter _ (t_columns t)); [apply not_elem_of_nil in Hin|].
Qed.

(** ** Properties *)

(** C36: the rate limit. Under any mix of calls in time order, a nullifier is
    accepted at most three times in every window of 60 seconds, and the next
    attempt is accepted exactly when fewer than three were in the last minute:
    neither the clean-up timer nor the clean-up of a large map changes that. *)
Theorem rate_limit_window {R} (n : string) (calls : list (Z * op R)) (from : Z) :
  ordered from calls ->
  let '(s, answers) := exec_all calls empty_store in
  let h := accepted n calls answers in
  (forall w, (length (in_window w h) <= 3)%nat)
  /\ forall now, from <= now -> Forall (fun c => c.1 <= now) calls ->
       (checkRateLimit n now s).2 = (length (recent now h) <? 3)%nat.
Proof.
  intros Hord. pose proof (exec_all_tracks n calls from _ [] Hord (tracks_empty n from)) as H.
  destruct (exec_all calls empty_store) as [s answers]. cbn [app] in H. split.
  - assert (Hmax : exists later, from <= later /\ Forall (fun c => c.1 <= later) calls).
    { clear - calls. induction calls as [|[t o] calls (l & H1 & H2)]; [by exists from|].
      exists (Z.max l t). split; [lia|]. constructor; [simpl; lia|].
      eapply Forall_impl; [exact H2|]. simpl. lia. }
    destruct Hmax as (later & H1 & H2). by destruct (H later H1 H2) as (_ & _ & ?).
  - intros now Hf Hall. apply checkRateLimit_answer. by apply H.
Qed.

Lemma rate_limit_window_witness :
  let calls : list (Z * op unit) :=
    [(0, OpRateLimit "7"); (1, OpRateLimit "7"); (1, OpTick); (2, OpRateLimit "7"); (3, OpRateLimit "7")]%string in
  let '(s, answers) := exec_all calls empty_store in
  let h := accepted "7" calls answers in
  (forall w, (length (in_window w h) <= 3)%nat)
  /\ forall now, 0 <= now -> Forall (fun c => c.1 <= now) calls ->
       (checkRateLimit "7" now s).2 = (length (recent now h) <? 3)%nat.
Proof.
  intros calls. apply (rate_limit_window "7" calls 0).
  vm_compute. repeat split; discriminate.
Defined.

(** The clean-up of expired entries is invisible: every later sequence of
    calls gets the same answers as if the timer had not run. *)
Theorem cleanup_invisible {R} (now : Z) (s : store R) (calls : list (Z * op R)) :
  ordered now calls ->
  (exec_all calls (cleanup_tick now s)).2 = (exec_all calls s).2.
Proof. intros H. apply (exec_all_proper calls now); [done|apply tick_eq]. Qed.

Lemma cleanup_invisible_witness :
  let s : store unit := (checkRateLimit "7" 0 empty_store).1 in
  (exec_all [(70000, OpRemaining "7")]%string (cleanup_tick 65000 s)).2
  = (exec_all [(70000, OpRemaining "7")]%string s).2.
Proof. intros s. apply cleanup_invisible. vm_compute. repeat split; discriminate. Defined.

(** First writer wins. As long as nothing clears the store, of all the
    signals offered under one nullifier the first is recorded (answer [null])
    and every later offer is answered with it, whatever runs in between. *)
Theorem checkAndSet_first_writer_wins {R} (n : string) (calls : list (Z * op R)) (s : store R) :
  no_clear calls -> db s !! n = None ->
  let '(s', answers) := exec_all calls s in
  match offered n calls with
  | [] => db s' !! n = None /\ offer_answers n calls answers = []
  | sg :: later => db s' !! n = Some sg
      /\ offer_answers n calls answers = None :: map (fun _ => Some sg) later
  end.
Proof.
  revert s; induction calls as [|[t o] calls IH]; intros s Hc Hs; cbn [exec_all]; [done|].
  inversion Hc as [|? ? Ho Hcs]; subst. cbn [snd] in Ho.
  pose proof (exec_first n o t s Ho Hs) as H1. rewrite offered_cons.
  destruct (exec o t s) as [s1 a] eqn:E. cbn [fst snd] in H1.
  destruct (offered n [(t, o)]) as [|sg rest] eqn:Eo; cbn [app].
  - destruct H1 as [H1 H2]. specialize (IH s1 Hcs H1).
    destruct (exec_all calls s1) as [s2 answers].
    rewrite offer_answers_cons, H2. exact IH.
  - destruct H1 as (H1 & H2 & H3). injection H2 as ->.
    pose proof (exec_all_keeps n sg calls s1 Hcs H1) as H4.
    destruct (exec_all calls s1) as [s2 answers]. destruct H4 as [H4 H5].
    rewrite offer_answers_cons, H3, H5. done.
Qed.

Lemma checkAndSet_first_writer_wins_witness :
  let sg x : StoredSignal := {| st_x := x; st_y := "1" |}%string in
  let calls : list (Z * op unit) :=
    [(0, OpCheckAndSet "7" (sg "2")); (1, OpTick); (2, OpCheckAndSet "7" (sg "3"))]%string in
  let '(s', answers) := exec_all calls empty_store in
  match offered "7" calls with
  | [] => db s' !! "7"%string = None /\ offer_answers "7" calls answers = []
  | sg :: later => db s' !! "7"%string = Some sg
      /\ offer_answers "7" calls answers = None :: map (fun _ => Some sg) later
  end.
Proof.
  intros sg calls. apply (checkAndSet_first_writer_wins "7" calls empty_store).
  - repeat constructor.
  - reflexivity.
Defined.

(** A migration that does not throw keeps every stored signal, leaves only
    the columns N, x and y and no redeemed refunds, and has nothing left to do
    the next time. *)
Theorem migration_keeps_only_signals (d d' : Database) :
  migrateToSignalsOnly d = Ok d' ->
  (forall n, table_get n d' = table_get n d)
  /\ redeemed_refunds d' = false
  /\ (forall t, nullifiers_table d' = Some t -> Forall (fun c => c ∈ kept_columns) (t_columns t))
  /\ migrateToSignalsOnly d' = Ok d'.
Proof.
  unfold migrateToSignalsOnly at 1.
  destruct (negb (nonempty (extra_columns d))) eqn:Ex; cbn [andb].
  - intros H. assert (Hd : nullifiers_table d' = nullifiers_table d /\ redeemed_refunds d' = false).
    { destruct (redeemed_refunds d) eqn:Er; cbn [negb] in H; [|by injection H as <-].
      destruct (nullifiers_table d) as [t|]; [rewrite (proj1 (negb_true_iff _) Ex) in H|];
        cbn in H; by injection H as <-. }
    destruct Hd as [Ht Hr].
    assert (He : extra_columns d' = extra_columns d) by (unfold extra_columns; by rewrite Ht).
    split; [intros n; unfold table_get; by rewrite Ht|]. split; [done|].
    split; [intros t Hd; apply (extra_nil d Ex); congruence|].
    unfold migrateToSignalsOnly. by rewrite He, Ex, Hr.
  - intros H. destruct (nullifiers_table d) as [t|] eqn:Et;
      [|unfold extra_columns in Ex; by rewrite Et in Ex].
    apply negb_false_iff in Ex. rewrite Ex in H. unfold rmap in H.
    destruct (rebuild t) as [t'|e] eqn:Eb; [|discriminate]. cbn [rbind] in H.
    injection H as <-. apply rebuild_ok in Eb as [Hc Hrows].
    split; [|split; [done|split]].
    + intros n. unfold table_get; cbn [nullifiers_table]. rewrite Et, Hrows, filter_keep.
      destruct (filter _ (t_rows t)) as [|r l]; cbn; [done|]. by rewrite keep_row_signal.
    + intros u [= <-]. rewrite Hc. apply Forall_forall. done.
    + unfold migrateToSignalsOnly, extra_columns; cbn [nullifiers_table redeemed_refunds].
      by rewrite Hc.
Qed.

Definition old_row : row :=
  list_to_map [("nullifier", "7"); ("x", "2"); ("y", "3"); ("timestamp", "1700")]%string.

Definition old_database : Database :=
  {| nullifiers_table := Some {| t_columns := ["nullifier"; "x"; "y"; "timestamp"]%string;
                                 t_rows := [old_row] |};
     redeemed_refunds := true |}.

Lemma migration_keeps_only_signals_witness :
  exists d', migrateToSignalsOnly old_database = Ok d'
    /\ table_get "7"%string d' = table_get "7"%string old_database.
Proof.
  eexists. split; [vm_compute; reflexivity|].
  apply (migration_keeps_only_signals old_database). vm_compute. reflexivity.
Defined.
