(* ===== verification/JsNumber.v ===== *)
(** * JavaScript numbers

    IEEE 754 doubles as the Standard Library's [spec_float] at precision 53:
    literals, arithmetic, comparisons, [Math.ceil] and friends and the
    conversions between numbers and BigInts. Everything evaluates. The lemmas
    follow the sign through rounding, which is what bounds refunds. *)

From Stdlib Require Import SpecFloat.
From S2P Require Import Prelude JsText.
Open Scope Z_scope.

Definition number : Type := spec_float.

Definition prec : Z := 53.
Definition emax : Z := 1024.

(** [Number(z)] of a BigInt, and integer literals. *)
Definition num (z : Z) : number := binary_normalize prec emax z 0 false.

Definition NaN : number := S754_nan.
Definition Infinity : number := S754_infinity false.

(** The double nearest to [m * 10^e], for a decimal literal. *)
Definition decimal (m e : Z) : number :=
  match m with
  | Z0 => S754_zero false
  | Z.pos p | Z.neg p =>
      if 0 <=? e then num (m * 10 ^ e)
      else
        let '(q, e', l) := SFdiv_core_binary prec emax (Z.pos p) 0 (10 ^ (- e)) 0 in
        binary_round_aux prec emax (m <? 0) q e' l
  end.

Definition nadd : number -> number -> number := SFadd prec emax.
Definition nsub : number -> number -> number := SFsub prec emax.
Definition nmul : number -> number -> number := SFmul prec emax.
Definition ndiv : number -> number -> number := SFdiv prec emax.

Definition nlt (x y : number) : bool := SFltb x y.
Definition nle (x y : number) : bool := SFleb x y.
Definition ngt (x y : number) : bool := SFltb y x.
Definition nge (x y : number) : bool := SFleb y x.
Definition neq (x y : number) : bool := SFeqb x y.

Definition isNaN (x : number) : bool := match x with S754_nan => true | _ => false end.

(** A number is falsy when it is a zero or NaN. *)
Definition truthy (x : number) : bool :=
  match x with S754_zero _ | S754_nan => false | _ => true end.

Definition cond_neg (s : bool) (z : Z) : Z := if s then - z else z.

(** Rounding to an integer: [Math.ceil], [Math.floor]; infinities and NaN stay. *)
Definition integer_part (up : bool) (s : bool) (m : positive) (e : Z) : Z :=
  if 0 <=? e then cond_neg s (Z.pos m * 2 ^ e)
  else
    let v := cond_neg s (Z.pos m) in
    if up then - (- v / 2 ^ (- e)) else v / 2 ^ (- e).

Definition round_to (up : bool) (x : number) : number :=
  match x with
  | S754_finite s m e =>
      if 0 <=? e then x else binary_normalize prec emax (integer_part up s m e) 0 s
  | _ => x
  end.

Definition Math_ceil : number -> number := round_to true.
Definition Math_floor : number -> number := round_to false.

(** [Math.min], [Math.abs]; NaN wins. *)
Definition Math_min (x y : number) : number :=
  if isNaN x || isNaN y then NaN else if nlt y x then y else x.
Definition Math_abs : number -> number := SFabs.

Definition isInteger (x : number) : bool :=
  match x with
  | S754_zero _ => true
  | S754_finite _ m e => (0 <=? e) || (Z.pos m mod 2 ^ (- e) =? 0)
  | _ => false
  end.

(** [BigInt(x)] of a number: a RangeError unless it is an integer. *)
Definition BigInt_of_number (x : number) : result Z :=
  match x with
  | S754_zero _ => Ok 0
  | S754_finite s m e =>
      if isInteger x then Ok (integer_part false s m e)
      else Throw (RangeError "not an integer")
  | _ => Throw (RangeError "not an integer")
  end.

(** ** The sign through rounding *)

(** Not negative: neither below zero nor NaN. *)
Definition nonneg (x : number) : bool :=
  match x with
  | S754_zero _ => true
  | S754_infinity s | S754_finite s _ _ => negb s
  | S754_nan => false
  end.

(** NaN or not negative: what rounding of a non-negative exact result gives. *)
Definition nonneg_or_nan (x : number) : bool :=
  match x with S754_nan => true | _ => nonneg x end.

Lemma nonneg_weaken x : nonneg x = true -> nonneg_or_nan x = true.
Proof. by destruct x. Qed.

Lemma binary_round_aux_nonneg m e l : nonneg_or_nan (binary_round_aux prec emax false m e l) = true.
Proof.
  unfold binary_round_aux.
  destruct (shr_fexp prec emax m e l) as [mrs e'].
  destruct (shr_fexp prec emax _ e' loc_Exact) as [mrs'' e''].
  destruct (shr_m mrs''); [done| |done]. by destruct (_ <=? _).
Qed.

Lemma binary_round_nonneg m e : nonneg_or_nan (binary_round prec emax false m e) = true.
Proof.
  unfold binary_round. destruct (shl_align _ _ _). apply binary_round_aux_nonneg.
Qed.

Lemma binary_normalize_nonneg z e : 0 <= z -> nonneg_or_nan (binary_normalize prec emax z e false) = true.
Proof. destruct z as [|p|p]; [done| |lia]. intros _. apply binary_round_nonneg. Qed.

Lemma num_nonneg z : 0 <= z -> nonneg_or_nan (num z) = true.
Proof. apply binary_normalize_nonneg. Qed.

Lemma nadd_nonneg x y : nonneg_or_nan x = true -> nonneg_or_nan y = true ->
  nonneg_or_nan (nadd x y) = true.
Proof.
  unfold nadd, SFadd. destruct x as [sx|sx| |sx mx ex], y as [sy|sy| |sy my ey]; simpl;
    intros Hx Hy; try done.
  - by destruct sx, sy.
  - by destruct sx, sy.
  - destruct sx, sy; try done. apply binary_normalize_nonneg. simpl.
    destruct (shl_align mx ex _), (shl_align my ey _); simpl. lia.
Qed.

Lemma nmul_nonneg x y : nonneg_or_nan x = true -> nonneg_or_nan y = true ->
  nonneg_or_nan (nmul x y) = true.
Proof.
  unfold nmul, SFmul. destruct x as [sx|sx| |sx mx ex], y as [sy|sy| |sy my ey]; simpl;
    intros Hx Hy; try done; destruct sx, sy; try done; try apply binary_round_aux_nonneg.
Qed.

(** A strictly positive divisor. *)
Definition positive_num (x : number) : bool :=
  match x with S754_infinity s | S754_finite s _ _ => negb s | _ => false end.

Lemma ndiv_nonneg x y : nonneg_or_nan x = true -> positive_num y = true ->
  nonneg_or_nan (ndiv x y) = true.
Proof.
  unfold ndiv, SFdiv. destruct x as [sx|sx| |sx mx ex], y as [sy|sy| |sy my ey];
    cbn [nonneg_or_nan nonneg positive_num negb]; intros Hx Hy; try done;
    destruct sx, sy; try done; cbn [xorb];
    destruct (SFdiv_core_binary _ _ _ _ _ _) as [[q e'] l]; apply binary_round_aux_nonneg.
Qed.

Lemma integer_part_nonneg up m e : 0 <= integer_part up false m e.
Proof.
  unfold integer_part, cond_neg. destruct (Z.leb_spec 0 e).
  - apply Z.mul_nonneg_nonneg; [lia|]. apply Z.pow_nonneg. lia.
  - assert (0 < 2 ^ (- e)) by (apply Z.pow_pos_nonneg; lia). destruct up.
    + assert (- Z.pos m / 2 ^ (- e) <= 0) by (apply Z.div_le_upper_bound; lia). lia.
    + apply Z.div_pos; lia.
Qed.

Lemma Math_ceil_nonneg x : nonneg_or_nan x = true -> nonneg_or_nan (Math_ceil x) = true.
Proof.
  unfold Math_ceil, round_to. destruct x as [s|s| |s m e]; try done.
  destruct (0 <=? e); [done|]. simpl. destruct s; [done|]. intros _.
  apply binary_normalize_nonneg, integer_part_nonneg.
Qed.

Lemma BigInt_of_number_nonneg x z : nonneg_or_nan x = true -> BigInt_of_number x = Ok z -> 0 <= z.
Proof.
  destruct x as [s|s| |s m e]; simpl; try done.
  - by intros _ [= <-].
  - destruct s; [done|]. intros _. destruct (_ || _); [|done].
    intros [= <-]. apply integer_part_nonneg.
Qed.

Lemma nle_zero_false_positive x : isNaN x = false -> nle x (S754_zero false) = false ->
  positive_num x = true.
Proof. destruct x as [s|s| |s m e]; try done; by destruct s. Qed.

#[export] Hint Resolve nadd_nonneg nmul_nonneg ndiv_nonneg num_nonneg Math_ceil_nonneg
  nonneg_weaken : longjing.

(** ** [parseFloat] *)

Fixpoint take_digits (l : list Ascii.ascii) : list Ascii.ascii * list Ascii.ascii :=
  match l with
  | c :: l' => if is_digit c then let '(ds, rest) := take_digits l' in (c :: ds, rest) else ([], l)
  | [] => ([], [])
  end.

(** An exponent part and what follows it; nothing is consumed unless a digit
    follows the [e] and its sign. *)
Definition take_exponent (l : list Ascii.ascii) : Z * list Ascii.ascii :=
  match l with
  | c :: l' =>
      if code (lower c) =? 101 then
        let '(s, l'') := match l' with
                         | d :: r => if code d =? 45 then (true, r)
                                     else if code d =? 43 then (false, r) else (false, l')
                         | [] => (false, [])
                         end in
        match take_digits l'' with
        | ([], _) => (0, l)
        | (ds, rest) => (cond_neg s (dec_value 0 ds), rest)
        end
      else (0, l)
  | [] => (0, [])
  end.

Definition signed (s : bool) (x : number) : number := if s then SFopp x else x.

(** A signed decimal literal at the start of the text, and what follows it. *)
Definition take_number (l : list Ascii.ascii) : number * list Ascii.ascii :=
  let '(s, l) := match l with
                 | d :: r => if code d =? 45 then (true, r)
                             else if code d =? 43 then (false, r) else (false, l)
                 | [] => (false, [])
                 end in
  if chars_prefix (chars "Infinity") l then (signed s Infinity, drop 8 l)
  else
    let '(whole, l1) := take_digits l in
    let '(frac, l2) := match l1 with
                       | d :: r => if code d =? 46 then take_digits r else ([], l1)
                       | [] => ([], [])
                       end in
    match whole, frac with
    | [], [] => (NaN, l)
    | _, _ =>
        let '(e, l3) := take_exponent l2 in
        (signed s (decimal (dec_value 0 (whole ++ frac)) (e - Z.of_nat (length frac))), l3)
    end.

(** [parseFloat(text)]: the longest literal; NaN without one. *)
Definition parseFloat (text : string) : number := fst (take_number (drop_spaces (chars text))).

(** [Number(text)]: the whole trimmed text is a literal, possibly with a radix
    prefix, or empty. *)
Definition Number_of_string (text : string) : number :=
  match chars (trim text) with
  | [] => num 0
  | l =>
      let '(x, rest) := take_number l in
      if nonempty rest then
        match l with
        | c0 :: c1 :: _ =>
            if (code c0 =? 48) && negb (is_digit c1) then
              match BigInt_of_string text with Some z => num z | None => NaN end
            else NaN
        | _ => NaN
        end
      else x
  end.
