(* ===== verification/Padding.v ===== *)
(** * Response padding

    [src/longjing/utils/response-padding.util.ts]. Contents are sequences of
    UTF-16 code units; sizes are UTF-8 bytes. [Math.pow(2, Math.ceil(Math.log2(n)))]
    is [2 ^ Z.log2_up n], exact for every size a string can have. *)

From S2P Require Import Prelude JsText JsNumber.
Open Scope Z_scope.

Definition SIZE_CLASSES : list Z :=
  [512; 1024; 2048; 4096; 8192; 16384; 32768; 65536; 131072; 262144].

Definition PADDING_MARKER : Z := 0.

Definition next_power_of_two (n : Z) : Z := 2 ^ Z.log2_up n.

Definition getSizeClass (contentLength : Z) : Z :=
  match find (fun size => contentLength <=? size) SIZE_CLASSES with
  | Some targetSize => targetSize
  | None => next_power_of_two contentLength
  end.

Definition padResponse (content : list Z) : list Z :=
  let currentSize := byteLength content in
  let targetSize := find (fun size => currentSize <=? size) SIZE_CLASSES in
  let finalTargetSize :=
    match targetSize with Some t => t | None => next_power_of_two currentSize end in
  let paddingSize := finalTargetSize - currentSize in
  if paddingSize <=? 0 then content
  else content ++ repeat PADDING_MARKER (Z.to_nat paddingSize).

(** [indexOf(marker)] then [substring(0, start)]. *)
Fixpoint unpadResponse (paddedContent : list Z) : list Z :=
  match paddedContent with
  | [] => []
  | u :: l => if u =? PADDING_MARKER then [] else u :: unpadResponse l
  end.

Definition calculatePaddingOverhead (originalSize paddedSize : number) : number :=
  if neq originalSize (num 0) then num 0
  else nmul (ndiv (nsub paddedSize originalSize) originalSize) (num 100).

(** ** Sizes *)

Lemma utf8_zeros n : utf8 (repeat 0 n) = repeat x00 n.
Proof. induction n as [|n IH]; [done|]. cbn [repeat]. simpl. by rewrite <- IH. Qed.

Lemma utf8_app_zeros l n : utf8 (l ++ repeat 0 n) = utf8 l ++ repeat x00 n.
Proof.
  induction l as [l IH] using (induction_ltof1 _ (@length Z)); unfold ltof in IH.
  destruct l as [|u l]; [apply utf8_zeros|].
  cbn [app utf8]. destruct (is_high u); [|destruct (is_low u)].
  - destruct l as [|v l].
    + cbn [app]. destruct n as [|n]; [by rewrite app_nil_r|]. cbn [repeat].
      change (is_low 0) with false. cbv iota. f_equal. apply (utf8_zeros (S n)).
    + cbn [app]. destruct (is_low v); rewrite <- app_assoc; f_equal.
      * apply IH. simpl. lia.
      * apply (IH (v :: l)). simpl. lia.
  - rewrite <- app_assoc. f_equal. apply IH. simpl. lia.
  - rewrite <- app_assoc. f_equal. apply IH. simpl. lia.
Qed.

Lemma byteLength_app_zeros l n : byteLength (l ++ repeat 0 n) = byteLength l + Z.of_nat n.
Proof. unfold byteLength. rewrite utf8_app_zeros, length_app, repeat_length. lia. Qed.

Lemma byteLength_nonneg l : 0 <= byteLength l.
Proof. unfold byteLength. lia. Qed.

Lemma getSizeClass_ge n : n <= getSizeClass n.
Proof.
  unfold getSizeClass. destruct (find _ SIZE_CLASSES) as [t|] eqn:E.
  - apply find_some in E as [_ E]. by apply Z.leb_le.
  - unfold next_power_of_two. destruct (Z.le_gt_cases n 1).
    + pose proof (Z.pow_pos_nonneg 2 (Z.log2_up n) ltac:(lia) (Z.log2_up_nonneg n)). lia.
    + apply Z.log2_up_spec. lia.
Qed.

Lemma getSizeClass_power n : exists k, 9 <= k /\ getSizeClass n = 2 ^ k.
Proof.
  unfold getSizeClass. destruct (find _ SIZE_CLASSES) as [t|] eqn:E.
  - apply find_some in E as [Hin _]. unfold SIZE_CLASSES in Hin.
    repeat destruct Hin as [<-|Hin]; [exists 9|exists 10|exists 11|exists 12|exists 13|exists 14
      |exists 15|exists 16|exists 17|exists 18|done]; split; (lia || done).
  - exists (Z.log2_up n). split; [|done].
    apply find_none with (x := 262144) in E; [|unfold SIZE_CLASSES; simpl; tauto].
    apply Z.leb_gt in E. change 9 with (Z.log2_up 512). apply Z.log2_up_le_mono. lia.
Qed.

Lemma padResponse_eq content :
  padResponse content
  = content ++ repeat 0 (Z.to_nat (getSizeClass (byteLength content) - byteLength content)).
Proof.
  unfold padResponse, getSizeClass. cbv zeta.
  set (t := match find _ SIZE_CLASSES with Some _ => _ | None => _ end).
  destruct (Z.leb_spec (t - byteLength content) 0) as [H|H]; [|done].
  rewrite Z2Nat.nonpos by done. by rewrite app_nil_r.
Qed.

Lemma unpad_zeros n : unpadResponse (repeat 0 n) = [].
Proof. by destruct n. Qed.

Lemma unpad_app l n : Forall (fun u => u <> PADDING_MARKER) l ->
  unpadResponse (l ++ repeat 0 n) = l.
Proof.
  induction 1 as [|u l Hu Hl IH]; [apply unpad_zeros|].
  cbn [app unpadResponse]. destruct (Z.eqb_spec u PADDING_MARKER); [done|]. by rewrite IH.
Qed.

(** ** Properties *)

(** Padding loses nothing: a content without NUL characters is recovered
    from its padded form, whatever its size and surrogates. *)
Theorem unpad_pad content : Forall (fun u => u <> PADDING_MARKER) content ->
  unpadResponse (padResponse content) = content.
Proof. intros H. rewrite padResponse_eq. by apply unpad_app. Qed.

Lemma unpad_pad_witness : unpadResponse (padResponse [104; 105; 0xD83D]) = [104; 105; 0xD83D].
Proof. apply unpad_pad. repeat constructor; discriminate. Defined.

(** the padded size in bytes is exactly the size class of the content, a
    power of two of at least 512 that covers it, so two contents of one class
    have indistinguishable sizes. *)
Theorem padded_size_is_class content :
  byteLength (padResponse content) = getSizeClass (byteLength content)
  /\ byteLength content <= byteLength (padResponse content)
  /\ exists k, 9 <= k /\ byteLength (padResponse content) = 2 ^ k.
Proof.
  assert (H : byteLength (padResponse content) = getSizeClass (byteLength content)).
  { rewrite padResponse_eq, byteLength_app_zeros.
    pose proof (getSizeClass_ge (byteLength content)). lia. }
  rewrite H. split; [done|]. split; [apply getSizeClass_ge|apply getSizeClass_power].
Qed.
