(* ===== verification/Quantization.v ===== *)
(** * Cost and unit classes

    [src/longjing/utils/cost-quantization.util.ts]: the classes revealed to the
    client instead of exact costs, with their boundaries and representatives. *)

From Stdlib Require Import SpecFloat.
From S2P Require Import Prelude JsNumber.
Open Scope Z_scope.

Inductive CostClass : Type := COST_MICRO | COST_SMALL | COST_MEDIUM | COST_LARGE | COST_XLARGE.
Inductive UnitClass : Type := UNIT_TINY | UNIT_SMALL | UNIT_MEDIUM | UNIT_LARGE | UNIT_XLARGE.

#[export] Instance CostClass_eq_dec : EqDecision CostClass.
Proof. solve_decision. Defined.
#[export] Instance UnitClass_eq_dec : EqDecision UnitClass.
Proof. solve_decision. Defined.

Definition COST_CLASS_BOUNDARIES : list (CostClass * (number * number)) :=
  [(COST_MICRO, (num 0, decimal 1 (-2)));
   (COST_SMALL, (decimal 1 (-2), decimal 1 (-1)));
   (COST_MEDIUM, (decimal 1 (-1), num 1));
   (COST_LARGE, (num 1, num 10));
   (COST_XLARGE, (num 10, Infinity))].

Definition COST_CLASS_REPRESENTATIVE (c : CostClass) : number :=
  match c with
  | COST_MICRO => decimal 5 (-3)
  | COST_SMALL => decimal 5 (-2)
  | COST_MEDIUM => decimal 5 (-1)
  | COST_LARGE => num 5
  | COST_XLARGE => num 15
  end.

Definition UNIT_CLASS_BOUNDARIES : list (UnitClass * (number * number)) :=
  [(UNIT_TINY, (num 0, num 100));
   (UNIT_SMALL, (num 100, num 1000));
   (UNIT_MEDIUM, (num 1000, num 10000));
   (UNIT_LARGE, (num 10000, num 100000));
   (UNIT_XLARGE, (num 100000, Infinity))].

Definition UNIT_CLASS_REPRESENTATIVE (c : UnitClass) : number :=
  match c with
  | UNIT_TINY => num 50
  | UNIT_SMALL => num 500
  | UNIT_MEDIUM => num 5000
  | UNIT_LARGE => num 50000
  | UNIT_XLARGE => num 150000
  end.

(** The first class whose half-open range holds the value. *)
Definition find_class {C : Type} (boundaries : list (C * (number * number))) (v : number) : option C :=
  fst <$> find (fun '(_, (lo, hi)) => nge v lo && nlt v hi) boundaries.

Definition quantizeCost (costUSD : number) : CostClass * number :=
  match find_class COST_CLASS_BOUNDARIES costUSD with
  | Some c => (c, COST_CLASS_REPRESENTATIVE c)
  | None => (COST_XLARGE, COST_CLASS_REPRESENTATIVE COST_XLARGE)
  end.

Definition quantizeUnits (units : number) : UnitClass * number :=
  match find_class UNIT_CLASS_BOUNDARIES units with
  | Some c => (c, UNIT_CLASS_REPRESENTATIVE c)
  | None => (UNIT_XLARGE, UNIT_CLASS_REPRESENTATIVE UNIT_XLARGE)
  end.

Definition costClassToUSD (c : CostClass) : number := COST_CLASS_REPRESENTATIVE c.
Definition unitClassToCount (c : UnitClass) : number := UNIT_CLASS_REPRESENTATIVE c.

Definition calculateQuantizationError (actualCost quantizedCost : number) : number :=
  ndiv (Math_abs (nsub actualCost quantizedCost)) actualCost.

(** ** Comparisons of doubles *)

Lemma SFcompare_antisym x y : SFcompare y x = option_map CompOpp (SFcompare x y).
Proof.
  destruct x as [sx|sx| |sx mx ex], y as [sy|sy| |sy my ey]; simpl; try done;
    try (by destruct sx); try (by destruct sy).
  - by destruct sx, sy.
  - rewrite (Z.compare_antisym ex ey).
    assert (Hm : Pos.compare_cont Eq my mx = CompOpp (Pos.compare_cont Eq mx my)).
    { change (Pos.compare_cont Eq) with Pos.compare. apply Pos.compare_antisym. }
    destruct sx, sy; try done; destruct (ex ?= ey)%Z; simpl; try done; by rewrite Hm, ?CompOpp_involutive.
Qed.

Lemma SFcompare_num x y : isNaN x = false -> isNaN y = false -> exists c, SFcompare x y = Some c.
Proof.
  destruct x as [sx|sx| |sx mx ex], y as [sy|sy| |sy my ey]; simpl; try done; intros _ _;
    repeat match goal with |- context [if ?b then _ else _] => destruct b end;
    try (by eexists); destruct (ex ?= ey)%Z; by eexists.
Qed.

(** Without NaN, [x < y] fails exactly when [y <= x]. *)
Lemma nlt_nle x y : isNaN x = false -> isNaN y = false -> nlt x y = negb (nle y x).
Proof.
  intros Hx Hy. unfold nlt, nle, SFltb, SFleb. rewrite (SFcompare_antisym x y).
  destruct (SFcompare_num x y Hx Hy) as [c ->]. by destruct c.
Qed.

Lemma nge_not_NaN x y : nge x y = true -> isNaN x = false.
Proof. destruct x; try done. unfold nge, SFleb. by destruct y. Qed.

(** Consecutive half-open ranges: the first upper bound above the value decides. *)
Fixpoint cutoff {C : Type} (boundaries : list (C * (number * number))) (v : number) : option C :=
  match boundaries with
  | [] => None
  | (c, (_, hi)) :: rest => if nlt v hi then Some c else cutoff rest v
  end.

Fixpoint contiguous {C : Type} (lo : number) (boundaries : list (C * (number * number))) : Prop :=
  match boundaries with
  | [] => True
  | (_, (lo', hi)) :: rest => lo' = lo /\ isNaN lo = false /\ isNaN hi = false /\ contiguous hi rest
  end.

Lemma find_class_cutoff {C} (boundaries : list (C * (number * number))) lo v :
  isNaN v = false -> nge v lo = true -> contiguous lo boundaries ->
  find_class boundaries v = cutoff boundaries v.
Proof.
  intros Hv. revert lo; induction boundaries as [|[c [lo' hi]] rest IH]; intros lo Hlo Hc; [done|].
  destruct Hc as (-> & Hl & Hh & Hc). unfold find_class. cbn [find cutoff].
  rewrite Hlo. cbn [andb]. destruct (nlt v hi) eqn:E; [done|].
  apply (IH hi); [|done]. rewrite nlt_nle in E by done. by apply negb_false_iff in E.
Qed.

(** ** Property *)

(** on every number that is at least zero, the class revealed is decided by
    the upper boundaries alone (no gap or overlap between the ranges), and
    quantizing a class's representative gives the class back. *)
Theorem quantize_by_cutoffs v : nge v (num 0) = true ->
  (quantizeCost v).1
    = (if nlt v (decimal 1 (-2)) then COST_MICRO else if nlt v (decimal 1 (-1)) then COST_SMALL
       else if nlt v (num 1) then COST_MEDIUM else if nlt v (num 10) then COST_LARGE else COST_XLARGE)
  /\ (quantizeUnits v).1
    = (if nlt v (num 100) then UNIT_TINY else if nlt v (num 1000) then UNIT_SMALL
       else if nlt v (num 10000) then UNIT_MEDIUM else if nlt v (num 100000) then UNIT_LARGE else UNIT_XLARGE)
  /\ (forall c, quantizeCost (costClassToUSD c) = (c, costClassToUSD c))
  /\ (forall u, quantizeUnits (unitClassToCount u) = (u, unitClassToCount u)).
Proof.
  intros Hv. pose proof (nge_not_NaN _ _ Hv) as Hn.
  split; [|split; [|split; intros []; vm_compute; reflexivity]].
  - unfold quantizeCost. rewrite (find_class_cutoff _ (num 0)); [|done|done|repeat split; reflexivity].
    unfold COST_CLASS_BOUNDARIES, cutoff.
    repeat match goal with |- context [nlt v ?b] => destruct (nlt v b); [reflexivity|] end.
    reflexivity.
  - unfold quantizeUnits. rewrite (find_class_cutoff _ (num 0)); [|done|done|repeat split; reflexivity].
    unfold UNIT_CLASS_BOUNDARIES, cutoff.
    repeat match goal with |- context [nlt v ?b] => destruct (nlt v b); [reflexivity|] end.
    reflexivity.
Qed.

Lemma quantize_by_cutoffs_witness : (quantizeCost (decimal 37 (-3))).1
    = (if nlt (decimal 37 (-3)) (decimal 1 (-2)) then COST_MICRO
       else if nlt (decimal 37 (-3)) (decimal 1 (-1)) then COST_SMALL
       else if nlt (decimal 37 (-3)) (num 1) then COST_MEDIUM
       else if nlt (decimal 37 (-3)) (num 10) then COST_LARGE else COST_XLARGE).
Proof. apply (quantize_by_cutoffs (decimal 37 (-3))). vm_compute. reflexivity. Defined.
