(* ===== verification/ClaudePricing.v ===== *)
(** * Claude prices

    [src/pricing/claude-pricing.ts], the single source of prices: USD per
    million tokens for each model. *)

From Stdlib Require Import SpecFloat.
From S2P Require Import Prelude JsNumber.
Open Scope Z_scope.

Record model_price : Type := { price_input : number; price_output : number }.

Definition CLAUDE_PRICING : list (string * model_price) :=
  [("claude-fable-5-1", {| price_input := num 10; price_output := num 50 |});
   ("claude-opus-4-6", {| price_input := num 5; price_output := num 25 |});
   ("claude-sonnet-4-6", {| price_input := num 3; price_output := num 15 |});
   ("claude-haiku-4-5", {| price_input := num 1; price_output := num 5 |})]%string.

Definition CLAUDE_MODELS : list string := map fst CLAUDE_PRICING.

Definition DEFAULT_CLAUDE_MODEL : string := "claude-fable-5-1".

Definition MAX_OUTPUT_TOKENS : Z := 4096.

Definition price_of (model : string) : option model_price :=
  snd <$> find (fun kv => bool_decide (kv.1 = model)) CLAUDE_PRICING.

Definition isClaudeModel (model : string) : bool :=
  match price_of model with Some _ => true | None => false end.

(** Only called on a ClaudeModel; any other key would read [undefined]. *)
Definition claudeCostUSD (model : string) (inputTokens outputTokens : number) : number :=
  match price_of model with
  | Some pricing =>
      nadd (nmul (ndiv inputTokens (num 1000000)) (price_input pricing))
           (nmul (ndiv outputTokens (num 1000000)) (price_output pricing))
  | None => NaN
  end.

Lemma isClaudeModel_iff model : isClaudeModel model = true <-> model ∈ CLAUDE_MODELS.
Proof.
  unfold isClaudeModel, price_of, CLAUDE_MODELS. rewrite list_elem_of_fmap. split.
  - destruct (find _ CLAUDE_PRICING) as [[k p]|] eqn:E; [|done]. intros _.
    apply find_some in E as [Hin Hk]. apply bool_decide_eq_true in Hk. simpl in Hk. subst.
    exists (model, p). split; [done|]. by apply list_elem_of_In.
  - intros ([k p] & -> & Hin). destruct (find _ CLAUDE_PRICING) eqn:E; [done|].
    apply find_none with (x := (k, p)) in E; [|by apply list_elem_of_In].
    by rewrite bool_decide_eq_true_2 in E.
Qed.

Lemma price_of_nonneg model p : price_of model = Some p ->
  nonneg_or_nan (price_input p) = true /\ nonneg_or_nan (price_output p) = true.
Proof.
  unfold price_of. destruct (find _ CLAUDE_PRICING) as [[k q]|] eqn:E; [|done].
  intros [= <-]. apply find_some in E as [Hin _]. unfold CLAUDE_PRICING in Hin.
  repeat destruct Hin as [[= <- <-]|Hin]; (split; reflexivity) || done.
Qed.

(** A cost is never negative when the token counts are not. *)
Lemma claudeCostUSD_nonneg model i o :
  nonneg_or_nan i = true -> nonneg_or_nan o = true -> nonneg_or_nan (claudeCostUSD model i o) = true.
Proof.
  intros Hi Ho. unfold claudeCostUSD. destruct (price_of model) as [p|] eqn:E; [|done].
  apply price_of_nonneg in E as [H1 H2].
  apply nadd_nonneg; apply nmul_nonneg; try done; apply ndiv_nonneg; done.
Qed.

#[export] Hint Resolve claudeCostUSD_nonneg : longjing.
