(* ===== verification/EthRate.v ===== *)
(** * The ETH/USD rate

    [src/longjing/eth-rate-oracle.service.ts]: the one-minute memory cache, the
    Kraken feed, the database of past rates and the Chainlink feed, in that
    order. What the feeds answer is an argument; the database is the list of its
    rows, newest insertion first. *)

From Stdlib Require Import SpecFloat String.
From S2P Require Import Prelude JsText JsNumber.
Open Scope Z_scope.

Definition CACHE_TTL : Z := 60000.
Definition MAX_DB_RATE_AGE : Z := 60 * 60 * 1000.

Record EthRateRow : Type := { er_rate : number; er_source : string; er_timestamp : Z }.

Record oracle : Type := {
  cache : option (number * Z);
  eth_rates : list EthRateRow;
}.

Definition initial_oracle : oracle := {| cache := None; eth_rates := [] |}.

(** ** The feeds *)

(** A Kraken answer: the HTTP status, and the body when it is JSON: the error
    list and the text of the last trade price, [None] when a field is missing. *)
Record KrakenResponse : Type := {
  kr_ok : bool;
  kr_body : result (option (list string) * option string);
}.

Definition valid_rate (rate : number) : result number :=
  if isNaN rate || nle rate (num 0) then Throw (Error "Invalid ETH/USD rate received") else Ok rate.

(** The outer [result] is what [fetch] itself answers. *)
Definition fetchFromKraken (response : result KrakenResponse) : result number :=
  let* response := response in
  if negb (kr_ok response) then Throw (Error "Kraken API returned an error status")
  else
    let* data := kr_body response in
    match data with
    | (Some (_ :: _), _) => Throw (Error "Kraken API error")
    | (_, None) => Throw (TypeError "Cannot read properties of undefined")
    | (_, Some price) => valid_rate (parseFloat price)
    end.

(** [None] when no provider was initialised; [answer] is [roundData[1]]. *)
Definition fetchFromChainlink (provider : option (result Z)) : result number :=
  match provider with
  | None => Throw (Error "Chainlink provider not initialized")
  | Some roundData => let* answer := roundData in valid_rate (ndiv (num answer) (num (10 ^ 8)))
  end.

(** ** The service *)

Definition saveRateToDb (rate : number) (source : string) (now : Z) (s : oracle) : oracle :=
  {| cache := cache s;
     eth_rates := {| er_rate := rate; er_source := source; er_timestamp := now |} :: eth_rates s |}.

Definition set_cache (rate : number) (now : Z) (s : oracle) : oracle :=
  {| cache := Some (rate, now); eth_rates := eth_rates s |}.

(** [ORDER BY timestamp DESC LIMIT 1]; the latest insertion on a tie. *)
Fixpoint latest (rows : list EthRateRow) : option EthRateRow :=
  match rows with
  | [] => None
  | r :: rows' =>
      match latest rows' with
      | Some r' => Some (if er_timestamp r <? er_timestamp r' then r' else r)
      | None => Some r
      end
  end.

Definition getLatestRateFromDb (s : oracle) : option EthRateRow := latest (eth_rates s).

Definition fresh_cache (now : Z) (s : oracle) : option number :=
  match cache s with
  | Some (rate, timestamp) => if now - timestamp <? CACHE_TTL then Some rate else None
  | None => None
  end.

Definition fresh_row (now : Z) (s : oracle) : option number :=
  match getLatestRateFromDb s with
  | Some r => if now - er_timestamp r <? MAX_DB_RATE_AGE then Some (er_rate r) else None
  | None => None
  end.

Section Feeds.
Variables (kraken : result KrakenResponse) (chainlink : option (result Z)).
(** The milliseconds until a feed's answer is saved, under a second [Date.now()]. *)
Variable delay : N.

Definition getEthUsdRate (now : Z) (s : oracle) : oracle * result number :=
  match fresh_cache now s with
  | Some rate => (s, Ok rate)
  | None =>
      match fetchFromKraken kraken with
      | Ok rate => (set_cache rate now (saveRateToDb rate "kraken" (now + Z.of_N delay) s), Ok rate)
      | Throw _ =>
          match fresh_row now s with
          | Some rate => (set_cache rate now s, Ok rate)
          | None =>
              match fetchFromChainlink chainlink with
              | Ok rate => (set_cache rate now (saveRateToDb rate "chainlink" (now + Z.of_N delay) s), Ok rate)
              | Throw _ => (s, Throw (Error "Unable to fetch ETH/USD rate from any source"))
              end
          end
      end
  end.

Definition to_wei (usdAmount ethUsdRate : number) : result Z :=
  BigInt_of_number (Math_ceil (nmul (ndiv usdAmount ethUsdRate) (num (10 ^ 18)))).

Definition usdToWei (usdAmount : number) (now : Z) (s : oracle) : oracle * result Z :=
  let '(s', rate) := getEthUsdRate now s in
  (s', let* ethUsdRate := rate in to_wei usdAmount ethUsdRate).

Definition weiToUsd (weiAmount : Z) (now : Z) (s : oracle) : oracle * result number :=
  let '(s', rate) := getEthUsdRate now s in
  (s', let* ethUsdRate := rate in
       Ok (nmul (ndiv (num weiAmount) (num (10 ^ 18))) ethUsdRate)).
End Feeds.

(** ** Where a rate comes from *)

(** A rate a feed gave at a time. *)
Definition observation : Type := (Z * number)%type.

(** A timed call with what the feeds would answer. *)
Record call : Type := {
  call_now : Z; call_kraken : result KrakenResponse; call_chainlink : option (result Z);
  call_delay : N
}.

Definition exec (c : call) (s : oracle) : oracle * result number :=
  getEthUsdRate (call_kraken c) (call_chainlink c) (call_delay c) (call_now c) s.

Definition call_saved (c : call) : Z := call_now c + Z.of_N (call_delay c).

(** Everything the feeds could have given at a call. *)
Definition feeds_of (c : call) : list observation :=
  match fetchFromKraken (call_kraken c) with Ok r => [(call_saved c, r)] | Throw _ => [] end
  ++ match fetchFromChainlink (call_chainlink c) with Ok r => [(call_saved c, r)] | Throw _ => [] end.

Fixpoint exec_all (calls : list call) (s : oracle) : oracle * list (result number) :=
  match calls with
  | [] => (s, [])
  | c :: calls' =>
      let '(s1, r) := exec c s in
      let '(s2, rs) := exec_all calls' s1 in (s2, r :: rs)
  end.

Definition positive_rate (r : number) : Prop := positive_num r = true.

(** Every stored rate is positive and was given by a feed at its timestamp; the
    cached one, at most an hour before it. *)
Record from_feeds (obs : list observation) (s : oracle) : Prop := {
  ff_rows : Forall (fun row => positive_rate (er_rate row)
                     /\ (er_timestamp row, er_rate row) ∈ obs) (eth_rates s);
  ff_cache : match cache s with
             | Some (rate, timestamp) => positive_rate rate
                 /\ exists t, (t, rate) ∈ obs /\ timestamp - t < MAX_DB_RATE_AGE
             | None => True
             end;
}.

Lemma valid_rate_positive r r' : valid_rate r = Ok r' -> r' = r /\ positive_rate r.
Proof.
  unfold valid_rate. destruct (isNaN r || nle r (num 0)) eqn:E; [done|]. intros [= <-].
  split; [done|]. apply orb_false_iff in E as [H1 H2]. by apply nle_zero_false_positive.
Qed.

Lemma kraken_positive k r : fetchFromKraken k = Ok r -> positive_rate r.
Proof.
  unfold fetchFromKraken. intros H. apply rbind_ok in H as (resp & _ & H).
  destruct (negb (kr_ok resp)); [done|]. apply rbind_ok in H as ([errs price] & _ & H).
  destruct errs as [[|e l]|], price as [price|]; try done;
    apply valid_rate_positive in H as [-> H]; done.
Qed.

Lemma chainlink_positive p r : fetchFromChainlink p = Ok r -> positive_rate r.
Proof.
  destruct p as [d|]; [|done]. simpl. intros H. apply rbind_ok in H as (answer & _ & H).
  by apply valid_rate_positive in H as [-> H].
Qed.

Lemma latest_elem rows r : latest rows = Some r -> r ∈ rows.
Proof.
  revert r; induction rows as [|x rows IH]; intros r; [done|]. cbn [latest].
  destruct (latest rows) as [y|].
  - intros [= <-]. destruct (_ <? _); [right; by apply IH|left].
  - intros [= <-]. left.
Qed.

Lemma from_feeds_weaken obs obs' s : from_feeds obs s -> from_feeds (obs ++ obs') s.
Proof.
  intros [H1 H2]. split.
  - eapply Forall_impl; [exact H1|]. simpl. intros row [? ?]. split; [done|]. apply elem_of_app. by left.
  - destruct (cache s) as [[rate ts]|]; [|done]. destruct H2 as (? & t & ? & ?).
    split; [done|]. exists t. split; [apply elem_of_app; by left|done].
Qed.

Lemma from_feeds_fetch obs s rate src now saved : now <= saved ->
  from_feeds obs s -> positive_rate rate -> (saved, rate) ∈ obs ->
  from_feeds obs (set_cache rate now (saveRateToDb rate src saved s)).
Proof.
  intros Hle [H1 H2] Hp Hin. split; cbn [cache eth_rates set_cache saveRateToDb].
  - by constructor.
  - split; [done|]. exists saved. split; [done|]. unfold MAX_DB_RATE_AGE. lia.
Qed.

(** What one call answers, and that it keeps the invariant. *)
Lemma exec_from_feeds obs c s : from_feeds obs s ->
  from_feeds (obs ++ feeds_of c) (exec c s).1
  /\ forall rate, (exec c s).2 = Ok rate -> positive_rate rate
      /\ exists t, (t, rate) ∈ obs ++ feeds_of c /\ call_now c - t < MAX_DB_RATE_AGE + CACHE_TTL.
Proof.
  intros Hf. pose proof (from_feeds_weaken obs (feeds_of c) s Hf) as Hw.
  unfold exec, getEthUsdRate.
  destruct (fresh_cache (call_now c) s) as [rate|] eqn:Ec.
  { split; [done|]. intros r [= <-]. unfold fresh_cache in Ec. destruct Hw as [_ Hc].
    destruct (cache s) as [[rate' ts]|]; [|done].
    destruct (Z.ltb_spec (call_now c - ts) CACHE_TTL); [|done]. injection Ec as ->.
    destruct Hc as (? & t & ? & ?). split; [done|]. exists t. split; [done|lia]. }
  destruct (fetchFromKraken (call_kraken c)) as [rate|e] eqn:Ek.
  { assert (Hin : (call_saved c, rate) ∈ obs ++ feeds_of c).
    { apply elem_of_app. right. unfold feeds_of. rewrite Ek. left. }
    pose proof (kraken_positive _ _ Ek). split; [apply from_feeds_fetch; done || (unfold call_saved; lia)|].
    intros r [= <-]. split; [done|]. exists (call_saved c). split; [done|]. unfold call_saved.
    unfold MAX_DB_RATE_AGE, CACHE_TTL. lia. }
  destruct (fresh_row (call_now c) s) as [rate|] eqn:Er.
  { unfold fresh_row, getLatestRateFromDb in Er.
    destruct (latest (eth_rates s)) as [row|] eqn:El; [|done].
    destruct (Z.ltb_spec (call_now c - er_timestamp row) MAX_DB_RATE_AGE); [|done].
    injection Er as <-. apply latest_elem in El.
    pose proof Hw as [Hrows _]. rewrite Forall_forall in Hrows.
    destruct (Hrows _ El) as [Hp Hin]. split.
    - split; [apply Hw|]. cbn [cache set_cache]. split; [done|]. by exists (er_timestamp row).
    - intros r [= <-]. split; [done|]. exists (er_timestamp row). split; [done|].
      unfold CACHE_TTL. lia. }
  destruct (fetchFromChainlink (call_chainlink c)) as [rate|e'] eqn:El; [|by split].
  assert (Hin : (call_saved c, rate) ∈ obs ++ feeds_of c).
  { apply elem_of_app. right. unfold feeds_of. rewrite Ek, El. left. }
  pose proof (chainlink_positive _ _ El). split; [apply from_feeds_fetch; done || (unfold call_saved; lia)|].
  intros r [= <-]. split; [done|]. exists (call_saved c). split; [done|]. unfold call_saved.
  unfold MAX_DB_RATE_AGE, CACHE_TTL. lia.
Qed.

Lemma from_feeds_initial : from_feeds [] initial_oracle.
Proof. split; [constructor|done]. Qed.

Lemma exec_all_from_feeds calls obs s : from_feeds obs s ->
  from_feeds (obs ++ concat (map feeds_of calls)) (exec_all calls s).1.
Proof.
  revert obs s; induction calls as [|c calls IH]; intros obs s Hf.
  { cbn [exec_all fst map concat]. by rewrite app_nil_r. }
  cbn [exec_all map concat]. pose proof (proj1 (exec_from_feeds obs c s Hf)) as H1.
  destruct (exec c s) as [s1 r]. cbn [fst] in H1. specialize (IH _ s1 H1).
  destruct (exec_all calls s1) as [s2 rs]. cbn [fst] in *. by rewrite app_assoc.
Qed.

(** ** Properties *)

(** After any sequence of calls, a rate that is answered is positive and was
    given by Kraken or Chainlink less than an hour and a minute earlier; the
    call fails exactly when the cache is stale, both feeds fail and no stored
    rate is less than an hour old. *)
Theorem rate_is_recent (calls : list call) (c : call) :
  let s := (exec_all calls initial_oracle).1 in
  match (exec c s).2 with
  | Ok rate => positive_num rate = true
      /\ exists t, (t, rate) ∈ concat (map feeds_of (calls ++ [c]))
           /\ call_now c - t < MAX_DB_RATE_AGE + CACHE_TTL
  | Throw _ => fresh_cache (call_now c) s = None /\ feeds_of c = []
      /\ fresh_row (call_now c) s = None
  end.
Proof.
  intros s. pose proof (exec_all_from_feeds calls [] initial_oracle from_feeds_initial) as Hf.
  cbn [app] in Hf. fold s in Hf. destruct (exec_from_feeds _ c s Hf) as [_ H].
  destruct (exec c s).2 as [rate|e] eqn:E.
  - destruct (H rate eq_refl) as (? & t & ? & ?). split; [done|]. exists t.
    by rewrite map_app, concat_app; cbn [map concat]; rewrite app_nil_r.
  - unfold exec, getEthUsdRate, feeds_of in *.
    destruct (fresh_cache (call_now c) s); [done|].
    destruct (fetchFromKraken (call_kraken c)); [done|].
    destruct (fresh_row (call_now c) s); [done|].
    by destruct (fetchFromChainlink (call_chainlink c)).
Qed.

Lemma to_wei_nonneg usd rate w :
  nonneg_or_nan usd = true -> positive_num rate = true -> to_wei usd rate = Ok w -> 0 <= w.
Proof.
  intros Hu Hr. apply BigInt_of_number_nonneg.
  apply Math_ceil_nonneg, nmul_nonneg; [by apply ndiv_nonneg|reflexivity].
Qed.
