(* ===== verification/Profile.v ===== *)
(** * The deployment profile and the environment

    [src/config/profile.ts], [src/config/env.validation.ts] and
    [src/keys/key-policy.ts]: NODE_ENV as the switch between the local and the
    production profile, what production requires and refuses in the
    environment, and the key-material policy. The environment is a map of
    strings; the WHATWG host parser and the class-validator schema are
    parameters. *)

From Stdlib Require Import Ascii String.
From stdpp Require Import sorting.
From S2P Require Import Prelude JsText.
Open Scope Z_scope.

Abbreviation env := (gmap string string).

Inductive Profile : Type := local | prod.

#[export] Instance Profile_eq_dec : EqDecision Profile.
Proof. solve_decision. Defined.

Definition LOCAL_CHAIN_ID : Z := 31337.

Definition profile (e : env) : result Profile :=
  match e !! "NODE_ENV"%string with
  | Some value =>
      if bool_decide (value = "production"%string) then Ok prod
      else if bool_decide (value = "development"%string) || bool_decide (value = "test"%string)
      then Ok local
      else Throw (Error "NODE_ENV must be development, test or production")
  | None => Throw (Error "NODE_ENV must be development, test or production")
  end.

Definition isProd (e : env) : result bool :=
  let* p := profile e in Ok (bool_decide (p = prod)).

(** A variable is set when it is present and not empty (JavaScript truthiness). *)
Definition is_set (e : env) (name : string) : bool :=
  match e !! name with Some v => negb (str_len v =? 0) | None => false end.

(** ** Placeholders *)

Definition ANVIL_ACCOUNTS : list (string * string) :=
  [("0xac0974bec39a17e36ba4a6b4d238ff944bacb478cbed5efcae784d7bf4f2ff80",
    "0xf39Fd6e51aad88F6F4ce6aB8827279cffFb92266");
   ("0x59c6995e998f97a5a0044966f0945389dc9e86dae88c7a8412f4603b6b78690d",
    "0x70997970C51812dc3A010C7d01b50e0d17dc79C8");
   ("0x5de4111afa1a4b94908f83103eb1f1706367c2e68ca870fc3fb9a804cdab365a",
    "0x3C44CdDdB6a900fa2b585dd299e03d12FA4293BC");
   ("0x7c852118294e51e653712a81e05800f419141751be58f605c371e15141b007a6",
    "0x90F79bf6EB2c4f870365E785982E1f101E93b906");
   ("0x47e179ec197488593b187f80a00eb0da91f1b9d0b13f8733639f19c30a34926a",
    "0x15d34AAf54267DB7D7c367839AAf71A00a2C6A65");
   ("0x8b3a350cf5c34c9194ca85829a2df0ec3153be0318b5e2d3348e872092edffba",
    "0x9965507D1a55bcC2695C58ba16FB37d819B0A4dc");
   ("0x92db14e403b83dfe3df233f83dfa3a0d7096f21ca9b0d6d6b8d88b2b4ec1564e",
    "0x976EA74026E726554dB657fA54763abd0C3a0aa9");
   ("0x4bbbf85ce3377467afe5d46f804f221813b2bb87f24d81f60f1fcdbf7cbf4356",
    "0x14dC79964da2C08b23698B3D3cc7Ca32193d9955");
   ("0xdbda1821b80551c9d65939329250298aa3472ba22feea921c0cf5d620ea67b97",
    "0x23618e81E3f5cdF7f54C3d65f7FBc0aBf5B21E8f");
   ("0x2a871d0798f97d79848a013d4936a73bf4cc922c825d33c1cf7073dff6d409c6",
    "0xa0Ee7A142d267C1f36714E4a8F75612F20a79720")]%string.

Definition ANVIL_FIRST_DEPLOYMENT : string := "0x5FbDB2315678afecb367f032d93F642f64180aa3".

(** [replace(/^0x/, '')]. *)
Definition strip_0x (s : string) : string :=
  if startsWith s "0x" then slice_from 2 s else s.

Definition PLACEHOLDER_VALUES : list string :=
  map (fun v => strip_0x (toLowerCase v))
    (concat (map (fun ka => [ka.1; ka.2]) ANVIL_ACCOUNTS) ++ [ANVIL_FIRST_DEPLOYMENT]).

Definition endsWith (s suffix : string) : bool :=
  chars_prefix (rev (chars suffix)) (rev (chars s)).

(** [/(^|\.)example\.(com|org|net)$/i]. *)
Definition EXAMPLE_HOST (host : string) : bool :=
  let h := toLowerCase host in
  existsb (fun tld =>
      let d := ("example." +:+ tld)%string in
      bool_decide (h = d) || endsWith h ("." +:+ d)%string)
    ["com"; "org"; "net"]%string.

Definition string_le (a b : string) : Prop := String.leb a b = true.

#[export] Instance string_le_dec a b : Decision (string_le a b).
Proof. unfold string_le. apply _. Defined.

Section Environment.
(** [new URL(s).hostname], [None] when the constructor throws. *)
Variable url_hostname : string -> option string.
(** The messages of class-validator for the schema of EnvironmentVariables. *)
Variable schema_errors : env -> list string.

Definition isPlaceholder (value : string) : bool :=
  let normalized := strip_0x (toLowerCase (trim value)) in
  if bool_decide (normalized ∈ PLACEHOLDER_VALUES) then true
  else match url_hostname (trim value) with
       | Some host => EXAMPLE_HOST host
       | None => false
       end.

Definition comma : ascii := ","%char.


Definition findPlaceholders (e : env) : list string :=
  merge_sort string_le
    (map fst (filter (fun kv => existsb isPlaceholder (split comma kv.2) = true) (map_to_list e))).

(** ** What production requires *)

Definition PROD_REQUIRED : list string := ["ETHEREUM_RPC_URLS"; "ZK_CONTRACT_ADDRESS"]%string.
Definition PROD_REFUSED : list string :=
  ["ANVIL_RPC_URL"; "SERVER_TX_PRIVATE_KEY"; "DSTACK_SIMULATOR_ENDPOINT"]%string.

Definition error_if (names : list string) (message : string) : list string :=
  match names with [] => [] | _ => [(message +:+ join ", " names)%string] end.

Definition profileErrors (e : env) : result (list string) :=
  let* production := isProd e in
  if negb production then Ok []
  else
    let missing := filter (fun name => is_set e name = false) PROD_REQUIRED in
    let refused := filter (fun name => is_set e name = true) PROD_REFUSED in
    let placeholders := findPlaceholders e in
    Ok (error_if missing "NODE_ENV=production requires "
        ++ error_if refused "NODE_ENV=production refuses "
        ++ error_if placeholders "NODE_ENV=production refuses placeholder values in ").

(** ** Key material *)

Definition KEY_MATERIAL_ENV : list string :=
  ["ADMIN_MLKEM_PRIVATE_KEY"; "OPERATOR_PRIVATE_KEY"; "SERVER_TX_PRIVATE_KEY";
   "TLS_KEY_PATH"; "TLS_CERT_PATH"]%string.

Definition keysOutsideEnclaveAllowed (e : env) : bool :=
  bool_decide (e !! "ALLOW_KEYS_OUTSIDE_ENCLAVE"%string = Some "true"%string).

Definition assertNoKeyMaterialInEnv (e : env) : result unit :=
  let* production := isProd e in
  if negb production || keysOutsideEnclaveAllowed e then Ok tt
  else
    match filter (fun name => is_set e name = true) KEY_MATERIAL_ENV with
    | [] => Ok tt
    | set => Throw (Error ("Refusing to start in production with key material in env ("
                           +:+ join ", " set +:+ ")"))
    end.

Definition validateEnvironment (e : env) : result env :=
  let* problems := profileErrors e in
  match problems with
  | _ :: _ => Throw (Error "Environment validation failed")
  | [] =>
      let* _ := assertNoKeyMaterialInEnv e in
      match schema_errors e with
      | [] => Ok e
      | _ => Throw (Error "Environment validation failed")
      end
  end.

(** ** Facts *)

Lemma error_if_nil names m : error_if names m = [] -> names = [].
Proof. by destruct names. Qed.

Lemma findPlaceholders_nil e : findPlaceholders e = [] ->
  forall name value, e !! name = Some value -> existsb isPlaceholder (split comma value) = false.
Proof.
  unfold findPlaceholders. intros H name value He.
  destruct (existsb isPlaceholder (split comma value)) eqn:E; [|done]. exfalso.
  assert (Hin : name ∈ map fst (filter (fun kv : string * string =>
                   existsb isPlaceholder (split comma kv.2) = true) (map_to_list e))).
  { apply list_elem_of_fmap. exists (name, value). split; [done|].
    apply list_elem_of_filter. split; [done|]. by apply elem_of_map_to_list. }
  rewrite <- (merge_sort_Permutation string_le) in Hin. rewrite H in Hin. by apply elem_of_nil in Hin.
Qed.

Lemma filter_nil_iff {A} (P : A -> Prop) `{!forall x, Decision (P x)} (l : list A) :
  filter P l = [] -> forall x, x ∈ l -> ~ P x.
Proof.
  intros Hnil x Hx HP. assert (Hin : x ∈ filter P l) by by apply list_elem_of_filter.
  rewrite Hnil in Hin. by apply elem_of_nil in Hin.
Qed.

Lemma isProd_true e : isProd e = Ok true -> profile e = Ok prod.
Proof.
  unfold isProd. intros H. apply rbind_ok in H as (p & Hp & H). injection H as H.
  apply bool_decide_eq_true in H. by subst.
Qed.

(** What a production environment that passes has. *)
Record production_ready (e : env) : Prop := {
  pr_required : forall name, name ∈ PROD_REQUIRED -> is_set e name = true;
  pr_refused : forall name, name ∈ PROD_REFUSED -> is_set e name = false;
  pr_placeholders : forall name value item, e !! name = Some value ->
    item ∈ split comma value -> isPlaceholder item = false;
  pr_keys : keysOutsideEnclaveAllowed e = false ->
    forall name, name ∈ KEY_MATERIAL_ENV -> is_set e name = false;
}.

(** ** Properties *)

(** An environment that passes validation names its profile; in production
    it holds the RPC and the contract, none of the local-only settings, no
    placeholder in any comma-separated item of any variable, and no key material
    unless the compose file opts out. Without NODE_ENV nothing passes. *)
Theorem validateEnvironment_sound e e' : validateEnvironment e = Ok e' ->
  e' = e /\ schema_errors e = []
  /\ (isProd e = Ok true /\ production_ready e \/ isProd e = Ok false).
Proof.
  unfold validateEnvironment. intros H. apply rbind_ok in H as (problems & Hp & H).
  destruct problems; [|done]. apply rbind_ok in H as ([] & Ha & H).
  destruct (schema_errors e) eqn:Es; [|done]. injection H as <-.
  split; [done|]. split; [done|].
  unfold profileErrors in Hp. apply rbind_ok in Hp as ([] & Hprod & Hp); [left|by right].
  split; [done|]. cbn [negb] in Hp. injection Hp as Hp.
  apply app_eq_nil in Hp as [H1 Hp]. apply app_eq_nil in Hp as [H2 H3].
  apply error_if_nil in H1, H2, H3. split.
  - intros name Hn. destruct (is_set e name) eqn:E; [done|].
    by apply (filter_nil_iff _ _ H1) in Hn.
  - intros name Hn. destruct (is_set e name) eqn:E; [|done].
    by apply (filter_nil_iff _ _ H2) in Hn.
  - intros name value item He Hi. pose proof (findPlaceholders_nil e H3 name value He) as Hf.
    destruct (isPlaceholder item) eqn:E; [|done].
    rewrite <- not_true_iff_false in Hf. destruct Hf. apply existsb_exists. exists item.
    split; [by apply list_elem_of_In|done].
  - intros Hk name Hn. unfold assertNoKeyMaterialInEnv in Ha. rewrite Hprod, Hk in Ha.
    cbn [rbind negb orb] in Ha.
    destruct (filter _ KEY_MATERIAL_ENV) eqn:Ef; [|done].
    destruct (is_set e name) eqn:E; [|done]. by apply (filter_nil_iff _ _ Ef) in Hn.
Qed.
End Environment.

Lemma isPlaceholder_anvil h ka : ka ∈ ANVIL_ACCOUNTS -> isPlaceholder h (ka.1) = true /\ isPlaceholder h (ka.2) = true.
Proof.
  intros H. unfold ANVIL_ACCOUNTS in H.
  repeat (apply elem_of_cons in H as [->|H]; [split; vm_compute; reflexivity|]).
  by apply elem_of_nil in H.
Qed.

Definition sample_env : env :=
  list_to_map [("NODE_ENV", "production"); ("ETHEREUM_RPC_URLS", "https://rpc.test,https://rpc2.test");
               ("ZK_CONTRACT_ADDRESS", "0x1111111111111111111111111111111111111111")]%string.

Lemma validateEnvironment_sound_witness :
  sample_env = sample_env /\ ((fun _ : env => @nil string) sample_env = []
  /\ (isProd sample_env = Ok true /\ production_ready (fun _ => None) sample_env
      \/ isProd sample_env = Ok false)).
Proof.
  apply (validateEnvironment_sound (fun _ => None) (fun _ => []) sample_env sample_env).
  vm_compute. reflexivity.
Defined.
