(* ===== verification/Storage.v ===== *)
(** * The databases on disk

    Where the three services keep their SQLite files and what a restart leaves of them: the
    paths ([DATA_DIR]), [src/database/database.service.ts], and the nullifier store of
    [nullifier-store.service.ts] as statements over rows, opened and closed by the process.
    The map of [NullifierStore] is what those rows represent. [path.join], [mkdirSync] and
    the current directory are parameters; SQLite commits a statement or throws. *)

From Stdlib Require Import String.
From S2P Require Import Prelude JsText JsNumber Slashing NullifierStore Profile.
Open Scope Z_scope.

(** ** Paths *)

Section Paths.
Context (cwd : string) (path_join : string -> string -> string).

Definition IN_MEMORY : string := ":memory:".

(** [process.env.DATA_DIR || join(process.cwd(), 'data')]. *)
Definition dataDir (e : env) : string :=
  match e !! "DATA_DIR"%string with
  | Some d => if str_len d =? 0 then path_join cwd "data" else d
  | None => path_join cwd "data"
  end.

(** The path of a service whose file has this name. *)
Definition dbPath (e : env) (file : string) : string :=
  let d := dataDir e in if bool_decide (d = IN_MEMORY) then IN_MEMORY else path_join d file.

Definition nullifiers_path (e : env) : string := dbPath e "nullifiers.db".
Definition rates_path (e : env) : string := dbPath e "eth-rates.db".
Definition longjing_path (e : env) : string := dbPath e "longjing.db".
End Paths.

(** ** The schema of the shared database *)

Record Catalog : Type := { tables : gmap string (list string); indexes : gmap string (string * list string) }.

(** [IF NOT EXISTS]. *)
Definition create_table (name : string) (columns : list string) (c : Catalog) : Catalog :=
  match tables c !! name with
  | Some _ => c
  | None => {| tables := <[name := columns]> (tables c); indexes := indexes c |}
  end.

Definition create_index (name table : string) (columns : list string) (c : Catalog) : Catalog :=
  match indexes c !! name with
  | Some _ => c
  | None => {| tables := tables c; indexes := <[name := (table, columns)]> (indexes c) |}
  end.

Definition runMigrations (c : Catalog) : Catalog :=
  let c := create_table "pricing_models"
    ["id"; "provider_id"; "endpoint"; "pricing_type"; "currency"; "rates"; "effective_from"; "effective_until";
     "created_at"; "updated_at"]%string c in
  let c := create_index "idx_pricing_provider" "pricing_models" ["provider_id"; "endpoint"]%string c in
  let c := create_index "idx_pricing_effective" "pricing_models" ["effective_from"; "effective_until"]%string c in
  let c := create_table "pricing_history"
    ["id"; "provider_id"; "endpoint"; "old_rates"; "new_rates"; "changed_by"; "changed_at"; "reason"]%string c in
  create_index "idx_pricing_history_provider" "pricing_history" ["provider_id"]%string c.

(** The connection of [DatabaseService]: the catalog of its file, with foreign keys on. *)
Record Connected : Type := { at_path : string; catalog : Catalog; foreign_keys : bool }.

(** Creates the directory unless it is there, opens, migrates. *)
Definition open_database (directory_exists : bool) (mkdirSync : result unit) (path : string) (c : Catalog) : result Connected :=
  let* _ := if bool_decide (path = IN_MEMORY) || directory_exists then Ok tt else mkdirSync in
  Ok {| at_path := path; catalog := runMigrations c; foreign_keys := true |}.

Lemma create_table_keeps name columns c t cols : tables c !! t = Some cols -> tables (create_table name columns c) !! t = Some cols.
Proof.
  intros H. unfold create_table. destruct (tables c !! name) eqn:E; [exact H|]. cbn [tables].
  rewrite lookup_insert_ne; [exact H|]. by intros ->; rewrite E in H.
Qed.

Lemma create_table_there name columns c : is_Some (tables (create_table name columns c) !! name).
Proof.
  unfold create_table. destruct (tables c !! name) eqn:E; [by rewrite E|]. cbn [tables]. by rewrite lookup_insert_eq.
Qed.

Lemma create_index_tables name t columns c : tables (create_index name t columns c) = tables c.
Proof. unfold create_index. by destruct (indexes c !! name). Qed.

(** The migrations change no table that exists and leave both tables of the prices. *)
Lemma runMigrations_keeps c : (forall t cols, tables c !! t = Some cols -> tables (runMigrations c) !! t = Some cols)
  /\ is_Some (tables (runMigrations c) !! "pricing_models"%string)
  /\ is_Some (tables (runMigrations c) !! "pricing_history"%string).
Proof.
  unfold runMigrations. rewrite !create_index_tables. split_and!.
  - intros t cols H. apply create_table_keeps. rewrite !create_index_tables. by apply create_table_keeps.
  - edestruct create_table_there as [cols H]. erewrite create_table_keeps; [by eexists|].
    rewrite !create_index_tables. exact H.
  - apply create_table_there.
Qed.

(** ** The nullifier table *)

Definition empty_database : Database := {| nullifiers_table := None; redeemed_refunds := false |}.

Definition rows_of (d : Database) : list row := match nullifiers_table d with Some t => t_rows t | None => [] end.

Definition with_rows (rows : list row) (d : Database) : Database :=
  {| nullifiers_table := (fun t => {| t_columns := t_columns t; t_rows := rows |}) <$> nullifiers_table d;
     redeemed_refunds := redeemed_refunds d |}.

Definition key_of (r : row) : option string := r !! "nullifier"%string.

(** The statements of the service. *)
Definition select_signal (n : string) (d : Database) : option StoredSignal :=
  r ← head (List.filter (fun r => bool_decide (key_of r = Some n)) (rows_of d)); row_signal r.

Definition exists_row (n : string) (d : Database) : bool :=
  existsb (fun r => bool_decide (key_of r = Some n)) (rows_of d).

Definition new_row (n : string) (sg : StoredSignal) : row :=
  <["nullifier"%string := n]> (<["x"%string := st_x sg]> (<["y"%string := st_y sg]> ∅)).

Definition insert_signal (n : string) (sg : StoredSignal) (d : Database) : Database :=
  with_rows (rows_of d ++ [new_row n sg]) d.

Definition delete_all (d : Database) : Database := with_rows [] d.

Definition count_rows (d : Database) : nat := length (rows_of d).

Section Statements.
Context {R : Type}.

(** What a connection holds: the database it reads and writes, and the maps in memory. *)
Record Connection : Type := {
  c_db : Database;
  c_attempts : gmap string (list Z);
  c_responses : gmap string (CachedResponse R);
}.

Definition with_db (d : Database) (c : Connection) : Connection :=
  {| c_db := d; c_attempts := c_attempts c; c_responses := c_responses c |}.

(** The operations on the maps in memory alone. *)
Definition in_memory (o : op R) (now : Z) (c : Connection) : Connection * answer R :=
  let '(s, a) := exec o now {| db := ∅; nullifierAttempts := c_attempts c; responses := c_responses c |} in
  ({| c_db := c_db c; c_attempts := nullifierAttempts s; c_responses := responses s |}, a).

(** One call of the service, over rows. *)
Definition exec_rows (o : op R) (now : Z) (c : Connection) : Connection * answer R :=
  match o with
  | OpGet n => (c, ASignal (select_signal n (c_db c)))
  | OpExists n => (c, ABool (exists_row n (c_db c)))
  | OpCheckAndSet n sg =>
      match select_signal n (c_db c) with
      | Some existing => (c, ASignal (Some existing))
      | None => (with_db (insert_signal n sg (c_db c)) c, ASignal None)
      end
  | OpClear => ({| c_db := delete_all (c_db c); c_attempts := c_attempts c; c_responses := ∅ |}, AUnit)
  | OpCount => (c, ANat (count_rows (c_db c)))
  | o => in_memory o now c
  end.

(** ** The rows implement the map *)

Definition row_entry (r : row) : option (string * StoredSignal) :=
  n ← key_of r; sg ← row_signal r; Some (n, sg).

Definition signals (d : Database) : gmap string StoredSignal := list_to_map (omap row_entry (rows_of d)).

(** Every row has its three columns, and no two the same nullifier: NOT NULL and PRIMARY KEY. *)
Definition rows_ok (rows : list row) : Prop :=
  Forall (fun r => is_Some (row_entry r)) rows /\ NoDup (omap key_of rows).

Definition table_ok (d : Database) : Prop := is_Some (nullifiers_table d) /\ rows_ok (rows_of d).

Definition view (c : Connection) : store R :=
  {| db := signals (c_db c); nullifierAttempts := c_attempts c; responses := c_responses c |}.

Lemma row_entry_key r n sg : row_entry r = Some (n, sg) -> key_of r = Some n /\ row_signal r = Some sg.
Proof. unfold row_entry. destruct (key_of r), (row_signal r); cbn; try done. by intros [= -> ->]. Qed.

Lemma keys_of_entries rows : Forall (fun r => is_Some (row_entry r)) rows ->
  (omap row_entry rows).*1 = omap key_of rows.
Proof.
  induction 1 as [|r rows [[n sg] Hr] _ IH]; [done|]. cbn [omap list_omap]. rewrite Hr.
  destruct (row_entry_key _ _ _ Hr) as [-> _]. cbn [fmap list_fmap fst]. f_equal. exact IH.
Qed.

Lemma entries_length rows : Forall (fun r => is_Some (row_entry r)) rows -> length (omap row_entry rows) = length rows.
Proof. induction 1 as [|r rows [e Hr] _ IH]; [done|]. cbn [omap list_omap]. rewrite Hr. cbn [length]. by rewrite IH. Qed.

(** [SELECT .. WHERE nullifier = ?] is a lookup. *)
Lemma select_signal_view n d : rows_ok (rows_of d) -> select_signal n d = signals d !! n.
Proof.
  unfold select_signal, signals. intros [Hall _]. induction Hall as [|r rows [[m sg] Hr] _ IH]; [done|].
  destruct (row_entry_key _ _ _ Hr) as [Hk Hs]. cbn [List.filter omap list_omap]. rewrite Hr, Hk. cbn [list_to_map foldr].
  destruct (decide (m = n)) as [-> |Hne].
  - rewrite bool_decide_true by done. cbn [head mbind option_bind]. rewrite Hs. symmetry. apply lookup_insert_eq.
  - rewrite bool_decide_false by congruence. rewrite lookup_insert_ne by done. exact IH.
Qed.

Lemma exists_row_view n d : rows_ok (rows_of d) ->
  exists_row n d = match signals d !! n with Some _ => true | None => false end.
Proof.
  unfold exists_row, signals. intros [Hall _]. induction Hall as [|r rows [[m sg] Hr] _ IH]; [done|].
  destruct (row_entry_key _ _ _ Hr) as [Hk _]. cbn [existsb omap list_omap]. rewrite Hr, Hk. cbn [list_to_map foldr].
  destruct (decide (m = n)) as [-> |Hne].
  - rewrite bool_decide_true by done. cbn [orb fst snd]. by rewrite lookup_insert_eq.
  - rewrite bool_decide_false by congruence. cbn [orb fst snd]. by rewrite lookup_insert_ne.
Qed.

Lemma new_row_entry n sg : row_entry (new_row n sg) = Some (n, sg).
Proof. by destruct sg. Qed.

Lemma rows_with_rows rows d : is_Some (nullifiers_table d) -> rows_of (with_rows rows d) = rows.
Proof. intros [t Ht]. unfold rows_of, with_rows. by rewrite Ht. Qed.

Lemma insert_signal_view n sg d : table_ok d -> signals d !! n = None ->
  signals (insert_signal n sg d) = <[n := sg]> (signals d) /\ table_ok (insert_signal n sg d).
Proof.
  intros [Ht [Hall Hnd]] Hn. unfold insert_signal. split.
  - unfold signals. rewrite rows_with_rows by done. rewrite omap_app. cbn [omap list_omap]. rewrite new_row_entry.
    rewrite list_to_map_app. cbn [list_to_map foldr fst snd]. rewrite <- insert_union_r by exact Hn. by rewrite map_union_empty.
  - assert (Hf : Forall (fun r => is_Some (row_entry r)) (rows_of d ++ [new_row n sg])).
    { apply Forall_app. split; [exact Hall|]. constructor; [|done]. rewrite new_row_entry. by eexists. }
    split; [|split].
    + destruct Ht as [t Ht]. unfold with_rows. rewrite Ht. by eexists.
    + by rewrite rows_with_rows.
    + rewrite rows_with_rows by done. rewrite omap_app. apply NoDup_app. split; [exact Hnd|]. split; [|apply NoDup_singleton].
      intros m Hm Hm'. apply list_elem_of_singleton in Hm' as ->. unfold signals in Hn.
      apply not_elem_of_list_to_map in Hn. rewrite keys_of_entries in Hn by done. contradiction.
Qed.

Lemma delete_all_view d : is_Some (nullifiers_table d) -> signals (delete_all d) = ∅ /\ table_ok (delete_all d).
Proof.
  intros Ht. unfold delete_all, signals, table_ok. rewrite rows_with_rows by done. split; [done|].
  split; [destruct Ht as [t Ht]; unfold with_rows; rewrite Ht; by eexists|]. split; [done|apply NoDup_nil_2].
Qed.

Lemma count_rows_view d : rows_ok (rows_of d) -> count_rows d = size (signals d).
Proof.
  intros [Hall Hnd]. unfold count_rows, signals. rewrite <- (entries_length _ Hall).
  rewrite <- (keys_of_entries _ Hall) in Hnd. generalize dependent (omap row_entry (rows_of d)). intros l Hnd.
  induction l as [|[n sg] l IH]; [done|]. cbn [fmap list_fmap] in Hnd. apply NoDup_cons in Hnd as [Hn Hnd].
  cbn [list_to_map foldr length]. rewrite map_size_insert_None; [by rewrite <- IH|]. by apply not_elem_of_list_to_map_1.
Qed.

Lemma rows_refine_view o now (c : Connection) : table_ok (c_db c) ->
  exec o now (view c) = (view (exec_rows o now c).1, (exec_rows o now c).2) /\ table_ok (c_db (exec_rows o now c).1).
Proof.
  intros Hok. pose proof Hok as [Ht Hrows].
  destruct o as [n|n|n sg|n sg r|n sg| | |n|n|]; cbn [exec exec_rows in_memory].
  - split; [|done]. cbn [fst snd]. f_equal. by rewrite select_signal_view.
  - split; [|done]. cbn [fst snd]. unfold exists_. by rewrite exists_row_view.
  - unfold checkAndSet, get. rewrite select_signal_view by done. cbn [view db].
    destruct (signals (c_db c) !! n) as [old|] eqn:E; [by split|]. cbn [fst snd].
    destruct (insert_signal_view n sg (c_db c) Hok E) as [Hs Hk]. split; [|exact Hk]. unfold view. cbn [with_db c_db c_attempts c_responses].
    by rewrite Hs.
  - by split.
  - by split.
  - cbn [fst snd]. destruct (delete_all_view (c_db c) Ht) as [Hs Hk]. split; [|exact Hk]. unfold view, clear. cbn. by rewrite Hs.
  - split; [|done]. cbn [fst snd]. unfold count. by rewrite count_rows_view.
  - unfold in_memory, exec, checkRateLimit, view, attempts_of. cbn [nullifierAttempts].
    destruct (_ <=? _)%nat; [by split|]. unfold with_attempts. cbn [nullifierAttempts].
    by destruct (1000 <? _)%nat.
  - by split.
  - by split.
Qed.

(** The SQL of the nullifier store implements its map. On a table whose rows have their
    columns and distinct nullifiers, every call - the lookup, the check-and-insert
    transaction, the deletion, the count and those that stay in memory - answers what the
    call on the map of the rows answers, leaves the rows of its result, and keeps the table
    such. *)
Theorem rows_refine_map o now (c : Connection) : table_ok (c_db c) ->
  exec o now (view c) = (view (exec_rows o now c).1, (exec_rows o now c).2) /\ table_ok (c_db (exec_rows o now c).1).
Proof. apply rows_refine_view. Qed.
End Statements.
Arguments Connection : clear implicits.

(** ** Across restarts *)

Section Restarts.
Context {R : Type}.
Context (cwd : string) (path_join : string -> string -> string).

(** The files of the machine, and the connection of the process that runs. *)
Record Node : Type := { files : gmap string Database; live : option (string * Connection R) }.

(** [Boot] is a start of the process with an environment: [existing] is whether the
    directory is there and [mkdirSync] what creating it answers. [Stop] is a shutdown or a
    crash: [onModuleDestroy] only closes the connection. *)
Inductive action : Type :=
| Boot (e : env) (existing : bool) (mkdirSync : result unit)
| Use (now : Z) (o : op R)
| Stop.

(** A database in memory is on no file. *)
Definition committed (path : string) (d : Database) (fs : gmap string Database) : gmap string Database :=
  if bool_decide (path = IN_MEMORY) then fs else <[path := d]> fs.

Definition opened (path : string) (fs : gmap string Database) : Database :=
  if bool_decide (path = IN_MEMORY) then empty_database else default empty_database (fs !! path).

Definition boot (e : env) (existing : bool) (mkdirSync : result unit) (w : Node) : Node :=
  let path := nullifiers_path cwd path_join e in
  match (let* _ := if bool_decide (path = IN_MEMORY) || existing then Ok tt else mkdirSync in
         NullifierStore.onModuleInit (opened path (files w))) with
  | Ok d => {| files := committed path d (files w);
               live := Some (path, {| c_db := d; c_attempts := ∅; c_responses := ∅ |}) |}
  | Throw _ => {| files := files w; live := None |}
  end.

Definition act (a : action) (w : Node) : Node * option (answer R) :=
  match a with
  | Boot e existing mkdirSync => (boot e existing mkdirSync w, None)
  | Stop => ({| files := files w; live := None |}, None)
  | Use now o =>
      match live w with
      | None => (w, None)
      | Some (path, c) =>
          let '(c', a) := exec_rows o now c in
          ({| files := committed path (c_db c') (files w); live := Some (path, c') |}, Some a)
      end
  end.

Fixpoint acts (l : list action) (w : Node) : Node * list (option (answer R)) :=
  match l with
  | [] => (w, [])
  | a :: l => let '(w1, r) := act a w in let '(w2, rs) := acts l w1 in (w2, r :: rs)
  end.

(** The signals offered under [n] that were stored, and those a refusal answered. *)
Definition stored (n : string) (a : action) (r : option (answer R)) : list StoredSignal :=
  match a, r with
  | Use _ (OpCheckAndSet m sg), Some (ASignal None) => if bool_decide (m = n) then [sg] else []
  | _, _ => []
  end.

Definition refused (n : string) (a : action) (r : option (answer R)) : list StoredSignal :=
  match a, r with
  | Use _ (OpCheckAndSet m _), Some (ASignal (Some sg)) => if bool_decide (m = n) then [sg] else []
  | _, _ => []
  end.

Fixpoint over (f : action -> option (answer R) -> list StoredSignal) (l : list action) (rs : list (option (answer R)))
  : list StoredSignal :=
  match l, rs with
  | a :: l, r :: rs => f a r ++ over f l rs
  | _, _ => []
  end.

(** Every start uses the file [p], and nothing is cleared: [clear] is for tests. *)
Definition on_file (p : string) (a : action) : Prop :=
  match a with
  | Boot e _ _ => nullifiers_path cwd path_join e = p
  | Use _ o => is_clear o = false
  | Stop => True
  end.

(** A file of this service or of its earlier versions: every row holds its signal. *)
Definition file_ok (d : Database) : Prop := rows_ok (rows_of d).

Definition node_ok (p : string) (w : Node) : Prop :=
  (forall d, files w !! p = Some d -> file_ok d)
  /\ (forall path c, live w = Some (path, c) -> path = p /\ files w !! p = Some (c_db c) /\ table_ok (c_db c)).

(** The signal the file holds under a nullifier. *)
Definition held (p n : string) (w : Node) : option StoredSignal := d ← files w !! p; signals d !! n.

Lemma keep_entry r : row_entry (keep_columns r) = row_entry r.
Proof.
  unfold row_entry, key_of. rewrite keep_row_signal, keep_lookup; [done|]. unfold kept_columns. set_solver.
Qed.

Lemma keep_entries l : omap row_entry (map keep_columns l) = omap row_entry l.
Proof. induction l as [|r l IH]; [done|]. cbn [map omap list_omap]. by rewrite keep_entry, IH. Qed.

Lemma keep_rows_ok l : rows_ok l -> rows_ok (map keep_columns l).
Proof.
  intros [Hall Hnd]. assert (Hf : Forall (fun r => is_Some (row_entry r)) (map keep_columns l)).
  { clear Hnd. induction Hall as [|r l Hr _ IH]; cbn [map]; constructor; [by rewrite keep_entry|exact IH]. }
  split; [exact Hf|]. rewrite <- (keys_of_entries _ Hf), keep_entries. by rewrite keys_of_entries.
Qed.

(** A start keeps the signals of its file and leaves a table of the three columns. *)
Lemma onModuleInit_keeps d d' : file_ok d -> NullifierStore.onModuleInit d = Ok d' ->
  table_ok d' /\ signals d' = signals d.
Proof.
  intros Hok H. unfold file_ok in Hok. unfold NullifierStore.onModuleInit in H. apply rbind_ok in H as (d1 & H1 & H). injection H as <-.
  assert (Hk : rows_ok (rows_of d1) /\ signals d1 = signals d).
  { unfold migrateToSignalsOnly in H1. destruct (_ && _); [by injection H1 as <-|].
    apply rbind_ok in H1 as (t & H1 & H). injection H as <-. unfold signals, rows_of in *.
    cbn [nullifiers_table]. destruct (nullifiers_table d) as [u|] eqn:E; [|injection H1 as <-; by split].
    destruct (nonempty _); [|injection H1 as <-; by split]. unfold rmap in H1. apply rbind_ok in H1 as (u' & Hu & H1).
    injection H1 as <-. apply rebuild_ok in Hu as [_ Hrows]. rewrite Hrows, keep_entries.
    split; [|done]. by apply keep_rows_ok. }
  unfold table_ok, signals, rows_of in *. cbn [nullifiers_table]. split; [split; [by eexists|]|].
  - destruct (nullifiers_table d1); [apply Hk|]. split; [done|apply NoDup_nil_2].
  - rewrite <- (proj2 Hk). by destruct (nullifiers_table d1).
Qed.

Lemma act_boot p n e existing m w : p <> IN_MEMORY -> nullifiers_path cwd path_join e = p -> node_ok p w ->
  node_ok p (boot e existing m w) /\ held p n (boot e existing m w) = held p n w.
Proof.
  intros Hp He [Hf Hl]. unfold boot. rewrite He. unfold opened, committed, held. rewrite bool_decide_false by done.
  destruct (rbind _ _) as [d|ex] eqn:H.
  - apply rbind_ok in H as (_ & _ & H).
    assert (Hd : file_ok (default empty_database (files w !! p))).
    { destruct (files w !! p) as [d0|] eqn:E; [by apply Hf|]. split; [done|apply NoDup_nil_2]. }
    destruct (onModuleInit_keeps _ _ Hd H) as [Ht Hs]. cbn [files live]. split.
    + split; cbn [files live]; [intros d0 Hd0|].
      * rewrite lookup_insert_eq in Hd0. injection Hd0 as <-. apply Ht.
      * intros path c [= <- <-]. cbn [c_db]. split_and!; [done|apply lookup_insert_eq|exact Ht].
    + rewrite lookup_insert_eq. cbn [mbind option_bind]. rewrite Hs.
      destruct (files w !! p); [done|]. apply lookup_empty.
  - cbn [files live]. split; [|done]. split; [exact Hf|]. discriminate.
Qed.

(** What one call does to the file of a service that runs on it. *)
Lemma act_use p n now o w : p <> IN_MEMORY -> is_clear o = false -> node_ok p w ->
  let '(w', r) := act (Use now o) w in
  node_ok p w'
  /\ (forall sg, held p n w = Some sg ->
        held p n w' = Some sg /\ stored n (Use now o) r = [] /\ Forall (eq sg) (refused n (Use now o) r))
  /\ (held p n w = None -> refused n (Use now o) r = []
        /\ (held p n w' = None /\ stored n (Use now o) r = []
            \/ exists sg, held p n w' = Some sg /\ stored n (Use now o) r = [sg])).
Proof.
  intros Hp Hc [Hf Hl]. cbn [act]. destruct (live w) as [[path c]|] eqn:E.
  2:{ split; [split; [exact Hf|by rewrite E]|]. destruct o; (split; [by intros sg ->|by intros ->; auto]). }
  destruct (Hl path c eq_refl) as (-> & Hfile & Hok).
  destruct (rows_refine_view o now c Hok) as [Hexec Hok'].
  destruct (exec_rows o now c) as [c' a]. cbn [fst snd] in *.
  assert (Hw : node_ok p {| files := committed p (c_db c') (files w); live := Some (p, c') |}).
  { unfold committed. rewrite bool_decide_false by done. split; cbn [files live].
    - intros d Hd. rewrite lookup_insert_eq in Hd. injection Hd as <-. apply Hok'.
    - intros path d [= <- <-]. split_and!; [done|apply lookup_insert_eq|exact Hok']. }
  split; [exact Hw|]. unfold held, committed. rewrite bool_decide_false by done. cbn [files]. rewrite lookup_insert_eq, Hfile.
  cbn [mbind option_bind]. split.
  - intros sg Hsg. destruct (exec_keeps n sg o now (view c) Hc Hsg) as [H1 H2]. rewrite Hexec in H1, H2. cbn [fst snd] in H1, H2.
    split; [exact H1|]. destruct o, a as [[]| | | |]; cbn in H2 |- *; try by split.
    + destruct (bool_decide (n0 = n)); [by injection H2 as ->; split; [|constructor]|by split].
    + destruct (bool_decide (n0 = n)); [discriminate|by split].
  - intros Hn. pose proof (exec_first n o now (view c) Hc Hn) as H. rewrite Hexec in H. cbn [fst snd] in H.
    destruct o as [| |m sg| | | | | | |]; cbn [offered offer_answers stored refused] in H |- *; try (split; [done|left; split; [apply H|done]]).
    destruct (bool_decide (m = n)); cbn [app] in H.
    + destruct H as (Hd & _ & Ha). destruct a as [[old|]| | | |]; try discriminate Ha.
      split; [done|]. right. by exists sg.
    + destruct H as [Hd _]. destruct a as [[old|]| | | |]; (split; [done|left; split; [exact Hd|done]]).
Qed.

(** A history of the service on its file: what was stored and refused under a nullifier. *)
Lemma acts_held p n l w : p <> IN_MEMORY -> Forall (on_file p) l -> node_ok p w ->
  let '(w', rs) := acts l w in
  (forall sg, held p n w = Some sg -> held p n w' = Some sg /\ over (stored n) l rs = [] /\ Forall (eq sg) (over (refused n) l rs))
  /\ (held p n w = None ->
        held p n w' = None /\ over (stored n) l rs = [] /\ over (refused n) l rs = []
        \/ exists sg, held p n w' = Some sg /\ over (stored n) l rs = [sg] /\ Forall (eq sg) (over (refused n) l rs)).
Proof.
  intros Hp Hl. revert w. induction Hl as [|a l Ha _ IH]; intros w Hok; cbn [acts over]; [split; [done|by left]|].
  assert (Hstep : let '(w1, r) := act a w in node_ok p w1
    /\ (forall sg, held p n w = Some sg -> held p n w1 = Some sg /\ stored n a r = [] /\ Forall (eq sg) (refused n a r))
    /\ (held p n w = None -> refused n a r = []
          /\ (held p n w1 = None /\ stored n a r = [] \/ exists sg, held p n w1 = Some sg /\ stored n a r = [sg]))).
  { destruct a as [e existing m|now o|]; cbn [on_file] in Ha.
    - cbn [act]. destruct (act_boot p n e existing m w Hp Ha Hok) as [H1 H2]. split; [exact H1|].
      split; [intros sg Hsg; by rewrite H2|intros Hn; split; [done|left; by rewrite H2]].
    - by apply act_use.
    - cbn [act]. split; [split; [apply Hok|discriminate]|]. split; [by intros sg Hsg|by intros Hn; split; [|left]]. }
  destruct (act a w) as [w1 r]. destruct Hstep as (Hok1 & Hsome & Hnone).
  specialize (IH w1 Hok1). destruct (acts l w1) as [w2 rs]. destruct IH as [IHs IHn]. split.
  - intros sg Hsg. destruct (Hsome sg Hsg) as (H1 & -> & H3). destruct (IHs sg H1) as (H4 & -> & H6).
    split_and!; [exact H4|done|]. by apply Forall_app.
  - intros Hn. destruct (Hnone Hn) as (-> & [[H1 ->]|(sg & H1 & ->)]).
    + destruct (IHn H1) as [H|H]; [by left|by right].
    + right. exists sg. destruct (IHs sg H1) as (H2 & -> & H3). by split_and!.
Qed.

(** C19: a spent nullifier stays spent across restarts. However often the process stops,
    crashes and starts again on the same file - whose rows an earlier version may have
    written - and whatever calls it serves, the signals that are ever stored under a
    nullifier and those its refusals answer are all one signal, stored at most once. *)
Theorem one_signal_across_restarts p n l w : p <> IN_MEMORY -> Forall (on_file p) l -> node_ok p w ->
  let '(_, rs) := acts l w in
  (length (over (stored n) l rs) <= 1)%nat
  /\ exists sg, Forall (eq sg) (over (stored n) l rs) /\ Forall (eq sg) (over (refused n) l rs).
Proof.
  intros Hp Hl Hok. pose proof (acts_held p n l w Hp Hl Hok) as H. destruct (acts l w) as [w' rs].
  destruct H as [Hs Hn]. destruct (held p n w) as [sg|].
  - destruct (Hs sg eq_refl) as (_ & -> & H). split; [cbn; lia|]. by exists sg.
  - destruct (Hn eq_refl) as [(_ & -> & ->)|(sg & _ & -> & H)]; [split; [cbn; lia|by exists {| st_x := EmptyString; st_y := EmptyString |}]|].
    split; [cbn; lia|]. exists sg. split; [by constructor|exact H].
Qed.

(** With DATA_DIR set to :memory:, each start has an empty table: the nullifier
    that was spent before it is stored again with another signal. *)
Lemma memory_forgets e n sg sg' now now' : e !! "DATA_DIR"%string = Some IN_MEMORY ->
  let l := [Boot e false (Ok tt); Use now (OpCheckAndSet n sg); Stop; Boot e false (Ok tt); Use now' (OpCheckAndSet n sg')] in
  over (stored n) l (acts l {| files := ∅; live := None |}).2 = [sg; sg'].
Proof.
  intros He. assert (Hp : nullifiers_path cwd path_join e = IN_MEMORY).
  { unfold nullifiers_path, dbPath, dataDir. rewrite He. by rewrite bool_decide_true. }
  cbn [acts act]. unfold boot. rewrite !Hp. unfold opened, committed. rewrite !bool_decide_true by done. cbn. by rewrite bool_decide_true.
Qed.
End Restarts.

(** A production environment with that directory passes the validation. *)
Definition memory_env : env := <["DATA_DIR"%string := IN_MEMORY]> sample_env.

Lemma memory_env_is_valid : validateEnvironment (fun _ => None) (fun _ => []) memory_env = Ok memory_env
  /\ isProd memory_env = Ok true.
Proof. split; vm_compute; reflexivity. Qed.

(** A file of an earlier version, read, crashed on and read again. *)
Definition slash_join (a b : string) : string := a +:+ "/" +:+ b.

Definition old_node : Node :=
  {| files := {["/srv/data/nullifiers.db"%string := old_database]}; live := (None : option (string * Connection unit)) |}.

Definition old_env : env := {["DATA_DIR"%string := "/srv/data"%string]}.

Definition old_history : list (action (R := unit)) :=
  [Boot old_env true (Ok tt);
   Use 1 (OpCheckAndSet "7" {| st_x := "5"; st_y := "6" |});
   Use 2 (OpCheckAndSet "8" {| st_x := "1"; st_y := "1" |});
   Stop;
   Boot old_env true (Ok tt);
   Use 3 (OpCheckAndSet "8" {| st_x := "1"; st_y := "2" |})].

Lemma one_signal_across_restarts_witness : exists sg,
  Forall (eq sg) (over (stored "8") old_history (acts "/srv" slash_join old_history old_node).2)
  /\ over (refused "8") old_history (acts "/srv" slash_join old_history old_node).2 = [{| st_x := "1"; st_y := "1" |}].
Proof.
  assert (Hp : "/srv/data/nullifiers.db"%string <> IN_MEMORY) by discriminate.
  assert (Hl : Forall (on_file "/srv" slash_join "/srv/data/nullifiers.db") old_history)
    by (repeat first [apply Forall_nil_2|apply Forall_cons_2]; vm_compute; reflexivity || exact I).
  assert (Hok : node_ok "/srv/data/nullifiers.db" old_node).
  { split; [|discriminate]. intros d Hd. unfold old_node in Hd. cbn [files] in Hd. rewrite lookup_singleton_eq in Hd. injection Hd as <-.
    split; [repeat first [apply Forall_nil_2|apply Forall_cons_2]; vm_compute; by eexists|]. apply (bool_decide_unpack _). vm_compute. exact I. }
  pose proof (one_signal_across_restarts "/srv" slash_join "/srv/data/nullifiers.db" "8" old_history old_node Hp Hl Hok) as H.
  destruct (acts "/srv" slash_join old_history old_node) as [w rs] eqn:E. destruct H as (_ & sg & Hs & _).
  exists sg. split; [exact Hs|]. assert (Hrs : rs = (acts "/srv" slash_join old_history old_node).2) by (by rewrite E).
  cbn [snd]. rewrite Hrs. vm_compute. reflexivity.
Defined.

(** A connection with one row. *)
Definition one_row : Connection unit :=
  {| c_db := {| nullifiers_table := Some {| t_columns := kept_columns; t_rows := [new_row "7" {| st_x := "2"; st_y := "3" |}] |};
                redeemed_refunds := false |}; c_attempts := ∅; c_responses := ∅ |}.

Lemma rows_refine_map_witness : table_ok (c_db one_row)
  /\ (exec (OpCheckAndSet "7" {| st_x := "9"; st_y := "9" |}) 0 (view one_row)).2
     = (exec_rows (OpCheckAndSet "7" {| st_x := "9"; st_y := "9" |}) 0 one_row).2.
Proof.
  assert (H : table_ok (c_db one_row)).
  { split; [by eexists|]. split; [repeat first [apply Forall_nil_2|apply Forall_cons_2]; vm_compute; by eexists|].
    apply (bool_decide_unpack _). vm_compute. exact I. }
  split; [exact H|]. by rewrite (proj1 (rows_refine_map (OpCheckAndSet "7" {| st_x := "9"; st_y := "9" |}) 0 one_row H)).
Defined.
