(* ===== verification/Limiter.v ===== *)
(** * Admission control

    [src/longjing/utils/concurrency-limiter.ts], [compute-limiter.service.ts]
    and [contract-ready.guard.ts]. A limiter is a counter; tasks that enter and
    leave it interleave, so its guarantee is an invariant of a step relation. *)

From S2P Require Import Prelude JsText JsNumber Profile.
Open Scope Z_scope.

Record ConcurrencyLimiter : Type := { max : Z; active : Z }.

(** The constructor takes a number and refuses all but positive integers. *)
Definition new_limiter (m : number) : result ConcurrencyLimiter :=
  if negb (isInteger m) || nlt m (num 1)
  then Throw (Error "Concurrency limit must be a positive integer")
  else let* n := BigInt_of_number m in Ok {| max := n; active := 0 |}.

Definition running (l : ConcurrencyLimiter) : Z := active l.

(** The synchronous part of [run] before the task starts. *)
Definition enter (l : ConcurrencyLimiter) : result ConcurrencyLimiter :=
  if max l <=? active l
  then Throw (ServiceUnavailableException "Server busy, retry later")
  else Ok {| max := max l; active := active l + 1 |}.

(** The [finally] block: it runs whether the task returned or threw. *)
Definition leave (l : ConcurrencyLimiter) : ConcurrencyLimiter :=
  {| max := max l; active := active l - 1 |}.

(** [run(task)] with nothing else in between: the task sees the entered limiter. *)
Definition run_task {T} (task : ConcurrencyLimiter -> ConcurrencyLimiter * result T)
  (l : ConcurrencyLimiter) : ConcurrencyLimiter * result T :=
  match enter l with
  | Throw e => (l, Throw e)
  | Ok l1 => let '(l2, r) := task l1 in (leave l2, r)
  end.

(** ** The service and the guard *)

Definition DEFAULT_MAX_CONCURRENT_VERIFICATIONS : number := num 8.
Definition DEFAULT_MAX_CONCURRENT_PROOFS : number := num 2.

Definition limitFromEnv (e : env) (name : string) (fallback : number) : number :=
  match e !! name with
  | Some value => if str_len value =? 0 then fallback else Number_of_string value
  | None => fallback
  end.

Record ComputeLimiterService : Type := {
  verification : ConcurrencyLimiter;
  proving : ConcurrencyLimiter;
}.

Definition new_compute_limiter (e : env) : result ComputeLimiterService :=
  let* v := new_limiter (limitFromEnv e "MAX_CONCURRENT_VERIFICATIONS"
                           DEFAULT_MAX_CONCURRENT_VERIFICATIONS) in
  let* p := new_limiter (limitFromEnv e "MAX_CONCURRENT_PROOFS" DEFAULT_MAX_CONCURRENT_PROOFS) in
  Ok {| verification := v; proving := p |}.

(** [ContractReadyGuard.canActivate], with [isAvailable()] of the blockchain service. *)
Definition canActivate (e : env) (isAvailable : bool) : result bool :=
  let* production := isProd e in
  if production && negb isAvailable
  then Throw (ServiceUnavailableException "LongjingCredits does not answer yet")
  else Ok true.

(** ** Interleaved tasks *)

(** Which tasks are inside, next to the limiter. *)
Record state : Type := { limiter : ConcurrencyLimiter; inside : gset nat }.

Inductive occurrence : Type :=
| Started (task : nat)
| Refused (task : nat) (e : exn)
| Finished (task : nat) (threw : bool).

(** A task that is not inside asks to enter; one that is inside leaves once. *)
Inductive step : state -> occurrence -> state -> Prop :=
| step_start s t l' : t ∉ inside s -> enter (limiter s) = Ok l' ->
    step s (Started t) {| limiter := l'; inside := {[t]} ∪ inside s |}
| step_refuse s t e : t ∉ inside s -> enter (limiter s) = Throw e -> step s (Refused t e) s
| step_finish s t threw : t ∈ inside s ->
    step s (Finished t threw) {| limiter := leave (limiter s); inside := inside s ∖ {[t]} |}.

Inductive steps : state -> list occurrence -> state -> Prop :=
| steps_nil s : steps s [] s
| steps_cons s e s' es s'' : step s e s' -> steps s' es s'' -> steps s (e :: es) s''.

Definition limiter_ok (m : Z) (s : state) : Prop :=
  max (limiter s) = m /\ active (limiter s) = Z.of_nat (size (inside s))
  /\ active (limiter s) <= m.

Lemma new_limiter_ok m l : new_limiter m = Ok l -> active l = 0 /\ 1 <= max l.
Proof.
  unfold new_limiter. destruct (isInteger m) eqn:Hi; [|done]. cbn [negb orb].
  destruct (nlt m (num 1)) eqn:Hlt; [done|]. intros H.
  apply rbind_ok in H as (n & Hn & H). injection H as <-. cbn. split; [done|].
  destruct m as [s|s| |s p e]; try done.
  destruct s; [by vm_compute in Hlt|].
  unfold BigInt_of_number in Hn. rewrite Hi in Hn. injection Hn as <-.
  unfold integer_part, cond_neg. unfold isInteger in Hi.
  destruct (Z.leb_spec 0 e) as [He|He].
  - assert (0 < 2 ^ e) by (apply Z.pow_pos_nonneg; lia). nia.
  - cbn [orb] in Hi. apply Z.eqb_eq in Hi.
    assert (H2 : 0 < 2 ^ (- e)) by (apply Z.pow_pos_nonneg; lia).
    pose proof (Z_div_mod_eq_full (Z.pos p) (2 ^ (- e))) as Hd. rewrite Hi in Hd.
    assert (0 < Z.pos p / 2 ^ (- e)) by nia. lia.
Qed.

Lemma step_limiter_ok m s e s' : limiter_ok m s -> step s e s' -> limiter_ok m s'.
Proof.
  intros (Hm & Ha & Hle) Hs. unfold limiter_ok.
  destruct Hs as [s t l' Hn He|s t e Hn He|s t threw Hin]; [|done|]; cbn [limiter inside].
  - unfold enter in He. destruct (Z.leb_spec (max (limiter s)) (active (limiter s))); [done|].
    injection He as <-. cbn. rewrite size_union, size_singleton by set_solver. lia.
  - unfold leave; cbn. rewrite size_difference, size_singleton by set_solver.
    assert (size (inside s) <> 0)%nat by (apply size_non_empty_iff; set_solver). lia.
Qed.

Lemma steps_limiter_ok m s es s' : limiter_ok m s -> steps s es s' -> limiter_ok m s'.
Proof. intros H Hs. induction Hs; eauto using step_limiter_ok. Qed.

(** ** Property *)

(** Whatever the interleaving of tasks and whether they throw, a limiter
    built from a number counts exactly the tasks inside, never lets more than
    its positive limit in, refuses with 503 exactly when it is full, and is
    empty again when every task has finished. *)
Theorem limiter_never_exceeds m l es s :
  new_limiter m = Ok l -> steps {| limiter := l; inside := ∅ |} es s ->
  1 <= max l
  /\ Z.of_nat (size (inside s)) <= max l
  /\ running (limiter s) = Z.of_nat (size (inside s))
  /\ (enter (limiter s) = Throw (ServiceUnavailableException "Server busy, retry later")
      <-> Z.of_nat (size (inside s)) = max l)
  /\ (inside s = ∅ -> running (limiter s) = 0).
Proof.
  intros Hl Hs. apply new_limiter_ok in Hl as [H0 H1].
  assert (Hok : limiter_ok (max l) {| limiter := l; inside := ∅ |}).
  { split; [done|]. cbn. rewrite size_empty. lia. }
  destruct (steps_limiter_ok _ _ _ _ Hok Hs) as (Hm & Ha & Hle).
  unfold running. split; [done|]. split; [lia|]. split; [done|]. split.
  - unfold enter. rewrite Hm. destruct (Z.leb_spec (max l) (active (limiter s))); split; try done; lia.
  - intros He. by rewrite Ha, He, size_empty.
Qed.

Lemma limiter_never_exceeds_witness :
  exists l s, new_limiter (num 2) = Ok l
    /\ steps {| limiter := l; inside := ∅ |} [Started 1; Started 2] s
    /\ Z.of_nat (size (inside s)) <= max l.
Proof.
  assert (Hl : new_limiter (num 2) = Ok {| max := 2; active := 0 |}) by (vm_compute; reflexivity).
  assert (Hs : steps {| limiter := {| max := 2; active := 0 |}; inside := ∅ |} [Started 1; Started 2]
            {| limiter := {| max := 2; active := 2 |}; inside := {[2%nat]} ∪ ({[1%nat]} ∪ ∅) |}).
  { eapply steps_cons; [apply step_start with (l' := {| max := 2; active := 1 |});
      [apply not_elem_of_empty|reflexivity]|].
    eapply steps_cons; [apply step_start with (l' := {| max := 2; active := 2 |});
      [vm_compute; intros H; discriminate H|reflexivity]|].
    apply steps_nil. }
  eexists _, _. split; [exact Hl|]. split; [exact Hs|].
  exact (proj1 (proj2 (limiter_never_exceeds (num 2) _ _ _ Hl Hs))).
Defined.
