(* ===== verification/Json.v ===== *)
(** * JSON values

    [JSON.parse] on UTF-16 code units, with numbers read as doubles, and the
    property accesses the code makes on parsed values: reading from [null] or
    [undefined] throws a TypeError, a missing property is [undefined]. *)

From Stdlib Require Import Ascii String SpecFloat.
From S2P Require Import Prelude JsText JsNumber.
Open Scope Z_scope.

#[local] Set Warnings "-register-all".

Inductive json : Type :=
| JNull
| JBool (b : bool)
| JNum (n : number)
| JStr (s : list Z)
| JArr (l : list json)
| JObj (fields : list (list Z * json)).

(** ** Parsing *)

Definition is_json_space (u : Z) : bool := (u =? 32) || (u =? 9) || (u =? 10) || (u =? 13).

Fixpoint skip_ws (l : list Z) : list Z :=
  match l with u :: l' => if is_json_space u then skip_ws l' else l | [] => [] end.

Definition unit_digit (u : Z) : bool := (48 <=? u) && (u <=? 57).

Fixpoint unit_digits (l : list Z) : list Z * list Z :=
  match l with
  | u :: l' => if unit_digit u then let '(ds, rest) := unit_digits l' in (u :: ds, rest) else ([], l)
  | [] => ([], [])
  end.

Definition units_value (l : list Z) : Z := fold_left (fun acc u => acc * 10 + (u - 48)) l 0.

Definition unit_hex (u : Z) : option Z :=
  if unit_digit u then Some (u - 48)
  else if (97 <=? u) && (u <=? 102) then Some (u - 87)
  else if (65 <=? u) && (u <=? 70) then Some (u - 55)
  else None.

Definition escape (u : Z) : option Z :=
  if (u =? 34) || (u =? 92) || (u =? 47) then Some u
  else if u =? 98 then Some 8 else if u =? 102 then Some 12 else if u =? 110 then Some 10
  else if u =? 114 then Some 13 else if u =? 116 then Some 9 else None.

(** The rest of a string literal, after its opening quote. *)
Fixpoint parse_string (l : list Z) : option (list Z * list Z) :=
  match l with
  | [] => None
  | 34 :: r => Some ([], r)
  | 92 :: 117 :: a :: b :: c :: d :: r =>
      match unit_hex a, unit_hex b, unit_hex c, unit_hex d with
      | Some a, Some b, Some c, Some d =>
          '(s, rest) ← parse_string r; Some (a * 4096 + b * 256 + c * 16 + d :: s, rest)
      | _, _, _, _ => None
      end
  | 92 :: e :: r => u ← escape e; '(s, rest) ← parse_string r; Some (u :: s, rest)
  | u :: r =>
      if (u <? 32) || (u =? 92) then None
      else '(s, rest) ← parse_string r; Some (u :: s, rest)
  end.

(** A number of the JSON grammar: no leading zeros, digits around the point and
    after the exponent mark. *)
Definition parse_number (l : list Z) : option (number * list Z) :=
  let '(s, l) := match l with 45 :: r => (true, r) | _ => (false, l) end in
  let '(whole, l1) := unit_digits l in
  let leading_ok := match whole with [] => false | 48 :: _ :: _ => false | _ => true end in
  if negb leading_ok then None
  else
    '(frac, l2) ← match l1 with
                  | 46 :: r => match unit_digits r with ([], _) => None | x => Some x end
                  | _ => Some ([], l1)
                  end;
    '(e, l3) ← match l2 with
               | c :: r =>
                   if (c =? 101) || (c =? 69) then
                     let '(se, r) := match r with
                                     | 45 :: r' => (true, r') | 43 :: r' => (false, r')
                                     | _ => (false, r) end in
                     match unit_digits r with
                     | ([], _) => None
                     | (ds, rest) => Some (cond_neg se (units_value ds), rest)
                     end
                   else Some (0, l2)
               | [] => Some (0, [])
               end;
    Some (signed s (decimal (units_value (whole ++ frac)) (e - Z.of_nat (length frac))), l3).

Fixpoint parse_word (w l : list Z) : option (list Z) :=
  match w, l with
  | [], _ => Some l
  | a :: w', b :: l' => if a =? b then parse_word w' l' else None
  | _, [] => None
  end.

(** A later duplicate key replaces the value of the earlier one. *)
Fixpoint set_field (k : list Z) (v : json) (fields : list (list Z * json)) : list (list Z * json) :=
  match fields with
  | [] => [(k, v)]
  | (k', v') :: rest =>
      if bool_decide (k = k') then (k, v) :: rest else (k', v') :: set_field k v rest
  end.

Fixpoint parse_value (fuel : nat) (l : list Z) : option (json * list Z) :=
  match fuel with
  | O => None
  | S f =>
      match skip_ws l with
      | [] => None
      | 123 :: r =>
          match skip_ws r with
          | 125 :: r' => Some (JObj [], r')
          | _ => '(fields, rest) ← parse_members f [] r; Some (JObj fields, rest)
          end
      | 91 :: r =>
          match skip_ws r with
          | 93 :: r' => Some (JArr [], r')
          | _ => '(items, rest) ← parse_elements f r; Some (JArr items, rest)
          end
      | 34 :: r => '(s, rest) ← parse_string r; Some (JStr s, rest)
      | 110 :: r => rest ← parse_word (code_units "ull") r; Some (JNull, rest)
      | 116 :: r => rest ← parse_word (code_units "rue") r; Some (JBool true, rest)
      | 102 :: r => rest ← parse_word (code_units "alse") r; Some (JBool false, rest)
      | l' => '(n, rest) ← parse_number l'; Some (JNum n, rest)
      end
  end
with parse_elements (fuel : nat) (l : list Z) : option (list json * list Z) :=
  match fuel with
  | O => None
  | S f =>
      '(v, r) ← parse_value f l;
      match skip_ws r with
      | 44 :: r' => '(vs, rest) ← parse_elements f r'; Some (v :: vs, rest)
      | 93 :: r' => Some ([v], r')
      | _ => None
      end
  end
with parse_members (fuel : nat) (acc : list (list Z * json)) (l : list Z)
  : option (list (list Z * json) * list Z) :=
  match fuel with
  | O => None
  | S f =>
      match skip_ws l with
      | 34 :: r =>
          '(k, r1) ← parse_string r;
          match skip_ws r1 with
          | 58 :: r2 =>
              '(v, r3) ← parse_value f r2;
              match skip_ws r3 with
              | 44 :: r4 => parse_members f (set_field k v acc) r4
              | 125 :: r4 => Some (set_field k v acc, r4)
              | _ => None
              end
          | _ => None
          end
      | _ => None
      end
  end.

(** [JSON.parse]: each nested value consumes a code unit, so twice the length
    is fuel enough. *)
Definition JSON_parse (text : list Z) : result json :=
  match parse_value (2 * length text + 2) text with
  | Some (v, rest) =>
      match skip_ws rest with [] => Ok v | _ => Throw (SyntaxError "Unexpected token") end
  | None => Throw (SyntaxError "Unexpected token")
  end.

(** ** Access; [None] is [undefined] *)

Definition jsv : Type := option json.

Definition field (k : string) (fields : list (list Z * json)) : jsv :=
  snd <$> find (fun kv => bool_decide (kv.1 = code_units k)) fields.

Definition undefined_read : exn := TypeError "Cannot read properties of undefined".

(** [v.k]. *)
Definition get_prop (k : string) (v : jsv) : result jsv :=
  match v with
  | None | Some JNull => Throw undefined_read
  | Some (JObj fields) => Ok (field k fields)
  | Some (JArr l) =>
      Ok (if bool_decide (k = "length"%string) then Some (JNum (num (Z.of_nat (length l)))) else None)
  | Some (JStr s) =>
      Ok (if bool_decide (k = "length"%string) then Some (JNum (num (Z.of_nat (length s)))) else None)
  | Some _ => Ok None
  end.

(** [v[i]] for a constant index. *)
Definition get_index (i : nat) (v : jsv) : result jsv :=
  match v with
  | None | Some JNull => Throw undefined_read
  | Some (JArr l) => Ok (l !! i)
  | Some (JStr s) => Ok ((fun u => JStr [u]) <$> s !! i)
  | Some (JObj fields) => Ok (field (toString (Z.of_nat i)) fields)
  | Some _ => Ok None
  end.

Definition js_truthy (v : jsv) : bool :=
  match v with
  | None | Some JNull => false
  | Some (JBool b) => b
  | Some (JNum n) => truthy n
  | Some (JStr s) => nonempty s
  | Some (JArr _) | Some (JObj _) => true
  end.

(** [v === n], [v === s]. *)
Definition is_number (n : Z) (v : jsv) : bool :=
  match v with Some (JNum x) => neq x (num n) | _ => false end.

Definition is_string (s : string) (v : jsv) : bool :=
  match v with Some (JStr t) => bool_decide (t = code_units s) | _ => false end.

Definition js_undefined (v : jsv) : bool := match v with None => true | _ => false end.

(** ** Fields *)

Lemma field_set k k' v fields : field k (set_field (code_units k') v fields)
  = if bool_decide (k = k') then Some v else field k fields.
Proof.
  assert (Hu : bool_decide (code_units k' = code_units k) = bool_decide (k = k')).
  { apply bool_decide_ext. split; [|by intros ->]. unfold code_units. intros H.
    rewrite <- (of_chars_chars k), <- (of_chars_chars k'). f_equal. symmetry.
    revert H. apply list_fmap_eq_inj. intros ? ?. apply code_inj. }
  unfold field. induction fields as [|[f x] fields IH]; cbn [set_field List.find fst].
  - rewrite Hu. by destruct (bool_decide (k = k')).
  - destruct (bool_decide_reflect (code_units k' = f)) as [<-|Hn]; cbn [List.find fst].
    + rewrite Hu. by destruct (bool_decide (k = k')).
    + destruct (bool_decide_reflect (f = code_units k)) as [->|Hk]; [|exact IH].
      rewrite bool_decide_false; [done|]. intros ->. by destruct Hn.
Qed.

Lemma field_set_other k c v fields : c <> code_units k -> field k (set_field c v fields) = field k fields.
Proof.
  intros Hc. unfold field. induction fields as [|[f x] fields IH]; cbn [set_field List.find fst].
  - by rewrite bool_decide_false.
  - destruct (bool_decide_reflect (c = f)) as [<-|Hn]; cbn [List.find fst].
    + by rewrite bool_decide_false.
    + by destruct (bool_decide (f = code_units k)).
Qed.
