(* ===== verification/ProofVerifier.v ===== *)
(** * Proof verification

    [src/longjing/snarkjs-proof.service.ts] and
    [src/longjing/proof-verifier.service.ts]: loading the verification key, the
    checks on a proof's shape, the public signals it is verified against, the
    root check against the chain and the metrics. snarkjs, the contract and the
    refund key are parameters. *)

From Stdlib Require Import String SpecFloat.
From S2P Require Import Prelude JsText JsNumber Json FieldElement Profile Limiter.
Open Scope Z_scope.

(** ** snarkjs-proof.service.ts *)

(** What the service finds on disk: whether [require('snarkjs')] works, the
    content of the verification key, and the proving artifacts. *)
Record artifacts : Type := {
  snarkjs_loads : bool;
  vkey_content : option (list Z);
  wasm_exists : bool;
  zkey_exists : bool;
}.

Record SnarkjsProofService : Type := { isSetup : bool; vKey : jsv }.

Definition new_snark : SnarkjsProofService := {| isSetup := false; vKey := None |}.

(** The log line reads [vKey.vk_delta_2[0][0].substring(0, 20)]. *)
Definition log_delta (v : jsv) : result unit :=
  let* d := get_prop "vk_delta_2" v in
  let* d0 := get_index 0 d in
  let* d00 := get_index 0 d0 in
  match d00 with
  | Some (JStr _) => Ok tt
  | _ => Throw (TypeError "substring is not a function")
  end.

Definition initialize (a : artifacts) (s : SnarkjsProofService) : SnarkjsProofService * bool :=
  if isSetup s then (s, true)
  else if negb (snarkjs_loads a) then (s, false)
  else
    match vkey_content a with
    | None => (s, false)
    | Some content =>
        match JSON_parse content with
        | Throw _ => (s, false)
        | Ok v =>
            let s' := {| isSetup := true; vKey := Some v |} in
            (s', is_ok (log_delta (Some v)))
        end
    end.

Definition onModuleInit (e : env) (a : artifacts) (s : SnarkjsProofService)
  : SnarkjsProofService * result unit :=
  let '(s', ok) := initialize a s in
  (s', if ok then Ok tt
       else let* production := isProd e in
            if production then Throw (Error "Cannot verify requests: verification key missing")
            else Ok tt).

Definition isAvailable (s : SnarkjsProofService) : bool := isSetup s.

(** [fullProve] is snarkjs's prover. *)
Definition generateProof (fullProve : result (json * list string)) (a : artifacts)
  (s : SnarkjsProofService) : SnarkjsProofService * result (json * list string) :=
  let '(s', initialized) := initialize a s in
  (s', if negb initialized || negb (wasm_exists a) || negb (zkey_exists a)
       then Throw (Error "Proof system not initialized. Circuit artifacts missing.")
       else fullProve).

(** The affine proof handed to snarkjs: the pairs of pi_b are swapped. *)
Record snarkjs_proof : Type := {
  sp_a : jsv * jsv;
  sp_b : (jsv * jsv) * (jsv * jsv);
  sp_c : jsv * jsv;
  sp_protocol : jsv;
  sp_curve : string;
}.

Definition pair_of (i j : nat) (v : jsv) : result (jsv * jsv) :=
  let* a := get_index i v in
  let* b := get_index j v in
  Ok (a, b).

Definition to_snarkjs (proof : json) : result snarkjs_proof :=
  let p := Some proof in
  let* pi_a := get_prop "pi_a" p in
  let* a := pair_of 0 1 pi_a in
  let* pi_b := get_prop "pi_b" p in
  let* b0 := get_index 0 pi_b in
  let* b0 := pair_of 1 0 b0 in
  let* b1 := get_index 1 pi_b in
  let* b1 := pair_of 1 0 b1 in
  let* pi_c := get_prop "pi_c" p in
  let* c := pair_of 0 1 pi_c in
  let* protocol := get_prop "protocol" p in
  Ok {| sp_a := a; sp_b := (b0, b1); sp_c := c;
        sp_protocol := if js_truthy protocol then protocol else Some (JStr (code_units "groth16"));
        sp_curve := "bn128" |}.

Section Verifier.
(** [snarkjs.groth16.verify(vKey, publicSignals, proof)]. *)
Variable groth16_verify : jsv -> list string -> snarkjs_proof -> result bool.
Variable files : artifacts.

(** Any error of the conversion or of snarkjs is a [false]. *)
Definition verifyProof (proof : json) (publicSignals : list string) (s : SnarkjsProofService)
  : SnarkjsProofService * bool :=
  let '(s, initialized) := if isSetup s then (s, true) else initialize files s in
  (s, if negb initialized then false
      else match (let* sp := to_snarkjs proof in groth16_verify (vKey s) publicSignals sp) with
           | Ok b => b
           | Throw _ => false
           end).

(** ** proof-verifier.service.ts *)

Record RequestPublicInputs : Type := {
  pi_nullifier : string;
  pi_signalY : string;
  pi_accumulatorX : string;
  pi_accumulatorY : string;
  pi_merkleRoot : string;
  pi_maxCost : Z;
  pi_signalX : string;
}.

(** What the verifier sees of the chain and of the refund signer. *)
Record surroundings : Type := {
  sr_env : env;
  sr_chain_available : bool;
  sr_isKnownRoot : string -> result bool;
  sr_serverKey : result (string * string);
}.

Record ProofVerifierService : Type := {
  verificationCount : Z;
  successfulVerifications : Z;
  failedVerifications : Z;
  mockVerifications : Z;
  computeLimiter : ConcurrencyLimiter;
  snark : SnarkjsProofService;
}.

Definition count_verification (v : ProofVerifierService) : ProofVerifierService :=
  {| verificationCount := verificationCount v + 1;
     successfulVerifications := successfulVerifications v;
     failedVerifications := failedVerifications v;
     mockVerifications := mockVerifications v;
     computeLimiter := computeLimiter v; snark := snark v |}.

Definition count_success (v : ProofVerifierService) : ProofVerifierService :=
  {| verificationCount := verificationCount v;
     successfulVerifications := successfulVerifications v + 1;
     failedVerifications := failedVerifications v;
     mockVerifications := mockVerifications v;
     computeLimiter := computeLimiter v; snark := snark v |}.

Definition count_failure (v : ProofVerifierService) : ProofVerifierService :=
  {| verificationCount := verificationCount v;
     successfulVerifications := successfulVerifications v;
     failedVerifications := failedVerifications v + 1;
     mockVerifications := mockVerifications v;
     computeLimiter := computeLimiter v; snark := snark v |}.

Definition with_snark (s : SnarkjsProofService) (v : ProofVerifierService) : ProofVerifierService :=
  {| verificationCount := verificationCount v;
     successfulVerifications := successfulVerifications v;
     failedVerifications := failedVerifications v;
     mockVerifications := mockVerifications v;
     computeLimiter := computeLimiter v; snark := s |}.

Definition with_limiter (l : ConcurrencyLimiter) (v : ProofVerifierService) : ProofVerifierService :=
  {| verificationCount := verificationCount v;
     successfulVerifications := successfulVerifications v;
     failedVerifications := failedVerifications v;
     mockVerifications := mockVerifications v;
     computeLimiter := l; snark := snark v |}.

Definition isProductionReady (v : ProofVerifierService) : bool := isAvailable (snark v).

Record metrics : Type := {
  m_total : Z; m_successful : Z; m_failed : Z; m_mock : Z;
  m_successRate : number; m_usingRealVerification : bool;
}.

Definition getMetrics (v : ProofVerifierService) : metrics :=
  {| m_total := verificationCount v; m_successful := successfulVerifications v;
     m_failed := failedVerifications v; m_mock := mockVerifications v;
     m_successRate := if 0 <? verificationCount v
       then nmul (ndiv (num (successfulVerifications v)) (num (verificationCount v))) (num 100)
       else num 0;
     m_usingRealVerification := isAvailable (snark v) |}.

(** [null] when the chain is unreachable outside production. *)
Definition isKnownRoot (sr : surroundings) (root : string) : result (option bool) :=
  match (if negb (sr_chain_available sr) then Throw (Error "Blockchain service not initialized")
         else sr_isKnownRoot sr root) with
  | Ok known => Ok (Some known)
  | Throw _ =>
      let* production := isProd (sr_env sr) in
      if production
      then Throw (ServiceUnavailableException "Cannot verify the Merkle root against the chain")
      else Ok None
  end.

(** Outputs first, then inputs, in the order of request.circom. *)
Definition signals (p : RequestPublicInputs) (key : string * string) : list string :=
  [pi_nullifier p; pi_signalY p; pi_accumulatorX p; pi_accumulatorY p; pi_merkleRoot p;
   toString (pi_maxCost p); pi_signalX p; key.1; key.2].

Fixpoint map_result {A B} (f : A -> result B) (l : list A) : result (list B) :=
  match l with
  | [] => Ok []
  | x :: l' => let* y := f x in let* ys := map_result f l' in Ok (y :: ys)
  end.

Definition public_signals (sr : surroundings) (p : RequestPublicInputs) : result (list string) :=
  let* key := sr_serverKey sr in
  map_result (fun value => rmap toString (toBigInt value)) (signals p key).

Definition verifyAgainstChainAndCircuit (sr : surroundings) (proofData : json)
  (p : RequestPublicInputs) (v : ProofVerifierService) : ProofVerifierService * result bool :=
  match isKnownRoot sr (pi_merkleRoot p) with
  | Throw e => (v, Throw e)
  | Ok (Some false) => (v, Ok false)
  | Ok _ =>
      let v := count_verification v in
      if negb (isAvailable (snark v)) then
        (** counted inside the [try], and again by its [catch] *)
        (count_failure (count_failure v),
         Throw (Error "Proof verification not available. Circuit artifacts not loaded."))
      else
        match public_signals sr p with
        | Throw e => (count_failure v, Throw e)
        | Ok publicSignals =>
            let '(s, isValid) := verifyProof proofData publicSignals (snark v) in
            let v := with_snark s v in
            (if isValid then count_success v else count_failure v, Ok isValid)
        end
  end.

(** The shape checks; a read of a missing property throws. *)
Definition well_formed (proofData : json) : result bool :=
  let p := Some proofData in
  let* protocol := get_prop "protocol" p in
  if negb (js_truthy protocol) || negb (is_string "groth16" protocol) then Ok false
  else
    let* pi_a := get_prop "pi_a" p in
    if negb (js_truthy pi_a) then Ok false
    else
    let* pi_b := get_prop "pi_b" p in
    if negb (js_truthy pi_b) then Ok false
    else
    let* pi_c := get_prop "pi_c" p in
    if negb (js_truthy pi_c) then Ok false
    else
    let* a_len := get_prop "length" pi_a in
    if negb (is_number 3 a_len) then Ok false
    else
    let* b_len := get_prop "length" pi_b in
    if negb (is_number 2 b_len) then Ok false
    else
    let* b0 := get_index 0 pi_b in
    let* b0_len := get_prop "length" b0 in
    if negb (is_number 3 b0_len) then Ok false
    else
    let* b1 := get_index 1 pi_b in
    let* b1_len := get_prop "length" b1 in
    if negb (is_number 3 b1_len) then Ok false
    else
    let* c_len := get_prop "length" pi_c in
    Ok (is_number 3 c_len).

Definition verify (sr : surroundings) (proof : list Z) (p : RequestPublicInputs)
  (v : ProofVerifierService) : ProofVerifierService * result bool :=
  match isProd (sr_env sr) with
  | Throw e => (v, Throw e)
  | Ok production =>
      if production && negb (isAvailable (snark v)) then
        (v, Throw (Error "Proof verification not available in production mode. Configure circuit artifacts."))
      else if (length proof <? 10)%nat then (v, Ok false)
      else
        match JSON_parse proof with
        | Throw _ => (v, Ok false)
        | Ok proofData =>
            match well_formed proofData with
            | Throw e => (v, Throw e)
            | Ok false => (v, Ok false)
            | Ok true =>
                match enter (computeLimiter v) with
                | Throw e => (v, Throw e)
                | Ok l =>
                    let '(v', r) := verifyAgainstChainAndCircuit sr proofData p (with_limiter l v) in
                    (with_limiter (leave (computeLimiter v')) v', r)
                end
            end
        end
  end.
End Verifier.

(** ** Facts *)

Section Facts.
Context (groth16_verify : jsv -> list string -> snarkjs_proof -> result bool) (files : artifacts).

Lemma verifyProof_available proof ps s : isSetup s = true ->
  verifyProof groth16_verify files proof ps s
  = (s, match (let* sp := to_snarkjs proof in groth16_verify (vKey s) ps sp) with
        | Ok b => b | Throw _ => false end).
Proof. intros H. unfold verifyProof. by rewrite H. Qed.

Lemma public_signals_ok sr p ps : public_signals sr p = Ok ps ->
  exists key ns, sr_serverKey sr = Ok key /\ map_result toBigInt (signals p key) = Ok ns
    /\ ps = map toString ns.
Proof.
  unfold public_signals. intros H. apply rbind_ok in H as (key & Hk & H).
  exists key. generalize (signals p key) H. clear H.
  assert (Hall : forall l ps, map_result (fun value => rmap toString (toBigInt value)) l = Ok ps ->
            exists ns, map_result toBigInt l = Ok ns /\ ps = map toString ns).
  { induction l as [|x l IH]; intros qs H; cbn [map_result] in *.
    - injection H as <-. by exists [].
    - apply rbind_ok in H as (y & Hy & H). apply rbind_ok in H as (ys & Hys & H).
      injection H as <-. unfold rmap in Hy. apply rbind_ok in Hy as (n & Hn & Hy).
      injection Hy as <-. destruct (IH _ Hys) as (ns & Hns & ->).
      exists (n :: ns). rewrite Hn. cbn [rbind]. rewrite Hns. by split. }
  intros l H. destruct (Hall l ps H) as (ns & ? & ?). by exists ns.
Qed.

(** The root check lets a request through only with a known root, or without an
    answer outside production. *)
Lemma isKnownRoot_passes sr root o : isKnownRoot sr root = Ok o -> o <> Some false ->
  (sr_chain_available sr = true /\ sr_isKnownRoot sr root = Ok true)
  \/ (isProd (sr_env sr) = Ok false
      /\ (sr_chain_available sr = false \/ exists e, sr_isKnownRoot sr root = Throw e)).
Proof.
  unfold isKnownRoot. destruct (sr_chain_available sr); cbn [negb].
  - destruct (sr_isKnownRoot sr root) as [[]|e] eqn:E.
    + intros _ _. by left.
    + by intros [= <-].
    + intros H _. apply rbind_ok in H as ([] & Hp & H); [done|]. right. split; [done|]. right. by exists e.
  - intros H _. apply rbind_ok in H as ([] & Hp & H); [done|]. right. split; [done|]. by left.
Qed.

Definition balanced (v : ProofVerifierService) : Prop :=
  verificationCount v = successfulVerifications v + failedVerifications v.

Lemma inner_limiter sr d p v :
  computeLimiter (verifyAgainstChainAndCircuit groth16_verify files sr d p v).1 = computeLimiter v.
Proof.
  unfold verifyAgainstChainAndCircuit, isAvailable.
  destruct (isKnownRoot sr (pi_merkleRoot p)) as [[[]|]|]; try done;
    cbn [snark count_verification];
    (destruct (isSetup (snark v)); [|done]); cbn [negb];
    (destruct (public_signals sr p); [|done]);
    destruct (verifyProof _ _ _ _ _) as [s b]; by destruct b.
Qed.

Lemma inner_balanced sr d p v : isAvailable (snark v) = true -> balanced v ->
  balanced (verifyAgainstChainAndCircuit groth16_verify files sr d p v).1
  /\ isAvailable (snark (verifyAgainstChainAndCircuit groth16_verify files sr d p v).1) = true.
Proof.
  intros Ha Hb. unfold verifyAgainstChainAndCircuit, balanced, isAvailable in *.
  destruct (isKnownRoot sr (pi_merkleRoot p)) as [[[]|]|]; try done;
    cbn [snark count_verification]; rewrite Ha; cbn [negb];
    (destruct (public_signals sr p); [|cbn; split; [lia|done]]);
    rewrite verifyProof_available by done; destruct (match rbind _ _ with Ok _ => _ | Throw _ => _ end);
    cbn; split; (lia || done).
Qed.

Lemma inner_true sr d p v v' :
  verifyAgainstChainAndCircuit groth16_verify files sr d p v = (v', Ok true) ->
  (exists o, isKnownRoot sr (pi_merkleRoot p) = Ok o /\ o <> Some false)
  /\ exists ps sp, public_signals sr p = Ok ps /\ to_snarkjs d = Ok sp
       /\ groth16_verify (vKey (snark v)) ps sp = Ok true.
Proof.
  unfold verifyAgainstChainAndCircuit.
  destruct (isKnownRoot sr (pi_merkleRoot p)) as [o|] eqn:Ek; [|done].
  intros H. destruct (decide (o = Some false)) as [->|Ho]; [done|].
  split; [by exists o|].
  assert (H' : (let v0 := count_verification v in
      if negb (isAvailable (snark v0)) then
        (count_failure (count_failure v0),
         Throw (Error "Proof verification not available. Circuit artifacts not loaded."))
      else
        match public_signals sr p with
        | Throw e => (count_failure v0, Throw e)
        | Ok publicSignals =>
            let '(s, isValid) := verifyProof groth16_verify files d publicSignals (snark v0) in
            let v0 := with_snark s v0 in
            (if isValid then count_success v0 else count_failure v0, Ok isValid)
        end) = (v', Ok true)) by (destruct o as [[]|]; done).
  cbv zeta in H'. unfold isAvailable in H'. cbn [snark count_verification] in H'.
  destruct (isSetup (snark v)) eqn:Ea; [|done]. cbn [negb] in H'.
  destruct (public_signals sr p) as [ps|]; [|done].
  rewrite verifyProof_available in H' by done.
  destruct (to_snarkjs d) as [sp|]; cbn [rbind] in H'; [|done].
  exists ps, sp. split; [done|]. split; [done|].
  destruct (groth16_verify (vKey (snark v)) ps sp) as [[]|]; done.
Qed.

(** Unfolds a call that reached the limiter. *)
Lemma verify_cases sr proof p v :
  verify groth16_verify files sr proof p v
    = (v, (verify groth16_verify files sr proof p v).2)
    /\ (verify groth16_verify files sr proof p v).2 <> Ok true
  \/ exists d l, JSON_parse proof = Ok d /\ well_formed d = Ok true
     /\ enter (computeLimiter v) = Ok l
     /\ verify groth16_verify files sr proof p v
        = let '(v', r) := verifyAgainstChainAndCircuit groth16_verify files sr d p (with_limiter l v) in
          (with_limiter (leave (computeLimiter v')) v', r).
Proof.
  unfold verify. destruct (isProd (sr_env sr)) as [production|]; [|by left].
  destruct (production && negb (isAvailable (snark v))); [by left|].
  destruct (length proof <? 10)%nat; [by left|].
  destruct (JSON_parse proof) as [d|] eqn:Ed; [|by left].
  destruct (well_formed d) as [[]|] eqn:Ew; [|by left|by left].
  destruct (enter (computeLimiter v)) as [l|] eqn:El; [|by left].
  right. exists d, l. done.
Qed.

Lemma leave_enter l l' : enter l = Ok l' -> leave l' = l.
Proof.
  unfold enter, leave. destruct (max l <=? active l); [done|]. intros [= <-]; cbn.
  destruct l; cbn. f_equal. lia.
Qed.

(** ** Properties *)

(** An accepted proof was parsed from the request with the Groth16 shape,
    and snarkjs accepted it against exactly the nine public signals, outputs
    first, with the request's values, C_MAX and this server's own key in
    canonical decimal; and its root is one the contract knows, unless the chain
    gave no answer, which production never tolerates. *)
Theorem verify_sound sr proof p v v' :
  verify groth16_verify files sr proof p v = (v', Ok true) ->
  exists d key ns sp,
    JSON_parse proof = Ok d /\ well_formed d = Ok true /\ to_snarkjs d = Ok sp
    /\ sr_serverKey sr = Ok key
    /\ map_result toBigInt
         [pi_nullifier p; pi_signalY p; pi_accumulatorX p; pi_accumulatorY p; pi_merkleRoot p;
          toString (pi_maxCost p); pi_signalX p; key.1; key.2] = Ok ns
    /\ groth16_verify (vKey (snark v)) (map toString ns) sp = Ok true
    /\ (sr_chain_available sr = true /\ sr_isKnownRoot sr (pi_merkleRoot p) = Ok true
        \/ isProd (sr_env sr) = Ok false
           /\ (sr_chain_available sr = false \/ exists e, sr_isKnownRoot sr (pi_merkleRoot p) = Throw e)).
Proof.
  intros H. destruct (verify_cases sr proof p v) as [[_ Hn]|(d & l & Hd & Hw & Hl & E)].
  { by rewrite H in Hn. }
  rewrite E in H. clear E.
  destruct (verifyAgainstChainAndCircuit _ _ _ _ _ _) as [v1 r] eqn:Ei. injection H as _ ->.
  apply inner_true in Ei as [(o & Ho & Hne) (ps & sp & Hps & Hsp & Hg)].
  destruct (public_signals_ok sr p ps Hps) as (key & ns & Hkey & Hns & ->).
  exists d, key, ns, sp. repeat (split; [done|]).
  by apply (isKnownRoot_passes sr _ o).
Qed.

(** Every call gives the limiter back as it found it, and while the circuit
    artifacts are loaded the metrics stay consistent: verifications are the
    successes plus the failures. Without the artifacts, outside production, one
    failed call counts two failures for one verification. *)
Theorem verify_metrics sr proof p v :
  computeLimiter (verify groth16_verify files sr proof p v).1 = computeLimiter v
  /\ (isAvailable (snark v) = true -> balanced v ->
      balanced (verify groth16_verify files sr proof p v).1)
  /\ (isAvailable (snark v) = false ->
      let v' := (verify groth16_verify files sr proof p v).1 in
      failedVerifications v' - failedVerifications v
      = 2 * (verificationCount v' - verificationCount v)).
Proof.
  destruct (verify_cases sr proof p v) as [[E _]|(d & l & _ & _ & Hl & E)]; rewrite E; clear E.
  { cbn [fst]. split; [done|]. split; [done|]. cbv zeta. lia. }
  pose proof (inner_limiter sr d p (with_limiter l v)) as H1.
  pose proof (inner_balanced sr d p (with_limiter l v)) as H2.
  assert (H3 : isAvailable (snark v) = false ->
    let v' := (verifyAgainstChainAndCircuit groth16_verify files sr d p (with_limiter l v)).1 in
    failedVerifications v' - failedVerifications v = 2 * (verificationCount v' - verificationCount v)).
  { unfold verifyAgainstChainAndCircuit, isAvailable. intros Ha.
    destruct (isKnownRoot sr (pi_merkleRoot p)) as [[[]|]|]; cbn; rewrite ?Ha; cbn; lia. }
  destruct (verifyAgainstChainAndCircuit _ _ _ _ _ _) as [v' r]. cbn [fst] in *.
  split; [|split].
  - cbn [with_limiter computeLimiter] in *. rewrite H1. by apply leave_enter.
  - intros Ha Hb. apply (H2 Ha Hb).
  - exact H3.
Qed.
End Facts.

(** ** A concrete run *)

(** Text with apostrophes for quotation marks. *)
Definition quoted (s : string) : list Z := map (fun u => if u =? 39 then 34 else u) (code_units s).

Definition sample_proof : list Z := quoted
  "{'protocol':'groth16','pi_a':['1','2','1'],'pi_b':[['1','2','1'],['3','4','1']],'pi_c':['5','6','1']}".

Definition sample_inputs : RequestPublicInputs :=
  {| pi_nullifier := "7"; pi_signalY := "-1"; pi_accumulatorX := "0x0a"; pi_accumulatorY := "11";
     pi_merkleRoot := "12"; pi_maxCost := 1000; pi_signalX := "13" |}%string.

Definition sample_surroundings : surroundings :=
  {| sr_env := {["NODE_ENV"%string := "production"%string]}; sr_chain_available := true;
     sr_isKnownRoot := fun _ => Ok true; sr_serverKey := Ok ("14"%string, "15"%string) |}.

Definition sample_verifier : ProofVerifierService :=
  {| verificationCount := 0; successfulVerifications := 0; failedVerifications := 0;
     mockVerifications := 0; computeLimiter := {| max := 8; active := 0 |};
     snark := {| isSetup := true; vKey := Some JNull |} |}.

Definition no_artifacts : artifacts :=
  {| snarkjs_loads := true; vkey_content := None; wasm_exists := false; zkey_exists := false |}.

(** Accepts the signals whose first is 7. *)
Definition toy_groth16 (_ : jsv) (ps : list string) (_ : snarkjs_proof) : result bool :=
  Ok (match ps with n :: _ => bool_decide (n = "7"%string) | [] => false end).

Lemma verify_sound_witness :
  exists v', verify toy_groth16 no_artifacts sample_surroundings sample_proof sample_inputs sample_verifier
             = (v', Ok true)
  /\ exists d, JSON_parse sample_proof = Ok d.
Proof.
  destruct (verify toy_groth16 no_artifacts sample_surroundings sample_proof sample_inputs sample_verifier)
    as [v' r] eqn:E.
  assert (Hr : r = Ok true).
  { change r with (snd (v', r)). rewrite <- E. vm_compute. reflexivity. }
  rewrite Hr in E. exists v'. split; [rewrite Hr; reflexivity|].
  destruct (verify_sound toy_groth16 no_artifacts sample_surroundings sample_proof sample_inputs
              sample_verifier v' E) as (d & _ & _ & _ & Hd & _).
  exists d. exact Hd.
Defined.
