(* ===== verification/Gateway.v ===== *)
(** * The request handler

    [src/longjing/longjing.service.ts] with the response DTO of
    [dto/api-response.dto.ts]: [handleRequest] as a program over the operations
    of the services it calls, in the order of the code. Between two operations
    anything else may run (see [Interleaving.v]); the theorems here hold for
    whatever the services answer. *)

From Stdlib Require Import String SpecFloat.
From S2P Require Import Prelude JsText JsNumber FieldElement Accumulator.
From S2P Require Import Slashing ProofVerifier ClaudePricing Quantization Padding.
Open Scope Z_scope.

(** ** Responses *)

Record UsageDto : Type := {
  unitClass : UnitClass;
  unitType : string;
  costClass : CostClass;
  u_provider : option string;
  u_endpoint : option string;
  u_timestamp : option Z;
}.

(** What stays inside the server: the exact token counts and cost. *)
Record InternalUsage : Type := {
  iu_public : UsageDto;
  internalUnits : number;
  internalCostUSD : number;
  internalInputTokens : number;
  internalOutputTokens : number;
}.

Record AccumulatorSignatureDto : Type := { R8x : string; R8y : string; S_ : string }.

Record SignedAccumulatorDto : Type := {
  sa_x : string; sa_y : string; sa_signature : AccumulatorSignatureDto
}.

Record LongjingResponseDto : Type := {
  response : list Z;
  refund : string;
  accumulator : SignedAccumulatorDto;
  usage : UsageDto;
}.

(** The body of the BadGatewayException (502) after a failed provider call. *)
Record Failure : Type := { f_refund : string; f_accumulator : SignedAccumulatorDto }.

(** What the store keeps for retries. *)
Inductive kept : Type :=
| KResponse (r : LongjingResponseDto)
| KFailure (f : Failure).

(** How a request ends: served, a refunded provider failure, or another exception. *)
Inductive outcome : Type :=
| Served (r : LongjingResponseDto)
| Failed (f : Failure)
| Rejected (e : exn).

(** The provider's message: its text and other blocks, and the token counts. *)
Record Message : Type := {
  content : list (bool * list Z);
  input_tokens : number;
  output_tokens : number;
}.

(** ** The operations of the services *)

Inductive gw : Type -> Type :=
| CheckRateLimit (n : string) : gw bool
| GetCMax : gw (result Z)
| UsdToWei (usd : number) : gw (result Z)
| VerifyProof (proof : list Z) (inputs : RequestPublicInputs) : gw (result bool)
| CheckAndSet (n : string) (signal : StoredSignal) : gw (option StoredSignal)
| SlashRevealed (s1 s2 : StoredSignal) : gw unit
| RecallResponse (n : string) (signal : StoredSignal) : gw (option kept)
| RememberResponse (n : string) (signal : StoredSignal) (r : kept) : gw unit
| CreateMessage (model : string) (max_tokens : Z) (payload : list Z) : gw (result Message)
| Random : gw number
| SignAccumulator (p : Point) : gw (result AccumulatorSignatureDto).

(** The operations that serve a request: the provider, or its mock's random draw. *)
Definition is_provider {X} (op : gw X) : bool :=
  match op with CreateMessage _ _ _ | Random => true | _ => false end.

Definition MESSAGE_OVERHEAD_TOKENS : Z := 32.

Section Gateway.
Variable sha256 : list byte -> list byte.
Variable poseidon : list Z -> Z.
Variable gens : Generators.
(** Whether ANTHROPIC_API_KEY is configured. *)
Variable apiKey : bool.

Local Open Scope prog_scope.

(** ** Costs *)

Definition calculateCostInETH (inputTokens outputTokens : number) (model : string)
  : prog gw (result Z) :=
  perform (UsdToWei (claudeCostUSD model inputTokens outputTokens)).

Definition worstCaseCostInETH (payload : list Z) (model : string) : prog gw (result Z) :=
  calculateCostInETH (num (byteLength payload + MESSAGE_OVERHEAD_TOKENS)) (num MAX_OUTPUT_TOKENS) model.

(** ** The provider *)

Fixpoint join_units (sep : Z) (l : list (list Z)) : list Z :=
  match l with
  | [] => []
  | [s] => s
  | s :: l' => s ++ sep :: join_units sep l'
  end.

Definition make_usage (model : string) (inputTokens outputTokens : number) : InternalUsage :=
  let totalTokens := nadd inputTokens outputTokens in
  let actualCostUSD := claudeCostUSD model inputTokens outputTokens in
  {| iu_public :=
       {| unitClass := fst (quantizeUnits totalTokens); unitType := "tokens";
          costClass := fst (quantizeCost actualCostUSD);
          u_provider := None; u_endpoint := None; u_timestamp := None |};
     internalUnits := totalTokens;
     internalCostUSD := actualCostUSD;
     internalInputTokens := inputTokens;
     internalOutputTokens := outputTokens |}.

(** [Math.ceil(payload.length / 4)], [Math.floor(Math.random() * 500) + 100]. *)
Definition mockClaudeRequest (payload : list Z) (model : string)
  : prog gw (result (list Z * InternalUsage)) :=
  await random <- Random ;;
  let inputTokens := Math_ceil (ndiv (num (Z.of_nat (length payload))) (num 4)) in
  let outputTokens := nadd (Math_floor (nmul random (num 500))) (num 100) in
  let mockResponse := code_units ("This is a mock Claude " +:+ model +:+ " response to: ")
    ++ [34] ++ firstn 50 payload ++ code_units "..." ++ [34] in
  Done (Ok (mockResponse, make_usage model inputTokens outputTokens)).

Definition executeClaudeRequest (payload : list Z) (model : string)
  : prog gw (result (list Z * InternalUsage)) :=
  if negb apiKey then mockClaudeRequest payload model
  else
    await message <- CreateMessage model MAX_OUTPUT_TOKENS payload ;;
    match message with
    | Throw _ => Done (Throw (Error "Failed to execute Claude API request"))
    | Ok m =>
        let textContent := join_units 10 (map snd (filter (fun b => b.1 = true) (content m))) in
        Done (Ok (textContent, make_usage model (input_tokens m) (output_tokens m)))
    end.

(** ** The next accumulator *)

Definition nextAccumulator (published : Point) (v : Z) : prog gw (result SignedAccumulatorDto) :=
  let next := applyRefund gens published v in
  await signature <- SignAccumulator next ;;
  Done (let* sg := signature in
        Ok {| sa_x := toString next.1; sa_y := toString next.2; sa_signature := sg |}).

(** ** Steps 6 to 8: the nullifier was recorded by this request *)

Definition serve (nullifier : string) (signal : StoredSignal) (published : Point)
  (payload : list Z) (model : string) (cMax : Z) : prog gw outcome :=
  do r <- executeClaudeRequest payload model ;;
  match r with
  | Throw _ =>
      do next <- nextAccumulator published cMax ;;
      match next with
      | Throw e => Done (Rejected e)
      | Ok next =>
          let failure := {| f_refund := toString cMax; f_accumulator := next |} in
          await _ <- RememberResponse nullifier signal (KFailure failure) ;;
          Done (Failed failure)
      end
  | Ok (text, internal) =>
      do cost <- calculateCostInETH (internalInputTokens internal) (internalOutputTokens internal) model ;;
      match cost with
      | Throw e => Done (Rejected e)
      | Ok actualCost =>
          let v := if actualCost <? cMax then cMax - actualCost else 0 in
          do next <- nextAccumulator published v ;;
          match next with
          | Throw e => Done (Rejected e)
          | Ok next =>
              let result := {| response := padResponse text; refund := toString v;
                               accumulator := next; usage := iu_public internal |} in
              await _ <- RememberResponse nullifier signal (KResponse result) ;;
              Done (Served result)
          end
      end
  end.

(** ** A spent nullifier: a double spend, or the retry of the same signal *)

Definition replay (nullifier : string) (signal existing : StoredSignal) : prog gw outcome :=
  if negb (bool_decide (st_x existing = st_x signal)) then
    await _ <- SlashRevealed existing signal ;;
    Done (Rejected (ForbiddenException
      "Double-spend detected. Your secret key has been extracted and you will be slashed."))
  else
    await cached <- RecallResponse nullifier signal ;;
    Done (match cached with
          | Some (KFailure f) => Failed f
          | Some (KResponse r) => Served r
          | None => Rejected (ForbiddenException "Nullifier already used")
          end).

Definition public_inputs (req : LongjingRequestDto) (cMax : Z) : RequestPublicInputs :=
  {| pi_nullifier := req_nullifier req;
     pi_signalY := signal_y (req_signal req);
     pi_accumulatorX := acc_x (req_accumulator req);
     pi_accumulatorY := acc_y (req_accumulator req);
     pi_merkleRoot := req_merkleRoot req;
     pi_maxCost := cMax;
     pi_signalX := signal_x (req_signal req) |}.

Definition canonical_signal (s : RlnSignalDto) : result StoredSignal :=
  let* x := parseFieldElement (signal_x s) in
  let* y := parseFieldElement (signal_y s) in
  Ok {| st_x := toString x; st_y := toString y |}.

Definition canonical_point (a : AccumulatorDto) : result Point :=
  let* x := parseFieldElement (acc_x a) in
  let* y := parseFieldElement (acc_y a) in
  Ok (x, y).

(** Step 5 on: record (N, x, y), then serve or replay. *)
Definition settle (nullifier : string) (req : LongjingRequestDto) (model : string) (cMax : Z)
  : prog gw outcome :=
  match canonical_signal (req_signal req) with
  | Throw e => Done (Rejected e)
  | Ok signal =>
      await existing <- CheckAndSet nullifier signal ;;
      match existing with
      | Some existing => replay nullifier signal existing
      | None =>
          match canonical_point (req_accumulator req) with
          | Throw e => Done (Rejected e)
          | Ok published => serve nullifier signal published (req_payload req) model cMax
          end
      end
  end.

Definition model_of (req : LongjingRequestDto) : string :=
  match req_model req with Some m => m | None => DEFAULT_CLAUDE_MODEL end.

Definition handleRequest (req : LongjingRequestDto) : prog gw outcome :=
  let model := model_of req in
  if negb (isClaudeModel model) then Done (Rejected (BadRequestException "Unsupported model"))
  else
  match parseFieldElement (req_nullifier req) with
  | Throw e => Done (Rejected e)
  | Ok n =>
  let nullifier := toString n in
  await within <- CheckRateLimit nullifier ;;
  if negb within then Done (Rejected (ForbiddenException
    "Rate limit exceeded for this nullifier. Maximum 3 requests per minute."))
  else
  match signalXMatchesRequest sha256 poseidon (signal_x (req_signal req)) (req_payload req) (req_nonce req) with
  | Throw e => Done (Rejected e)
  | Ok false => Done (Rejected (BadRequestException "Signal x does not match the payload and nonce"))
  | Ok true =>
  await cMax <- GetCMax ;;
  match cMax with
  | Throw _ => Done (Rejected (ServiceUnavailableException "Cannot read C_MAX from the contract"))
  | Ok cMax =>
  do worst <- worstCaseCostInETH (req_payload req) model ;;
  match worst with
  | Throw e => Done (Rejected e)
  | Ok worstCaseCost =>
  if cMax <? worstCaseCost
  then Done (Rejected (BadRequestException "The worst-case cost exceeds C_MAX"))
  else
  await valid <- VerifyProof (req_proof req) (public_inputs req cMax) ;;
  match valid with
  | Throw e => Done (Rejected e)
  | Ok false => Done (Rejected (UnauthorizedException "Invalid ZK proof"))
  | Ok true => settle nullifier req model cMax
  end end end end end.
End Gateway.

(** ** What a request does, whatever the services answer *)

Section Behaviour.
Context (sha256 : list byte -> list byte) (poseidon : list Z -> Z) (gens : Generators) (apiKey : bool).
Context {W : Type} (handle : forall X, gw X -> W -> W * X).

Definition provider_event (e : event gw) : bool := match e with Ev op _ => is_provider op end.

Definition silent (log : list (event gw)) : Prop := Forall (fun e => provider_event e = false) log.

(** The cost in dollars the provider's answer stands for. *)
Definition billed (model : string) (payload : list Z) (prov : event gw) (usd : number) : Prop :=
  exists i o, usd = claudeCostUSD model i o /\
    match prov with
    | Ev (CreateMessage _ _ _) ans =>
        match ans with Ok m => i = input_tokens m /\ o = output_tokens m | Throw _ => False end
    | Ev Random r => i = Math_ceil (ndiv (num (Z.of_nat (length payload))) (num 4))
                     /\ o = nadd (Math_floor (nmul r (num 500))) (num 100)
    | _ => False
    end.

(** The accumulator of a reply: [A_pub + v G + J] with the signature given for it. *)
Definition signed_next (published : Point) (v : Z) (a : SignedAccumulatorDto) (log : list (event gw)) : Prop :=
  let next := applyRefund gens published v in
  sa_x a = toString next.1 /\ sa_y a = toString next.2
  /\ Ev (SignAccumulator next) (Ok (sa_signature a)) ∈ log.

Lemma nextAccumulator_log published v w w' r log :
  run_log handle (nextAccumulator gens published v) w = (w', r, log) ->
  silent log /\ match r with Ok a => signed_next published v a log | Throw _ => True end.
Proof.
  intros H. unfold nextAccumulator in H. log_step H. injection H as <- <- <-.
  split; [by repeat constructor|].
  match goal with |- match rbind ?x _ with _ => _ end => destruct x; [|done] end.
  repeat split. left.
Qed.

Lemma execute_log payload model w w' r log :
  run_log handle (executeClaudeRequest apiKey payload model) w = (w', r, log) ->
  exists prov, log = [prov] /\ provider_event prov = true
    /\ match r with
       | Ok (_, u) => billed model payload prov
           (claudeCostUSD model (internalInputTokens u) (internalOutputTokens u))
       | Throw _ => True
       end.
Proof.
  unfold executeClaudeRequest, mockClaudeRequest. destruct apiKey; cbn [negb]; intros H; log_step H.
  - match type of H with context [match ?m with Ok _ => _ | Throw _ => _ end] => destruct m as [m|] end;
      cbn [run_log] in H; injection H as <- <- <-; eexists; (split; [done|]); (split; [done|]); [|done].
    cbn. eexists _, _. split; [done|]. by split.
  - injection H as <- <- <-. eexists. split; [done|]. split; [done|].
    cbn. eexists _, _. split; [done|]. by split.
Qed.

(** Serving: one provider call first; then the refund, the signature and the copy
    kept for a retry. *)
Lemma serve_log nul sg published payload model cMax w w' o log :
  run_log handle (serve gens apiKey nul sg published payload model cMax) w = (w', o, log) ->
  exists prov rest, log = prov :: rest /\ provider_event prov = true /\ silent rest
    /\ match o with
       | Served r =>
           Ev (RememberResponse nul sg (KResponse r)) tt ∈ rest
           /\ exists usd actual, billed model payload prov usd
                /\ Ev (UsdToWei usd) (Ok actual) ∈ rest
                /\ let v := if actual <? cMax then cMax - actual else 0 in
                   refund r = toString v /\ signed_next published v (accumulator r) rest
       | Failed f =>
           Ev (RememberResponse nul sg (KFailure f)) tt ∈ rest
           /\ f_refund f = toString cMax /\ signed_next published cMax (f_accumulator f) rest
       | Rejected _ => True
       end.
Proof.
  unfold serve. rewrite run_log_pbind.
  destruct (run_log handle (executeClaudeRequest apiKey payload model) w) as [[w1 r] log1] eqn:E1.
  apply execute_log in E1 as (prov & -> & Hp & Hb).
  destruct r as [[text u]|e].
  - unfold calculateCostInETH. intros H. cbn [perform pbind run_log] in H.
    destruct (handle (result Z) _ w1) as [w2 cost] eqn:Ew.
    destruct cost as [actual|e]; [|cbn [run_log] in H; injection H as <- <- <-;
      eexists _, _; split; [done|]; split; [done|]; split; [by repeat constructor|done]].
    rewrite run_log_pbind in H.
    set (v := if actual <? cMax then cMax - actual else 0) in *.
    destruct (run_log handle (nextAccumulator gens published v) w2) as [[w3 next] log2] eqn:E2.
    apply nextAccumulator_log in E2 as [Hs2 Hn].
    destruct next as [a|e]; cbn [run_log] in H.
    + match type of H with context [handle unit ?op w3] => destruct (handle unit op w3) as [w4 []] end.
      injection H as <- <- <-. eexists _, _. split; [done|]. split; [done|]. split.
      { constructor; [done|]. apply Forall_app. split; [done|]. by repeat constructor. }
      split; [right; apply elem_of_app; right; left|].
      eexists _, _. split; [exact Hb|]. split; [left|]. fold v. split; [done|].
      destruct Hn as (? & ? & ?). repeat split; try done. right. apply elem_of_app. by left.
    + injection H as <- <- <-. eexists _, _. split; [done|]. split; [done|]. split; [|done].
      constructor; [done|]. by rewrite app_nil_r.
  - intros H. rewrite run_log_pbind in H.
    destruct (run_log handle (nextAccumulator gens published cMax) w1) as [[w3 next] log2] eqn:E2.
    apply nextAccumulator_log in E2 as [Hs2 Hn].
    destruct next as [a|e']; cbn [run_log] in H.
    + match type of H with context [handle unit ?op w3] => destruct (handle unit op w3) as [w4 []] end.
      injection H as <- <- <-. eexists _, _. split; [done|]. split; [done|]. split.
      { apply Forall_app. split; [done|]. by repeat constructor. }
      split; [apply elem_of_app; right; left|]. split; [done|].
      destruct Hn as (? & ? & ?). repeat split; try done. apply elem_of_app. by left.
    + injection H as <- <- <-. eexists _, _. split; [done|]. split; [done|]. split; [|done].
      by rewrite app_nil_r.
Qed.

Lemma replay_log nul sg existing w w' o log :
  run_log handle (replay nul sg existing) w = (w', o, log) ->
  silent log /\ match o with
  | Served r => log = [Ev (RecallResponse nul sg) (Some (KResponse r))]
  | Failed f => log = [Ev (RecallResponse nul sg) (Some (KFailure f))]
  | Rejected _ => True
  end.
Proof.
  unfold replay. destruct (negb _); intros H; log_step H; injection H as <- <- <-;
    (split; [by repeat constructor|]); [done|].
  by match goal with |- match match ?c with _ => _ end with _ => _ end => destruct c as [[]|] end.
Qed.
End Behaviour.

Section Replies.
Context (sha256 : list byte -> list byte) (poseidon : list Z -> Z) (gens : Generators) (apiKey : bool).
Context {W : Type} (handle : forall X, gw X -> W -> W * X).

(** The checks that stand before the provider, with what they must answer. *)
Definition checks (req : LongjingRequestDto) (nul : string) (cMax worst : Z) (sg : StoredSignal)
  : list (event gw) :=
  [Ev (CheckRateLimit nul) true;
   Ev GetCMax (Ok cMax);
   Ev (UsdToWei (claudeCostUSD (model_of req)
         (num (byteLength (req_payload req) + MESSAGE_OVERHEAD_TOKENS)) (num MAX_OUTPUT_TOKENS))) (Ok worst);
   Ev (VerifyProof (req_proof req) (public_inputs req cMax)) (Ok true);
   Ev (CheckAndSet nul sg) None].

Record admitted (req : LongjingRequestDto) (nul : string) (cMax worst : Z) (sg : StoredSignal) : Prop := {
  ad_model : isClaudeModel (model_of req) = true;
  ad_nullifier : exists n, parseFieldElement (req_nullifier req) = Ok n /\ nul = toString n;
  ad_binding : signalXMatchesRequest sha256 poseidon (signal_x (req_signal req))
                 (req_payload req) (req_nonce req) = Ok true;
  ad_worst : worst <= cMax;
  ad_signal : canonical_signal (req_signal req) = Ok sg;
}.

(** Every request: either it is admitted and served after all the checks, or
    nothing is served: it is refused, or answered from the store. *)
Lemma handleRequest_log req w w' o log :
  run_log handle (handleRequest sha256 poseidon gens apiKey req) w = (w', o, log) ->
  (exists nul cMax worst sg pub prov rest,
      admitted req nul cMax worst sg /\ canonical_point (req_accumulator req) = Ok pub
      /\ log = checks req nul cMax worst sg ++ prov :: rest
      /\ provider_event prov = true /\ silent rest
      /\ match o with
         | Served r =>
             Ev (RememberResponse nul sg (KResponse r)) tt ∈ rest
             /\ exists usd actual, billed (model_of req) (req_payload req) prov usd
                /\ Ev (UsdToWei usd) (Ok actual) ∈ rest
                /\ let v := if actual <? cMax then cMax - actual else 0 in
                   refund r = toString v /\ signed_next gens pub v (accumulator r) rest
         | Failed f =>
             Ev (RememberResponse nul sg (KFailure f)) tt ∈ rest
             /\ f_refund f = toString cMax /\ signed_next gens pub cMax (f_accumulator f) rest
         | Rejected _ => True
         end)
  \/ silent log /\ match o with
     | Served r => exists nul sg, Ev (RecallResponse nul sg) (Some (KResponse r)) ∈ log
     | Failed f => exists nul sg, Ev (RecallResponse nul sg) (Some (KFailure f)) ∈ log
     | Rejected _ => True
     end.
Proof.
  unfold handleRequest. destruct (isClaudeModel (model_of req)) eqn:Hm; cbn [negb].
  2: { intros [= <- <- <-]. right. by split; [constructor|]. }
  destruct (parseFieldElement (req_nullifier req)) as [n|e] eqn:Hn.
  2: { intros [= <- <- <-]. right. by split; [constructor|]. }
  intros H. cbn [run_log] in H. destruct (handle bool _ w) as [w1 within].
  destruct within; cbn [negb run_log] in H; [|injection H as <- <- <-; right; by split; [repeat constructor|]].
  destruct (signalXMatchesRequest _ _ _ _ _) as [[]|e] eqn:Hx; cbn [run_log] in H;
    [|injection H as <- <- <-; right; by split; [repeat constructor|]..].
  destruct (handle (result Z) GetCMax w1) as [w2 [cMax|e]]; cbn [run_log] in H;
    [|injection H as <- <- <-; right; by split; [repeat constructor|]].
  unfold worstCaseCostInETH, calculateCostInETH in H. cbn [perform pbind run_log] in H.
  destruct (handle (result Z) _ w2) as [w3 [worst|e]]; cbn [run_log] in H;
    [|injection H as <- <- <-; right; by split; [repeat constructor|]].
  destruct (Z.ltb_spec cMax worst) as [Hw|Hw]; cbn [run_log] in H;
    [injection H as <- <- <-; right; by split; [repeat constructor|]|].
  destruct (handle (result bool) _ w3) as [w4 [[]|e]]; cbn [run_log] in H;
    [|injection H as <- <- <-; right; by split; [repeat constructor|]..].
  unfold settle in H.
  destruct (canonical_signal (req_signal req)) as [sg|e] eqn:Hsg; cbn [run_log] in H;
    [|injection H as <- <- <-; right; by split; [repeat constructor|]].
  destruct (handle (option StoredSignal) _ w4) as [w5 [existing|]]; cbn [run_log] in H.
  - destruct (run_log handle (replay (toString n) sg existing) w5) as [[w6 o'] l6] eqn:Er.
    apply replay_log in Er as [Hs Ho]. injection H as <- <- <-. right. split.
    { repeat (constructor; [done|]). exact Hs. }
    destruct o' as [r|f|e]; [| |done]; exists (toString n), sg; rewrite Ho;
      do 5 right; left.
  - destruct (canonical_point (req_accumulator req)) as [pub|e] eqn:Hp; cbn [run_log] in H;
      [|injection H as <- <- <-; right; by split; [repeat constructor|]].
    destruct (run_log handle (serve gens apiKey (toString n) sg pub (req_payload req)
                                (model_of req) cMax) w5) as [[w6 o'] l6] eqn:Es.
    apply serve_log in Es as (prov & rest & -> & Hprov & Hrest & Ho).
    injection H as <- <- <-. left.
    exists (toString n), cMax, worst, sg, pub, prov, rest.
    split; [split; try done; by exists n|]. split; [done|]. split; [done|].
    split; [done|]. by split.
Qed.

(** ** Properties *)

(** C33: a request reaches the provider at most once, and only after, in this
    order, its nullifier passed the rate limit, x was found to commit to the
    payload, the worst-case cost was found to be at most C_MAX, the proof was
    verified against that C_MAX, and the nullifier was recorded as new. *)
Theorem provider_only_after_checks req w w' o log :
  run_log handle (handleRequest sha256 poseidon gens apiKey req) w = (w', o, log) ->
  silent log
  \/ exists nul cMax worst sg prov rest,
       admitted req nul cMax worst sg
       /\ log = checks req nul cMax worst sg ++ prov :: rest
       /\ provider_event prov = true /\ silent rest.
Proof.
  intros H. destruct (handleRequest_log req w w' o log H)
    as [(nul & cMax & worst & sg & pub & prov & rest & Ha & _ & Hl & Hp & Hr & _)|[Hs _]];
    [right|by left].
  by exists nul, cMax, worst, sg, prov, rest.
Qed.

(** C5: the accounts of a reply. A served request refunds [v = C_MAX - actual],
    or 0 when the actual cost is larger, and a failed provider call refunds all
    of C_MAX; so [0 <= v <= C_MAX] whenever the rate oracle gives costs that are
    not negative. The accumulator returned is [A_pub + v G + J] for that very
    [v], with the signature made on it, and the reply is kept for a retry; any
    other reply comes from the store and serves nothing. *)
Theorem reply_accounts req w w' o log :
  run_log handle (handleRequest sha256 poseidon gens apiKey req) w = (w', o, log) ->
  match o with
  | Rejected _ => True
  | Served r =>
      silent log /\ (exists nul sg, Ev (RecallResponse nul sg) (Some (KResponse r)) ∈ log)
      \/ exists nul cMax sg pub usd actual prov,
           Ev GetCMax (Ok cMax) ∈ log /\ Ev (CheckAndSet nul sg) None ∈ log
           /\ prov ∈ log /\ billed (model_of req) (req_payload req) prov usd
           /\ Ev (UsdToWei usd) (Ok actual) ∈ log
           /\ canonical_point (req_accumulator req) = Ok pub
           /\ Ev (RememberResponse nul sg (KResponse r)) tt ∈ log
           /\ let v := if actual <? cMax then cMax - actual else 0 in
              refund r = toString v /\ signed_next gens pub v (accumulator r) log
              /\ (0 <= actual -> 0 <= cMax -> 0 <= v <= cMax)
  | Failed f =>
      silent log /\ (exists nul sg, Ev (RecallResponse nul sg) (Some (KFailure f)) ∈ log)
      \/ exists nul cMax sg pub,
           Ev GetCMax (Ok cMax) ∈ log /\ Ev (CheckAndSet nul sg) None ∈ log
           /\ canonical_point (req_accumulator req) = Ok pub
           /\ Ev (RememberResponse nul sg (KFailure f)) tt ∈ log
           /\ f_refund f = toString cMax /\ signed_next gens pub cMax (f_accumulator f) log
  end.
Proof.
  intros H. destruct (handleRequest_log req w w' o log H)
    as [(nul & cMax & worst & sg & pub & prov & rest & Ha & Hpub & Hl & Hp & Hr & Ho)|[Hs Ho]];
    [|destruct o; [by left|by left|done]].
  assert (Hin : forall e, e ∈ rest -> e ∈ log).
  { intros e He. rewrite Hl. apply elem_of_app. right. by right. }
  assert (Hc : forall e, e ∈ checks req nul cMax worst sg -> e ∈ log).
  { intros e He. rewrite Hl. apply elem_of_app. by left. }
  assert (H1 : Ev GetCMax (Ok cMax) ∈ log) by (apply Hc; right; left).
  assert (H2 : Ev (CheckAndSet nul sg) None ∈ log) by (apply Hc; do 4 right; left).
  destruct o as [r|f|e]; [| |done]; right.
  - destruct Ho as (Hk & usd & actual & Hb & Hu & Hv & Hx & Hy & Hsig).
    exists nul, cMax, sg, pub, usd, actual, prov.
    split; [exact H1|]. split; [exact H2|].
    split; [rewrite Hl; apply elem_of_app; right; left|].
    split; [exact Hb|]. split; [by apply Hin|]. split; [exact Hpub|]. split; [by apply Hin|].
    split; [exact Hv|]. split; [repeat split; auto|].
    intros H0 Hm. destruct (Z.ltb_spec actual cMax); lia.
  - destruct Ho as (Hk & Hv & Hx & Hy & Hsig). exists nul, cMax, sg, pub.
    split; [exact H1|]. split; [exact H2|]. split; [exact Hpub|]. split; [by apply Hin|].
    split; [exact Hv|]. repeat split; auto.
Qed.
End Replies.
