(* ===== verification/ExitWatcher.v ===== *)
(** * The exit watcher

    [src/longjing/exit-watcher.service.ts]: an exit's signal is recorded at its
    claimed index, or slashes the note when a request already used that index.
    A program over the same operations as the request handler. *)

From Stdlib Require Import String.
From S2P Require Import Prelude JsText Slashing Gateway.
Open Scope Z_scope.

Local Open Scope prog_scope.

Record WithdrawalInitiated : Type := { w_nullifier : Z; w_signalX : Z; w_signalY : Z }.

Definition exit_signal (exit : WithdrawalInitiated) : StoredSignal :=
  {| st_x := toString (w_signalX exit); st_y := toString (w_signalY exit) |}.

Definition ingest (exit : WithdrawalInitiated) : prog gw unit :=
  let signal := exit_signal exit in
  await existing <- CheckAndSet (toString (w_nullifier exit)) signal ;;
  match existing with
  | Some existing =>
      if negb (bool_decide (st_x existing = st_x signal))
      then await _ <- SlashRevealed existing signal ;; Done tt
      else Done tt
  | None => Done tt
  end.

(** The handler given to [watchWithdrawals] logs any error, so each exit of the
    look-back is ingested in turn. *)
Fixpoint watch (past : list WithdrawalInitiated) : prog gw unit :=
  match past with
  | [] => Done tt
  | exit :: past' => do _ <- ingest exit ;; watch past'
  end.
