(* ===== verification/Interleaving.v ===== *)
(** * Concurrent requests

    Requests and exits run interleaved: at any moment one of them performs its
    next operation, or the environment moves (time passes, a timer runs, the
    chain changes). The services are seen through the interface
    [GatewayServices]: all that matters is that [CheckAndSet] is atomic on the
    map of spent nullifiers and that nothing else writes it. [GatewayWorld.v]
    shows that the modelled services implement the interface. *)

From Stdlib Require Import String.
From S2P Require Import Prelude JsText FieldElement Accumulator Slashing Gateway ExitWatcher.
Open Scope Z_scope.

(** ** The interface *)

Definition is_check {X} (op : gw X) : bool :=
  match op with CheckAndSet _ _ => true | _ => false end.

Class GatewayServices (W Env : Type) : Type := {
  handle : forall X, gw X -> W -> W * X;
  environment : Env -> W -> W;
  spent : W -> gmap string StoredSignal;
  spent_check n sg w :
    (handle _ (CheckAndSet n sg) w).2 = spent w !! n
    /\ spent (handle _ (CheckAndSet n sg) w).1
       = match spent w !! n with Some _ => spent w | None => <[n := sg]> (spent w) end;
  spent_frame X (op : gw X) w : is_check op = false -> spent (handle X op w).1 = spent w;
  spent_environment e w : spent (environment e w) = spent w;
}.

(** ** What a program may still do *)

(** The operations to count: the provider calls, or the refund signatures. *)
Abbreviation counting := (forall X, gw X -> bool).

Definition is_signing {X} (op : gw X) : bool :=
  match op with SignAccumulator _ => true | _ => false end.

(** The replies kept for a nullifier. *)
Definition remembers (n : string) {X} (op : gw X) : bool :=
  match op with RememberResponse m _ _ => bool_decide (m = n) | _ => false end.

(** The countings of what a request does at most once. *)
Inductive per_request : counting -> Prop :=
| per_provider : per_request (@is_provider)
| per_signing : per_request (@is_signing)
| per_remembered n : per_request (@remembers n).
#[export] Hint Constructors per_request : longjing.

Section Bounds.
Context (counted : counting).

(** It performs no counted operation. *)
Fixpoint no_call {A} (p : prog gw A) : Prop :=
  match p with
  | Done _ => True
  | Call op k => counted _ op = false /\ forall x, no_call (k x)
  end.

(** It performs at most one counted operation. *)
Fixpoint once {A} (p : prog gw A) : Prop :=
  match p with
  | Done _ => True
  | Call op k => if counted _ op then forall x, no_call (k x) else forall x, once (k x)
  end.

(** What [guarded] asks of an operation and its continuation: [once] after a
    fresh [CheckAndSet], [no_call] after one that found the nullifier spent. *)
Definition guard_op (n : string) {X} (op : gw X) : (X -> Prop) -> (X -> Prop) -> (X -> Prop) -> Prop :=
  match op in gw Y return (Y -> Prop) -> (Y -> Prop) -> (Y -> Prop) -> Prop with
  | CheckAndSet m sg => fun once_k none_k _ => m = n /\ once_k None /\ forall ex, none_k (Some ex)
  | _ => fun _ _ guarded_k => forall x, guarded_k x
  end.

(** It performs at most one counted operation, and only after recording [n] as new. *)
Fixpoint guarded (n : string) {A} (p : prog gw A) : Prop :=
  match p with
  | Done _ => True
  | Call op k =>
      counted _ op = false
      /\ guard_op n op (fun x => once (k x)) (fun x => no_call (k x)) (fun x => guarded n (k x))
  end.

Lemma no_call_pbind {A B} (p : prog gw A) (f : A -> prog gw B) :
  no_call p -> (forall a, no_call (f a)) -> no_call (pbind p f).
Proof. induction p as [a|X op k IH]; simpl; [auto|]. intros [H1 H2] Hf. split; auto. Qed.

Lemma no_call_once {A} (p : prog gw A) : no_call p -> once p.
Proof. induction p as [a|X op k IH]; simpl; [done|]. intros [-> H]. auto. Qed.

Lemma once_pbind {A B} (p : prog gw A) (f : A -> prog gw B) :
  once p -> (forall a, no_call (f a)) -> once (pbind p f).
Proof.
  induction p as [a|X op k IH]; simpl; [auto using no_call_once|].
  intros H Hf. destruct (counted _ op); intros x; auto using no_call_pbind.
Qed.

Lemma no_call_once_pbind {A B} (p : prog gw A) (f : A -> prog gw B) :
  no_call p -> (forall a, once (f a)) -> once (pbind p f).
Proof. induction p as [a|X op k IH]; simpl; [auto|]. intros [-> H] Hf. auto. Qed.

Lemma guarded_map n {A B} (p : prog gw A) (g : A -> B) :
  guarded n p -> guarded n (pbind p (fun a => Done (g a))).
Proof.
  assert (Hno : forall p : prog gw A, no_call p -> no_call (pbind p (fun a => Done (g a)))).
  { intros q Hq. by apply no_call_pbind. }
  assert (Hon : forall p : prog gw A, once p -> once (pbind p (fun a => Done (g a)))).
  { intros q Hq. by apply once_pbind. }
  induction p as [a|X op k IH]; [done|]. cbn [pbind guarded]. intros [Hc Hg]. split; [done|].
  clear Hc. destruct op; cbn [guard_op] in *; try (intros x; by apply IH).
  destruct Hg as (H1 & H2 & H3). auto.
Qed.
End Bounds.

(** ** The handlers are guarded *)

Section Pieces.
Context (gens : Generators) (apiKey : bool) (counted : counting).

Lemma execute_no_call payload model : (forall X (op : gw X), is_provider op = true -> counted X op = false) ->
  no_call counted (executeClaudeRequest apiKey payload model).
Proof.
  intros Hc. unfold executeClaudeRequest, mockClaudeRequest.
  destruct apiKey; (split; [by apply Hc|]); [by intros []|done].
Qed.

Lemma execute_once payload model : once (@is_provider) (executeClaudeRequest apiKey payload model).
Proof. unfold executeClaudeRequest, mockClaudeRequest. by destruct apiKey; intros []. Qed.

Lemma nextAccumulator_no_call published v : (forall p, counted _ (SignAccumulator p) = false) ->
  no_call counted (nextAccumulator gens published v).
Proof. intros Hc. unfold nextAccumulator. split; [apply Hc|done]. Qed.

(** The end of [serve]: sign, remember, reply. *)
Definition finish {A} (nul : string) (sg : StoredSignal) (published : Point) (v : Z)
  (f : SignedAccumulatorDto -> kept) (g : SignedAccumulatorDto -> A) (h : exn -> A) : prog gw A :=
  pbind (nextAccumulator gens published v) (fun next =>
    match next with
    | Throw e => Done (h e)
    | Ok next => Call (RememberResponse nul sg (f next)) (fun _ => Done (g next))
    end).

Lemma finish_no_call {A} nul sg published v f g (h : exn -> A) :
  (forall p, counted _ (SignAccumulator p) = false) ->
  (forall k, counted _ (RememberResponse nul sg k) = false) ->
  no_call counted (finish nul sg published v f g h).
Proof.
  intros H1 H2. apply no_call_pbind; [by apply nextAccumulator_no_call|].
  intros []; [split; [apply H2|]|]; done.
Qed.

End Pieces.

Section Guarded.
Context (sha256 : list byte -> list byte) (poseidon : list Z -> Z) (gens : Generators) (apiKey : bool).
Context (counted : counting) (Hcounted : per_request counted).

(** Settles a step for each of the countings. *)
Ltac either := destruct Hcounted; try done; try (by split).

Lemma finish_once {A} nul sg published v f g (h : exn -> A) :
  once counted (finish gens nul sg published v f g h).
Proof.
  destruct Hcounted as [| |n].
  - apply no_call_once. by apply finish_no_call.
  - apply once_pbind; [done|]. intros []; by split.
  - apply no_call_once_pbind; [by split|]. intros [a|e]; [|done]. cbn. by case_bool_decide.
Qed.

(** After the provider's answer. *)
Lemma serve_rest nul sg published payload model cMax :
  once (@is_provider) (serve gens apiKey nul sg published payload model cMax)
  /\ (counted <> @is_provider -> once counted (serve gens apiKey nul sg published payload model cMax)).
Proof.
  unfold serve. split.
  - apply once_pbind; [apply execute_once|]. intros [[text u]|e].
    + apply no_call_pbind; [by split|]. intros [actual|e]; [|done]. by apply finish_no_call.
    + by apply finish_no_call.
  - intros Hne. apply no_call_once_pbind.
    { apply execute_no_call. intros ? op. destruct Hcounted; by destruct op. }
    intros [[text u]|e]; [|apply finish_once].
    apply no_call_once_pbind; [either|]. intros [actual|e]; [|done]. apply finish_once.
Qed.

Lemma serve_once nul sg published payload model cMax :
  once counted (serve gens apiKey nul sg published payload model cMax).
Proof.
  destruct (serve_rest nul sg published payload model cMax) as [H1 H2].
  destruct Hcounted as [| |n]; [exact H1|apply H2..].
  - intros Heq. assert (Hf : @is_signing _ Random = true) by by rewrite Heq. discriminate Hf.
  - intros Heq. assert (Hf : @remembers n _ Random = true) by by rewrite Heq. discriminate Hf.
Qed.

Lemma replay_no_call nul sg existing : no_call counted (replay nul sg existing).
Proof. unfold replay. destruct (negb _); either. Qed.

Lemma settle_guarded nul req model cMax : guarded counted nul (settle gens apiKey nul req model cMax).
Proof.
  unfold settle. destruct (canonical_signal (req_signal req)) as [sg|e]; [|done].
  split; [either|]. split; [done|]. split.
  - destruct (canonical_point (req_accumulator req)); [apply serve_once|done].
  - intros ex. apply replay_no_call.
Qed.

Lemma handleRequest_guarded req n : parseFieldElement (req_nullifier req) = Ok n ->
  guarded counted (toString n) (handleRequest sha256 poseidon gens apiKey req).
Proof.
  intros Hn. unfold handleRequest. destruct (negb _); [done|]. rewrite Hn. split; [either|].
  intros [|]; [|done]. cbn [negb].
  destruct (signalXMatchesRequest _ _ _ _ _) as [[|]|e]; [|done..].
  split; [either|]. intros [cMax|e]; [|done]. split; [either|].
  intros [worst|e]; [|done]. cbn [pbind]. destruct (cMax <? worst); [done|]. split; [either|].
  intros [[|]|e]; [|done..]. apply settle_guarded.
Qed.

Lemma ingest_guarded exit : guarded counted (toString (w_nullifier exit)) (ingest exit).
Proof.
  split; [either|]. split; [done|]. split; [done|]. intros ex.
  destruct (negb _); either.
Qed.
End Guarded.

(** ** Sources of work *)

Inductive source : Type :=
| SRequest (req : LongjingRequestDto)
| SExit (exit : WithdrawalInitiated).

Inductive reply : Type :=
| Replied (o : outcome)
| Ingested.

(** The nullifier a source is about, in canonical form; a request whose text does
    not parse has none and is refused at once. *)
Definition nullifier_of (src : source) : option string :=
  match src with
  | SRequest req =>
      match parseFieldElement (req_nullifier req) with Ok n => Some (toString n) | Throw _ => None end
  | SExit exit => Some (toString (w_nullifier exit))
  end.

Section Pool.
Context (sha256 : list byte -> list byte) (poseidon : list Z -> Z) (gens : Generators) (apiKey : bool).
Context {W Env : Type} `{GatewayServices W Env}.
Context (counted : counting).

Definition thread_of (src : source) : prog gw reply :=
  match src with
  | SRequest req => pbind (handleRequest sha256 poseidon gens apiKey req) (fun o => Done (Replied o))
  | SExit exit => pbind (ingest exit) (fun _ => Done Ingested)
  end.

Record pool : Type := { world : W; threads : list (prog gw reply) }.

(** One thread performs its next operation, or the environment moves. *)
Inductive move : Type :=
| Run (i : nat)
| EnvMove (e : Env).

Definition step (m : move) (p : pool) : pool * list (nat * event gw) :=
  match m with
  | Run i =>
      match threads p !! i with
      | Some (Call op k) =>
          let '(w', x) := handle _ op (world p) in
          ({| world := w'; threads := <[i := k x]> (threads p) |}, [(i, Ev op x)])
      | _ => (p, [])
      end
  | EnvMove e => ({| world := environment e (world p); threads := threads p |}, [])
  end.

Fixpoint run_moves (moves : list move) (p : pool) : pool * list (nat * event gw) :=
  match moves with
  | [] => (p, [])
  | m :: moves' =>
      let '(p1, t1) := step m p in
      let '(p2, t2) := run_moves moves' p1 in
      (p2, t1 ++ t2)
  end.

Definition start (sources : list source) (w : W) : pool :=
  {| world := w; threads := map thread_of sources |}.

Definition counts (e : event gw) : bool := match e with Ev op _ => counted _ op end.

(** The counted operations made on behalf of a nullifier. *)
Definition is_call_for (sources : list source) (n : string) (ie : nat * event gw) : bool :=
  counts ie.2 && bool_decide (sources !! ie.1 ≫= nullifier_of = Some n).

Definition calls_for (sources : list source) (n : string) (trace : list (nat * event gw)) : nat :=
  length (filter (fun ie => is_call_for sources n ie = true) trace).

(** ** The invariant *)

Definition quiet (n : string) (p : prog gw reply) : Prop := no_call counted p \/ guarded counted n p.

Definition concerns (sources : list source) (n : string) (i : nat) : Prop :=
  sources !! i ≫= nullifier_of = Some n.

#[local] Instance concerns_dec sources n i : Decision (concerns sources n i).
Proof. unfold concerns. apply _. Defined.

(** Before the nullifier is recorded, its threads are all guarded and nothing was
    called; afterwards one thread may still hold the only call. *)
Inductive invariant (sources : list source) (n : string) (p : pool) (calls : nat) : Prop :=
| inv_fresh : spent (world p) !! n = None -> calls = 0%nat ->
    (forall i t, concerns sources n i -> threads p !! i = Some t -> guarded counted n t) ->
    invariant sources n p calls
| inv_holder ex h : spent (world p) !! n = Some ex -> calls = 0%nat ->
    (forall t, threads p !! h = Some t -> once counted t) ->
    (forall i t, concerns sources n i -> i <> h -> threads p !! i = Some t -> quiet n t) ->
    invariant sources n p calls
| inv_done ex : spent (world p) !! n = Some ex -> (calls <= 1)%nat ->
    (forall i t, concerns sources n i -> threads p !! i = Some t -> quiet n t) ->
    invariant sources n p calls.

Lemma spent_step {X} (op : gw X) w n ex :
  spent w !! n = Some ex -> spent (handle X op w).1 !! n = Some ex.
Proof.
  intros Hs. destruct (is_check op) eqn:E; [|by rewrite spent_frame].
  destruct op as [| | | |m sg| | | | | |]; try discriminate E.
  destruct (spent_check m sg w) as [_ ->].
  destruct (spent w !! m) eqn:Em; [done|].
  destruct (decide (m = n)) as [->|]; [congruence|]. by rewrite lookup_insert_ne.
Qed.

(** A quiet thread never calls the provider once its nullifier is spent. *)
Lemma quiet_step n {X} (op : gw X) (k : X -> prog gw reply) w ex :
  spent w !! n = Some ex -> quiet n (Call op k) ->
  counted _ op = false /\ quiet n (k (handle X op w).2).
Proof.
  intros Hs [[Hp Hk]|Hg]; [split; [done|]; left; auto|].
  destruct Hg as [Hc Hg]. split; [done|]. clear Hc.
  destruct op; cbn [guard_op] in Hg; try solve [right; apply Hg].
  destruct Hg as (-> & _ & Hex).
  destruct (spent_check n signal w) as [-> _]. rewrite Hs. left. auto.
Qed.

Lemma calls_app sources n t1 t2 :
  calls_for sources n (t1 ++ t2) = (calls_for sources n t1 + calls_for sources n t2)%nat.
Proof. unfold calls_for. by rewrite filter_app, length_app. Qed.

Lemma calls_one sources n i e :
  calls_for sources n [(i, e)] = if is_call_for sources n (i, e) then 1%nat else 0%nat.
Proof.
  unfold calls_for. rewrite filter_cons.
  destruct (is_call_for sources n (i, e)); by rewrite ?decide_True, ?decide_False by done.
Qed.

Lemma not_concerned_call sources n i e : ~ concerns sources n i -> is_call_for sources n (i, e) = false.
Proof.
  intros Hn. unfold is_call_for. rewrite bool_decide_false by exact Hn. apply andb_false_r.
Qed.

Lemma silent_call sources n i e : counts e = false -> is_call_for sources n (i, e) = false.
Proof. intros He. unfold is_call_for. cbn [snd]. by rewrite He. Qed.

(** Reads the thread a step changed, or another one. *)
Lemma lookup_stepped (ts : list (prog gw reply)) i j t t' :
  <[i := t]> ts !! j = Some t' -> (j = i /\ t' = t) \/ (j <> i /\ ts !! j = Some t').
Proof.
  intros Hl. destruct (decide (i = j)) as [->|Hne].
  - apply list_lookup_insert_Some in Hl as [(_ & <- & _)|[]]; [by left|done].
  - rewrite list_lookup_insert_ne in Hl by done. by right.
Qed.

(** A guarded thread that steps: it stays guarded while its nullifier is fresh,
    and holds the only call right after recording it. *)
Lemma guarded_step n {X} (op : gw X) (k : X -> prog gw reply) w :
  spent w !! n = None -> guarded counted n (Call op k) ->
  counted _ op = false
  /\ match spent (handle X op w).1 !! n with
     | None => guarded counted n (k (handle X op w).2)
     | Some _ => once counted (k (handle X op w).2)
     end.
Proof.
  intros Hs [Hc Hg]. split; [done|]. clear Hc.
  destruct op; cbn [guard_op] in Hg; try (rewrite spent_frame, Hs by done; apply Hg).
  destruct Hg as (-> & Hon & _).
  destruct (spent_check n signal w) as [-> ->]. by rewrite Hs, lookup_insert_eq.
Qed.

(** Asserts that the event a step added to the goal's count is not a call. *)
Ltac assert_silent :=
  match goal with |- context [is_call_for ?ss ?m ?ie] =>
    let Hcall := fresh "Hcall" in
    cut (is_call_for ss m ie = false); [intros Hcall; rewrite Hcall; clear Hcall|]; cycle 1
  end.

Lemma step_invariant sources n m p calls :
  invariant sources n p calls ->
  let '(p', t) := step m p in invariant sources n p' (calls + calls_for sources n t)%nat.
Proof.
  intros Hinv. destruct m as [i|e]; cbn [step].
  2: { rewrite Nat.add_0_r. destruct Hinv as [Hs Hc Hg|ex h Hs Hc Ho Hq|ex Hs Hc Hq].
       - apply inv_fresh; cbn [world]; [by rewrite spent_environment|done|done].
       - apply (inv_holder _ _ _ _ ex h); cbn [world]; [by rewrite spent_environment|done..].
       - apply (inv_done _ _ _ _ ex); cbn [world]; [by rewrite spent_environment|done..]. }
  destruct (threads p !! i) as [[r|X op k]|] eqn:Et; [by rewrite Nat.add_0_r| |by rewrite Nat.add_0_r].
  destruct (handle X op (world p)) as [w' x] eqn:Eh.
  assert (Hw' : (handle X op (world p)).1 = w') by by rewrite Eh.
  assert (Hx : (handle X op (world p)).2 = x) by by rewrite Eh.
  rewrite calls_one.
  destruct Hinv as [Hs Hc Hg|ex h Hs Hc Ho Hq|ex Hs Hc Hq].
  - (* fresh *)
    destruct (decide (concerns sources n i)) as [Hi|Hi].
    + pose proof (guarded_step n op k (world p) Hs (Hg i _ Hi Et)) as [Hp Hk].
      rewrite Hw', Hx in Hk. rewrite silent_call by done.
      destruct (spent w' !! n) as [ex|] eqn:Es.
      * apply (inv_holder _ _ _ _ ex i); cbn [world threads]; [done|lia| |].
        -- intros t Hl. by apply lookup_stepped in Hl as [[_ ->]|[[] _]].
        -- intros j t Hj Hne Hl. apply lookup_stepped in Hl as [[? _]|[_ Hl]]; [done|].
           right. eauto.
      * apply inv_fresh; cbn [world threads]; [done|lia|].
        intros j t Hj Hl. apply lookup_stepped in Hl as [[_ ->]|[_ Hl]]; eauto.
    + rewrite not_concerned_call by done.
      assert (Hrest : forall j t, concerns sources n j ->
                <[i := k x]> (threads p) !! j = Some t -> guarded counted n t).
      { intros j t Hj Hl. apply lookup_stepped in Hl as [[-> _]|[_ Hl]]; [done|eauto]. }
      destruct (spent w' !! n) as [ex|] eqn:Es.
      * apply (inv_done _ _ _ _ ex); cbn [world threads]; [done|lia|]. right. eauto.
      * apply inv_fresh; cbn [world threads]; [done|lia|done].
  - (* one thread may still call *)
    assert (Hs' : spent w' !! n = Some ex) by (rewrite <- Hw'; by apply spent_step).
    destruct (decide (i = h)) as [->|Hne].
    + specialize (Ho _ Et). cbn [once] in Ho. destruct (counted _ op) eqn:Hp.
      * apply (inv_done _ _ _ _ ex); cbn [world threads];
          [done|destruct (is_call_for _ _ _); lia|].
        intros j t Hj Hl. apply lookup_stepped in Hl as [[_ ->]|[? Hl]]; [left; auto|eauto].
      * rewrite silent_call by done.
        apply (inv_holder _ _ _ _ ex h); cbn [world threads]; [done|lia| |].
        -- intros t Hl. apply lookup_stepped in Hl as [[_ ->]|[[] _]]; done.
        -- intros j t Hj Hne Hl. apply lookup_stepped in Hl as [[? _]|[_ Hl]]; [done|eauto].
    + assert_silent.
      { destruct (decide (concerns sources n i)) as [Hi|Hi]; [|by apply not_concerned_call].
        apply silent_call. by destruct (quiet_step n op k _ _ Hs (Hq i _ Hi Hne Et)). }
      apply (inv_holder _ _ _ _ ex h); cbn [world threads]; [done|lia| |].
      * intros t Hl. apply lookup_stepped in Hl as [[? _]|[_ Hl]]; [congruence|auto].
      * intros j t Hj Hjh Hl. apply lookup_stepped in Hl as [[-> ->]|[_ Hl]]; [|eauto].
        rewrite <- Hx. by destruct (quiet_step n op k _ _ Hs (Hq i _ Hj Hne Et)).
  - (* done *)
    assert (Hs' : spent w' !! n = Some ex) by (rewrite <- Hw'; by apply spent_step).
    assert_silent.
    { destruct (decide (concerns sources n i)) as [Hi|Hi]; [|by apply not_concerned_call].
      apply silent_call. by destruct (quiet_step n op k _ _ Hs (Hq i _ Hi Et)). }
    apply (inv_done _ _ _ _ ex); cbn [world threads]; [done|lia|].
    intros j t Hj Hl. apply lookup_stepped in Hl as [[-> ->]|[_ Hl]]; [|eauto].
    rewrite <- Hx. by destruct (quiet_step n op k _ _ Hs (Hq i _ Hj Et)).
Qed.

Lemma run_moves_invariant sources n moves p calls :
  invariant sources n p calls ->
  let '(p', t) := run_moves moves p in invariant sources n p' (calls + calls_for sources n t)%nat.
Proof.
  revert p calls; induction moves as [|m moves IH]; intros p calls Hinv; cbn [run_moves].
  { by rewrite Nat.add_0_r. }
  pose proof (step_invariant sources n m p calls Hinv) as H1.
  destruct (step m p) as [p1 t1]. specialize (IH p1 _ H1).
  destruct (run_moves moves p1) as [p2 t2]. by rewrite calls_app, Nat.add_assoc.
Qed.

Context (Hcounted : per_request counted).

Lemma start_guarded sources w n i t :
  concerns sources n i -> threads (start sources w) !! i = Some t -> guarded counted n t.
Proof.
  unfold concerns, start; cbn [threads]. intros Hc Hl.
  apply list_lookup_fmap_Some in Hl as (src & -> & Hl). rewrite Hl in Hc.
  change (nullifier_of src = Some n) in Hc.
  destruct src as [req|exit]; cbn [nullifier_of thread_of] in Hc |- *; apply guarded_map.
  - destruct (parseFieldElement (req_nullifier req)) as [m|] eqn:E; [|done].
    injection Hc as <-. by apply handleRequest_guarded.
  - injection Hc as <-. by apply ingest_guarded.
Qed.

Lemma start_invariant sources w n : invariant sources n (start sources w) 0.
Proof.
  pose proof (start_guarded sources w n) as Hg.
  destruct (spent w !! n) as [ex|] eqn:Es.
  - apply (inv_done _ _ _ _ ex); [done|lia|]. intros i t Hi Ht. right. eauto.
  - apply inv_fresh; [done|done|eauto].
Qed.

(** A nullifier that is already spent is never served again. *)
Lemma spent_no_calls sources w n moves ex : spent w !! n = Some ex ->
  calls_for sources n (run_moves moves (start sources w)).2 = 0%nat.
Proof.
  intros Hs.
  assert (Hgen : forall moves p, spent (world p) !! n = Some ex ->
    (forall i t, concerns sources n i -> threads p !! i = Some t -> quiet n t) ->
    calls_for sources n (run_moves moves p).2 = 0%nat).
  { clear Hs moves. induction moves as [|m moves IH]; intros p Hs Hq; cbn [run_moves]; [done|].
    assert (Hstep : calls_for sources n (step m p).2 = 0%nat
              /\ spent (world (step m p).1) !! n = Some ex
              /\ (forall i t, concerns sources n i -> threads (step m p).1 !! i = Some t -> quiet n t)).
    { destruct m as [i|e]; cbn [step];
        [|cbn [fst snd world]; rewrite spent_environment; done].
      destruct (threads p !! i) as [[r|X op k]|] eqn:Et; [done| |done].
      pose proof (spent_step op (world p) n ex Hs) as Hs'.
      assert (Hk : concerns sources n i -> counted _ op = false
                /\ quiet n (k (handle X op (world p)).2)).
      { intros Hi. by apply (quiet_step n op k _ ex Hs), (Hq i). }
      destruct (handle X op (world p)) as [w' x]. cbn [fst snd world threads] in *.
      rewrite calls_one. split; [|split; [done|]].
      - destruct (decide (concerns sources n i)) as [Hi|Hi];
          [rewrite silent_call by by apply Hk|rewrite not_concerned_call by done]; done.
      - intros j t Hj Hl. apply lookup_stepped in Hl as [[-> ->]|[_ Hl]]; [by apply Hk|eauto]. }
    destruct (step m p) as [p1 t1]. cbn [fst snd] in Hstep. destruct Hstep as (H1 & H2 & H3).
    specialize (IH p1 H2 H3). destruct (run_moves moves p1) as [p2 t2]. cbn [snd] in *.
    by rewrite calls_app, H1, IH. }
  apply Hgen; [done|]. intros i t Hi Ht. right. by apply (start_guarded sources w n i).
Qed.

Lemma counted_at_most_once sources w moves n :
  (calls_for sources n (run_moves moves (start sources w)).2 <= 1)%nat.
Proof.
  pose proof (run_moves_invariant sources n moves _ _ (start_invariant sources w n)) as Hinv.
  destruct (run_moves moves (start sources w)) as [p t]. cbn [snd] in *.
  rewrite Nat.add_0_l in Hinv. destruct Hinv; lia.
Qed.
End Pool.

(** ** Properties *)

Section Properties.
Context (sha256 : list byte -> list byte) (poseidon : list Z -> Z) (gens : Generators) (apiKey : bool).
Context {W Env : Type} `{GatewayServices W Env}.

Definition trace_of (sources : list source) (w : W) (moves : list (move (Env:=Env))) : list (nat * event gw) :=
  (run_moves moves (start sha256 poseidon gens apiKey sources w)).2.

(** C1: whatever requests and exits run, in whatever interleaving and whatever
    the environment does meanwhile, the provider is called at most once on
    behalf of a nullifier, and not at all when the nullifier was already spent
    (by a request or by an exit) at the start. *)
Theorem provider_called_at_most_once sources w moves n :
  (calls_for (@is_provider) sources n (trace_of sources w moves) <= 1)%nat
  /\ (spent w !! n <> None -> calls_for (@is_provider) sources n (trace_of sources w moves) = 0%nat).
Proof.
  unfold trace_of. split; [apply counted_at_most_once; auto with longjing|].
  destruct (spent w !! n) as [ex|] eqn:E; [|done]. intros _.
  apply (spent_no_calls sha256 poseidon gens apiKey (@is_provider)) with (ex := ex); auto with longjing.
Qed.

(** C2: in every such interleaving at most one refund accumulator is signed on
    behalf of a nullifier: a spent index is worth one refund. *)
Theorem refund_signed_at_most_once sources w moves n :
  (calls_for (@is_signing) sources n (trace_of sources w moves) <= 1)%nat
  /\ (spent w !! n <> None -> calls_for (@is_signing) sources n (trace_of sources w moves) = 0%nat).
Proof.
  unfold trace_of. split; [apply counted_at_most_once; auto with longjing|].
  destruct (spent w !! n) as [ex|] eqn:E; [|done]. intros _.
  apply (spent_no_calls sha256 poseidon gens apiKey (@is_signing)) with (ex := ex); auto with longjing.
Qed.
End Properties.
