(* ===== verification/GatewayWorld.v ===== *)
(** * The gateway with its services

    The modelled services put together: the nullifier store, the rate oracle,
    the proof verifier and the slasher answer the operations of [Gateway.v];
    the chain, the feeds, the provider and the clock are parameters. The
    services implement the interface of [Interleaving.v], so its theorems hold
    of them; the theorems here follow a request into the store and back. *)

From Stdlib Require Import String.
From S2P Require Import Prelude JsText JsNumber Field FieldElement Accumulator Slashing NullifierStore.
From S2P Require Import EthRate Json Limiter Profile ProofVerifier ClaudePricing Gateway ExitWatcher Interleaving.
Open Scope Z_scope.

(** ** The world *)

Record World : Type := {
  clock : Z;
  nullifiers : store kept;
  rates : oracle;
  verifier : ProofVerifierService;
  slashes : list Z;
}.

(** What is outside the process, as it answers at a time. *)
Record Outside : Type := {
  o_kraken : Z -> result KrakenResponse;
  o_chainlink : Z -> option (result Z);
  o_feed_delay : Z -> N;
  o_surroundings : Z -> surroundings;
  o_groth16_verify : jsv -> list string -> snarkjs_proof -> result bool;
  o_artifacts : artifacts;
  o_getCMax : Z -> result Z;
  o_createMessage : string -> Z -> list Z -> Z -> result Message;
  o_random : Z -> number;
  o_sign : Point -> result AccumulatorSignatureDto;
  o_slasher : Slasher;
}.

(** What else may happen: time passes, or the clean-up timer fires. *)
Inductive outside_move : Type :=
| Passes (ms : N)
| CleanupTimer.

Definition with_nullifiers (s : store kept) (w : World) : World :=
  {| clock := clock w; nullifiers := s; rates := rates w; verifier := verifier w; slashes := slashes w |}.

Definition with_rates (r : oracle) (w : World) : World :=
  {| clock := clock w; nullifiers := nullifiers w; rates := r; verifier := verifier w; slashes := slashes w |}.

Definition with_verifier (v : ProofVerifierService) (w : World) : World :=
  {| clock := clock w; nullifiers := nullifiers w; rates := rates w; verifier := v; slashes := slashes w |}.

Definition with_slashes (l : list Z) (w : World) : World :=
  {| clock := clock w; nullifiers := nullifiers w; rates := rates w; verifier := verifier w; slashes := l |}.

Definition with_clock (t : Z) (w : World) : World :=
  {| clock := t; nullifiers := nullifiers w; rates := rates w; verifier := verifier w; slashes := slashes w |}.

Definition outside_moves (m : outside_move) (w : World) : World :=
  match m with
  | Passes ms => with_clock (clock w + Z.of_N ms) w
  | CleanupTimer => with_nullifiers (cleanup_tick (clock w) (nullifiers w)) w
  end.

Section World.
Context (out : Outside).

Definition serve_op {X} (op : gw X) (w : World) : World * X :=
  match op in gw Y return World * Y with
  | CheckRateLimit n =>
      let '(s, b) := checkRateLimit n (clock w) (nullifiers w) in (with_nullifiers s w, b)
  | GetCMax => (w, o_getCMax out (clock w))
  | UsdToWei usd =>
      let '(r, wei) := usdToWei (o_kraken out (clock w)) (o_chainlink out (clock w))
                          (o_feed_delay out (clock w)) usd (clock w) (rates w) in
      (with_rates r w, wei)
  | VerifyProof proof inputs =>
      let '(v, ok) := verify (o_groth16_verify out) (o_artifacts out) (o_surroundings out (clock w))
                        proof inputs (verifier w) in
      (with_verifier v w, ok)
  | CheckAndSet n sg =>
      let '(s, existing) := checkAndSet n sg (nullifiers w) in (with_nullifiers s w, existing)
  | SlashRevealed s1 s2 => (with_slashes (slashes w ++ slashRevealed (o_slasher out) s1 s2) w, tt)
  | RecallResponse n sg => (w, recallResponse n sg (clock w) (nullifiers w))
  | RememberResponse n sg r =>
      (with_nullifiers (rememberResponse n sg r (clock w) (nullifiers w)) w, tt)
  | CreateMessage model max_tokens payload => (w, o_createMessage out model max_tokens payload (clock w))
  | Random => (w, o_random out (clock w))
  | SignAccumulator p => (w, o_sign out p)
  end.

Definition spent_of (w : World) : gmap string StoredSignal := db (nullifiers w).

Lemma serve_op_spent {X} (op : gw X) w : is_check op = false -> spent_of (serve_op op w).1 = spent_of w.
Proof.
  destruct op as [n| |usd|proof inputs|n sg|s1 s2|n sg|n sg r|model mt payload| |p];
    intros Hc; try done; cbn [serve_op].
  - unfold checkRateLimit. by destruct (_ <=? _)%nat; [|destruct (_ <? _)%nat].
  - by destruct (usdToWei _ _ _ _ _ _).
  - by destruct (verify _ _ _ _ _ _).
Qed.

Lemma serve_op_check n sg w :
  (serve_op (CheckAndSet n sg) w).2 = spent_of w !! n
  /\ spent_of (serve_op (CheckAndSet n sg) w).1
     = match spent_of w !! n with Some _ => spent_of w | None => <[n := sg]> (spent_of w) end.
Proof.
  cbn [serve_op]. unfold checkAndSet, get, spent_of. by destruct (db (nullifiers w) !! n).
Qed.

(** The services implement the interface the interleaving theorems ask for. *)
#[export] Instance World_services : GatewayServices World outside_move := {
  handle := @serve_op;
  environment := outside_moves;
  spent := spent_of;
  spent_check := serve_op_check;
  spent_frame := @serve_op_spent;
  spent_environment e w := match e with Passes _ => eq_refl | CleanupTimer => eq_refl end;
}.
End World.

(** ** A request up to the store, and from there *)

(** What the checks before the store leave alone. *)
Record unchanged (w w' : World) : Prop := {
  un_clock : clock w' = clock w;
  un_db : db (nullifiers w') = db (nullifiers w);
  un_responses : responses (nullifiers w') = responses (nullifiers w);
  un_slashes : slashes w' = slashes w;
}.

#[export] Instance unchanged_preorder : PreOrder unchanged.
Proof.
  split; [by split|]. intros w1 w2 w3 [] []. split; congruence.
Qed.

Definition is_preliminary {X} (op : gw X) : bool :=
  match op with
  | CheckRateLimit _ | GetCMax | UsdToWei _ | VerifyProof _ _ | RecallResponse _ _
  | CreateMessage _ _ _ | Random | SignAccumulator _ => true
  | _ => false
  end.

Definition reaches_store (log : list (event gw)) : Prop :=
  exists nul sg ans, Ev (CheckAndSet nul sg) ans ∈ log.

Section Requests.
Context (sha256 : list byte -> list byte) (poseidon : list Z -> Z) (gens : Generators) (apiKey : bool).
Context (out : Outside).
Let exec {A} (p : prog gw A) (w : World) := run_log (fun X => serve_op out (X:=X)) p w.

Lemma serve_op_preliminary {X} (op : gw X) w :
  is_preliminary op = true -> unchanged w (serve_op out op w).1.
Proof.
  destruct op; intros Hc; try discriminate Hc; cbn [serve_op]; try done.
  - unfold checkRateLimit. by destruct (_ <=? _)%nat; [|destruct (_ <? _)%nat].
  - by destruct (usdToWei _ _ _ _ _ _).
  - by destruct (verify _ _ _ _ _ _).
Qed.

(** Performs the next, preliminary, operation of a run. *)
Ltac next_op H :=
  cbn [run_log pbind perform] in H;
  match type of H with
  | context [serve_op out ?op ?w] =>
      let Hu := fresh "Hu" in
      assert (Hu : unchanged w (serve_op out op w).1) by (apply serve_op_preliminary; reflexivity);
      destruct (serve_op out op w) as [? ?]; cbn [fst] in Hu
  end; cbn [run_log pbind] in H.

Ltac chain := repeat (etrans; [eassumption|]); reflexivity.

Lemma not_reaches log :
  Forall (fun e : event gw => match e with Ev op _ => is_check op = false end) log -> ~ reaches_store log.
Proof.
  intros Hall (nul & sg & ans & Hin). rewrite Forall_forall in Hall.
  specialize (Hall _ Hin). discriminate Hall.
Qed.

Ltac refused H := cbn [run_log] in H; injection H as <- <- <-; left;
  split; [chain|]; split; [apply not_reaches; by repeat constructor|by eexists].

(** Either the request is refused before the store, or [settle] runs on an
    unchanged world. *)
Lemma handleRequest_settles req w w' o log :
  exec (handleRequest sha256 poseidon gens apiKey req) w = (w', o, log) ->
  (unchanged w w' /\ ~ reaches_store log /\ exists e, o = Rejected e)
  \/ exists n cMax w1 log1 log2,
       parseFieldElement (req_nullifier req) = Ok n /\ unchanged w w1
       /\ exec (settle gens apiKey (toString n) req (model_of req) cMax) w1 = (w', o, log2)
       /\ log = log1 ++ log2 /\ silent log1
       /\ Ev (VerifyProof (req_proof req) (public_inputs req cMax)) (Ok true) ∈ log1.
Proof.
  unfold exec, handleRequest. intros H.
  destruct (negb _); [refused H|].
  destruct (parseFieldElement (req_nullifier req)) as [n|e]; [|refused H].
  next_op H. destruct b; cbn [negb] in H; [|refused H].
  destruct (signalXMatchesRequest _ _ _ _ _) as [[|]|e]; [|refused H..].
  next_op H. destruct r as [cMax|e]; [|refused H].
  unfold worstCaseCostInETH, calculateCostInETH in H.
  next_op H. destruct r as [worst|e]; [|refused H].
  destruct (cMax <? worst); [refused H|].
  next_op H. destruct r as [[|]|e]; [|refused H..].
  destruct (run_log _ (settle _ _ _ _ _ _) _) as [[w6 o'] log2] eqn:Hrun.
  injection H as <- <- <-. right.
  match type of Hrun with run_log _ _ ?w5 = _ => exists n, cMax, w5 end.
  eexists [_; _; _; _], log2. split; [done|]. split; [chain|]. split; [exact Hrun|].
  split; [reflexivity|]. split; [by repeat constructor|]. do 3 right. left.
Qed.

(** ** What the store keeps of a request *)

Definition kept_of (o : outcome) : option kept :=
  match o with Served r => Some (KResponse r) | Failed f => Some (KFailure f) | Rejected _ => None end.

Definition reply_of (k : kept) : outcome :=
  match k with KResponse r => Served r | KFailure f => Failed f end.

Definition keeps (nul : string) (sg : StoredSignal) (k : option kept) (w w' : World) : Prop :=
  clock w' = clock w /\ slashes w' = slashes w /\ db (nullifiers w') = db (nullifiers w)
  /\ responses (nullifiers w')
     = match k with
       | Some k => <[nul := {| c_signal := sg; c_response := k; c_expiresAt := clock w + RESPONSE_TTL_MS |}]>
                     (responses (nullifiers w))
       | None => responses (nullifiers w)
       end.

Lemma unchanged_keeps nul sg w w' : unchanged w w' -> keeps nul sg None w w'.
Proof. by intros []. Qed.

Lemma keeps_after nul sg k w w1 w' : unchanged w w1 -> keeps nul sg k w1 w' -> keeps nul sg k w w'.
Proof. intros [H1 H2 H3 H4] (H5 & H6 & H7 & H8). repeat split; [congruence..|]. by rewrite H8, H1, H3. Qed.

Lemma nextAccumulator_keeps published v w w' r log :
  exec (nextAccumulator gens published v) w = (w', r, log) -> unchanged w w'.
Proof.
  unfold exec, nextAccumulator. intros H. cbn [run_log serve_op] in H. by injection H as <- _ _.
Qed.

Lemma execute_keeps payload model w w' r log :
  exec (executeClaudeRequest apiKey payload model) w = (w', r, log) -> unchanged w w'.
Proof.
  unfold exec, executeClaudeRequest, mockClaudeRequest. intros H.
  destruct apiKey; cbn [negb run_log serve_op] in H; [|by injection H as <- _ _].
  destruct (o_createMessage _ _ _ _ _); cbn [run_log] in H; by injection H as <- _ _.
Qed.

(** The end of [serve]: sign, remember, reply. *)
Lemma finish_keeps nul sg published v (f : SignedAccumulatorDto -> kept) w w' o log :
  exec (pbind (nextAccumulator gens published v) (fun next =>
    match next with
    | Throw e => Done (Rejected e)
    | Ok next => Call (RememberResponse nul sg (f next)) (fun _ => Done (reply_of (f next)))
    end)) w = (w', o, log) ->
  keeps nul sg (kept_of o) w w'.
Proof.
  unfold exec. rewrite run_log_pbind.
  destruct (run_log _ (nextAccumulator gens published v) w) as [[w1 next] l1] eqn:E1.
  apply nextAccumulator_keeps in E1. destruct next as [a|e]; cbn [run_log serve_op]; intros H;
    injection H as <- <- _; apply (keeps_after _ _ _ _ w1); try done.
  by destruct (f a).
Qed.

Lemma serve_keeps nul sg published payload model cMax w w' o log :
  exec (serve gens apiKey nul sg published payload model cMax) w = (w', o, log) ->
  keeps nul sg (kept_of o) w w'.
Proof.
  unfold exec, serve. rewrite run_log_pbind.
  destruct (run_log _ (executeClaudeRequest _ _ _) w) as [[w1 r] l1] eqn:E1.
  apply execute_keeps in E1. destruct r as [[text u]|e].
  - unfold calculateCostInETH. intros H.
    cbn [perform pbind run_log] in H.
    match type of H with context [serve_op out ?op w1] =>
      assert (Hu : unchanged w1 (serve_op out op w1).1) by (by apply serve_op_preliminary);
      destruct (serve_op out op w1) as [w2 cost]; cbn [fst] in Hu end.
    destruct cost as [actual|e]; cbn [run_log] in H.
    + match type of H with context [run_log _ ?p w2] => destruct (run_log _ p w2) as [[w3 o3] l3] eqn:E3 end.
      injection H as <- <- _. apply (keeps_after _ _ _ _ w1), (keeps_after _ _ _ _ w2); try done.
      exact (finish_keeps _ _ _ _ (fun next => KResponse _) _ _ _ _ E3).
    + injection H as <- <- _. apply unchanged_keeps. by etrans.
  - destruct (run_log _ _ w1) as [[w2 o2] l2] eqn:E2. intros H. injection H as <- <- _.
    apply (keeps_after _ _ _ _ w1); [done|].
    exact (finish_keeps _ _ _ _ (fun next => KFailure _) _ _ _ _ E2).
Qed.
End Requests.

(** ** Who may replace a kept reply *)

Section Kept.
Context (sha256 : list byte -> list byte) (poseidon : list Z -> Z) (gens : Generators) (apiKey : bool).
Context (out : Outside).

Lemma serve_no_remember n nul sg published payload model cMax : nul <> n ->
  no_call (@remembers n) (serve gens apiKey nul sg published payload model cMax).
Proof.
  intros Hne. assert (Hr : forall k, @remembers n _ (RememberResponse nul sg k) = false).
  { intros k. by apply bool_decide_false. }
  apply no_call_pbind; [apply execute_no_call; by intros ? []|]. intros [[text u]|e].
  - apply no_call_pbind; [by split|]. intros [actual|e]; [|done]. by apply finish_no_call.
  - by apply finish_no_call.
Qed.

(** A request about another nullifier never writes the reply kept for [n]. *)
Lemma handleRequest_no_remember n req : nullifier_of (SRequest req) <> Some n ->
  no_call (@remembers n) (handleRequest sha256 poseidon gens apiKey req).
Proof.
  cbn [nullifier_of]. intros Hn. unfold handleRequest. destruct (negb _); [done|].
  destruct (parseFieldElement (req_nullifier req)) as [m|e]; [|done].
  split; [done|]. intros [|]; [|done]. cbn [negb].
  destruct (signalXMatchesRequest _ _ _ _ _) as [[|]|e]; [|done..].
  split; [done|]. intros [cMax|e]; [|done]. split; [done|].
  intros [worst|e]; [|done]. cbn [pbind]. destruct (cMax <? worst); [done|]. split; [done|].
  intros [[|]|e]; [|done..]. unfold settle.
  destruct (canonical_signal (req_signal req)) as [sg|e]; [|done]. split; [done|].
  intros [ex|]; [by apply replay_no_call; constructor|].
  destruct (canonical_point (req_accumulator req)) as [pub|e]; [|done].
  apply serve_no_remember. congruence.
Qed.

Lemma thread_quiet n src : quiet (@remembers n) n (thread_of sha256 poseidon gens apiKey src).
Proof.
  assert (Hp : per_request (@remembers n)) by constructor.
  destruct (decide (nullifier_of src = Some n)) as [Hn|Hn]; [right|left].
  - destruct src as [req|exit]; cbn [nullifier_of thread_of] in *; apply guarded_map.
    + destruct (parseFieldElement (req_nullifier req)) as [m|] eqn:E; [|done].
      injection Hn as <-. by apply handleRequest_guarded.
    + injection Hn as <-. by apply ingest_guarded.
  - destruct src as [req|exit]; cbn [thread_of]; (apply no_call_pbind; [|done]).
    + by apply handleRequest_no_remember.
    + split; [done|]. intros [ex|]; [|done]. by destruct (negb _).
Qed.

Lemma serve_op_clock {X} (op : gw X) w : clock (serve_op out op w).1 = clock w.
Proof.
  destruct (is_preliminary op) eqn:E; [by apply serve_op_preliminary|].
  destruct op; try discriminate E; cbn [serve_op]; [|done..].
  by destruct (checkAndSet _ _ _).
Qed.

(** A reply kept for [n] outlives every other operation. *)
Lemma serve_op_kept {X} (op : gw X) w n : remembers n op = false ->
  responses (nullifiers (serve_op out op w).1) !! n = responses (nullifiers w) !! n.
Proof.
  intros Hr. destruct (is_preliminary op) eqn:E.
  { by rewrite (un_responses _ _ (serve_op_preliminary out op w E)). }
  destruct op; try discriminate E; cbn [serve_op]; [|done|].
  - unfold checkAndSet. by destruct (get _ _).
  - cbn. cbn in Hr. case_bool_decide; [done|]. by rewrite lookup_insert_ne.
Qed.

(** What is kept has not expired at [now]. *)
Definition lives (now : Z) (c : option (CachedResponse kept)) : Prop :=
  match c with Some c => now < c_expiresAt c | None => True end.

Lemma outside_kept m w n : lives (clock (outside_moves m w)) (responses (nullifiers w) !! n) ->
  responses (nullifiers (outside_moves m w)) !! n = responses (nullifiers w) !! n.
Proof.
  destruct m as [ms|]; cbn; [done|]. destruct (responses (nullifiers w) !! n) as [c|] eqn:Hc; intros Hlt.
  - apply map_lookup_filter_Some_2; [done|]. cbn in *. lia.
  - apply map_lookup_filter_None_2. by left.
Qed.

Lemma outside_clock m w : clock w <= clock (outside_moves m w).
Proof. destruct m; cbn; lia. Qed.

Lemma step_clock m (p : pool) :
  clock (world p) <= clock (world (step (H := World_services out) m p).1).
Proof.
  destruct m as [i|e]; cbn [step]; [|apply outside_clock].
  destruct (threads p !! i) as [[r|X op k]|]; [done| |done].
  pose proof (serve_op_clock op (world p)) as Hc. cbn [handle World_services].
  destruct (serve_op out op (world p)) as [w' x]. cbn in *. lia.
Qed.

Lemma run_moves_clock moves (p : pool) :
  clock (world p) <= clock (world (run_moves (H := World_services out) moves p).1).
Proof.
  revert p; induction moves as [|m moves IH]; intros p; cbn [run_moves]; [done|].
  pose proof (step_clock m p) as H1. destruct (step m p) as [p1 t1].
  specialize (IH p1). destruct (run_moves moves p1) as [p2 t2]. cbn in *. lia.
Qed.

Lemma step_kept n c ex m (p : pool) :
  spent_of (world p) !! n = Some ex -> responses (nullifiers (world p)) !! n = c ->
  (forall i t, threads p !! i = Some t -> quiet (@remembers n) n t) ->
  lives (clock (world (step (H := World_services out) m p).1)) c ->
  let p' := (step (H := World_services out) m p).1 in
  spent_of (world p') !! n = Some ex /\ responses (nullifiers (world p')) !! n = c
  /\ forall i t, threads p' !! i = Some t -> quiet (@remembers n) n t.
Proof.
  intros Hs Hc Hq. destruct m as [i|e]; cbn [step].
  - destruct (threads p !! i) as [[r|X op k]|] eqn:Et; [done| |done].
    destruct (quiet_step (H := World_services out) (@remembers n) n op k (world p) ex Hs (Hq i _ Et)) as [Hop Hk].
    pose proof (spent_step (H := World_services out) op (world p) n ex Hs) as Hs'.
    pose proof (serve_op_kept op (world p) n Hop) as Hc'. rewrite Hc in Hc'.
    cbn [handle World_services] in *. destruct (serve_op out op (world p)) as [w' x]. cbn in *.
    intros _. split; [done|]. split; [done|]. intros j t Hl.
    apply lookup_stepped in Hl as [[-> ->]|[_ Hl]]; [done|eauto].
  - cbn [fst world environment World_services]. intros Hlt. split; [by destruct e|].
    split; [|done]. rewrite <- Hc in Hlt |- *. by apply outside_kept.
Qed.

Lemma run_moves_kept n c ex moves (p : pool) :
  spent_of (world p) !! n = Some ex -> responses (nullifiers (world p)) !! n = c ->
  (forall i t, threads p !! i = Some t -> quiet (@remembers n) n t) ->
  lives (clock (world (run_moves (H := World_services out) moves p).1)) c ->
  let w' := world (run_moves (H := World_services out) moves p).1 in
  spent_of w' !! n = Some ex /\ responses (nullifiers w') !! n = c.
Proof.
  revert p; induction moves as [|m moves IH]; intros p Hs Hc Hq; cbn [run_moves]; [done|].
  pose proof (step_kept n c ex m p Hs Hc Hq) as Hstep.
  destruct (step m p) as [p1 t1] eqn:E1. cbn [fst] in Hstep.
  pose proof (run_moves_clock moves p1) as Hle. specialize (IH p1).
  destruct (run_moves moves p1) as [p2 t2]. cbn [fst] in *. intros Hlt.
  destruct Hstep as (H1 & H2 & H3); [|by apply IH]. destruct c; cbn in *; [lia|done].
Qed.

(** However late, the reply kept for a spent [n] is still that one, or gone. *)
Lemma outside_replies m w n : responses (nullifiers (outside_moves m w)) !! n = responses (nullifiers w) !! n
  \/ responses (nullifiers (outside_moves m w)) !! n = None.
Proof.
  destruct m as [ms|]; cbn; [by left|]. destruct (responses (nullifiers w) !! n) as [c|] eqn:Hc.
  - destruct (decide (clock w < c_expiresAt c)) as [Hlt|Hge].
    + left. apply map_lookup_filter_Some_2; [done|]. cbn. lia.
    + right. apply map_lookup_filter_None_2. right. intros c' Hc' Hl. rewrite Hc in Hc'. injection Hc' as <-. cbn in Hl. lia.
  - right. apply map_lookup_filter_None_2. by left.
Qed.

Definition kept_or_gone (n : string) (ex : StoredSignal) (c : option (CachedResponse kept)) (p : pool) : Prop :=
  spent_of (world p) !! n = Some ex
  /\ (responses (nullifiers (world p)) !! n = c \/ responses (nullifiers (world p)) !! n = None)
  /\ forall i t, threads p !! i = Some t -> quiet (@remembers n) n t.

Lemma step_replies n ex c m (p : pool) : kept_or_gone n ex c p ->
  kept_or_gone n ex c (step (H := World_services out) m p).1.
Proof.
  intros (Hs & Hc & Hq). destruct m as [i|e]; cbn [step].
  - destruct (threads p !! i) as [[r|X op k]|] eqn:Et; [by split| |by split].
    destruct (quiet_step (H := World_services out) (@remembers n) n op k (world p) ex Hs (Hq i _ Et)) as [Hop Hk].
    pose proof (spent_step (H := World_services out) op (world p) n ex Hs) as Hs'.
    pose proof (serve_op_kept op (world p) n Hop) as Hc'.
    cbn [handle World_services] in *. destruct (serve_op out op (world p)) as [w' x]. cbn in *.
    split; [done|]. split; [destruct Hc as [Hc|Hc]; rewrite Hc in Hc'; auto|]. intros j t Hl.
    apply lookup_stepped in Hl as [[-> ->]|[_ Hl]]; [done|eauto].
  - cbn [fst world threads environment World_services]. split; [by destruct e|]. split; [|done].
    destruct (outside_replies e (world p) n) as [He|He]; [|by right]. destruct Hc as [Hc|Hc]; rewrite Hc in He; auto.
Qed.

Lemma run_moves_replies n ex c moves (p : pool) : kept_or_gone n ex c p ->
  kept_or_gone n ex c (run_moves (H := World_services out) moves p).1.
Proof.
  revert p; induction moves as [|m moves IH]; intros p Hp; cbn [run_moves]; [done|].
  pose proof (step_replies n ex c m p Hp) as H1. destruct (step m p) as [p1 t1]. specialize (IH p1 H1).
  by destruct (run_moves moves p1).
Qed.
End Kept.

(** ** Requests from end to end *)

Section EndToEnd.
Context (sha256 : list byte -> list byte) (poseidon : list Z -> Z) (gens : Generators) (apiKey : bool).
Context (out : Outside).

(** One request run on its own, with its log. *)
Definition request (req : LongjingRequestDto) (w : World) : World * outcome * list (event gw) :=
  run_log (fun X => serve_op out (X:=X)) (handleRequest sha256 poseidon gens apiKey req) w.

(** The world after other requests and exits ran, interleaved in any way. *)
Definition meanwhile (sources : list source) (moves : list (move (Env := outside_move))) (w : World) : World :=
  world (run_moves (H := World_services out) moves
           (start sha256 poseidon gens apiKey sources w)).1.

Lemma meanwhile_kept sources moves w n ex c :
  spent_of w !! n = Some ex -> responses (nullifiers w) !! n = c ->
  lives (clock (meanwhile sources moves w)) c ->
  spent_of (meanwhile sources moves w) !! n = Some ex
  /\ responses (nullifiers (meanwhile sources moves w)) !! n = c.
Proof.
  intros Hs Hc Hl. apply (run_moves_kept out); [done|done| |done].
  intros i t Ht. cbn in Ht. apply list_lookup_fmap_Some in Ht as (src & -> & _). apply thread_quiet.
Qed.

Lemma meanwhile_replies sources moves w n ex c :
  spent_of w !! n = Some ex -> responses (nullifiers w) !! n = c ->
  spent_of (meanwhile sources moves w) !! n = Some ex
  /\ (responses (nullifiers (meanwhile sources moves w)) !! n = c
      \/ responses (nullifiers (meanwhile sources moves w)) !! n = None).
Proof.
  intros Hs Hc. destruct (run_moves_replies out n ex c moves
    (start sha256 poseidon gens apiKey sources w)) as (H1 & H2 & _); [|by split].
  split; [exact Hs|]. split; [by left|]. intros i t Ht. cbn in Ht.
  apply list_lookup_fmap_Some in Ht as (src & -> & _). apply thread_quiet.
Qed.

Lemma meanwhile_spent sources moves w n ex :
  spent_of w !! n = Some ex -> spent_of (meanwhile sources moves w) !! n = Some ex.
Proof.
  unfold meanwhile.
  assert (Hgen : forall p, spent_of (world p) !! n = Some ex ->
            spent_of (world (run_moves (H := World_services out) moves p).1) !! n = Some ex).
  { induction moves as [|m moves' IH]; intros p Hp; cbn [run_moves]; [done|].
    assert (H1 : spent_of (world (step (H := World_services out) m p).1) !! n = Some ex).
    { destruct m as [i|e]; cbn [step]; [|by destruct e].
      destruct (threads p !! i) as [[r|X op k]|]; [done| |done].
      pose proof (spent_step (H := World_services out) op (world p) n ex Hp) as Hs'.
      cbn [handle World_services] in *. by destruct (serve_op out op (world p)). }
    destruct (step m p) as [p1 t1]. specialize (IH p1 H1).
    by destruct (run_moves moves' p1). }
  exact (Hgen (start sha256 poseidon gens apiKey sources w)).
Qed.

(** *** From the store on *)

Definition double_spend : outcome := Rejected (ForbiddenException
  "Double-spend detected. Your secret key has been extracted and you will be slashed.").

Definition already_used : outcome := Rejected (ForbiddenException "Nullifier already used").

Lemma settle_fresh nul req model cMax sg w w' o log :
  canonical_signal (req_signal req) = Ok sg -> spent_of w !! nul = None ->
  run_log (fun X => serve_op out (X:=X)) (settle gens apiKey nul req model cMax) w = (w', o, log) ->
  keeps nul sg (kept_of o) (with_nullifiers (checkAndSet nul sg (nullifiers w)).1 w) w'.
Proof.
  intros Hsg Hn. unfold settle. rewrite Hsg. cbn [run_log serve_op].
  unfold checkAndSet, get. unfold spent_of in Hn. rewrite Hn. cbn [fst].
  set (w1 := with_nullifiers _ w).
  destruct (canonical_point (req_accumulator req)) as [pub|e]; cbn [run_log].
  2: { intros H. injection H as <- <- _. by apply unchanged_keeps. }
  destruct (run_log _ (serve _ _ _ _ _ _ _ _) w1) as [[w2 o2] l2] eqn:E2. intros H. injection H as <- <- _.
  exact (serve_keeps gens apiKey out _ _ _ _ _ _ _ _ _ _ E2).
Qed.

Lemma settle_spent nul req model cMax sg ex w w' o log :
  canonical_signal (req_signal req) = Ok sg -> spent_of w !! nul = Some ex ->
  run_log (fun X => serve_op out (X:=X)) (settle gens apiKey nul req model cMax) w = (w', o, log) ->
  silent log /\ spent_of w' = spent_of w
  /\ if bool_decide (st_x ex = st_x sg)
     then slashes w' = slashes w
          /\ o = match recallResponse nul sg (clock w) (nullifiers w) with
                 | Some k => reply_of k | None => already_used end
     else slashes w' = slashes w ++ slashRevealed (o_slasher out) ex sg /\ o = double_spend.
Proof.
  intros Hsg Hn. unfold settle. rewrite Hsg. cbn [run_log serve_op].
  unfold checkAndSet, get. unfold spent_of in *. rewrite Hn. cbn [run_log].
  unfold replay. destruct (bool_decide (st_x ex = st_x sg)); cbn [negb run_log serve_op];
    intros H; injection H as <- <- <-; (split; [by repeat constructor|]); (split; [done|]); [|done].
  cbn [slashes clock nullifiers with_nullifiers]. split; [done|].
  by destruct (recallResponse _ _ _ _) as [[]|].
Qed.

(** A signal [settle] accepted is the canonical one of the request. *)
Lemma settle_canonical nul req model cMax w w' o log :
  run_log (fun X => serve_op out (X:=X)) (settle gens apiKey nul req model cMax) w = (w', o, log) ->
  (exists e, canonical_signal (req_signal req) = Throw e /\ w' = w /\ o = Rejected e /\ log = [])
  \/ exists sg, canonical_signal (req_signal req) = Ok sg.
Proof.
  unfold settle. destruct (canonical_signal (req_signal req)) as [sg|e]; [by right; exists sg|].
  intros [= <- <- <-]. left. by exists e.
Qed.

(** What a request that was served (or refunded, or lost) leaves in the store. *)
Lemma request_served req w w1 o1 log1 : request req w = (w1, o1, log1) -> ~ silent log1 ->
  exists n sg, parseFieldElement (req_nullifier req) = Ok n
    /\ canonical_signal (req_signal req) = Ok sg
    /\ spent_of w !! toString n = None
    /\ clock w1 = clock w /\ spent_of w1 !! toString n = Some sg
    /\ responses (nullifiers w1) !! toString n
       = match kept_of o1 with
         | Some k => Some {| c_signal := sg; c_response := k; c_expiresAt := clock w + RESPONSE_TTL_MS |}
         | None => responses (nullifiers w) !! toString n
         end.
Proof.
  intros H Hs.
  destruct (handleRequest_settles _ _ _ _ _ _ _ _ _ _ H)
    as [(_ & Hr & _)|(n & cMax & wa & l1 & l2 & Hn & Hu & Hset & -> & Hl1 & _)].
  { exfalso. destruct (handleRequest_log _ _ _ _ _ _ _ _ _ _ H)
      as [(nul & cMax & worst & sg & pub & prov & rest & _ & _ & -> & _)|[Hsil _]]; [|done].
    apply Hr. exists nul, sg, None. do 4 right. left. }
  destruct (settle_canonical _ _ _ _ _ _ _ _ Hset) as [(e & _ & _ & _ & ->)|[sg Hsg]].
  { exfalso. apply Hs. by rewrite app_nil_r. }
  destruct (spent_of wa !! toString n) as [ex|] eqn:Es.
  { exfalso. destruct (settle_spent _ _ _ _ _ _ _ _ _ _ Hsg Es Hset) as [Hl2 _].
    apply Hs. by apply Forall_app. }
  destruct (settle_fresh _ _ _ _ _ _ _ _ _ Hsg Es Hset) as (Hc & _ & Hdb & Hresp).
  destruct Hu as [Hu1 Hu2 Hu3 Hu4]. exists n, sg.
  unfold checkAndSet, get in *. unfold spent_of in *. rewrite Es in *.
  cbn [fst clock nullifiers with_nullifiers db responses] in *.
  split; [done|]. split; [done|]. split; [congruence|]. split; [congruence|].
  rewrite Hdb, Hresp. split; [apply lookup_insert_eq|].
  destruct (kept_of o1); [|by rewrite Hu3]. by rewrite lookup_insert_eq, Hu1.
Qed.

(** A request that meets its own, still unexpired, record. *)
Lemma request_again req n sg w w' o log :
  parseFieldElement (req_nullifier req) = Ok n -> canonical_signal (req_signal req) = Ok sg ->
  spent_of w !! toString n = Some sg -> request req w = (w', o, log) ->
  silent log
  /\ (~ reaches_store log /\ (exists e, o = Rejected e)
      \/ o = match responses (nullifiers w) !! toString n with
             | Some c => if c_expiresAt c <=? clock w then already_used
                         else if bool_decide (c_signal c = sg) then reply_of (c_response c) else already_used
             | None => already_used
             end).
Proof.
  intros Hn Hsg Hs H.
  destruct (handleRequest_settles _ _ _ _ _ _ _ _ _ _ H)
    as [(Hu & Hr & Ho)|(n' & cMax & wa & l1 & l2 & Hn' & Hu & Hset & -> & Hl1 & _)].
  { split; [|by left]. destruct (handleRequest_log _ _ _ _ _ _ _ _ _ _ H)
      as [(nul & cMax & worst & sg' & pub & prov & rest & _ & _ & -> & _)|[Hsil _]]; [|done].
    destruct Hr. exists nul, sg', None. do 4 right. left. }
  rewrite Hn in Hn'. injection Hn' as <-. destruct Hu as [Hu1 Hu2 Hu3 Hu4].
  assert (Es : spent_of wa !! toString n = Some sg) by (unfold spent_of in *; by rewrite Hu2).
  destruct (settle_spent _ _ _ _ _ _ _ _ _ _ Hsg Es Hset) as (Hl2 & _ & Ho).
  rewrite bool_decide_true in Ho by done. destruct Ho as [_ Ho].
  split; [by apply Forall_app|]. right. rewrite Ho. unfold recallResponse. rewrite Hu1, Hu3.
  destruct (responses (nullifiers w) !! toString n) as [c|]; [|done].
  destruct (c_expiresAt c <=? clock w); [done|].
  destruct (c_signal c) as [x y], sg as [x' y']. cbn [st_x st_y].
  do 3 case_bool_decide; simplify_eq; done.
Qed.

(** Whether the checks before the store that depend on the world pass in [w]: fewer than
    three attempts on the nullifier in the last minute, [C_MAX] can be read and covers the
    worst-case cost at the present rate, and the proof verifies against it. *)
Definition checks_pass (req : LongjingRequestDto) (w : World) : bool :=
  match parseFieldElement (req_nullifier req), o_getCMax out (clock w) with
  | Ok n, Ok cMax =>
      (length (recent (clock w) (attempts_of (toString n) (nullifiers w))) <? 3)%nat
      && match (usdToWei (o_kraken out (clock w)) (o_chainlink out (clock w)) (o_feed_delay out (clock w))
                  (claudeCostUSD (model_of req) (num (byteLength (req_payload req) + MESSAGE_OVERHEAD_TOKENS))
                     (num MAX_OUTPUT_TOKENS)) (clock w) (rates w)).2 with
         | Ok worst => worst <=? cMax
         | Throw _ => false
         end
      && match (verify (o_groth16_verify out) (o_artifacts out) (o_surroundings out (clock w))
                  (req_proof req) (public_inputs req cMax) (verifier w)).2 with
         | Ok valid => valid
         | Throw _ => false
         end
  | _, _ => false
  end.

Lemma rate_answer n now (st : store kept) :
  (checkRateLimit n now st).2 = (length (recent now (attempts_of n st)) <? 3)%nat.
Proof.
  unfold checkRateLimit, RATE_LIMIT_MAX_ATTEMPTS.
  destruct (Nat.leb_spec 3 (length (recent now (attempts_of n st)))),
    (Nat.ltb_spec (length (recent now (attempts_of n st))) 3); (done || lia).
Qed.

(** A request that was admitted once reaches the store exactly when these checks pass. *)
Lemma request_checked req nul cMax worst sg w w' o log : admitted sha256 poseidon req nul cMax worst sg ->
  request req w = (w', o, log) ->
  if checks_pass req w then reaches_store log else ~ reaches_store log /\ exists e, o = Rejected e.
Proof.
  intros [Hm (n & Hn & _) Hx _ Hsg] H. unfold request, handleRequest in H. unfold checks_pass.
  rewrite Hm, Hn in H. rewrite Hn. cbn [negb run_log serve_op] in H. pose proof (rate_answer (toString n) (clock w) (nullifiers w)) as Hr.
  destruct (checkRateLimit _ _ _) as [s1 within]. cbn [snd] in Hr. rewrite <- Hr. clear Hr.
  destruct within; cbn [negb run_log andb] in H |- *.
  2: { injection H as <- <- <-. destruct (o_getCMax _ _); (split; [apply not_reaches; by repeat constructor|by eexists]). }
  rewrite Hx in H. cbn [run_log serve_op clock with_nullifiers] in H.
  destruct (o_getCMax out (clock w)) as [c|e]; cbn [run_log] in H.
  2: { injection H as <- <- <-. split; [apply not_reaches; by repeat constructor|by eexists]. }
  unfold worstCaseCostInETH, calculateCostInETH in H. cbn [perform pbind run_log serve_op clock rates with_nullifiers] in H.
  destruct (usdToWei _ _ _ _ _ _) as [rt [wst|e]]; cbn [run_log snd andb] in H |- *.
  2: { injection H as <- <- <-. split; [apply not_reaches; by repeat constructor|by eexists]. }
  destruct (Z.ltb_spec c wst), (Z.leb_spec wst c); try lia; cbn [run_log andb] in H |- *.
  { injection H as <- <- <-. split; [apply not_reaches; by repeat constructor|by eexists]. }
  cbn [serve_op clock verifier with_rates with_nullifiers] in H.
  destruct (verify _ _ _ _ _ _) as [v [[]|e]]; cbn [run_log snd] in H |- *.
  2,3: injection H as <- <- <-; (split; [apply not_reaches; by repeat constructor|by eexists]).
  unfold settle in H. rewrite Hsg in H. cbn [run_log] in H. destruct (serve_op _ _ _) as [w5 existing].
  match type of H with context [run_log ?h ?p w5] => destruct (run_log h p w5) as [[w6 o'] l6] end.
  injection H as <- <- <-. exists (toString n), sg, existing. do 4 right. left.
Qed.

Lemma not_silent log : existsb provider_event log = true -> ~ silent log.
Proof.
  intros (e & Hin & He)%existsb_exists Hs. unfold silent in Hs. rewrite Forall_forall in Hs.
  rewrite (Hs e) in He; [done|]. by apply list_elem_of_In.
Qed.

(** ** Properties *)

(** C4: a retry returns the kept reply. When a request was served, or refunded
    after a provider failure, and then other requests and exits run in any
    interleaving for less than the ten minutes of the response cache, sending
    the same request again never reaches the provider again. It is answered with
    the very same reply as long as the checks before the store pass again: fewer
    than three attempts in the last minute, [C_MAX] still covers the worst-case
    cost at the present rate, and the proof still verifies. Otherwise, and only
    then, it is refused before the store. *)
Theorem retry_returns_the_same_reply req w w1 o1 log1 sources moves w3 o3 log3 :
  request req w = (w1, o1, log1) -> ~ silent log1 -> kept_of o1 <> None ->
  clock (meanwhile sources moves w1) < clock w1 + RESPONSE_TTL_MS ->
  request req (meanwhile sources moves w1) = (w3, o3, log3) ->
  silent log3
  /\ if checks_pass req (meanwhile sources moves w1) then o3 = o1
     else ~ reaches_store log3 /\ exists e, o3 = Rejected e.
Proof.
  intros H1 Hs Ho Ht H3.
  destruct (request_served _ _ _ _ _ H1 Hs) as (n & sg & Hn & Hsg & Hnew & Hc & Hsp & Hk).
  destruct (handleRequest_log _ _ _ _ _ _ _ _ _ _ H1)
    as [(nul & cMax & worst & sg' & pub & prov & rest & Had & _)|[Hsil _]]; [|done].
  pose proof (request_checked _ _ _ _ _ _ _ _ _ Had H3) as Hchk.
  destruct (kept_of o1) as [k|] eqn:Ek; [|done].
  destruct (meanwhile_kept sources moves w1 _ _ _ Hsp Hk) as [Hsp' Hk']; [cbn; lia|].
  destruct (request_again _ _ _ _ _ _ _ Hn Hsg Hsp' H3) as [Hsil [[Hr _]|Ho3]]; (split; [done|]);
    (destruct (checks_pass _ _); [|exact Hchk]); [done|].
  rewrite Ho3, Hk'. cbn [c_expiresAt c_signal c_response].
  destruct (Z.leb_spec (clock w + RESPONSE_TTL_MS) (clock (meanwhile sources moves w1))); [lia|].
  rewrite bool_decide_true by done. by destruct o1; simplify_eq/=.
Qed.

(** C37: a request whose settling fails after the provider was called (the rate
    oracle or the signer throws) is lost: its nullifier is spent and nothing is
    kept, so whatever runs meanwhile, the same request is from then on refused
    before the store or answered "already used". *)
Theorem unsettled_request_is_lost req w w1 e log1 sources moves w3 o3 log3 :
  request req w = (w1, Rejected e, log1) -> ~ silent log1 ->
  (forall n, spent_of w !! n = None -> responses (nullifiers w) !! n = None) ->
  request req (meanwhile sources moves w1) = (w3, o3, log3) ->
  silent log3 /\ (o3 = already_used \/ ~ reaches_store log3 /\ exists e, o3 = Rejected e).
Proof.
  intros H1 Hs Hw H3.
  destruct (request_served _ _ _ _ _ H1 Hs) as (n & sg & Hn & Hsg & Hnew & Hc & Hsp & Hk).
  cbn [kept_of] in Hk. rewrite Hw in Hk by exact Hnew.
  destruct (meanwhile_kept sources moves w1 _ _ _ Hsp Hk I) as [Hsp' Hk'].
  destruct (request_again _ _ _ _ _ _ _ Hn Hsg Hsp' H3) as [Hsil [Hr|Ho3]]; (split; [done|]).
  - by right.
  - left. by rewrite Ho3, Hk'.
Qed.

(** C3: a double spend reveals the key and slashes. When the index of a request
    was already recorded (by a request or by an exit) with another signal of the
    same line [y = k + a x], a request that passes the checks is never served:
    it is answered 403, the record stays, and exactly one slashing transaction
    carrying [k] is sent (none when slashing is unconfigured). *)
Theorem double_spend_is_slashed req w w' o log n k a x1 y1 x2 y2 :
  parseFieldElement (req_nullifier req) = Ok n ->
  spent_of w !! toString n = Some {| st_x := toString x1; st_y := toString y1 |} ->
  canonical_signal (req_signal req) = Ok {| st_x := toString x2; st_y := toString y2 |} ->
  mod_p y1 = mod_p (k + a * x1) -> mod_p y2 = mod_p (k + a * x2) -> x1 <> x2 ->
  request req w = (w', o, log) -> reaches_store log ->
  o = double_spend /\ silent log /\ spent_of w' = spent_of w
  /\ slashes w' = slashes w
       ++ if isEnabled (o_slasher out) && negb (mod_p x1 =? mod_p x2) then [mod_p k] else [].
Proof.
  intros Hn Hs Hsg H1 H2 Hx H Hreach.
  destruct (handleRequest_settles _ _ _ _ _ _ _ _ _ _ H)
    as [(_ & Hr & _)|(n' & cMax & wa & l1 & l2 & Hn' & Hu & Hset & -> & Hl1 & _)]; [done|].
  rewrite Hn in Hn'. injection Hn' as <-. destruct Hu as [Hu1 Hu2 Hu3 Hu4].
  assert (Es : spent_of wa !! toString n = Some {| st_x := toString x1; st_y := toString y1 |})
    by (unfold spent_of in *; by rewrite Hu2).
  destruct (settle_spent _ _ _ _ _ _ _ _ _ _ Hsg Es Hset) as (Hl2 & Hsp & Ho).
  cbn [st_x] in Ho. rewrite bool_decide_false in Ho by (intros E; by apply Hx, toString_inj).
  destruct Ho as [Hsl ->]. split; [done|]. split; [by apply Forall_app|].
  split; [unfold spent_of in *; congruence|].
  by rewrite Hsl, Hu4, (slashRevealed_line _ k a).
Qed.

(** C35: an exit records its signal at the claimed index; where a request (or
    another exit) already used that index with another signal of the same line,
    the record stays and the key is sent to the slashing contract; seeing the
    same exit again does nothing. *)
Theorem exit_slashes_spent_index exit w w' log :
  run_log (fun X => serve_op out (X:=X)) (ingest exit) w = (w', tt, log) ->
  match spent_of w !! toString (w_nullifier exit) with
  | None => spent_of w' = <[toString (w_nullifier exit) := exit_signal exit]> (spent_of w)
            /\ slashes w' = slashes w
  | Some ex => spent_of w' = spent_of w
      /\ (st_x ex = toString (w_signalX exit) -> slashes w' = slashes w)
      /\ forall k a x1 y1, ex = {| st_x := toString x1; st_y := toString y1 |} ->
           mod_p y1 = mod_p (k + a * x1) ->
           mod_p (w_signalY exit) = mod_p (k + a * w_signalX exit) -> x1 <> w_signalX exit ->
           slashes w' = slashes w ++ if isEnabled (o_slasher out) && negb (mod_p x1 =? mod_p (w_signalX exit))
                                     then [mod_p k] else []
  end.
Proof.
  unfold ingest. cbn [run_log serve_op]. unfold checkAndSet, get, spent_of.
  destruct (db (nullifiers w) !! toString (w_nullifier exit)) as [ex|]; cbn [run_log].
  - case_bool_decide as Hx; cbn [negb run_log serve_op]; intros H; injection H as <- _;
      (split; [done|]); cbn [exit_signal st_x] in Hx; split; try done.
    + intros k a x1 y1 -> H1 H2 Hne. cbn [st_x] in Hx. by apply toString_inj in Hx.
    + intros k a x1 y1 -> H1 H2 Hne. cbn [slashes with_slashes with_nullifiers].
      unfold exit_signal. by rewrite (slashRevealed_line _ k a).
  - intros H; injection H as <- _. done.
Qed.
End EndToEnd.

(** ** A concrete run *)

(** A world whose provider always answers one text, priced at a rate that makes
    any request cost one wei. The hashes and generators are toys: [x] is always
    13 and every generator the identity. *)
Section Sample.
Definition toy_sha256 (_ : list byte) : list byte := [x00].
Definition toy_poseidon (_ : list Z) : Z := 13.
Definition toy_gens : Generators :=
  {| gen_G := IDENTITY; gen_J := IDENTITY; gen_K := IDENTITY; gen_H := IDENTITY |}.

Definition toy_out (signs : bool) : Outside :=
  {| o_kraken := fun _ => Ok {| kr_ok := true;
       kr_body := Ok (Some [], Some "1000000000000000000000000"%string) |};
     o_chainlink := fun _ => None;
     o_feed_delay := fun _ => 0%N;
     o_surroundings := fun _ => sample_surroundings;
     o_groth16_verify := toy_groth16;
     o_artifacts := no_artifacts;
     o_getCMax := fun _ => Ok 1;
     o_createMessage := fun _ _ _ _ => Ok {| content := [(true, code_units "hello")];
       input_tokens := num 3; output_tokens := num 4 |};
     o_random := fun _ => num 0;
     o_sign := fun _ => if signs then Ok {| R8x := "0x1"; R8y := "0x2"; S_ := "0x3" |}%string
                        else Throw (Error "signer");
     o_slasher := toy_slasher |}.

Definition toy_request : LongjingRequestDto :=
  {| req_payload := code_units "hi"; req_nonce := "5"; req_nullifier := "7";
     req_signal := {| signal_x := "13"; signal_y := "72" |};
     req_proof := sample_proof; req_merkleRoot := "12";
     req_accumulator := {| acc_x := "0"; acc_y := "1" |}; req_model := None |}.

Definition toy_world (db0 : gmap string StoredSignal) : World :=
  {| clock := 1000;
     nullifiers := {| db := db0; nullifierAttempts := ∅; responses := ∅ |};
     rates := initial_oracle; verifier := sample_verifier; slashes := [] |}.

End Sample.

Abbreviation toy_run signs w :=
  (request toy_sha256 toy_poseidon toy_gens true (toy_out signs) toy_request w).

(** A run, as the three parts of its result. *)
Lemma toy_run_eq signs w :
  toy_run signs w = ((toy_run signs w).1.1, (toy_run signs w).1.2, (toy_run signs w).2).
Proof. by destruct (toy_run signs w) as [[? ?] ?]. Qed.

(** What the concrete runs look like, decided by evaluation. *)
Definition kind_of (o : outcome) : nat :=
  match o with Served _ => 0 | Failed _ => 1 | Rejected _ => 2 end.

Lemma kind_kept o : (kind_of o <? 2)%nat = true -> kept_of o <> None.
Proof. by destruct o. Qed.

Definition is_check_event (e : event gw) : bool := match e with Ev op _ => is_check op end.

Lemma reaches log : existsb is_check_event log = true -> reaches_store log.
Proof.
  intros (e & Hin & He)%existsb_exists. destruct e as [X op ans].
  destruct op as [| | | |n sg| | | | | |]; try discriminate He.
  exists n, sg, ans. by apply list_elem_of_In.
Qed.

Definition later : list (move (Env := outside_move)) := [EnvMove (Passes 1000)].

(** The world one second after the first run. *)
Abbreviation second_world signs w1 :=
  (meanwhile toy_sha256 toy_poseidon toy_gens true (toy_out signs) [] later w1).

Lemma retry_returns_the_same_reply_witness :
  kept_of (toy_run true (toy_world ∅)).1.2 <> None
  /\ silent (toy_run true (second_world true (toy_run true (toy_world ∅)).1.1)).2
  /\ (toy_run true (second_world true (toy_run true (toy_world ∅)).1.1)).1.2 = (toy_run true (toy_world ∅)).1.2.
Proof.
  assert (Hs : existsb provider_event (toy_run true (toy_world ∅)).2 = true) by (vm_compute; reflexivity).
  assert (Hk : (kind_of (toy_run true (toy_world ∅)).1.2 <? 2)%nat = true) by (vm_compute; reflexivity).
  assert (Ht : (clock (second_world true (toy_run true (toy_world ∅)).1.1)
                <? clock (toy_run true (toy_world ∅)).1.1 + RESPONSE_TTL_MS) = true)
    by (vm_compute; reflexivity).
  assert (Hc : checks_pass (toy_out true) toy_request (second_world true (toy_run true (toy_world ∅)).1.1) = true)
    by (vm_compute; reflexivity).
  destruct (toy_run true (toy_world ∅)) as [[w1 o1] log1] eqn:H1. cbn [fst snd] in *.
  apply Z.ltb_lt in Ht. apply kind_kept in Hk. split; [exact Hk|].
  pose proof (retry_returns_the_same_reply toy_sha256 toy_poseidon toy_gens true (toy_out true)
            toy_request (toy_world ∅) w1 o1 log1 [] later _ _ _ H1 (not_silent _ Hs) Hk Ht
            (toy_run_eq true (second_world true w1))) as H.
  rewrite Hc in H. exact H.
Defined.

Lemma unsettled_request_is_lost_witness :
  exists e w2, (toy_run false (toy_world ∅)).1.2 = Rejected e
    /\ w2 = second_world false (toy_run false (toy_world ∅)).1.1
    /\ silent (toy_run false w2).2.
Proof.
  assert (Hs : existsb provider_event (toy_run false (toy_world ∅)).2 = true) by (vm_compute; reflexivity).
  assert (Hr : kind_of (toy_run false (toy_world ∅)).1.2 = 2%nat) by (vm_compute; reflexivity).
  destruct (toy_run false (toy_world ∅)) as [[w1 o1] log1] eqn:H1. cbn [fst snd] in *.
  destruct o1 as [r|f|e]; [discriminate Hr..|].
  exists e, (second_world false w1). split; [reflexivity|]. split; [reflexivity|].
  refine (proj1 (unsettled_request_is_lost toy_sha256 toy_poseidon toy_gens true (toy_out false)
            toy_request (toy_world ∅) w1 e log1 [] later _ _ _ H1 (not_silent _ Hs) _ (toy_run_eq false (second_world false w1)))).
  intros n _. reflexivity.
Defined.

Definition double_spent : World := toy_world {["7"%string := {| st_x := "2"; st_y := "17" |}]}.

Lemma double_spend_is_slashed_witness :
  (toy_run true double_spent).1.2 = double_spend
  /\ slashes (toy_run true double_spent).1.1
     = [] ++ if isEnabled toy_slasher && negb (mod_p 2 =? mod_p 13) then [mod_p 7] else [].
Proof.
  assert (Hr : existsb is_check_event (toy_run true double_spent).2 = true) by (vm_compute; reflexivity).
  destruct (toy_run true double_spent) as [[w' o] log] eqn:H. cbn [fst snd] in *.
  destruct (double_spend_is_slashed toy_sha256 toy_poseidon toy_gens true (toy_out true)
              toy_request double_spent w' o log 7 7 5 2 17 13 72) as (H1 & _ & _ & H2);
    [vm_compute; reflexivity..|discriminate|exact H|exact (reaches _ Hr)|].
  split; [exact H1|exact H2].
Defined.

Definition toy_exit : WithdrawalInitiated := {| w_nullifier := 7; w_signalX := 13; w_signalY := 72 |}.

Lemma exit_slashes_spent_index_witness :
  slashes (run_log (fun X => serve_op (toy_out true) (X:=X)) (ingest toy_exit) double_spent).1.1
  = [] ++ if isEnabled toy_slasher && negb (mod_p 2 =? mod_p 13) then [mod_p 7] else [].
Proof.
  destruct (run_log (fun X => serve_op (toy_out true) (X:=X)) (ingest toy_exit) double_spent)
    as [[w' []] log] eqn:E.
  pose proof (exit_slashes_spent_index (toy_out true) toy_exit double_spent w' log E) as H.
  assert (Hs : spent_of double_spent !! toString (w_nullifier toy_exit)
               = Some {| st_x := "2"; st_y := "17" |}%string) by (vm_compute; reflexivity).
  rewrite Hs in H. destruct H as (_ & _ & H). cbn [fst].
  apply (H 7 5 2 17); [vm_compute; reflexivity..|discriminate].
Defined.

Lemma provider_only_after_checks_witness :
  exists nul cMax worst sg prov rest,
    admitted toy_sha256 toy_poseidon toy_request nul cMax worst sg
    /\ (toy_run true (toy_world ∅)).2 = checks toy_request nul cMax worst sg ++ prov :: rest
    /\ provider_event prov = true /\ silent rest.
Proof.
  assert (Hs : ~ silent (toy_run true (toy_world ∅)).2) by (apply not_silent; vm_compute; reflexivity).
  destruct (toy_run true (toy_world ∅)) as [[w1 o1] log1] eqn:H1. cbn [fst snd] in *.
  unfold request in H1.
  destruct (provider_only_after_checks toy_sha256 toy_poseidon toy_gens true
              (fun X => serve_op (toy_out true) (X:=X)) toy_request (toy_world ∅) w1 o1 log1 H1)
    as [H|H]; [destruct (Hs H)|exact H].
Defined.

Lemma reply_accounts_witness :
  exists r, (toy_run true (toy_world ∅)).1.2 = Served r
  /\ exists nul sg, Ev (RememberResponse nul sg (KResponse r)) tt ∈ (toy_run true (toy_world ∅)).2.
Proof.
  assert (Hs : ~ silent (toy_run true (toy_world ∅)).2) by (apply not_silent; vm_compute; reflexivity).
  assert (Hk : kind_of (toy_run true (toy_world ∅)).1.2 = 0%nat) by (vm_compute; reflexivity).
  destruct (toy_run true (toy_world ∅)) as [[w1 o1] log1] eqn:H. cbn [fst snd] in *.
  unfold request in H.
  destruct o1 as [r|f|e]; [|discriminate Hk..]. exists r. split; [reflexivity|].
  pose proof (reply_accounts toy_sha256 toy_poseidon toy_gens true
              (fun X => serve_op (toy_out true) (X:=X)) toy_request (toy_world ∅) _ _ _ H)
    as [[Hsil _]|(nul & cMax & sg & pub & usd & actual & prov & _ & _ & _ & _ & _ & _ & Hk' & _)].
  - destruct (Hs Hsil).
  - exists nul, sg. exact Hk'.
Defined.

(** Two copies of a request and an exit, step by step in turn. *)
Definition toy_sources : list source := [SRequest toy_request; SRequest toy_request; SExit toy_exit].
Definition toy_moves : list (move (Env := outside_move)) :=
  concat (repeat [Run 0; Run 1; EnvMove (Passes 5); EnvMove CleanupTimer; Run 2] 12).

Abbreviation toy_trace w :=
  (trace_of toy_sha256 toy_poseidon toy_gens true (H := World_services (toy_out true)) toy_sources w toy_moves).

Lemma provider_called_at_most_once_witness :
  calls_for (@is_provider) toy_sources "7" (toy_trace double_spent) = 0%nat.
Proof.
  apply (proj2 (provider_called_at_most_once toy_sha256 toy_poseidon toy_gens true
                  (H := World_services (toy_out true)) toy_sources double_spent toy_moves "7")).
  vm_compute. discriminate.
Defined.

Lemma refund_signed_at_most_once_witness :
  calls_for (@is_signing) toy_sources "7" (toy_trace double_spent) = 0%nat.
Proof.
  apply (proj2 (refund_signed_at_most_once toy_sha256 toy_poseidon toy_gens true
                  (H := World_services (toy_out true)) toy_sources double_spent toy_moves "7")).
  vm_compute. discriminate.
Defined.

(** The bound is reached: some interleaving of the three does call the provider. *)
Example toy_trace_calls : calls_for (@is_provider) toy_sources "7"
  (trace_of toy_sha256 toy_poseidon toy_gens true (H := World_services (toy_out true)) toy_sources
     (toy_world ∅) (repeat (Run 0) 12)) = 1%nat.
Proof. vm_compute. reflexivity. Qed.
