(* ===== verification/HexText.v ===== *)
(** * Hexadecimal numbers as the code prints them

    [z.toString(16)], [padStart], the '0x' form with 64 digits used for keys
    and signatures, and what [BigInt] and [Buffer.from(s, 'hex')] read back. *)

From Stdlib Require Import Ascii String.
From S2P Require Import Prelude JsText FieldElement.
Open Scope Z_scope.

(** ** Printing *)

Fixpoint hex_digits (fuel : nat) (z : Z) (acc : list ascii) : list ascii :=
  match fuel with
  | O => acc
  | S f =>
      let acc' := hex_digit (z mod 16) :: acc in
      if z <? 16 then acc' else hex_digits f (z / 16) acc'
  end.

(** [z.toString(16)] of a BigInt. *)
Definition toString16 (z : Z) : string :=
  let digits := hex_digits (S (Z.to_nat (Z.log2 (Z.abs z)))) (Z.abs z) [] in
  of_chars (if z <? 0 then ascii_of_N 45 :: digits else digits).

(** [s.padStart(n, c)] with a one-character filler. *)
Definition padStart (n : nat) (c : ascii) (s : string) : string :=
  of_chars (repeat c (n - String.length s) ++ chars s).

(** [value.startsWith('0x') ? value.slice(2) : value]. *)
Definition strip0x (value : string) : string :=
  if startsWith value "0x" then slice_from 2 value else value.

Definition zero_char : ascii := "0"%char.

(** ['0x' + value.toString(16).padStart(64, '0')]. *)
Definition hex64 (z : Z) : string := "0x" +:+ padStart 64 zero_char (toString16 z).

(** ** Reading back *)

Lemma hex_digit_is_hex n : 0 <= n < 16 -> is_hex_digit (hex_digit n) = true.
Proof.
  intros H. assert (Hn : n ∈ seqZ 0 16) by (apply elem_of_seqZ; lia).
  clear H; revert n Hn. apply Forall_forall. by repeat constructor.
Qed.

Lemma hex_digits_value f z acc :
  0 <= z < 2 ^ Z.of_nat f -> hex_value_of 0 (hex_digits f z acc) = hex_value_of z acc.
Proof.
  revert z acc; induction f as [|f IH]; intros z acc Hz.
  { replace z with 0 by (simpl in Hz; lia). done. }
  rewrite Nat2Z.inj_succ, Z.pow_succ_r in Hz by lia.
  pose proof (Z.mod_pos_bound z 16 ltac:(lia)).
  cbn [hex_digits]. destruct (Z.ltb_spec z 16).
  - cbn [hex_value_of]. rewrite hex_value_digit by done. rewrite Z.mod_small by lia. f_equal.
  - rewrite IH.
    + cbn [hex_value_of]. rewrite hex_value_digit by done. f_equal.
      pose proof (Z_div_mod_eq_full z 16). lia.
    + split; [apply Z.div_pos; lia|apply Z.div_lt_upper_bound; lia].
Qed.

Lemma hex_digits_digits f z acc :
  0 <= z -> forallb is_hex_digit acc = true -> forallb is_hex_digit (hex_digits f z acc) = true.
Proof.
  revert z acc; induction f as [|f IH]; intros z acc Hz Hacc; [done|].
  pose proof (Z.mod_pos_bound z 16 ltac:(lia)). cbn [hex_digits].
  assert (Hd : forallb is_hex_digit (hex_digit (z mod 16) :: acc) = true).
  { cbn [forallb]. by rewrite Hacc, hex_digit_is_hex. }
  destruct (z <? 16); [done|]. apply IH; [apply Z.div_pos; lia|done].
Qed.

Lemma hex_digits_length f z acc k : 0 <= z < 16 ^ Z.of_nat k -> (0 < k)%nat ->
  (length (hex_digits f z acc) <= k + length acc)%nat.
Proof.
  revert z acc k; induction f as [|f IH]; intros z acc k Hz Hk; [simpl; lia|].
  cbn [hex_digits]. destruct (Z.ltb_spec z 16); [simpl; lia|].
  destruct k as [|[|k]]; [lia|change (16 ^ Z.of_nat 1) with 16 in Hz; lia|].
  specialize (IH (z / 16) (hex_digit (z mod 16) :: acc) (S k)). cbn [length] in *.
  enough (0 <= z / 16 < 16 ^ Z.of_nat (S k)) by (specialize (IH ltac:(done) ltac:(lia)); lia).
  rewrite (Nat2Z.inj_succ (S k)), Z.pow_succ_r in Hz by lia.
  split; [apply Z.div_pos; lia|apply Z.div_lt_upper_bound; lia].
Qed.

Lemma hex_digits_nonempty f z acc : hex_digits (S f) z acc <> [].
Proof.
  revert z acc; induction f as [|f IH]; intros z acc.
  { cbn [hex_digits]. by destruct (z <? 16). }
  cbn [hex_digits]. destruct (z <? 16); [done|]. apply IH.
Qed.

(** The digits of a number that is not negative. *)
Lemma toString16_digits z : 0 <= z -> exists l, chars (toString16 z) = l /\ l <> []
  /\ forallb is_hex_digit l = true /\ hex_value_of 0 l = Some z
  /\ (z < 16 ^ 64 -> (length l <= 64)%nat).
Proof.
  intros Hz. unfold toString16. destruct (Z.ltb_spec z 0); [lia|]. rewrite chars_of_chars.
  eexists. split; [reflexivity|]. rewrite Z.abs_eq by done.
  split; [apply hex_digits_nonempty|]. split; [by apply hex_digits_digits|]. split.
  - rewrite hex_digits_value; [done|]. split; [done|]. by apply fuel_enough.
  - intros Hlt. transitivity (64 + length (@nil ascii))%nat; [|simpl; lia].
    by apply hex_digits_length; [|lia].
Qed.

Lemma hex_value_zeros n acc l : hex_value_of 0 l = Some acc ->
  hex_value_of 0 (repeat zero_char n ++ l) = Some acc.
Proof. intros H. induction n as [|n IH]; [done|]. cbn [repeat app hex_value_of]. exact IH. Qed.

Lemma chars_padStart n c s : chars (padStart n c s) = repeat c (n - String.length s) ++ chars s.
Proof. apply chars_of_chars. Qed.

Lemma forallb_repeat {A} (f : A -> bool) x n : f x = true -> forallb f (repeat x n) = true.
Proof. intros H. induction n as [|n IH]; [done|]. simpl. by rewrite H, IH. Qed.

(** [padStart] keeps the digits hexadecimal and the value. *)
Lemma padded_digits n z : 0 <= z ->
  exists l, chars (padStart n zero_char (toString16 z)) = l /\ l <> []
    /\ forallb is_hex_digit l = true /\ hex_value_of 0 l = Some z.
Proof.
  intros Hz. destruct (toString16_digits z Hz) as (l & Hl & Hne & Hd & Hv & _).
  eexists. split; [reflexivity|]. rewrite chars_padStart, Hl. split; [|split].
  - by intros [_ ?]%app_eq_nil.
  - rewrite forallb_app, Hd, andb_true_r. by apply forallb_repeat.
  - by apply hex_value_zeros.
Qed.

Lemma padded_length z : 0 <= z < 16 ^ 64 ->
  length (chars (padStart 64 zero_char (toString16 z))) = 64%nat.
Proof.
  intros Hz. destruct (toString16_digits z) as (l & Hl & _ & _ & _ & Hlen); [lia|].
  rewrite chars_padStart, length_app, repeat_length, Hl.
  rewrite <- chars_length, Hl. specialize (Hlen ltac:(lia)). lia.
Qed.

(** [BigInt] reads a hexadecimal number back. *)
Lemma BigInt_hex64 z : 0 <= z -> BigInt (hex64 z) = Ok z.
Proof.
  intros Hz. unfold hex64. destruct (padded_digits 64 z Hz) as (l & Hl & Hne & Hd & Hv).
  rewrite <- (of_chars_chars (padStart _ _ _)), Hl.
  unfold BigInt. rewrite BigInt_hex_text by (done || by apply hex_printable). by rewrite Hv.
Qed.

Lemma hex_value_bytes l acc :
  hex_value_of acc (to_hex_chars l) = Some (fold_left (fun acc b => acc * 256 + byteZ b) l acc).
Proof.
  revert acc; induction l as [|b l IH]; intros acc; [done|]. cbn [to_hex_chars hex_value_of].
  pose proof (byteZ_range b). pose proof (Z.mod_pos_bound (byteZ b) 16 ltac:(lia)).
  assert (0 <= byteZ b / 16 < 16) by (split; [apply Z.div_pos|apply Z.div_lt_upper_bound]; lia).
  rewrite !hex_value_digit by lia. rewrite IH. cbn [fold_left]. do 2 f_equal.
  pose proof (Z_div_mod_eq_full (byteZ b) 16). lia.
Qed.

Lemma to_hex_is_hex l : forallb is_hex_digit (to_hex_chars l) = true.
Proof.
  induction l as [|b l IH]; [done|]. cbn [to_hex_chars forallb].
  pose proof (byteZ_range b). pose proof (Z.mod_pos_bound (byteZ b) 16 ltac:(lia)).
  assert (0 <= byteZ b / 16 < 16) by (split; [apply Z.div_pos|apply Z.div_lt_upper_bound]; lia).
  by rewrite !hex_digit_is_hex, IH by lia.
Qed.

(** [BigInt('0x' + bytes.toString('hex'))]. *)
Lemma BigInt_to_hex l : l <> [] -> BigInt ("0x" +:+ to_hex l) = Ok (be_value l).
Proof.
  intros Hne. unfold BigInt, to_hex. rewrite BigInt_hex_text.
  - by rewrite hex_value_bytes.
  - by destruct l.
  - apply hex_printable, to_hex_is_hex.
Qed.

Lemma strip0x_prefixed s : strip0x ("0x" +:+ s) = s.
Proof. unfold strip0x. change (startsWith ("0x" +:+ s) "0x") with (chars_prefix (chars "0x") (chars "0x" ++ chars s)).
  rewrite chars_prefix_app. unfold slice_from. change (chars ("0x" +:+ s)) with (chars "0x" ++ chars s).
  simpl. by rewrite drop_0, of_chars_chars.
Qed.

Lemma strip0x_hex s : forallb is_hex_digit (chars s) = true -> strip0x s = s.
Proof. intros H. unfold strip0x, startsWith. by rewrite hex_no_prefix. Qed.
