(* ===== verification/JsonText.v ===== *)
(** * Printing JSON

    [JSON.stringify] on the values the client sends (strings, booleans, arrays
    and objects; it sends no numbers), and the proof that [JSON.parse] reads
    them back. Fields keep their insertion order. *)

From Stdlib Require Import Ascii String.
From S2P Require Import Prelude JsText JsNumber Json.
Open Scope Z_scope.

(** ** Printing *)

Definition unit_hex_digit (n : Z) : Z := if n <? 10 then 48 + n else 87 + n.

Definition unicode_escape (u : Z) : list Z :=
  [92; 117; unit_hex_digit (u / 4096); unit_hex_digit (u / 256 mod 16);
   unit_hex_digit (u / 16 mod 16); unit_hex_digit (u mod 16)].

(** One code unit of a string literal. *)
Definition quote_unit (u : Z) : list Z :=
  if u =? 34 then [92; 34]
  else if u =? 92 then [92; 92]
  else if u =? 8 then [92; 98]
  else if u =? 12 then [92; 102]
  else if u =? 10 then [92; 110]
  else if u =? 13 then [92; 114]
  else if u =? 9 then [92; 116]
  else if u <? 32 then unicode_escape u
  else [u].

(** A surrogate pair is printed as it is, a lone surrogate as its escape. *)
Fixpoint quote_units (l : list Z) : list Z :=
  match l with
  | [] => []
  | u :: l' =>
      if is_high u then
        match l' with
        | v :: l'' => if is_low v then u :: v :: quote_units l'' else unicode_escape u ++ quote_units l'
        | [] => unicode_escape u
        end
      else if is_low u then unicode_escape u ++ quote_units l'
      else quote_unit u ++ quote_units l'
  end.

Definition quote (s : list Z) : list Z := 34 :: quote_units s ++ [34].

Fixpoint join_text (l : list (list Z)) : list Z :=
  match l with
  | [] => []
  | [t] => t
  | t :: l' => t ++ 44 :: join_text l'
  end.

(** [None] on a number, which no caller stringifies. *)
Fixpoint JSON_stringify (v : json) : option (list Z) :=
  match v with
  | JNull => Some (code_units "null")
  | JBool true => Some (code_units "true")
  | JBool false => Some (code_units "false")
  | JNum _ => None
  | JStr s => Some (quote s)
  | JArr l =>
      items ← (fix go l := match l with
                           | [] => Some []
                           | v :: l' => t ← JSON_stringify v; ts ← go l'; Some (t :: ts)
                           end) l;
      Some (91 :: join_text items ++ [93])
  | JObj fields =>
      items ← (fix go l := match l with
                           | [] => Some []
                           | (k, v) :: l' =>
                               t ← JSON_stringify v; ts ← go l'; Some ((quote k ++ 58 :: t) :: ts)
                           end) fields;
      Some (123 :: join_text items ++ [125])
  end.

(** ** Strings *)

Definition is_unit (u : Z) : Prop := 0 <= u < 65536.

Lemma unit_hex_read n : 0 <= n < 16 -> unit_hex (unit_hex_digit n) = Some n.
Proof.
  intros H. assert (Hn : n ∈ seqZ 0 16) by (apply elem_of_seqZ; lia).
  clear H; revert n Hn. apply Forall_forall. by repeat constructor.
Qed.

Lemma parse_escape u s r rest : is_unit u -> parse_string r = Some (s, rest) ->
  parse_string (unicode_escape u ++ r) = Some (u :: s, rest).
Proof.
  intros [H0 H1] Hr. unfold unicode_escape. cbn [app parse_string].
  assert (0 <= u / 4096 < 16) by (split; [apply Z.div_pos|apply Z.div_lt_upper_bound]; lia).
  rewrite !unit_hex_read by (done || apply Z.mod_pos_bound; lia). rewrite Hr. cbn.
  do 3 f_equal.
  pose proof (Z_div_mod_eq_full u 16). pose proof (Z_div_mod_eq_full (u / 16) 16).
  pose proof (Z_div_mod_eq_full (u / 256) 16).
  assert (u / 16 / 16 = u / 256) by (by rewrite Z.div_div by lia).
  assert (u / 256 / 16 = u / 4096) by (by rewrite Z.div_div by lia). lia.
Qed.

Lemma parse_string_unfold u r : u <> 34 -> u <> 92 ->
  parse_string (u :: r)
  = if (u <? 32) || (u =? 92) then None
    else '(s, rest) ← parse_string r; Some (u :: s, rest).
Proof.
  intros H1 H2. destruct u as [|p|p]; [reflexivity| |reflexivity].
  do 7 (destruct p as [p|p|]; try reflexivity; try done).
Qed.

(** A code unit that needs no escape. *)
Lemma parse_plain u s r rest : 32 <= u -> u <> 34 -> u <> 92 ->
  parse_string r = Some (s, rest) -> parse_string (u :: r) = Some (u :: s, rest).
Proof.
  intros H1 H2 H3 Hr. rewrite parse_string_unfold by done.
  destruct (Z.ltb_spec u 32); [lia|]. destruct (Z.eqb_spec u 92); [done|]. by rewrite Hr.
Qed.

Lemma parse_quote_unit u s r rest : is_unit u -> parse_string r = Some (s, rest) ->
  parse_string (quote_unit u ++ r) = Some (u :: s, rest).
Proof.
  intros Hu Hr. unfold quote_unit.
  repeat match goal with
  | |- context [u =? ?k] => destruct (Z.eqb_spec u k) as [->|]; [cbn; by rewrite Hr|]
  end.
  destruct (Z.ltb_spec u 32); [by apply parse_escape|]. by apply parse_plain.
Qed.

Lemma parse_quote_units s rest : Forall is_unit s ->
  parse_string (quote_units s ++ 34 :: rest) = Some (s, rest).
Proof.
  induction s as [s IH] using (induction_ltof1 _ (@length Z)); unfold ltof in IH.
  destruct s as [|u s]; [done|]. intros [Hu Hs]%Forall_cons. cbn [quote_units].
  assert (IHs : parse_string (quote_units s ++ 34 :: rest) = Some (s, rest)) by (apply IH; simpl; [lia|done]).
  destruct (is_high u) eqn:Eh.
  - assert (Hp : forall r s', parse_string r = Some (s', rest) -> parse_string (u :: r) = Some (u :: s', rest)).
    { unfold is_high in Eh. bool_simpl. intros r s' Hr. apply parse_plain; lia || done. }
    destruct s as [|v s]; [by apply parse_escape|]. destruct (is_low v) eqn:El.
    + cbn [app]. apply Hp. apply Forall_cons in Hs as [Hv Hs]. unfold is_low in El. bool_simpl.
      apply parse_plain; [lia..|]. apply IH; simpl; [lia|done].
    + rewrite <- app_assoc. by apply parse_escape.
  - destruct (is_low u); rewrite <- app_assoc; [by apply parse_escape|by apply parse_quote_unit].
Qed.

(** ** Values *)

(** Strings hold code units, the keys of an object are distinct and no number occurs. *)
Fixpoint printable_json (v : json) : Prop :=
  match v with
  | JNull | JBool _ => True
  | JNum _ => False
  | JStr s => Forall is_unit s
  | JArr l => (fix go l := match l with [] => True | v :: l' => printable_json v /\ go l' end) l
  | JObj fields =>
      NoDup (map fst fields)
      /\ (fix go l := match l with
                      | [] => True
                      | (k, v) :: l' => Forall is_unit k /\ printable_json v /\ go l'
                      end) fields
  end.

Section Induction.
Context (P : json -> Prop) (Pnull : P JNull) (Pbool : forall b, P (JBool b)) (Pnum : forall n, P (JNum n))
  (Pstr : forall s, P (JStr s)) (Parr : forall l, Forall P l -> P (JArr l))
  (Pobj : forall fields, Forall (fun kv => P kv.2) fields -> P (JObj fields)).

(** Induction through the lists of arrays and objects. *)
Fixpoint json_nested_ind (v : json) : P v :=
  match v with
  | JNull => Pnull
  | JBool b => Pbool b
  | JNum n => Pnum n
  | JStr s => Pstr s
  | JArr l => Parr l ((fix go l : Forall P l :=
      match l with [] => Forall_nil_2 _ | v :: l' => Forall_cons_2 _ v l' (json_nested_ind v) (go l') end) l)
  | JObj fields => Pobj fields ((fix go l : Forall (fun kv : list Z * json => P kv.2) l :=
      match l with
      | [] => Forall_nil_2 _
      | kv :: l' => Forall_cons_2 _ kv l'
          (match kv return P kv.2 with (_, v) => json_nested_ind v end) (go l')
      end) fields)
  end.
End Induction.

(** A printed value starts with a unit that is neither blank nor closing. *)
Definition opens (t : list Z) : Prop :=
  exists u t', t = u :: t' /\ is_json_space u = false /\ u <> 93 /\ u <> 125.

Lemma stringify_opens v t : JSON_stringify v = Some t -> opens t.
Proof.
  destruct v as [|[]| |s|l|fields]; cbn [JSON_stringify]; intros H; try done.
  1-4: injection H as <-; by eexists _, _.
  - apply bind_Some in H as (items & _ & H). injection H as <-. by eexists _, _.
  - apply bind_Some in H as (items & _ & H). injection H as <-. by eexists _, _.
Qed.

Lemma opens_app t r : opens t -> skip_ws (t ++ r) = t ++ r.
Proof. intros (u & t' & -> & Hs & _). cbn [app skip_ws]. by rewrite Hs. Qed.

(** What reading a printed value back needs of the fuel. *)
Definition reads (v : json) : Prop :=
  forall t fuel rest, printable_json v -> JSON_stringify v = Some t -> (2 * length t <= fuel)%nat ->
    parse_value fuel (t ++ rest) = Some (v, rest).

Lemma reads_elements l : Forall reads l -> l <> [] -> forall items fuel rest,
  (fix go l := match l with [] => True | v :: l' => printable_json v /\ go l' end) l ->
  (fix go l := match l with
               | [] => Some []
               | v :: l' => t ← JSON_stringify v; ts ← go l'; Some (t :: ts)
               end) l = Some items ->
  (2 * length (join_text items) + 1 <= fuel)%nat ->
  parse_elements fuel (join_text items ++ 93 :: rest) = Some (l, rest).
Proof.
  induction 1 as [|v l Hv Hl IH]; intros Hne items fuel rest Hp Hs Hf; [done|].
  destruct Hp as [Hpv Hpl]. apply bind_Some in Hs as (t & Ht & Hs).
  apply bind_Some in Hs as (ts & Hts & Hs). injection Hs as <-.
  destruct fuel as [|fuel]; [lia|]. cbn [parse_elements].
  destruct l as [|v' l].
  - injection Hts as <-. cbn [join_text] in *. rewrite (Hv t fuel) by (done || lia).
    by cbn.
  - destruct ts as [|t' ts].
    { apply bind_Some in Hts as (? & _ & Hts). by apply bind_Some in Hts as (? & _ & Hts). }
    change (join_text (t :: t' :: ts)) with (t ++ 44 :: join_text (t' :: ts)) in *.
    rewrite length_app in Hf. cbn [length] in Hf.
    rewrite <- app_assoc, (Hv t fuel) by (done || lia). cbn [app mbind option_bind skip_ws].
    change (is_json_space 44) with false. cbv iota.
    rewrite (IH ltac:(done) (t' :: ts) fuel rest Hpl Hts) by lia. done.
Qed.

Lemma set_field_new k v acc : k ∉ map fst acc -> set_field k v acc = acc ++ [(k, v)].
Proof.
  induction acc as [|[k' v'] acc IH]; intros Hk; [done|]. cbn [set_field map fst app] in *.
  apply not_elem_of_cons in Hk as [Hne Hk]. rewrite bool_decide_false by done. by rewrite IH.
Qed.

Lemma members_text k t l : (quote k ++ 58 :: t) ++ l = 34 :: quote_units k ++ 34 :: 58 :: t ++ l.
Proof. unfold quote. by rewrite <- app_assoc; cbn [app]; rewrite <- app_assoc. Qed.

Lemma reads_members fields : Forall (fun kv => reads kv.2) fields -> fields <> [] -> forall acc items fuel rest,
  NoDup (map fst (acc ++ fields)) ->
  (fix go l := match l with
               | [] => True
               | (k, v) :: l' => Forall is_unit k /\ printable_json v /\ go l'
               end) fields ->
  (fix go l := match l with
               | [] => Some []
               | (k, v) :: l' =>
                   t ← JSON_stringify v; ts ← go l'; Some ((quote k ++ 58 :: t) :: ts)
               end) fields = Some items ->
  (2 * length (join_text items) <= fuel)%nat ->
  parse_members fuel acc (join_text items ++ 125 :: rest) = Some (acc ++ fields, rest).
Proof.
  induction 1 as [|[k v] fields Hv Hl IH]; intros Hne acc items fuel rest Hnd Hp Hs Hf; [done|].
  destruct Hp as (Hk & Hpv & Hpl). apply bind_Some in Hs as (t & Ht & Hs).
  apply bind_Some in Hs as (ts & Hts & Hs).
  assert (Hi : items = (quote k ++ 58 :: t) :: ts) by congruence. subst items. clear Hs. cbn [snd] in Hv.
  assert (Hnew : k ∉ map fst acc).
  { rewrite map_app in Hnd. apply NoDup_app in Hnd as (_ & Hd & _). intros Hin.
    apply (Hd k Hin). left. }
  destruct fields as [|[k' v'] fields].
  - injection Hts as <-. cbn [join_text] in *.
    destruct fuel as [|fuel]; [unfold quote in Hf; simpl in Hf; lia|].
    cbn [parse_members]. rewrite members_text. cbn [skip_ws]. change (is_json_space 34) with false.
    cbv iota. rewrite parse_quote_units by done. cbn [mbind option_bind skip_ws].
    change (is_json_space 58) with false. cbv iota.
    unfold quote in Hf. rewrite length_app in Hf. cbn [length] in Hf. rewrite length_app in Hf.
    rewrite (Hv t fuel) by (done || (simpl in Hf; lia)). cbn [skip_ws].
    change (is_json_space 125) with false. cbv iota. cbn [mbind option_bind].
    by rewrite set_field_new.
  - destruct ts as [|t' ts].
    { apply bind_Some in Hts as (? & _ & Hts). by apply bind_Some in Hts as (? & _ & Hts). }
    change (join_text ((quote k ++ 58 :: t) :: t' :: ts))
      with ((quote k ++ 58 :: t) ++ 44 :: join_text (t' :: ts)) in *.
    destruct fuel as [|fuel]; [unfold quote in Hf; simpl in Hf; lia|].
    cbn [parse_members]. rewrite <- (app_assoc (quote k ++ 58 :: t)), members_text.
    cbn [skip_ws app]. change (is_json_space 34) with false.
    cbv iota. rewrite parse_quote_units by done. cbn [mbind option_bind skip_ws].
    change (is_json_space 58) with false. cbv iota.
    unfold quote in Hf. rewrite !length_app in Hf. cbn [length] in Hf. rewrite length_app in Hf.
    rewrite (Hv t fuel) by (done || (simpl in Hf; lia)). cbn [mbind option_bind].
    rewrite set_field_new by done. cbn [app skip_ws].
    change (is_json_space 44) with false. cbv iota.
    rewrite (IH ltac:(done) (acc ++ [(k, v)]) (t' :: ts) fuel rest);
      [by rewrite <- app_assoc|by rewrite <- app_assoc|done|done|simpl in *; lia].
Qed.

Lemma parse_array fuel t : opens t -> forall l,
  parse_value (S fuel) (91 :: t ++ l)
  = '(items, rest) ← parse_elements fuel (t ++ l); Some (JArr items, rest).
Proof.
  intros (u & t' & -> & Hs & Hn & _) l. cbn [parse_value skip_ws app].
  change (is_json_space 91) with false. cbv iota. cbn [skip_ws]. rewrite Hs.
  destruct u as [|p|p]; [done| |done]. do 7 (destruct p as [p|p|]; try done).
Qed.

Lemma join_opens t ts : opens t -> opens (join_text (t :: ts)).
Proof.
  intros (u & t' & -> & H). destruct ts as [|t2 ts]; [by exists u, t'|].
  by eexists u, _.
Qed.

Theorem stringify_reads v : reads v.
Proof.
  induction v as [|b|n|s|l IHl|fields IHf] using json_nested_ind;
    intros t fuel rest Hp Ht Hf; cbn [JSON_stringify] in Ht.
  - injection Ht as <-. destruct fuel as [|fuel]; [simpl in Hf; lia|]. done.
  - destruct b; injection Ht as <-; (destruct fuel as [|fuel]; [simpl in Hf; lia|]); done.
  - done.
  - injection Ht as <-. unfold quote in *. destruct fuel as [|fuel]; [simpl in Hf; lia|].
    cbn [app parse_value skip_ws]. change (is_json_space 34) with false. cbv iota.
    rewrite <- app_assoc. cbn [app]. by rewrite parse_quote_units.
  - apply bind_Some in Ht as (items & Hi & Ht). injection Ht as <-.
    destruct fuel as [|fuel]; [simpl in Hf; lia|]. cbn [app]. rewrite <- app_assoc.
    cbn [length] in Hf. rewrite length_app in Hf. cbn [length] in Hf.
    destruct l as [|v l]; [by injection Hi as <-|].
    pose proof Hi as Hi'. apply bind_Some in Hi' as (t & Ht & Hi'). apply bind_Some in Hi' as (ts & _ & Hi').
    injection Hi' as Hi'. rewrite <- Hi' in *.
    change ([93] ++ rest) with (93 :: rest).
    rewrite parse_array by by apply join_opens, (stringify_opens v).
    rewrite (reads_elements (v :: l) IHl ltac:(done) (t :: ts) fuel rest Hp Hi) by lia. done.
  - apply bind_Some in Ht as (items & Hi & Ht). injection Ht as <-.
    destruct fuel as [|fuel]; [simpl in Hf; lia|]. cbn [app]. rewrite <- app_assoc.
    cbn [length] in Hf. rewrite length_app in Hf. cbn [length] in Hf.
    destruct Hp as [Hnd Hp]. destruct fields as [|[k v] fields]; [by injection Hi as <-|].
    pose proof (reads_members ((k, v) :: fields) IHf ltac:(done) [] items fuel rest Hnd Hp Hi ltac:(lia)) as Hm.
    cbn [app] in Hm. cbn [parse_value skip_ws]. change (is_json_space 123) with false. cbv iota.
    change ([125] ++ rest) with (125 :: rest).
    assert (Hq : exists r, join_text items = 34 :: r).
    { apply bind_Some in Hi as (t & Ht & Hi). apply bind_Some in Hi as (ts & _ & Hi).
      injection Hi as <-. destruct ts; by eexists. }
    destruct Hq as [r Hr]. rewrite Hr in *. cbn [app skip_ws].
    change (is_json_space 34) with false. cbv iota. cbn [app] in Hm. by rewrite Hm.
Qed.

(** [JSON.parse(JSON.stringify(v))] is [v]. *)
Lemma stringify_parse v t : printable_json v -> JSON_stringify v = Some t -> JSON_parse t = Ok v.
Proof.
  intros Hp Ht. unfold JSON_parse.
  pose proof (stringify_reads v t (2 * length t + 2)%nat [] Hp Ht ltac:(lia)) as H.
  rewrite app_nil_r in H. by rewrite H.
Qed.
