(* ===== verification/RefundSigner.v ===== *)
(** * The refund signer

    [src/longjing/refund-signer.service.ts]: EdDSA-Poseidon on Baby Jubjub over
    [Poseidon(A'.x, A'.y)]. circomlibjs is a record of functions with the laws
    the service relies on; the lazy initialisation, the choice of the private
    key and the hexadecimal form of keys and signatures are the service's. *)

From Stdlib Require Import Ascii String.
From S2P Require Import Prelude Field JsText FieldElement HexText Accumulator Profile Gateway.
Open Scope Z_scope.

(** ** circomlibjs *)

(** Field elements are seen as the integers [F.toObject] gives; [F_e] is [F.e] on
    a BigInt and [F_toString16 v] is [F.toString(v, 16)]. *)
Record Circomlib : Type := {
  poseidon : list Z -> Z;
  prv2pub : list byte -> Z * Z;
  signPoseidon : list byte -> Z -> (Z * Z) * Z;
  verifyPoseidon : Z -> (Z * Z) * Z -> Z * Z -> bool;
  F_e : Z -> Z;
  F_toString16 : Z -> string;
}.

Definition in_field (z : Z) : Prop := 0 <= z < FIELD_MODULUS.

(** What circomlibjs documents of them: elements are reduced, [F.e] is the identity
    on reduced integers, radix 16 is radix 16, and a signature verifies. *)
Record circomlib_ok (c : Circomlib) : Prop := {
  ck_poseidon l : in_field (poseidon c l);
  ck_public k : in_field (prv2pub c k).1 /\ in_field (prv2pub c k).2;
  ck_signature k m : in_field (signPoseidon c k m).1.1 /\ in_field (signPoseidon c k m).1.2
                     /\ 0 <= (signPoseidon c k m).2;
  ck_verify k m : in_field m -> verifyPoseidon c m (signPoseidon c k m) (prv2pub c k) = true;
  ck_e z : in_field z -> F_e c z = z;
  ck_toString z : in_field z -> F_toString16 c z = toString16 z;
}.

(** ** The service *)

(** What [initialize] sets at its end. *)
Record signing_keys : Type := { privateKey : list byte; publicKey : string * string }.

Record RefundSignerService : Type := {
  initialized : bool;
  initPromise : option (result unit);
  keys : option signing_keys;
}.

Definition new_signer : RefundSignerService :=
  {| initialized := false; initPromise := None; keys := None |}.

Section Signer.
Context (c : Circomlib) (sha256 : list byte -> list byte).
(** The environment, the key derived by dstack, and whether circomlibjs builds. *)
Context (e : env) (derived : option (list byte)) (builds : result unit).

Definition generatePrivateKey : string :=
  "0x" +:+ to_hex (sha256 (Buffer_from "longjing-refund-signer-dev-key")).

Definition loadPrivateKey : result (list byte) :=
  match derived with
  | Some key => Ok key
  | None =>
      let* production := isProd e in
      if production && (negb (keysOutsideEnclaveAllowed e) || negb (is_set e "OPERATOR_PRIVATE_KEY"))
      then Throw (Error "Refund signer key not derived from dstack. Refusing to use a fallback key in production.")
      else
        let privateKeyHex := match e !! "OPERATOR_PRIVATE_KEY"%string with
                             | Some v => if str_len v =? 0 then generatePrivateKey else v
                             | None => generatePrivateKey
                             end in
        Ok (of_hex (padStart 64 zero_char (strip_0x privateKeyHex)))
  end.

(** ['0x' + String(F.toString(v, 16)).padStart(64, '0')]. *)
Definition element_text (v : Z) : string := "0x" +:+ padStart 64 zero_char (F_toString16 c v).

Definition public_text (key : list byte) : string * string :=
  (element_text (prv2pub c key).1, element_text (prv2pub c key).2).

Definition teardown_error (err : exn) : bool :=
  match err with
  | JsError name message =>
      bool_decide (name = "TypeError"%string) && includes message "'instanceof' is not callable"
  | HttpException _ _ => false
  end.

Definition initialize (s : RefundSignerService) : RefundSignerService * result unit :=
  match (let* _ := builds in loadPrivateKey) with
  | Ok key =>
      ({| initialized := true; initPromise := initPromise s;
          keys := Some {| privateKey := key; publicKey := public_text key |} |}, Ok tt)
  | Throw err => (s, if teardown_error err then Ok tt else Throw err)
  end.

(** A second caller awaits the promise of the first, whatever it settled to. *)
Definition ensureInitialized (s : RefundSignerService) : RefundSignerService * result unit :=
  if initialized s then (s, Ok tt)
  else match initPromise s with
       | Some r => (s, r)
       | None =>
           let '(s', r) := initialize s in
           ({| initialized := initialized s'; initPromise := Some r; keys := keys s' |}, r)
       end.

Definition uninitialized : exn := TypeError "Cannot read properties of undefined".

(** Every public method waits for the initialisation, then uses the keys. *)
Definition with_keys {A} (s : RefundSignerService) (f : signing_keys -> result A)
  : RefundSignerService * result A :=
  let '(s', r) := ensureInitialized s in
  (s', let* _ := r in match keys s' with Some k => f k | None => Throw uninitialized end).

Definition accumulatorMessage (accumulator : Point) : Z :=
  poseidon c [accumulator.1; accumulator.2].

Definition sign (k : signing_keys) (message : Z) : AccumulatorSignatureDto :=
  let signature := signPoseidon c (privateKey k) (F_e c message) in
  {| R8x := element_text signature.1.1; R8y := element_text signature.1.2;
     S_ := hex64 signature.2 |}.

Definition verify (k : signing_keys) (message : Z) (signature : AccumulatorSignatureDto) : result bool :=
  let* r8x := BigInt (R8x signature) in
  let* r8y := BigInt (R8y signature) in
  let* s := BigInt (S_ signature) in
  let* ax := BigInt (publicKey k).1 in
  let* ay := BigInt (publicKey k).2 in
  Ok (verifyPoseidon c (F_e c message) ((F_e c r8x, F_e c r8y), s) (F_e c ax, F_e c ay)).

Definition signAccumulator (accumulator : Point) (s : RefundSignerService) :=
  with_keys s (fun k => Ok (sign k (accumulatorMessage accumulator))).

Definition verifyAccumulator (accumulator : Point) (signature : AccumulatorSignatureDto)
  (s : RefundSignerService) :=
  with_keys s (fun k => verify k (accumulatorMessage accumulator) signature).

Definition getPublicKey (s : RefundSignerService) := with_keys s (fun k => Ok (publicKey k)).

(** ** Facts *)

Context (Hc : circomlib_ok c).

Lemma element_text_read v : in_field v -> BigInt (element_text v) = Ok v.
Proof.
  intros Hv. unfold element_text. rewrite (ck_toString c Hc) by done. by apply BigInt_hex64, Hv.
Qed.

Lemma F_e_id v : in_field v -> F_e c v = v.
Proof. apply (ck_e c Hc). Qed.

(** A signature under a key verifies under its public key, read from text. *)
Lemma sign_verifies key message r8x r8y s ax ay :
  let k := {| privateKey := key; publicKey := public_text key |} in
  in_field message ->
  BigInt (R8x (sign k message)) = Ok r8x -> BigInt (R8y (sign k message)) = Ok r8y ->
  BigInt (S_ (sign k message)) = Ok s ->
  BigInt (public_text key).1 = Ok ax -> BigInt (public_text key).2 = Ok ay ->
  verifyPoseidon c (F_e c message) ((F_e c r8x, F_e c r8y), s) (F_e c ax, F_e c ay) = true.
Proof.
  intros k Hm. unfold sign, k; cbn [R8x R8y S_ privateKey].
  rewrite (F_e_id message) by done.
  destruct (ck_signature c Hc key message) as (H1 & H2 & H3).
  destruct (ck_public c Hc key) as [H4 H5]. unfold public_text; cbn [fst snd].
  rewrite !element_text_read, BigInt_hex64 by done.
  intros [= <-] [= <-] [= <-] [= <-] [= <-]. rewrite !F_e_id by done.
  rewrite <- (ck_verify c Hc key message Hm).
  by destruct (signPoseidon c key message) as [[? ?] ?], (prv2pub c key).
Qed.

Lemma sign_reads key message :
  let k := {| privateKey := key; publicKey := public_text key |} in
  in_field message ->
  exists r8x r8y s, BigInt (R8x (sign k message)) = Ok r8x /\ BigInt (R8y (sign k message)) = Ok r8y
    /\ BigInt (S_ (sign k message)) = Ok s.
Proof.
  intros k Hm. unfold sign, k; cbn [R8x R8y S_ privateKey]. rewrite (F_e_id message) by done.
  destruct (ck_signature c Hc key message) as (H1 & H2 & H3).
  rewrite !element_text_read, BigInt_hex64 by done. by eexists _, _, _.
Qed.

Lemma public_reads key : BigInt (public_text key).1 = Ok (prv2pub c key).1
  /\ BigInt (public_text key).2 = Ok (prv2pub c key).2.
Proof.
  destruct (ck_public c Hc key). unfold public_text; cbn [fst snd]. by rewrite !element_text_read.
Qed.

(** A signer that answers has the keys [initialize] made. *)
Definition ready (key : list byte) (s : RefundSignerService) : Prop :=
  initialized s = true /\ keys s = Some {| privateKey := key; publicKey := public_text key |}.

Definition coherent (s : RefundSignerService) : Prop :=
  initialized s = false /\ keys s = None \/ exists key, ready key s /\ (derived <> None -> derived = Some key).

Lemma coherent_new : coherent new_signer.
Proof. by left. Qed.

Lemma ensureInitialized_coherent s s' r : coherent s -> ensureInitialized s = (s', r) ->
  coherent s' /\ (forall key, ready key s -> s' = s).
Proof.
  intros Hs. unfold ensureInitialized. destruct (initialized s) eqn:Ei.
  { intros [= <- _]. by split. }
  assert (Hno : forall key, ~ ready key s) by (intros key [H _]; congruence).
  destruct (initPromise s); [intros [= <- _]; split; [done|]; intros key Hk; by destruct (Hno key)|].
  destruct Hs as [[_ Hk]|(key & Hr & _)]; [|by destruct (Hno key)].
  unfold initialize. destruct builds as [[]|err]; cbn [rbind].
  - destruct loadPrivateKey as [key|err] eqn:El; intros [= <- _]; (split; [|intros k Hk'; by destruct (Hno k)]).
    + right. exists key. split; [by split|]. unfold loadPrivateKey in El. destruct derived; [congruence|done].
    + by left.
  - intros [= <- _]. split; [by left|]. intros k Hk'. by destruct (Hno k).
Qed.

Lemma with_keys_ok {A} s s' (f : signing_keys -> result A) a : coherent s ->
  with_keys s f = (s', Ok a) -> exists key, ready key s'
    /\ f {| privateKey := key; publicKey := public_text key |} = Ok a.
Proof.
  intros Hs. unfold with_keys. destruct (ensureInitialized s) as [s1 r] eqn:E.
  destruct (ensureInitialized_coherent s s1 r Hs E) as [Hs1 _].
  intros H. injection H as <- H. apply rbind_ok in H as ([] & _ & H).
  destruct Hs1 as [[_ Hk]|(key & [Hi Hk] & _)]; rewrite Hk in H; [done|]. by exists key.
Qed.

Lemma with_keys_ready {A} key s (f : signing_keys -> result A) : ready key s ->
  with_keys s f = (s, f {| privateKey := key; publicKey := public_text key |}).
Proof.
  intros [Hi Hk]. unfold with_keys, ensureInitialized. rewrite Hi. cbn [rbind]. by rewrite Hk.
Qed.

(** ** Properties *)

(** The hexadecimal signature of an accumulator, once read back, verifies
    under the hexadecimal public key the signer publishes, whatever state the
    signer was in; and a signer with a derived key signs with that key. *)
Theorem signature_roundtrip s s' accumulator signature :
  coherent s -> signAccumulator accumulator s = (s', Ok signature) ->
  verifyAccumulator accumulator signature s' = (s', Ok true)
  /\ (exists key, getPublicKey s' = (s', Ok (public_text key)) /\ (derived <> None -> derived = Some key)).
Proof.
  intros Hs H. pose proof Hs as Hco. unfold signAccumulator in H.
  destruct (with_keys_ok _ _ _ _ Hs H) as (key & Hr & Hsig). injection Hsig as <-.
  assert (Hm : in_field (accumulatorMessage accumulator)) by apply (ck_poseidon c Hc).
  split.
  - unfold verifyAccumulator. rewrite (with_keys_ready key) by done. f_equal. unfold verify.
    destruct (sign_reads key _ Hm) as (r8x & r8y & n & E1 & E2 & E3).
    destruct (public_reads key) as [E4 E5]. cbn [publicKey].
    rewrite E1, E2, E3. cbn [rbind]. rewrite E4, E5. cbn [rbind]. f_equal.
    exact (sign_verifies key _ _ _ _ _ _ Hm E1 E2 E3 E4 E5).
  - exists key. unfold getPublicKey. rewrite (with_keys_ready key) by done. split; [done|].
    unfold with_keys in H. destruct (ensureInitialized s) as [s1 r] eqn:E.
    injection H as <- _. destruct (ensureInitialized_coherent _ _ _ Hco E) as [[[Hi _]|(k' & Hr' & Hd)] _].
    + destruct Hr. congruence.
    + destruct Hr as [_ Hk], Hr' as [_ Hk']. rewrite Hk in Hk'. injection Hk' as ->. exact Hd.
Qed.
End Signer.

(** ** A concrete signer *)

Definition toy_circomlib : Circomlib :=
  {| poseidon := fun l => match l with x :: _ => mod_p x | [] => 0 end;
     prv2pub := fun _ => (2, 3);
     signPoseidon := fun _ m => ((4, mod_p m), 6);
     verifyPoseidon := fun m sg pk => (sg.1.2 =? m) && (pk.1 =? 2) && (pk.2 =? 3);
     F_e := mod_p;
     F_toString16 := toString16 |}.

Lemma in_field_small z : 0 <= z < 10 -> in_field z.
Proof. intros H. unfold in_field. pose proof FIELD_MODULUS_gt. lia. Qed.

Lemma toy_circomlib_ok : circomlib_ok toy_circomlib.
Proof.
  assert (Hm : forall z, in_field z -> mod_p z = z) by (intros z Hz; by apply mod_p_small).
  split; cbn [poseidon prv2pub signPoseidon verifyPoseidon F_e F_toString16 toy_circomlib fst snd].
  - intros [|x l]; [by apply in_field_small|apply mod_p_range].
  - intros k. split; by apply in_field_small.
  - intros k m. split; [by apply in_field_small|]. split; [apply mod_p_range|lia].
  - intros k m Hf. rewrite Hm by done. by rewrite Z.eqb_refl.
  - exact Hm.
  - done.
Qed.

Definition toy_env : env := {["NODE_ENV"%string := "test"%string]}.
Definition toy_key : option (list byte) := Some (be_bytes 32 9).

Lemma signature_roundtrip_witness :
  exists s' signature,
    signAccumulator toy_circomlib (fun _ => []) toy_env toy_key (Ok tt) (0, 1) new_signer = (s', Ok signature)
    /\ verifyAccumulator toy_circomlib (fun _ => []) toy_env toy_key (Ok tt) (0, 1) signature s' = (s', Ok true).
Proof.
  eexists _, _. split; [reflexivity|].
  refine (proj1 (signature_roundtrip toy_circomlib (fun _ => []) toy_env toy_key (Ok tt)
            toy_circomlib_ok new_signer _ (0, 1) _ (coherent_new _ _) _)).
  reflexivity.
Defined.
