(* ===== verification/NoteClient.v ===== *)
(** * The owner's side of a note

    [scripts/client/note.ts] and the slashing command of [prove.ts]: the note file, the
    proofs of requests and exits, and [receive], which folds a reply of the
    server into the opening. The chain, snarkjs, ethers and circomlibjs are
    parameters; every text is kept as the code keeps it. *)

From Stdlib Require Import Ascii String.
From S2P Require Import Prelude Field JsText FieldElement HexText Accumulator Slashing Json JsonText Gateway RefundSigner.
Open Scope Z_scope.

(** ** Data *)

Record Groth16Proof : Type := {
  g_a : list string;
  g_b : list (list string);
  g_c : list string;
}.

Record OpeningText : Type := { t_refunds : string; t_index : string; t_blinding : string }.

(** The body sent is the DTO the server validates. *)
Abbreviation RequestBody := LongjingRequestDto.

Record Pending : Type := { rerandomizer : string; body : RequestBody }.

Record NoteFile : Type := {
  secretKey : string;
  rpcUrl : string;
  contract : string;
  opening : OpeningText;
  signature : option AccumulatorSignatureDto;
  signedBy : option (string * string);
  pending : option Pending;
}.

(** What the client reads of a reply: the 200 body, or the body the handler gives its 502
    (of which [Http.catch] sends the message only: [Api]). *)
Record RequestResponse : Type := { rr_refund : string; rr_accumulator : SignedAccumulatorDto }.

Record WithdrawalArgs : Type := {
  wa_commitment : string;
  wa_recipient : string;
  wa_refundKey : string * string;
  wa_proof : list string;
  wa_nullifier : string;
  wa_signalY : string;
  wa_payout : string;
}.

(** The answers of the contract: [getNote], [getMerkleProof], [merkleRoot],
    [C_MAX], [serverPublicKey] and [withdrawalSignalX]. *)
Record Contract : Type := {
  getNote : string -> result (Z * Z * Z * Z);
  getMerkleProof : Z -> result (list string * list Z);
  merkleRoot : result string;
  C_MAX : result Z;
  serverPublicKey : result (string * string);
  withdrawalSignalX : string -> result Z;
}.

(** The inputs of the accumulator part of both circuits. *)
Record AccumulatorInputs : Type := {
  isGenesis : string; ai_refunds : string; ai_index : string; ai_blinding : string;
  signatureR8x : string; signatureR8y : string; signatureS : string;
}.

Record RequestInputs : Type := {
  ri_secretKey : string; ri_deposit : string;
  merklePathElements : list string; merklePathIndices : list string;
  ri_accumulator : AccumulatorInputs;
  ri_rerandomizer : string; ri_merkleRoot : string; ri_maxCost : string; ri_signalX : string;
  ri_serverPublicKey : string * string;
}.

Record WithdrawalInputs : Type := {
  wi_secretKey : string; wi_accumulator : AccumulatorInputs; wi_claimedIndex : string;
  wi_commitment : string; wi_deposit : string; wi_maxCost : string;
  wi_serverPublicKey : string * string; wi_recipient : string; wi_signalX : string;
}.

(** What the client calls of its libraries: [fullProve] for each circuit,
    [exportSolidityCallData] with the parse of its text, [toBeHex(z, 32)] and
    [getAddress] of ethers. *)
Record Libraries : Type := {
  circom : Circomlib;
  proveRequestCircuit : RequestInputs -> result (Groth16Proof * list string);
  proveSettlementCircuit : WithdrawalInputs -> result (Groth16Proof * list string);
  soliditySplit : Groth16Proof -> list string -> result (list string * list (list string) * list string);
  toBeHex32 : Z -> result string;
  getAddress : string -> result string;
}.

Section Client.
Context (sha256 : list byte -> list byte) (gens : Generators) (lib : Libraries).

Definition randomBelow (bound : Z) (bytes : list byte) : result Z :=
  let* n := BigInt ("0x" +:+ to_hex bytes) in Ok (Z.rem n bound).

(** ** The note file *)

Definition newNote (rpc address : string) (bytes : list byte) : result NoteFile :=
  let* k := randomBelow FIELD_MODULUS bytes in
  Ok {| secretKey := toString k; rpcUrl := rpc; contract := address;
        opening := {| t_refunds := "0"; t_index := "0"; t_blinding := "0" |};
        signature := None; signedBy := None; pending := None |}.

Definition commitmentOf (note : NoteFile) : result string :=
  let* k := BigInt (secretKey note) in
  toBeHex32 lib (poseidon (circom lib) [k]).

(** A note that is not active (status 1) is refused. *)
Definition onchainNote (note : NoteFile) (chain : Contract) : result (string * Z * Z) :=
  let* commitment := commitmentOf note in
  let* n := getNote chain commitment in
  let '(amount, _, leafIndex, status) := n in
  if negb (status =? 1) then Throw (Error "Note is not active")
  else Ok (commitment, amount, leafIndex).

(** [BigInt(v).toString()]. *)
Definition dec (v : string) : result string := rmap toString (BigInt v).

Definition serverKey (chain : Contract) : result (string * string) :=
  let* key := serverPublicKey chain in
  let* x := dec key.1 in
  let* y := dec key.2 in
  Ok (x, y).

Definition accumulatorInputs (note : NoteFile) : AccumulatorInputs :=
  {| isGenesis := match signature note with Some _ => "0" | None => "1" end;
     ai_refunds := t_refunds (opening note);
     ai_index := t_index (opening note);
     ai_blinding := t_blinding (opening note);
     signatureR8x := match signature note with Some s => R8x s | None => "0" end;
     signatureR8y := match signature note with Some s => R8y s | None => "1" end;
     signatureS := match signature note with Some s => S_ s | None => "0" end |}.

Definition openingOf (note : NoteFile) (c : Z) : result Opening :=
  let* r := BigInt (t_refunds (opening note)) in
  let* i := BigInt (t_index (opening note)) in
  let* b := BigInt (t_blinding (opening note)) in
  Ok {| refunds := r; index := i; commitment := c; blinding := b |}.

Fixpoint map_result {A B} (f : A -> result B) (l : list A) : result (list B) :=
  match l with
  | [] => Ok []
  | x :: l' => let* y := f x in let* ys := map_result f l' in Ok (y :: ys)
  end.

(** ** Requests *)

(** [l[i]]; a missing element of an array of strings is [undefined], which
    [JSON.stringify] prints as null. *)
Definition json_at (l : list string) (i : nat) : json :=
  match l !! i with Some s => JStr (code_units s) | None => JNull end.

(** [l[i][j]] throws when the inner array is missing. *)
Definition nested (l : list (list string)) (i : nat) : result (list string) :=
  of_option (TypeError "Cannot read properties of undefined") (l !! i).

(** Projective coordinates, the pairs of pi_b swapped. *)
Definition wire (proof : Groth16Proof) : result json :=
  let* b0 := nested (g_b proof) 0 in
  let* b1 := nested (g_b proof) 1 in
  let one := JStr (code_units "1") in
  Ok (JObj [
    (code_units "pi_a", JArr [json_at (g_a proof) 0; json_at (g_a proof) 1; one]);
    (code_units "pi_b", JArr [JArr [json_at b0 1; json_at b0 0; one]; JArr [json_at b1 1; json_at b1 0; one]]);
    (code_units "pi_c", JArr [json_at (g_c proof) 0; json_at (g_c proof) 1; one]);
    (code_units "protocol", JStr (code_units "groth16"))]).

(** [publicSignals[i]], a string for the signals the circuit has. *)
Definition signal_at (signals : list string) (i : nat) : string := default EmptyString (signals !! i).

Definition proveRequest (note : NoteFile) (chain : Contract) (nonceBytes rerandomizerBytes : list byte)
  (payload : list Z) (model : option string) : result (RequestBody * NoteFile) :=
  match pending note with
  | Some p => Ok (body p, note)
  | None =>
      let* n := onchainNote note chain in
      let '(_, amount, leafIndex) := n in
      let* path := getMerkleProof chain leafIndex in
      let* root := merkleRoot chain in
      let* cMax := C_MAX chain in
      let* key := serverKey chain in
      let* nonce := randomBelow FIELD_MODULUS nonceBytes in
      let* s' := randomBelow SUBGROUP_ORDER rerandomizerBytes in
      let* x := payloadSignalX sha256 (poseidon (circom lib)) payload nonce in
      let* elements := map_result dec path.1 in
      let* rootDec := dec root in
      let* proved := proveRequestCircuit lib
        {| ri_secretKey := secretKey note; ri_deposit := toString amount;
           merklePathElements := elements; merklePathIndices := map toString path.2;
           ri_accumulator := accumulatorInputs note; ri_rerandomizer := toString s';
           ri_merkleRoot := rootDec; ri_maxCost := toString cMax; ri_signalX := toString x;
           ri_serverPublicKey := key |} in
      let '(proof, publicSignals) := proved in
      let* w := wire proof in
      let* text := of_option (TypeError "stringify") (JSON_stringify w) in
      let body :=
        {| req_payload := payload; req_nonce := toString nonce;
           req_nullifier := signal_at publicSignals 0;
           req_signal := {| signal_x := toString x; signal_y := signal_at publicSignals 1 |};
           req_proof := text; req_merkleRoot := rootDec;
           req_accumulator := {| acc_x := signal_at publicSignals 2; acc_y := signal_at publicSignals 3 |};
           req_model := match model with
                        | Some m => if str_len m =? 0 then None else Some m
                        | None => None
                        end |} in
      Ok (body, {| secretKey := secretKey note; rpcUrl := rpcUrl note; contract := contract note;
                   opening := opening note; signature := signature note; signedBy := signedBy note;
                   pending := Some {| rerandomizer := toString s'; body := body |} |})
  end.

(** ** Replies *)

(** [point.join()]. *)
Definition join_point (p : Point) : string := toString p.1 +:+ "," +:+ toString p.2.

Definition receive (note : NoteFile) (chain : Contract) (response : RequestResponse) : result NoteFile :=
  match pending note with
  | None => Throw (Error "No request is pending for this note")
  | Some p =>
      let* c := commitmentOf note in
      let* c := BigInt c in
      let* s' := BigInt (rerandomizer p) in
      let* refund := BigInt (rr_refund response) in
      let* o := openingOf note c in
      let expected := applyRefund gens (rerandomize gens (commit gens o) s') refund in
      let* x := BigInt (sa_x (rr_accumulator response)) in
      let* y := BigInt (sa_y (rr_accumulator response)) in
      if negb (bool_decide (join_point expected = join_point (x, y)))
      then Throw (Error "The server's accumulator doesn't add up to the refund")
      else
        let* key := serverKey chain in
        let sg := sa_signature (rr_accumulator response) in
        let* r8x := BigInt (R8x sg) in
        let* r8y := BigInt (R8y sg) in
        let* s := BigInt (S_ sg) in
        let* ax := BigInt key.1 in
        let* ay := BigInt key.2 in
        let e := F_e (circom lib) in
        if negb (verifyPoseidon (circom lib) (e (poseidon (circom lib) [x; y]))
                   ((e r8x, e r8y), s) (e ax, e ay))
        then Throw (Error "The accumulator isn't signed by the key registered onchain")
        else
          Ok {| secretKey := secretKey note; rpcUrl := rpcUrl note; contract := contract note;
                opening := {| t_refunds := toString (refunds o + refund);
                              t_index := toString (index o + 1);
                              t_blinding := toString (Z.rem (blinding o + s') SUBGROUP_ORDER) |};
                signature := Some {| R8x := toString r8x; R8y := toString r8y; S_ := toString s |};
                signedBy := Some key; pending := None |}
  end.

(** ** Exits *)

Definition proveWithdrawal (note : NoteFile) (chain : Contract) (recipient : string)
  (claimedIndex : option Z) : result WithdrawalArgs :=
  let* n := onchainNote note chain in
  let '(c, amount, _) := n in
  let* i := BigInt (t_index (opening note)) in
  let used := i + match pending note with Some _ => 1 | None => 0 end in
  let n := default used claimedIndex in
  if n <? i then Throw (Error "The claim must cover every index the accumulator used")
  else
    let* cMax := C_MAX chain in
    let* x := withdrawalSignalX chain recipient in
    let* key := match signedBy note with Some k => Ok k | None => serverKey chain end in
    let* cDec := dec c in
    let* recipientDec := dec recipient in
    let* proved := proveSettlementCircuit lib
      {| wi_secretKey := secretKey note; wi_accumulator := accumulatorInputs note;
         wi_claimedIndex := toString n; wi_commitment := cDec; wi_deposit := toString amount;
         wi_maxCost := toString cMax; wi_serverPublicKey := key; wi_recipient := recipientDec;
         wi_signalX := toString x |} in
    let '(proof, publicSignals) := proved in
    let* abc := soliditySplit lib proof publicSignals in
    let '(a, b, c3) := abc in
    let* address := getAddress lib recipient in
    let* kx := BigInt key.1 in
    let* ky := BigInt key.2 in
    let* kx := toBeHex32 lib kx in
    let* ky := toBeHex32 lib ky in
    let* words := map_result dec (a ++ concat b ++ c3) in
    Ok {| wa_commitment := c; wa_recipient := address; wa_refundKey := (kx, ky); wa_proof := words;
          wa_nullifier := signal_at publicSignals 0; wa_signalY := signal_at publicSignals 1;
          wa_payout := signal_at publicSignals 2 |}.

Definition nullifierAt (note : NoteFile) (i : Z) : result Z :=
  let hash := poseidon (circom lib) in
  let* k := BigInt (secretKey note) in
  Ok (hash [hash [k; i]]).

(** The [slashing] command of [prove.ts]. *)
Definition slashing_command (signal1 signal2 : string * string) : result string :=
  let* x1 := BigInt signal1.1 in
  let* y1 := BigInt signal1.2 in
  let* x2 := BigInt signal2.1 in
  let* y2 := BigInt signal2.2 in
  let* k := recoverSecretKey (x1, y1) (x2, y2) in
  toBeHex32 lib k.
End Client.
