(* ===== verification/NoteProtocol.v ===== *)
(** * A note through its life

    What [NoteClient.v] and [Gateway.v] promise together: the note's opening
    always opens the accumulator its server signature covers; an honest reply
    is always accepted; the proof that leaves the client is the one the verifier
    hands to snarkjs. *)

From Stdlib Require Import Ascii String.
From S2P Require Import Prelude Field JsText Edwards FieldElement HexText Accumulator Json JsonText.
From S2P Require Import JsNumber ProofVerifier Gateway RefundSigner NoteClient.
Open Scope Z_scope.

(** ** Texts of points *)

Lemma sep_inj {A} (c : A) l1 l2 r1 r2 : c ∉ l1 -> c ∉ l2 ->
  l1 ++ c :: r1 = l2 ++ c :: r2 -> l1 = l2 /\ r1 = r2.
Proof.
  revert l2; induction l1 as [|a l1 IH]; intros [|b l2] H1 H2; cbn [app]; intros H; simplify_eq.
  - done.
  - destruct H2. left.
  - destruct H1. left.
  - destruct (IH l2) as [-> ->]; [by intros ?; apply H1; right|by intros ?; apply H2; right|done|done].
Qed.

Definition decimal_char (c : ascii) : bool := is_digit c || (code c =? 45).

Lemma toString_chars z : forallb decimal_char (chars (toString z)) = true.
Proof.
  unfold toString. set (ds := dec_digits _ (Z.abs z) []). rewrite chars_of_chars.
  assert (Hd : forallb is_digit ds = true) by (apply dec_digits_digits; [lia|done]).
  assert (Hd' : forallb decimal_char ds = true).
  { rewrite forallb_forall in *. intros c Hc. unfold decimal_char. by rewrite Hd. }
  by destruct (z <? 0).
Qed.

Lemma comma_not_decimal z : ","%char ∉ chars (toString z).
Proof.
  intros H. pose proof (toString_chars z) as Hd. rewrite forallb_forall in Hd.
  apply list_elem_of_In, Hd in H. done.
Qed.

Lemma join_point_inj p q : join_point p = join_point q -> p = q.
Proof.
  unfold join_point. intros H. apply (f_equal chars) in H. rewrite !chars_app in H.
  change (chars ",") with [","%char] in H. cbn [app] in H.
  apply sep_inj in H as [H1 H2]; [|apply comma_not_decimal..].
  destruct p, q. cbn [fst snd] in *. f_equal; apply toString_inj;
    by rewrite <- (of_chars_chars (toString _)), ?H1, ?H2, of_chars_chars.
Qed.

Lemma dec_digits_text z : 0 <= z -> exists l, chars (toString z) = l /\ l <> [] /\ forallb is_digit l = true.
Proof.
  intros Hz. unfold toString. rewrite chars_of_chars. destruct (Z.ltb_spec z 0); [lia|].
  eexists. split; [reflexivity|]. split; [apply dec_digits_nonempty|]. apply dec_digits_digits; [lia|done].
Qed.

(** The server reads the decimal texts the client sends. *)
Lemma parse_toString z : 0 <= z -> parseFieldElement (toString z) = Ok z.
Proof.
  intros Hz. destruct (dec_digits_text z Hz) as (l & Hl & Hne & Hd).
  assert (Ht : trim (toString z) = toString z).
  { apply trim_printable. rewrite Hl. by apply hex_printable, digits_are_hex. }
  unfold parseFieldElement. rewrite Ht. unfold all_digits, str_all. rewrite Hl, Hd, nonempty_ne by done.
  rewrite orb_true_r. apply toString_ok.
Qed.

(** ** Scalars modulo the order of the subgroup *)

Opaque mulPoint addPoints SUBGROUP_ORDER.

Lemma isIdentity_true p : isIdentity p = true -> p = IDENTITY.
Proof. destruct p as [x y]. intros [->%Z.eqb_eq ->%Z.eqb_eq]%andb_true_iff. reflexivity. Qed.

Lemma inSubgroup_order p : inSubgroup p = true -> mulPoint p SUBGROUP_ORDER = IDENTITY.
Proof. intros H. exact (isIdentity_true _ (proj2 (proj1 (andb_true_iff _ _) H))). Qed.

Lemma SUBGROUP_ORDER_pos : 0 < SUBGROUP_ORDER.
Proof. exact eq_refl. Qed.

Lemma SUBGROUP_ORDER_lt : SUBGROUP_ORDER < FIELD_MODULUS.
Proof. exact eq_refl. Qed.

Lemma mulPoint_multiple p m n : isOnCurve p = true -> 0 < m -> mulPoint p m = IDENTITY ->
  mulPoint p (Z.of_nat n * m) = IDENTITY.
Proof.
  intros Hp Hm Ho. induction n as [|n IH]; [exact eq_refl|].
  rewrite Nat2Z.inj_succ, Z.mul_succ_l, mulPoint_plus, IH, Ho; [|exact Hp|nia|lia].
  apply addPoints_id_r, IDENTITY_reduced.
Qed.

Lemma mulPoint_mod p m z : isOnCurve p = true -> 0 < m -> mulPoint p m = IDENTITY -> 0 <= z ->
  mulPoint p (z mod m) = mulPoint p z.
Proof.
  intros Hp Hm Ho Hz. pose proof (Z.mod_pos_bound z m Hm). pose proof (Z.div_pos z m Hz Hm).
  rewrite (Z_div_mod_eq_full z m) at 2.
  rewrite (Z.mul_comm m), mulPoint_plus; [|exact Hp|nia|lia].
  rewrite <- (Z2Nat.id (z / m)) by lia.
  rewrite (mulPoint_multiple p m _ Hp Hm Ho). by rewrite addPoints_id_l by apply mulPoint_reduced.
Qed.

(** A blinding reduced as [receive] reduces it commits to the same point. *)
Lemma commit_blinding g o b : generators_ok g -> inSubgroup (gen_H g) = true -> 0 <= b ->
  commit g {| refunds := refunds o; index := index o; commitment := commitment o;
              blinding := Z.rem b SUBGROUP_ORDER |}
  = commit g {| refunds := refunds o; index := index o; commitment := commitment o; blinding := b |}.
Proof.
  intros (_ & _ & _ & HH & _) Hs Hb.
  unfold commit; cbn [refunds index commitment blinding].
  rewrite (Z.rem_mod_nonneg b SUBGROUP_ORDER Hb SUBGROUP_ORDER_pos).
  rewrite (mulPoint_mod _ _ b HH SUBGROUP_ORDER_pos (inSubgroup_order _ Hs) Hb). exact eq_refl.
Qed.

Lemma mulPoint_identity n : mulPoint IDENTITY n = IDENTITY.
Proof.
  apply point_eq; [apply mulPoint_reduced|apply IDENTITY_reduced|].
  assert (Hon : isOnCurve IDENTITY = true) by (apply isOnCurve_iff; rewrite toP_IDENTITY; apply Fid_on).
  rewrite toP_mulPoint, toP_IDENTITY by exact Hon. generalize (Z.to_nat n). intros k.
  induction k as [|k IH]; [done|]. cbn [etimes]. rewrite IH. apply Fadd_id_l.
Qed.

Lemma identity_on : isOnCurve IDENTITY = true.
Proof. apply isOnCurve_iff. rewrite toP_IDENTITY. apply Fid_on. Qed.

Lemma identity_inSubgroup : inSubgroup IDENTITY = true.
Proof.
  unfold inSubgroup. rewrite mulPoint_identity. exact (proj2 (andb_true_iff _ _) (conj identity_on eq_refl)).
Qed.

(** ** The note and its server signature *)

Definition opening_text (o : Opening) : OpeningText :=
  {| t_refunds := toString (refunds o); t_index := toString (index o); t_blinding := toString (blinding o) |}.

(** The opening after a reply of refund [v] to a request of rerandomizer [s]. *)
Definition next_opening (o : Opening) (s v : Z) : Opening :=
  {| refunds := refunds o + v; index := index o + 1; commitment := commitment o;
     blinding := Z.rem (blinding o + s) SUBGROUP_ORDER |}.

Section Notes.
Context (sha256 : list byte -> list byte) (gens : Generators) (lib : Libraries).
Context (Hc : circomlib_ok (circom lib)) (Hg : generators_ok gens) (Hs : inSubgroup (gen_H gens) = true).
(** [ethers.toBeHex(z, 32)] writes its argument in base 16. *)
Context (Hhex : forall z, in_field z -> exists t, toBeHex32 lib z = Ok t /\ BigInt t = Ok z).

(** The check of [receive] and of both circuits: EdDSA-Poseidon over the point. *)
Definition signature_valid (key : string * string) (sg : AccumulatorSignatureDto) (p : Point) : result bool :=
  let* r8x := BigInt (R8x sg) in
  let* r8y := BigInt (R8y sg) in
  let* s := BigInt (S_ sg) in
  let* ax := BigInt key.1 in
  let* ay := BigInt key.2 in
  let e := F_e (circom lib) in
  Ok (verifyPoseidon (circom lib) (e (poseidon (circom lib) [p.1; p.2])) ((e r8x, e r8y), s) (e ax, e ay)).

(** The note's texts are those of the opening [o]; its signature is on the
    accumulator [o] opens, or the accumulator is the genesis one. *)
Record note_ok (n : NoteFile) (o : Opening) : Prop := {
  ok_text : opening n = opening_text o;
  ok_opening : opening_ok o /\ blinding o < SUBGROUP_ORDER;
  ok_key : exists k, secretKey n = toString k /\ in_field k /\ commitment o = poseidon (circom lib) [k];
  ok_signed : match signature n, signedBy n with
              | Some sg, Some key => signature_valid key sg (commit gens o) = Ok true
              | None, None => refunds o = 0 /\ index o = 0 /\ blinding o = 0
              | _, _ => False
              end;
  ok_pending : match pending n with
               | Some p => exists s, rerandomizer p = toString s /\ 0 <= s < SUBGROUP_ORDER
               | None => True
               end;
}.

Lemma next_accumulator o s v : opening_ok o -> 0 <= s -> 0 <= v ->
  applyRefund gens (rerandomize gens (commit gens o) s) v = commit gens (next_opening o s v).
Proof.
  intros Ho Hs' Hv. pose proof Ho as (? & ? & ? & ?).
  rewrite rerandomize_commit by done. rewrite applyRefund_commit; [|exact Hg|repeat split; cbn; lia|exact Hv].
  cbn [refunds index commitment blinding]. symmetry. unfold next_opening.
  exact (commit_blinding gens {| refunds := refunds o + v; index := index o + 1; commitment := commitment o;
           blinding := 0 |} (blinding o + s) Hg Hs ltac:(lia)).
Qed.

Lemma next_opening_ok o s v : opening_ok o -> 0 <= s -> 0 <= v ->
  opening_ok (next_opening o s v) /\ blinding (next_opening o s v) < SUBGROUP_ORDER.
Proof.
  intros (? & ? & ? & ?) Hs' Hv. unfold next_opening, opening_ok; cbn [refunds index commitment blinding].
  pose proof (Z.rem_bound_pos (blinding o + s) SUBGROUP_ORDER ltac:(lia) SUBGROUP_ORDER_pos). lia.
Qed.

(** What the client computes of a note. *)
Lemma note_commitment n o : note_ok n o ->
  exists t, commitmentOf lib n = Ok t /\ BigInt t = Ok (commitment o) /\ openingOf n (commitment o) = Ok o.
Proof.
  intros H. destruct (ok_key n o H) as (k & Hk & Hr & Hcm).
  destruct (Hhex (commitment o)) as (t & Ht & Hb); [rewrite Hcm; apply (ck_poseidon _ Hc)|].
  exists t. split; [|split; [exact Hb|]].
  - unfold commitmentOf. rewrite Hk, toString_ok. cbn [rbind]. by rewrite <- Hcm.
  - unfold openingOf. rewrite (ok_text n o H). unfold opening_text; cbn [t_refunds t_index t_blinding].
    rewrite !toString_ok. cbn [rbind]. by destruct o.
Qed.

Lemma signature_canonical key sg p r8x r8y s :
  BigInt (R8x sg) = Ok r8x -> BigInt (R8y sg) = Ok r8y -> BigInt (S_ sg) = Ok s ->
  signature_valid key {| R8x := toString r8x; R8y := toString r8y; S_ := toString s |} p
  = signature_valid key sg p.
Proof. intros H1 H2 H3. unfold signature_valid; cbn [R8x R8y S_]. by rewrite !toString_ok, H1, H2, H3. Qed.

(** ** Receiving a reply *)

Definition received (n : NoteFile) (o : Opening) (sg : AccumulatorSignatureDto) (key : string * string) : NoteFile :=
  {| secretKey := secretKey n; rpcUrl := rpcUrl n; contract := contract n; opening := opening_text o;
     signature := Some sg; signedBy := Some key; pending := None |}.

Lemma received_ok n o o' sg key : note_ok n o -> opening_ok o' -> blinding o' < SUBGROUP_ORDER ->
  commitment o' = commitment o -> signature_valid key sg (commit gens o') = Ok true ->
  note_ok (received n o' sg key) o'.
Proof.
  intros H Ho' Hb Hcm Hsig. split; cbn [opening signature signedBy pending secretKey received]; try done.
  by rewrite Hcm; apply (ok_key n o H).
Qed.

(** A reply is accepted exactly when it opens to the next opening and is signed by
    the key read from the contract. *)
Lemma receive_cases n o p chain resp s v : note_ok n o -> pending n = Some p ->
  rerandomizer p = toString s -> 0 <= s -> BigInt (rr_refund resp) = Ok v -> 0 <= v ->
  let o' := next_opening o s v in
  let sg := sa_signature (rr_accumulator resp) in
  (forall n', receive gens lib n chain resp = Ok n' -> exists key r8x r8y t,
     serverKey chain = Ok key /\ signature_valid key sg (commit gens o') = Ok true
     /\ BigInt (R8x sg) = Ok r8x /\ BigInt (R8y sg) = Ok r8y /\ BigInt (S_ sg) = Ok t
     /\ n' = received n o' {| R8x := toString r8x; R8y := toString r8y; S_ := toString t |} key)
  /\ (forall key, BigInt (sa_x (rr_accumulator resp)) = Ok (commit gens o').1 ->
        BigInt (sa_y (rr_accumulator resp)) = Ok (commit gens o').2 ->
        serverKey chain = Ok key -> signature_valid key sg (commit gens o') = Ok true ->
        exists n', receive gens lib n chain resp = Ok n').
Proof.
  intros H Hp Hr Hs0 Hv Hv0 o' sg. destruct (note_commitment n o H) as (t & Ht & Hbt & Ho).
  unfold receive. rewrite Hp, Ht, Hr. cbn [rbind]. rewrite Hbt, toString_ok. cbn [rbind].
  rewrite Hv, Ho. cbn [rbind].
  rewrite (next_accumulator o s v (proj1 (ok_opening n o H)) Hs0 Hv0). fold o'.
  unfold signature_valid. fold sg. split.
  - intros n' Hn. apply rbind_ok in Hn as (x & _ & Hn). apply rbind_ok in Hn as (y & _ & Hn).
    case_bool_decide as Hj; [|done]. apply join_point_inj in Hj. cbn [negb] in Hn.
    apply rbind_ok in Hn as (key & Hkey & Hn). apply rbind_ok in Hn as (r8x & H1 & Hn).
    apply rbind_ok in Hn as (r8y & H2 & Hn). apply rbind_ok in Hn as (s0 & H3 & Hn).
    apply rbind_ok in Hn as (ax & H4 & Hn). apply rbind_ok in Hn as (ay & H5 & Hn).
    exists key, r8x, r8y, s0. rewrite Hj; cbn [fst snd].
    destruct (verifyPoseidon _ _ _ _) eqn:Ev in Hn; [|done]. cbn [negb] in Hn.
    rewrite H1, H2, H3, H4, H5. cbn [rbind]. rewrite Ev.
    split; [exact Hkey|]. do 4 (split; [reflexivity|]). by injection Hn as <-.
  - intros key Hx Hy Hkey Hsig. rewrite Hx, Hy. cbn [rbind].
    rewrite <- surjective_pairing, bool_decide_true by reflexivity. cbn [negb].
    rewrite Hkey. cbn [rbind]. inv_ok.
    repeat match goal with E : BigInt _ = Ok _ |- _ => rewrite E; clear E; cbn [rbind] end.
    match goal with E : verifyPoseidon _ _ _ _ = true |- _ => rewrite E end. cbn [negb]. by eexists.
Qed.

(** ** The life of a note *)

Lemma randomBelow_range bound bytes z : 0 < bound -> bytes <> [] ->
  randomBelow bound bytes = Ok z -> 0 <= z < bound.
Proof.
  intros Hb Hne. unfold randomBelow. rewrite (BigInt_to_hex bytes Hne). intros H. injection H as <-.
  apply Z.rem_bound_pos; [apply be_value_nonneg|exact Hb].
Qed.

Lemma newNote_ok rpc address bytes n : bytes <> [] -> newNote rpc address bytes = Ok n ->
  exists o, note_ok n o /\ refunds o = 0 /\ index o = 0.
Proof.
  intros Hne H. apply rbind_ok in H as (k & Hk & H). injection H as <-.
  assert (Hp : 0 < FIELD_MODULUS) by (pose proof FIELD_MODULUS_gt; lia).
  pose proof (randomBelow_range _ _ _ Hp Hne Hk) as Hr.
  exists {| refunds := 0; index := 0; commitment := poseidon (circom lib) [k]; blinding := 0 |}.
  split; [|done].
  pose proof (ck_poseidon _ Hc [k]) as [? _].
  split; cbn [opening signature signedBy pending secretKey refunds index commitment blinding]; try done.
  by exists k.
Qed.

(** A retry changes nothing; a new request proves the circuit on the note's inputs
    and only adds the pending body. *)
Lemma proveRequest_cases n chain b1 b2 payload model body n' :
  proveRequest sha256 lib n chain b1 b2 payload model = Ok (body, n') ->
  n' = n /\ (exists p, pending n = Some p /\ NoteClient.body p = body)
  \/ pending n = None /\ exists s inputs proof signals w,
     randomBelow SUBGROUP_ORDER b2 = Ok s
     /\ proveRequestCircuit lib inputs = Ok (proof, signals)
     /\ ri_secretKey inputs = secretKey n /\ ri_accumulator inputs = accumulatorInputs n
     /\ ri_rerandomizer inputs = toString s
     /\ wire proof = Ok w /\ JSON_stringify w = Some (req_proof body)
     /\ req_accumulator body = {| acc_x := signal_at signals 2; acc_y := signal_at signals 3 |}
     /\ n' = {| secretKey := secretKey n; rpcUrl := rpcUrl n; contract := contract n;
                opening := opening n; signature := signature n; signedBy := signedBy n;
                pending := Some {| rerandomizer := toString s; NoteClient.body := body |} |}.
Proof.
  unfold proveRequest. destruct (pending n) as [p|] eqn:Hp.
  - intros H. injection H as <- <-. left. split; [done|]. by exists p.
  - intros H. right. split; [done|]. apply rbind_ok in H as ([[cm amount] leaf] & _ & H). inv_ok.
    match goal with x : (Groth16Proof * _)%type |- _ => destruct x as [proof signals] end.
    match goal with E : rbind (wire proof) _ = _ |- _ => apply rbind_ok in E as (w & Hw & E) end.
    destruct (JSON_stringify w) as [text|] eqn:Ew; [|done]. cbn [of_option rbind] in *. simplify_eq.
    do 5 eexists. by repeat (split; [first [eassumption|reflexivity]|]).
Qed.

Lemma proveRequest_ok n o chain b1 b2 payload model body n' : b2 <> [] -> note_ok n o ->
  proveRequest sha256 lib n chain b1 b2 payload model = Ok (body, n') -> note_ok n' o.
Proof.
  intros Hne H Hr. apply proveRequest_cases in Hr as [[-> _]|(_ & s & ? & ? & ? & ? & Hs' & _ & _ & _ & _ & _ & _ & _ & ->)]; [done|].
  destruct H as [H1 H2 H3 H4 _].
  split; cbn [opening signature signedBy pending secretKey]; try done.
  exists s. split; [done|]. exact (randomBelow_range _ _ _ SUBGROUP_ORDER_pos Hne Hs').
Qed.

Lemma receive_ok n o chain resp v n' : note_ok n o -> BigInt (rr_refund resp) = Ok v -> 0 <= v ->
  receive gens lib n chain resp = Ok n' ->
  exists o', note_ok n' o' /\ refunds o' = refunds o + v /\ index o' = index o + 1
    /\ secretKey n' = secretKey n.
Proof.
  intros H Hv Hv0 Hn. destruct (pending n) as [p|] eqn:Hp; [|by unfold receive in Hn; rewrite Hp in Hn].
  pose proof (ok_pending n o H) as Hpend. rewrite Hp in Hpend. destruct Hpend as (s & Hs' & Hsr).
  destruct (receive_cases n o p chain resp s v H Hp Hs' (proj1 Hsr) Hv Hv0) as [Hsound _].
  destruct (Hsound n' Hn) as (key & r8x & r8y & t & _ & Hsig & H1 & H2 & H3 & ->).
  exists (next_opening o s v).
  destruct (next_opening_ok o s v (proj1 (ok_opening n o H)) (proj1 Hsr) Hv0) as [Ho' Hb'].
  split; [|done]. apply (received_ok n o); [done..|]. by rewrite (signature_canonical _ _ _ _ _ _ H1 H2 H3).
Qed.

(** The calls made on a note file, with the refunds received so far. *)
Inductive life (n0 : NoteFile) : list Z -> NoteFile -> Prop :=
| life_new : life n0 [] n0
| life_request l n chain b1 b2 payload model body n' : life n0 l n -> b2 <> [] ->
    proveRequest sha256 lib n chain b1 b2 payload model = Ok (body, n') -> life n0 l n'
| life_receive l n chain resp v n' : life n0 l n -> BigInt (rr_refund resp) = Ok v -> 0 <= v ->
    receive gens lib n chain resp = Ok n' -> life n0 (v :: l) n'.

Definition sum (l : list Z) : Z := foldr Z.add 0 l.

(** C13: the invariant of a note. Whatever requests it proved and whatever replies
    it accepted, as long as no refund was negative: its opening texts read as an
    opening whose refunds are the sum of those received and whose index is their
    number, the blinding stays below the order of the subgroup, and the signature
    the note keeps verifies, under the key it was read from the chain with, on the
    accumulator of that opening (or none was received and the accumulator is the
    genesis one). So every later request and exit proves a signed accumulator. *)
Theorem note_stays_certified rpc address bytes n0 l n : bytes <> [] ->
  newNote rpc address bytes = Ok n0 -> life n0 l n ->
  exists o, note_ok n o /\ refunds o = sum l /\ index o = Z.of_nat (length l)
    /\ openingOf n (commitment o) = Ok o /\ secretKey n = secretKey n0.
Proof.
  intros Hne Hn0 Hl.
  enough (exists o, note_ok n o /\ refunds o = sum l /\ index o = Z.of_nat (length l)
                    /\ secretKey n = secretKey n0) as (o & H & ? & ? & ?).
  { exists o. destruct (note_commitment n o H) as (t & _ & _ & Ho). done. }
  induction Hl as [|l n chain b1 b2 payload model body n' _ IH Hb Hr|l n chain resp v n' _ IH Hv Hv0 Hr].
  - destruct (newNote_ok rpc address bytes n0 Hne Hn0) as (o & ? & ? & ?). by exists o.
  - destruct IH as (o & H & ? & ? & Hk). exists o.
    split; [by apply (proveRequest_ok n o chain b1 b2 payload model body)|].
    apply proveRequest_cases in Hr as [[-> _]|(_ & s & ? & ? & ? & ? & _ & _ & _ & _ & _ & _ & _ & _ & ->)]; done.
  - destruct IH as (o & H & HR & Hi & Hk).
    destruct (receive_ok n o chain resp v n' H Hv Hv0 Hr) as (o' & H' & HR' & Hi' & Hk').
    exists o'. cbn [sum foldr length]. fold (sum l). split; [done|]. rewrite Hk'. lia || (split; [lia|split; [lia|done]]).
Qed.
End Notes.

(** ** The proof on the wire *)

Lemma code_units_unit s : Forall is_unit (code_units s).
Proof.
  unfold code_units. apply Forall_forall. intros u (c & -> & _)%list_elem_of_fmap.
  pose proof (code_range c). unfold is_unit. lia.
Qed.

Lemma printable_at l i : printable_json (json_at l i).
Proof. unfold json_at. destruct (l !! i); [apply code_units_unit|done]. Qed.

Lemma nested_ok l i m : nested l i = Ok m -> l !! i = Some m.
Proof. unfold nested. destruct (l !! i); [|done]. cbn. congruence. Qed.

(** The pair of coordinates at places 0 and 1 of a list of texts. *)
Definition pair_at (l : list string) : jsv * jsv := (Some (json_at l 0), Some (json_at l 1)).

Definition snarkjs_form (proof : Groth16Proof) (b0 b1 : list string) : snarkjs_proof :=
  {| sp_a := pair_at (g_a proof); sp_b := (pair_at b0, pair_at b1); sp_c := pair_at (g_c proof);
     sp_protocol := Some (JStr (code_units "groth16")); sp_curve := "bn128" |}.

Lemma wire_read proof w : wire proof = Ok w ->
  printable_json w /\ well_formed w = Ok true
  /\ exists b0 b1, g_b proof !! 0%nat = Some b0 /\ g_b proof !! 1%nat = Some b1
       /\ to_snarkjs w = Ok (snarkjs_form proof b0 b1).
Proof.
  unfold wire. intros H. apply rbind_ok in H as (b0 & H0%nested_ok & H).
  apply rbind_ok in H as (b1 & H1%nested_ok & H). injection H as <-.
  split; [|split; [reflexivity|]].
  - cbn [printable_json map fst]. split.
    + rewrite <- (bool_decide_spec (NoDup _)). reflexivity.
    + repeat (split; [first [apply code_units_unit|apply printable_at|exact I|idtac]|]);
        repeat split; first [apply code_units_unit|apply printable_at|exact I].
  - exists b0, b1. split; [exact H0|]. split; [exact H1|]. reflexivity.
Qed.

(** ** Properties of a request's way to the server and back *)

Section Protocol.
Context (sha256 : list byte -> list byte) (gens : Generators) (lib : Libraries).
Context (Hc : circomlib_ok (circom lib)) (Hg : generators_ok gens) (Hs : inSubgroup (gen_H gens) = true).
Context (Hhex : forall z, in_field z -> exists t, toBeHex32 lib z = Ok t /\ BigInt t = Ok z).

(** [request.circom] publishes [A_pub = A + s' H] as its third and fourth signal, of inputs
    that are field elements. [request_publishes] derives it from the circuit. *)
Definition circuit_publishes : Prop := forall inputs proof signals k o s,
  proveRequestCircuit lib inputs = Ok (proof, signals) ->
  in_field k -> in_field (refunds o) -> in_field (index o) -> in_field (blinding o) -> in_field s ->
  ri_secretKey inputs = toString k -> commitment o = poseidon (circom lib) [k] ->
  ai_refunds (ri_accumulator inputs) = toString (refunds o) ->
  ai_index (ri_accumulator inputs) = toString (index o) ->
  ai_blinding (ri_accumulator inputs) = toString (blinding o) ->
  ri_rerandomizer inputs = toString s ->
  signals !! 2%nat = Some (toString (rerandomize gens (commit gens o) s).1)
  /\ signals !! 3%nat = Some (toString (rerandomize gens (commit gens o) s).2).

(** C26: the proof on the wire. The text a new request carries parses as JSON, passes
    the shape checks of the verifier, and is converted for snarkjs to the very
    coordinates [fullProve] gave the client: the swap of the pairs of pi_b is
    undone, nothing is reordered, added or lost. *)
Theorem wire_proof_roundtrip n chain b1 b2 payload model body n' :
  pending n = None -> proveRequest sha256 lib n chain b1 b2 payload model = Ok (body, n') ->
  exists inputs proof signals d b0 b1, proveRequestCircuit lib inputs = Ok (proof, signals)
    /\ g_b proof !! 0%nat = Some b0 /\ g_b proof !! 1%nat = Some b1
    /\ JSON_parse (req_proof body) = Ok d /\ well_formed d = Ok true
    /\ to_snarkjs d = Ok (snarkjs_form proof b0 b1).
Proof.
  intros Hp H.
  apply proveRequest_cases in H as [[_ (p & Hp' & _)]|(_ & s & inputs & proof & signals & w & _ & Hpr & _ & _ & _ & Hw & Ht & _)];
    [congruence|].
  destruct (wire_read proof w Hw) as (Hj & Hf & c0 & c1 & H0 & H1 & Hsn).
  exists inputs, proof, signals, w, c0, c1.
  do 3 (split; [assumption|]). split; [exact (stringify_parse w _ Hj Ht)|]. by split.
Qed.

Lemma reduced_nonneg p : reduced p -> 0 <= p.1 /\ 0 <= p.2.
Proof. unfold reduced. lia. Qed.

(** What the server reads of a fresh request is the re-randomised accumulator. *)
Lemma proveRequest_publishes n o chain b1 b2 payload model body n' : circuit_publishes ->
  note_ok gens lib n o -> refunds o < FIELD_MODULUS -> index o < FIELD_MODULUS -> b2 <> [] -> pending n = None ->
  proveRequest sha256 lib n chain b1 b2 payload model = Ok (body, n') ->
  exists s p, 0 <= s < SUBGROUP_ORDER /\ note_ok gens lib n' o /\ pending n' = Some p
    /\ rerandomizer p = toString s
    /\ canonical_point (req_accumulator body) = Ok (rerandomize gens (commit gens o) s).
Proof.
  intros Hpub H HR HI Hne Hp Hr.
  pose proof (proveRequest_ok sha256 gens lib n o chain b1 b2 payload model body n' Hne H Hr) as H'.
  apply proveRequest_cases in Hr as [[_ (p & Hp' & _)]|(_ & s & inputs & proof & signals & w & Hs' & Hpr & Hk & Hacc & Hre & _ & _ & Ha & ->)];
    [congruence|].
  destruct (ok_key gens lib n o H) as (k & Hkt & Hkf & Hcm).
  pose proof (ok_text gens lib n o H) as Ht. pose proof (ok_opening gens lib n o H) as [(HR0 & HI0 & _ & HB0) HB].
  pose proof (randomBelow_range _ _ _ SUBGROUP_ORDER_pos Hne Hs') as Hsr. pose proof SUBGROUP_ORDER_lt as Hlt.
  destruct (Hpub inputs proof signals k o s Hpr Hkf) as [Hx Hy];
    [unfold in_field; lia|unfold in_field; lia|unfold in_field; lia|unfold in_field; lia|congruence|exact Hcm|rewrite Hacc; unfold accumulatorInputs; cbn; by rewrite Ht..|exact Hre|].
  exists s; eexists. split; [exact (randomBelow_range _ _ _ SUBGROUP_ORDER_pos Hne Hs')|].
  split; [exact H'|]. split; [reflexivity|]. split; [reflexivity|].
  rewrite Ha. unfold canonical_point, signal_at; cbn [acc_x acc_y]. rewrite Hx, Hy. cbn [default from_option id].
  pose proof (reduced_nonneg _ (addPoints_reduced (commit gens o) (mulPoint (gen_H gens) s))) as [H0 H1].
  rewrite (parse_toString _ H0 : parseFieldElement (toString (rerandomize gens (commit gens o) s).1) = _).
  cbn [rbind].
  rewrite (parse_toString _ H1 : parseFieldElement (toString (rerandomize gens (commit gens o) s).2) = _).
  cbn [rbind]. exact (f_equal Ok (eq_sym (surjective_pairing _))).
Qed.

Lemma signer_valid key chain p : serverPublicKey chain = Ok (public_text (circom lib) key) ->
  exists k, serverKey chain = Ok k
    /\ signature_valid lib k (sign (circom lib) {| privateKey := key; publicKey := public_text (circom lib) key |}
                                (accumulatorMessage (circom lib) p)) p = Ok true.
Proof.
  intros Hk. unfold serverKey. rewrite Hk. cbn [rbind]. unfold dec, rmap.
  destruct (public_reads _ Hc key) as [Hx Hy]. rewrite Hx, Hy. cbn [rbind].
  eexists. split; [reflexivity|]. unfold signature_valid; cbn [fst snd].
  assert (Hm : in_field (accumulatorMessage (circom lib) p)) by apply (ck_poseidon _ Hc).
  destruct (sign_reads _ Hc key _ Hm) as (r8x & r8y & t & H1 & H2 & H3).
  rewrite H1, H2, H3. cbn [rbind]. rewrite !toString_ok. cbn [rbind]. f_equal.
  exact (sign_verifies _ Hc key _ _ _ _ _ _ Hm H1 H2 H3 Hx Hy).
Qed.

(** The reply of a handler that the client folds in: the 200 body, or the body of its 502
    exception. [Api] shows that the exception filter keeps the latter from the client. *)
Definition answer_of (out : outcome) : option RequestResponse :=
  match out with
  | Served r => Some {| rr_refund := refund r; rr_accumulator := accumulator r |}
  | Failed f => Some {| rr_refund := f_refund f; rr_accumulator := f_accumulator f |}
  | Rejected _ => None
  end.

Context (apiKey : bool) {W : Type} (handle : forall X, gw X -> W -> W * X).

(** A request answered for the first time refunds a number and signs for it. *)
Lemma first_answer req w w' out log resp :
  run_log handle (handleRequest sha256 (poseidon (circom lib)) gens apiKey req) w = (w', out, log) ->
  answer_of out = Some resp ->
  (forall nul sg r, Ev (RecallResponse nul sg) (Some r) ∉ log) ->
  (forall cMax, Ev GetCMax (Ok cMax) ∈ log -> 0 <= cMax) ->
  exists pub v, canonical_point (req_accumulator req) = Ok pub /\ 0 <= v
    /\ rr_refund resp = toString v /\ signed_next gens pub v (rr_accumulator resp) log.
Proof.
  intros H Hans Hno Hpos. destruct (handleRequest_log _ _ _ _ _ _ _ _ _ _ H)
    as [(nul & cMax & worst & sg & pub & prov & rest & _ & Hpub & Hl & _ & _ & Ho)|[_ Ho]].
  2: { destruct out; [destruct Ho as (? & ? & Ho); by apply Hno in Ho..|done]. }
  assert (Hc0 : 0 <= cMax).
  { apply Hpos. rewrite Hl. apply elem_of_app. left. right. left. }
  assert (Hin : forall e, e ∈ rest -> e ∈ log).
  { intros e He. rewrite Hl. apply elem_of_app. right. by right. }
  exists pub. destruct out as [r|f|e]; cbn [answer_of] in Hans; [| |done]; injection Hans as <-.
  - destruct Ho as (_ & usd & actual & _ & _ & Hv & Hx & Hy & Hsig).
    eexists. split; [exact Hpub|]. split; [|split; [exact Hv|]; repeat split; auto].
    destruct (Z.ltb_spec actual cMax); lia.
  - destruct Ho as (_ & Hv & Hx & Hy & Hsig). exists cMax. repeat split; auto.
Qed.

(** C12: liveness of the refund cycle, across client and server. When a note that
    satisfies the invariant, with a balance and an index in the field, proves a new request, the server's handler answers it
    (200, or the body of its 502 when the provider failed, given to [receive] as the
    handler gives it) for the first time, and the service that signed is the one whose key
    the contract publishes, then [receive] accepts the answer: the note moves to the opening with the refund added and
    the index one higher, signed again, and nothing stays pending. *)
Theorem answered_request_is_folded n o chain b1 b2 payload model body n1 w w' out log resp key chain' :
  circuit_publishes -> note_ok gens lib n o -> refunds o < FIELD_MODULUS -> index o < FIELD_MODULUS ->
  b2 <> [] -> pending n = None ->
  proveRequest sha256 lib n chain b1 b2 payload model = Ok (body, n1) ->
  run_log handle (handleRequest sha256 (poseidon (circom lib)) gens apiKey body) w = (w', out, log) ->
  answer_of out = Some resp ->
  (forall nul sg r, Ev (RecallResponse nul sg) (Some r) ∉ log) ->
  (forall cMax, Ev GetCMax (Ok cMax) ∈ log -> 0 <= cMax) ->
  (forall p sg, Ev (SignAccumulator p) (Ok sg) ∈ log ->
     sg = sign (circom lib) {| privateKey := key; publicKey := public_text (circom lib) key |}
            (accumulatorMessage (circom lib) p)) ->
  serverPublicKey chain' = Ok (public_text (circom lib) key) ->
  exists n2 s v, receive gens lib n1 chain' resp = Ok n2
    /\ note_ok gens lib n2 (next_opening o s v) /\ pending n2 = None
    /\ 0 <= v /\ rr_refund resp = toString v.
Proof.
  intros Hpub H HR HI Hne Hp Hr Hrun Hans Hno Hpos Hsign Hkey.
  destruct (proveRequest_publishes n o chain b1 b2 payload model body n1 Hpub H HR HI Hne Hp Hr)
    as (s & p & Hsr & H1 & Hp1 & Hre & Hcp).
  destruct (first_answer body w w' out log resp Hrun Hans Hno Hpos) as (pub & v & Hcp' & Hv0 & Hv & Hx & Hy & Hsg).
  assert (Epub : pub = rerandomize gens (commit gens o) s) by congruence. rewrite Epub in Hx, Hy, Hsg.
  rewrite (next_accumulator gens Hg Hs o s v (proj1 (ok_opening _ _ n o H)) (proj1 Hsr) Hv0) in Hx, Hy, Hsg.
  destruct (signer_valid key chain' (commit gens (next_opening o s v)) Hkey) as (k & Hk & Hvalid).
  rewrite <- (Hsign _ _ Hsg) in Hvalid.
  assert (Hbv : BigInt (rr_refund resp) = Ok v) by (rewrite Hv; apply toString_ok).
  destruct (receive_cases gens lib Hc Hg Hs Hhex n1 o p chain' resp s v H1 Hp1 Hre (proj1 Hsr) Hbv Hv0) as [Hsound Hcomplete].
  destruct (Hcomplete k) as [n2 Hn2]; [rewrite Hx; apply toString_ok|rewrite Hy; apply toString_ok|exact Hk|exact Hvalid|].
  exists n2, s, v. split; [exact Hn2|].
  destruct (Hsound n2 Hn2) as (key' & r8x & r8y & t & _ & Hsig & E1 & E2 & E3 & ->).
  destruct (next_opening_ok o s v (proj1 (ok_opening _ _ n o H)) (proj1 Hsr) Hv0) as [Ho' Hb'].
  split; [|by split; [|split]].
  apply (received_ok gens lib n1 o); [exact H1|exact Ho'|exact Hb'|reflexivity|].
  by rewrite (signature_canonical lib _ _ _ _ _ _ E1 E2 E3).
Qed.
End Protocol.

(** ** A concrete note, server and chain *)

Definition flat_generators : Generators :=
  {| gen_G := IDENTITY; gen_J := IDENTITY; gen_K := IDENTITY; gen_H := IDENTITY |}.

Lemma flat_generators_ok : generators_ok flat_generators.
Proof. repeat split; first [exact identity_on|apply IDENTITY_reduced]. Qed.

(** A prover that publishes the accumulator its inputs open, re-randomised. *)
Definition toy_prover (i : RequestInputs) : result (Groth16Proof * list string) :=
  let* k := BigInt (ri_secretKey i) in
  let* r := BigInt (ai_refunds (ri_accumulator i)) in
  let* m := BigInt (ai_index (ri_accumulator i)) in
  let* b := BigInt (ai_blinding (ri_accumulator i)) in
  let* s := BigInt (ri_rerandomizer i) in
  let o := {| refunds := r; index := m; commitment := poseidon toy_circomlib [k]; blinding := b |} in
  let A := rerandomize flat_generators (commit flat_generators o) s in
  Ok ({| g_a := ["11"; "12"; "1"]; g_b := [["21"; "22"]; ["23"; "24"]; ["1"; "0"]]; g_c := ["31"; "32"; "1"] |}%string,
      ["5"%string; "6"%string; toString A.1; toString A.2]).

Definition toy_libraries : Libraries :=
  {| circom := toy_circomlib; proveRequestCircuit := toy_prover;
     proveSettlementCircuit := fun _ => Throw (Error "unused");
     soliditySplit := fun _ _ => Throw (Error "unused");
     toBeHex32 := fun z => Ok (hex64 z); getAddress := fun a => Ok a |}.

Lemma toy_hex z : in_field z -> exists t, toBeHex32 toy_libraries z = Ok t /\ BigInt t = Ok z.
Proof. intros [Hz _]. exists (hex64 z). split; [reflexivity|]. by apply BigInt_hex64. Qed.

Lemma toy_publishes : circuit_publishes flat_generators toy_libraries.
Proof.
  intros inputs proof signals k o s H _ _ _ _ _ Hk Hcm Hr Hi Hb Hre.
  unfold toy_libraries, proveRequestCircuit, toy_prover in H. rewrite Hk, Hr, Hi, Hb, Hre in H.
  rewrite !toString_ok in H. cbn [rbind] in H.
  change (poseidon toy_circomlib [k]) with (poseidon (circom toy_libraries) [k]) in H. rewrite <- Hcm in H.
  destruct o. injection H as _ <-. by split.
Qed.

Definition toy_signing_key : list byte := be_bytes 32 9.

Definition toy_chain : Contract :=
  {| getNote := fun _ => Ok (100, 0, 0, 1); getMerkleProof := fun _ => Ok ([], []);
     merkleRoot := Ok "0x3"%string; C_MAX := Ok 50;
     serverPublicKey := Ok (public_text toy_circomlib toy_signing_key);
     withdrawalSignalX := fun _ => Ok 8 |}.

Definition toy_digest (_ : list byte) : list byte := be_bytes 32 7.

Definition toy_server (X : Type) (op : gw X) (w : unit) : unit * X :=
  (w, match op in gw X return X with
      | CheckRateLimit _ => true
      | GetCMax => Ok 50
      | UsdToWei _ => Ok 20
      | VerifyProof _ _ => Ok true
      | CheckAndSet _ _ => None
      | SlashRevealed _ _ => tt
      | RecallResponse _ _ => None
      | RememberResponse _ _ _ => tt
      | CreateMessage _ _ _ => Throw (Error "unavailable")
      | Random => num 0
      | SignAccumulator p =>
          Ok (sign toy_circomlib {| privateKey := toy_signing_key; publicKey := public_text toy_circomlib toy_signing_key |}
                (accumulatorMessage toy_circomlib p))
      end).

Definition toy_note : result NoteFile := newNote "rpc" "0xc" (be_bytes 48 77).

(** A note that asked once, was refunded 30, and asked again. *)
Definition toy_first : result (RequestBody * NoteFile) :=
  let* n := toy_note in
  proveRequest toy_digest toy_libraries n toy_chain (be_bytes 48 5) (be_bytes 48 6) (code_units "hi") None.

Definition toy_run (body : RequestBody) : unit * outcome * list (event gw) :=
  run_log toy_server (handleRequest toy_digest (poseidon toy_circomlib) flat_generators false body) tt.

Example toy_first_answer : exists body n1 resp n2, toy_first = Ok (body, n1)
  /\ answer_of (toy_run body).1.2 = Some resp
  /\ receive flat_generators toy_libraries n1 toy_chain resp = Ok n2
  /\ t_refunds (opening n2) = "30"%string.
Proof.
  destruct toy_first as [[body n1]|] eqn:E; [|vm_compute in E; done].
  vm_compute in E. injection E as <- <-. do 4 eexists. split; [reflexivity|].
  split; [vm_compute; reflexivity|]. split; vm_compute; reflexivity.
Qed.

Lemma toy_answers {A} (p : prog gw A) w w' a log : run_log toy_server p w = (w', a, log) ->
  Forall (fun e => match e with Ev op x => x = (toy_server _ op tt).2 end) log.
Proof.
  revert w log; induction p as [b|X op k IH]; intros w log; cbn [run_log].
  - intros [= _ _ <-]. constructor.
  - destruct (toy_server X op w) as [w1 x] eqn:E.
    destruct (run_log toy_server (k x) w1) as [[w2 b] l] eqn:El. intros H. injection H as -> -> <-.
    constructor; [|exact (IH x w1 l El)]. unfold toy_server in *. cbn [snd]. congruence.
Qed.

Lemma newNote_idle rpc address bytes n : newNote rpc address bytes = Ok n -> pending n = None.
Proof. intros H. apply rbind_ok in H as (k & _ & H). by injection H as <-. Qed.

Lemma be_bytes_ne n z : be_bytes (S n) z <> [].
Proof. done. Qed.

Lemma note_stays_certified_witness :
  exists n0 n1 n2 body resp, toy_note = Ok n0 /\ toy_first = Ok (body, n1)
    /\ receive flat_generators toy_libraries n1 toy_chain resp = Ok n2
    /\ exists o, note_ok flat_generators toy_libraries n2 o /\ refunds o = 30.
Proof.
  destruct toy_note as [n0|] eqn:E0; [|vm_compute in E0; discriminate].
  destruct toy_first as [[body n1]|] eqn:E1; [|vm_compute in E1; discriminate].
  assert (Hans : exists resp, answer_of (toy_run body).1.2 = Some resp
            /\ exists n2, receive flat_generators toy_libraries n1 toy_chain resp = Ok n2
                /\ BigInt (rr_refund resp) = Ok 30).
  { vm_compute in E1. injection E1 as <- <-. eexists. split; [vm_compute; reflexivity|].
    eexists. split; vm_compute; reflexivity. }
  destruct Hans as (resp & _ & n2 & Hn2 & Hv).
  exists n0, n1, n2, body, resp. do 2 (split; [reflexivity|]). split; [exact Hn2|].
  assert (Hl : life toy_digest flat_generators toy_libraries n0 [30] n2).
  { apply (life_receive _ _ _ n0 [] n1 toy_chain resp 30); [|exact Hv|discriminate|exact Hn2].
    apply (life_request _ _ _ n0 [] n0 toy_chain (be_bytes 48 5) (be_bytes 48 6) (code_units "hi") None body);
      [constructor|apply be_bytes_ne|]. unfold toy_first in E1. rewrite E0 in E1. exact E1. }
  destruct (note_stays_certified toy_digest flat_generators toy_libraries toy_circomlib_ok flat_generators_ok
              identity_inSubgroup toy_hex "rpc" "0xc" (be_bytes 48 77) n0 [30] n2 (be_bytes_ne _ _) E0 Hl)
    as (o & Ho & Hr & _).
  exists o. split; [exact Ho|exact Hr].
Defined.

Lemma wire_proof_roundtrip_witness :
  exists n0 n1 body d, toy_note = Ok n0 /\ toy_first = Ok (body, n1)
    /\ JSON_parse (req_proof body) = Ok d /\ well_formed d = Ok true.
Proof.
  destruct toy_note as [n0|] eqn:E0; [|vm_compute in E0; discriminate].
  destruct toy_first as [[body n1]|] eqn:E1; [|vm_compute in E1; discriminate].
  exists n0, n1, body. pose proof E1 as E2. unfold toy_first in E2. rewrite E0 in E2.
  destruct (wire_proof_roundtrip toy_digest toy_libraries n0 _ _ _ _ _ _ _ (newNote_idle _ _ _ _ E0) E2)
    as (_ & _ & _ & d & _ & _ & _ & _ & _ & H1 & H2 & _).
  exists d. by repeat split.
Defined.

Lemma answered_request_is_folded_witness :
  exists n0 n1 n2 body resp, toy_note = Ok n0 /\ toy_first = Ok (body, n1)
    /\ answer_of (toy_run body).1.2 = Some resp
    /\ receive flat_generators toy_libraries n1 toy_chain resp = Ok n2 /\ pending n2 = None.
Proof.
  destruct toy_note as [n0|] eqn:E0; [|vm_compute in E0; discriminate].
  destruct toy_first as [[body n1]|] eqn:E1; [|vm_compute in E1; discriminate].
  assert (Hans : exists resp, answer_of (toy_run body).1.2 = Some resp).
  { vm_compute in E1. injection E1 as <- <-. eexists. vm_compute; reflexivity. }
  destruct Hans as [resp Hans]. destruct (toy_run body) as [[w' out] log] eqn:Er.
  pose proof (toy_answers _ _ _ _ _ Er) as Hlog. rewrite Forall_forall in Hlog.
  pose proof E1 as E2. unfold toy_first in E2. rewrite E0 in E2.
  destruct (newNote_ok flat_generators toy_libraries toy_circomlib_ok _ _ _ _ (be_bytes_ne 47 77) E0) as (o & Ho & HR & HI).
  assert (Hsmall : refunds o < FIELD_MODULUS /\ index o < FIELD_MODULUS) by (rewrite HR, HI; split; exact eq_refl).
  destruct (answered_request_is_folded toy_digest flat_generators toy_libraries toy_circomlib_ok flat_generators_ok
              identity_inSubgroup toy_hex false toy_server n0 o _ _ _ _ _ _ _ _ _ _ _ resp toy_signing_key toy_chain
              toy_publishes Ho (proj1 Hsmall) (proj2 Hsmall) (be_bytes_ne 47 6) (newNote_idle _ _ _ _ E0) E2 Er Hans)
    as (n2 & s & v & Hn2 & _ & Hp & _).
  - intros nul sg r Hin. by apply Hlog in Hin.
  - intros cMax Hin. apply Hlog in Hin. by injection Hin as ->.
  - intros p sg Hin. apply Hlog in Hin.
    exact (f_equal (fun r => match r with Ok a => a | Throw _ => sg end) Hin).
  - reflexivity.
  - exists n0, n1, n2, body, resp. do 2 (split; [reflexivity|]). split; [by rewrite Er|]. by split.
Defined.
