(* ===== verification/ClientCommands.v ===== *)
(** * The commands of the client

    [scripts/client/prove.ts]: the note files of a user as a store, and the five commands as
    functions on it. The JSON written to a note file is read back as the note it was, a
    write is done or not done, and an argument is a text of one-byte characters. *)

From Stdlib Require Import String.
From S2P Require Import Prelude Field JsText FieldElement HexText Accumulator Slashing Gateway RefundSigner NoteClient NoteProtocol.
Open Scope Z_scope.

(** The note files the commands wrote, by path. *)
Abbreviation store := (gmap string NoteFile).

(** What is outside: the contract of an RPC, the random bytes, whether a path can be
    written and, for the files that no command wrote, whether they exist and what
    their JSON reads as. *)
Record Outside : Type := {
  chain_of : string -> string -> Contract;
  randomBytes1 : list byte;
  randomBytes2 : list byte;
  writable : string -> result unit;
  exists_other : string -> bool;
  other_note : string -> result NoteFile;
  read_reply : string -> result RequestResponse;
  read_signals : string -> result ((string * string) * (string * string));
}.

Inductive printed : Type :=
| Commitment (c : string)
| Body (b : RequestBody)
| NoteOpening (o : OpeningText)
| Withdrawal (w : WithdrawalArgs)
| SecretKey (k : string)
| OtherValue (text : string).

(** [process.exit(1)] of [usage], the message of an exception with exit 1, or the value
    printed with exit 0. *)
Inductive verdict : Type := Usage | Failed (e : exn) | Printed (v : printed).

Definition of_result (r : result printed) : verdict :=
  match r with Ok v => Printed v | Throw e => Failed e end.

Section Commands.
Context (sha256 : list byte -> list byte) (gens : Generators) (lib : Libraries).
(** A name the record of commands inherits from [Object.prototype], and what it answers. *)
Context (inherited : string -> list string -> option (result string)).

Definition readNote (out : Outside) (s : store) (path : string) : result NoteFile :=
  match s !! path with Some n => Ok n | None => other_note out path end.

Definition existsSync (out : Outside) (s : store) (path : string) : bool :=
  match s !! path with Some _ => true | None => exists_other out path end.

(** [writeNote] and what the command does after it. *)
Definition writeNote (out : Outside) (s : store) (path : string) (n : NoteFile) (v : result printed) : verdict * store :=
  match writable out path with
  | Throw e => (Failed e, s)
  | Ok _ => (of_result v, <[path := n]> s)
  end.

Definition chain_for (out : Outside) (n : NoteFile) : Contract := chain_of out (rpcUrl n) (contract n).

Definition note_command (out : Outside) (s : store) (args : list string) : verdict * store :=
  match args with
  | path :: rpc :: address :: _ =>
      if str_len address =? 0 then (Usage, s)
      else if existsSync out s path then (Failed (Error "already exists"), s)
      else match newNote rpc address (randomBytes1 out) with
           | Throw e => (Failed e, s)
           | Ok n => writeNote out s path n (rmap Commitment (commitmentOf lib n))
           end
  | _ => (Usage, s)
  end.

Definition request_command (out : Outside) (s : store) (args : list string) : verdict * store :=
  match args with
  | path :: payload :: rest =>
      match (let* n := readNote out s path in
             proveRequest sha256 lib n (chain_for out n) (randomBytes1 out) (randomBytes2 out)
               (code_units payload) (head rest)) with
      | Throw e => (Failed e, s)
      | Ok (body, n) => writeNote out s path n (Ok (Body body))
      end
  | _ => (Usage, s)
  end.

Definition receive_command (out : Outside) (s : store) (args : list string) : verdict * store :=
  match args with
  | path :: responsePath :: _ =>
      if str_len responsePath =? 0 then (Usage, s)
      else match (let* n := readNote out s path in
                  let* response := read_reply out responsePath in
                  receive gens lib n (chain_for out n) response) with
           | Throw e => (Failed e, s)
           | Ok n => writeNote out s path n (Ok (NoteOpening (opening n)))
           end
  | _ => (Usage, s)
  end.

Definition withdrawal_command (out : Outside) (s : store) (args : list string) : verdict :=
  match args with
  | path :: recipient :: rest =>
      if str_len recipient =? 0 then Usage
      else of_result
        (let* n := readNote out s path in
         let* claimed := match head rest with None => Ok None | Some t => rmap Some (BigInt t) end in
         rmap Withdrawal (proveWithdrawal lib n (chain_for out n) recipient claimed))
  | _ => Usage
  end.

Definition slashing_file_command (out : Outside) (args : list string) : verdict :=
  match args with
  | path :: _ =>
      if str_len path =? 0 then Usage
      else of_result (let* signals := read_signals out path in
                      rmap SecretKey (slashing_command lib signals.1 signals.2))
  | [] => Usage
  end.

(** [main] on [process.argv.slice(2)]. *)
Definition prove (out : Outside) (s : store) (argv : list string) : verdict * store :=
  match argv with
  | [] => (Usage, s)
  | kind :: args =>
      if bool_decide (kind = "note"%string) then note_command out s args
      else if bool_decide (kind = "request"%string) then request_command out s args
      else if bool_decide (kind = "receive"%string) then receive_command out s args
      else if bool_decide (kind = "withdrawal"%string) then (withdrawal_command out s args, s)
      else if bool_decide (kind = "slashing"%string) then (slashing_file_command out args, s)
      else match inherited kind args with
           | Some r => (of_result (rmap OtherValue r), s)
           | None => (Usage, s)
           end
  end.

(** ** What one command does to the files *)

(** The four ways a command changes the store. *)
Inductive effect (out : Outside) (s : store) : list string -> verdict -> store -> Prop :=
| no_effect argv v : effect out s argv v s
| note_effect path rest n v : s !! path = None -> newNote (nth 0 rest EmptyString) (nth 1 rest EmptyString) (randomBytes1 out) = Ok n ->
    effect out s ("note"%string :: path :: rest) v (<[path := n]> s)
| request_effect path payload rest n body n' : readNote out s path = Ok n ->
    proveRequest sha256 lib n (chain_for out n) (randomBytes1 out) (randomBytes2 out) (code_units payload) (head rest)
      = Ok (body, n') ->
    effect out s ("request"%string :: path :: payload :: rest) (Printed (Body body)) (<[path := n']> s)
| receive_effect path file rest n response n' : readNote out s path = Ok n -> read_reply out file = Ok response ->
    receive gens lib n (chain_for out n) response = Ok n' ->
    effect out s ("receive"%string :: path :: file :: rest) (Printed (NoteOpening (opening n'))) (<[path := n']> s).

Lemma writeNote_cases out s path n v : 
  writeNote out s path n v = (of_result v, <[path := n]> s) \/ exists e, writeNote out s path n v = (Failed e, s).
Proof. unfold writeNote. destruct (writable out path); [by left|right; by eexists]. Qed.

Lemma prove_effect out s argv : effect out s argv (prove out s argv).1 (prove out s argv).2.
Proof.
  destruct argv as [|kind args]; [apply no_effect|]. unfold prove.
  case_bool_decide; [subst kind|case_bool_decide; [subst kind|case_bool_decide; [subst kind|]]].
  - unfold note_command. destruct args as [|path [|rpc [|address rest]]]; try apply no_effect.
    destruct (str_len address =? 0); [apply no_effect|]. unfold existsSync.
    destruct (s !! path) eqn:Hp; [apply no_effect|]. destruct (exists_other out path); [apply no_effect|].
    destruct (newNote rpc address (randomBytes1 out)) eqn:Hn; [|apply no_effect].
    match goal with |- context [writeNote ?o ?s ?p ?n ?v] => destruct (writeNote_cases o s p n v) as [->|[e ->]] end; [|apply no_effect].
    by apply note_effect.
  - unfold request_command. destruct args as [|path [|payload rest]]; try apply no_effect.
    destruct (readNote out s path) as [n|] eqn:Hn; [|apply no_effect]. cbn [rbind].
    destruct (proveRequest _ _ _ _ _ _ _ _) as [[body n']|] eqn:Hr; [|apply no_effect].
    match goal with |- context [writeNote ?o ?s ?p ?n ?v] => destruct (writeNote_cases o s p n v) as [->|[e ->]] end; [|apply no_effect].
    by apply (request_effect out s path payload rest n).
  - unfold receive_command. destruct args as [|path [|file rest]]; try apply no_effect.
    destruct (str_len file =? 0); [apply no_effect|].
    destruct (readNote out s path) as [n|] eqn:Hn; [|apply no_effect]. cbn [rbind].
    destruct (read_reply out file) as [r|] eqn:Hf; [|apply no_effect]. cbn [rbind].
    destruct (receive _ _ _ _ _) as [n'|] eqn:Hr; [|apply no_effect].
    match goal with |- context [writeNote ?o ?s ?p ?n ?v] => destruct (writeNote_cases o s p n v) as [->|[e ->]] end; [|apply no_effect].
    by apply (receive_effect out s path file rest n r).
  - repeat case_bool_decide; try apply no_effect. destruct (inherited kind args); apply no_effect.
Qed.

Lemma readNote_stored out s path n n' : s !! path = Some n -> readNote out s path = Ok n' -> n' = n.
Proof. intros Hs H. unfold readNote in H. rewrite Hs in H. congruence. Qed.

(** A command that is not a [receive] of the path keeps its pending request, and prints
    it when it is a [request] of the path. *)
Theorem pending_request_is_kept out s argv path n p : s !! path = Some n -> pending n = Some p ->
  take 2 argv <> ["receive"; path]%string ->
  exists n', (prove out s argv).2 !! path = Some n' /\ pending n' = Some p
    /\ forall payload rest, argv = "request"%string :: path :: payload :: rest ->
         (exists e, writable out path = Throw e /\ (prove out s argv).1 = Failed e)
         \/ (prove out s argv).1 = Printed (Body (body p)).
Proof.
  intros Hs Hp Hrec.
  enough (H : exists n', (prove out s argv).2 !! path = Some n' /\ pending n' = Some p).
  { destruct H as (n' & H1 & H2). exists n'. split; [exact H1|]. split; [exact H2|]. intros payload rest ->.
    unfold prove. cbn. unfold request_command, readNote. rewrite Hs. cbn [rbind]. unfold proveRequest. rewrite Hp.
    unfold writeNote. destruct (writable out path) as [|e]; [by right|left; by exists e]. }
  destruct (prove_effect out s argv) as [|q rest m v Hq _|q payload rest m body m' Hm Hr|q file rest m r m' Hm _ Hr].
  - by exists n.
  - destruct (decide (q = path)) as [->|Hne]; [congruence|]. exists n. by rewrite lookup_insert_ne.
  - destruct (decide (q = path)) as [->|Hne]; [|exists n; by rewrite lookup_insert_ne].
    rewrite lookup_insert_eq. exists m'. split; [done|]. apply (readNote_stored _ _ _ _ _ Hs) in Hm as ->.
    unfold proveRequest in Hr. rewrite Hp in Hr. by injection Hr as _ <-.
  - destruct (decide (q = path)) as [->|Hne]; [done|]. exists n. by rewrite lookup_insert_ne.
Qed.

(** A body is printed only once it is on disk as the pending request of the note. *)
Theorem printed_body_is_on_disk out s argv b : (prove out s argv).1 = Printed (Body b) ->
  exists path rest n p, argv = "request"%string :: path :: rest /\ (prove out s argv).2 !! path = Some n
    /\ pending n = Some p /\ body p = b.
Proof.
  pose proof (prove_effect out s argv) as He. intros Hv.
  destruct argv as [|kind args]; [discriminate|]. revert He Hv. unfold prove.
  case_bool_decide; [subst kind|case_bool_decide; [subst kind|case_bool_decide; [subst kind|]]].
  - intros _. unfold note_command. destruct args as [|path [|rpc [|address rest]]]; try discriminate.
    repeat case_match; try discriminate. unfold writeNote. destruct (writable out path); [|discriminate].
    cbn [fst]. destruct (commitmentOf lib _); discriminate.
  - intros _. unfold request_command. destruct args as [|path [|payload rest]]; try discriminate.
    destruct (readNote out s path) as [n|]; [|discriminate]. cbn [rbind].
    destruct (proveRequest _ _ _ _ _ _ _ _) as [[body n']|] eqn:Hr; [|discriminate].
    unfold writeNote. destruct (writable out path); [|discriminate]. cbn [fst snd of_result]. intros [= <-].
    exists path, (payload :: rest), n'. rewrite lookup_insert_eq.
    apply proveRequest_cases in Hr as [[-> (p & Hp & Hb)]|(_ & x & ? & ? & ? & ? & _ & _ & _ & _ & _ & _ & _ & _ & ->)].
    + by exists p.
    + by eexists.
  - intros _. unfold receive_command. destruct args as [|path [|file rest]]; try discriminate.
    destruct (str_len file =? 0); [discriminate|]. destruct (let* n := _ in _) as [n|]; [|discriminate].
    unfold writeNote. destruct (writable out path); discriminate.
  - intros _ Hv. exfalso. revert Hv. repeat case_bool_decide; cbn [fst].
    + unfold withdrawal_command. destruct args as [|path [|recipient rest]]; try discriminate.
      destruct (str_len recipient =? 0); [discriminate|]. intros Hv.
      match type of Hv with of_result ?r = _ => destruct r eqn:Hr; [|discriminate] end. cbn in Hv. injection Hv as ->.
      unfold rmap in Hr. by inv_ok.
    + unfold slashing_file_command. destruct args as [|path rest]; [discriminate|].
      destruct (str_len path =? 0); [discriminate|]. intros Hv.
      match type of Hv with of_result ?r = _ => destruct r eqn:Hr; [|discriminate] end. cbn in Hv. injection Hv as ->.
      unfold rmap in Hr. by inv_ok.
    + destruct (inherited kind args) as [[?|]|]; discriminate.
Qed.
End Commands.

(** ** The notes on disk over any use of the commands *)

Section Disk.
Context (sha256 : list byte -> list byte) (gens : Generators) (lib : Libraries).
Context (inherited : string -> list string -> option (result string)).
Context (Hc : circomlib_ok (circom lib)) (Hg : generators_ok gens) (Hs : inSubgroup (gen_H gens) = true).
Context (Hhex : forall z, in_field z -> exists t, toBeHex32 lib z = Ok t /\ BigInt t = Ok z).

Abbreviation ok := (note_ok gens lib).

(** Random bytes are there, no reply has a negative refund, a note file from elsewhere
    is a note. *)
Record outside_ok (out : Outside) : Prop := {
  oo_bytes : randomBytes1 out <> [] /\ randomBytes2 out <> [];
  oo_refunds : forall file r v, read_reply out file = Ok r -> BigInt (rr_refund r) = Ok v -> 0 <= v;
  oo_notes : forall path n, other_note out path = Ok n -> exists o, ok n o;
}.

Definition store_ok (s : store) : Prop := forall path n, s !! path = Some n -> exists o, ok n o.

(** [n'] is the note [n] later: the same key and contract, the opening further on. *)
Definition later (n n' : NoteFile) : Prop :=
  secretKey n' = secretKey n
  /\ forall o, ok n o -> exists o', ok n' o' /\ refunds o <= refunds o' /\ index o <= index o'.

#[local] Instance later_preorder : PreOrder later.
Proof.
  split.
  - intros n. split; [done|]. intros o Ho. exists o. split; [done|lia].
  - intros a b c [H1 H2] [H3 H4]. split; [congruence|]. intros o Ho.
    destruct (H2 o Ho) as (o1 & Ho1 & ? & ?). destruct (H4 o1 Ho1) as (o2 & Ho2 & ? & ?). exists o2. split; [done|lia].
Qed.

Lemma receive_refund n chain r n' : receive gens lib n chain r = Ok n' -> exists v, BigInt (rr_refund r) = Ok v.
Proof.
  unfold receive. destruct (pending n); [|done]. intros H. apply rbind_ok in H as (? & _ & H).
  apply rbind_ok in H as (? & _ & H). apply rbind_ok in H as (? & _ & H). apply rbind_ok in H as (v & Hv & _). by exists v.
Qed.

Lemma readNote_ok out s path n : outside_ok out -> store_ok s -> readNote out s path = Ok n -> exists o, ok n o.
Proof.
  intros Ho Hst H. unfold readNote in H. destruct (s !! path) as [m|] eqn:E; [|by apply (oo_notes out Ho path)].
  injection H as <-. by apply (Hst path).
Qed.

Lemma request_later out s path payload rest n body n' : outside_ok out -> readNote out s path = Ok n ->
  proveRequest sha256 lib n (chain_for out n) (randomBytes1 out) (randomBytes2 out) payload rest = Ok (body, n') ->
  later n n'.
Proof.
  intros Ho _ Hr. split.
  - apply proveRequest_cases in Hr as [[-> _]|(_ & x & ? & ? & ? & ? & _ & _ & _ & _ & _ & _ & _ & _ & ->)]; done.
  - intros o Hn. exists o. split; [|lia].
    by apply (proveRequest_ok sha256 gens lib n o _ _ _ _ _ _ _ (proj2 (oo_bytes out Ho)) Hn Hr).
Qed.

Lemma receive_later out s path file n response n' : outside_ok out -> store_ok s -> readNote out s path = Ok n ->
  read_reply out file = Ok response -> receive gens lib n (chain_for out n) response = Ok n' -> later n n'.
Proof.
  intros Ho Hst Hn Hf Hr. destruct (receive_refund _ _ _ _ Hr) as [v Hv].
  pose proof (oo_refunds out Ho file response v Hf Hv) as Hv0.
  destruct (readNote_ok out s path n Ho Hst Hn) as [o0 Ho0].
  assert (H : forall o, ok n o -> exists o', ok n' o' /\ refunds o <= refunds o' /\ index o <= index o'
                                              /\ secretKey n' = secretKey n).
  { intros o Hno. destruct (receive_ok gens lib Hc Hg Hs Hhex n o _ _ v n' Hno Hv Hv0 Hr) as (o' & Ho' & ? & ? & ?).
    exists o'. split; [exact Ho'|]. split; [lia|split; [lia|assumption]]. }
  split.
  - by destruct (H o0 Ho0) as (? & _ & _ & _ & ?).
  - intros o Hno. destruct (H o Hno) as (o' & ? & ? & ? & _). by exists o'.
Qed.

Lemma prove_keeps_notes out s argv : outside_ok out -> store_ok s ->
  let s' := (prove sha256 gens lib inherited out s argv).2 in
  store_ok s' /\ forall path n, s !! path = Some n -> exists n', s' !! path = Some n' /\ later n n'.
Proof.
  intros Ho Hst s'. unfold s'.
  assert (Hins : forall q m, (exists o, ok m o) ->
            (forall n, s !! q = Some n -> later n m) ->
            store_ok (<[q := m]> s)
            /\ forall path n, s !! path = Some n -> exists n', <[q := m]> s !! path = Some n' /\ later n n').
  { intros q m Hm Hl. split.
    - intros path n Hpath. destruct (decide (q = path)) as [->|Hne].
      + rewrite lookup_insert_eq in Hpath. by injection Hpath as <-.
      + rewrite lookup_insert_ne in Hpath by done. by apply (Hst path).
    - intros path n Hpath. destruct (decide (q = path)) as [->|Hne].
      + exists m. rewrite lookup_insert_eq. split; [done|by apply Hl].
      + exists n. rewrite lookup_insert_ne by done. by split. }
  destruct (prove_effect sha256 gens lib inherited out s argv)
    as [|q rest m v Hq Hn|q payload rest m body m' Hm Hr|q file rest m r m' Hm Hf Hr].
  - split; [exact Hst|]. intros path n Hpath. by exists n.
  - apply Hins; [|intros n Hqn; congruence].
    destruct (newNote_ok gens lib Hc _ _ _ m (proj1 (oo_bytes out Ho)) Hn) as (o & Ho' & _). by exists o.
  - pose proof (request_later out s q _ _ m body m' Ho Hm Hr) as Hl.
    apply Hins; [|intros n Hqn; by apply (readNote_stored out s q n) in Hm as ->].
    destruct (readNote_ok out s q m Ho Hst Hm) as [o Ho']. destruct (proj2 Hl o Ho') as (o' & ? & _). by exists o'.
  - pose proof (receive_later out s q file m r m' Ho Hst Hm Hf Hr) as Hl.
    apply Hins; [|intros n Hqn; by apply (readNote_stored out s q n) in Hm as ->].
    destruct (readNote_ok out s q m Ho Hst Hm) as [o Ho']. destruct (proj2 Hl o Ho') as (o' & ? & _). by exists o'.
Qed.

(** The stores a user can reach from none. *)
Inductive used : store -> store -> Prop :=
| used_none s : used s s
| used_step s out argv s' : outside_ok out -> used s s' -> used s (prove sha256 gens lib inherited out s' argv).2.

(** Over any use of the commands: a note file is never lost or overwritten by another note,
    its secret key stays, and the note in it stays certified, its refunds and its
    index never going back. *)
Theorem notes_on_disk_are_kept s s' : store_ok s -> used s s' ->
  store_ok s' /\ forall path n, s !! path = Some n -> exists n', s' !! path = Some n' /\ later n n'.
Proof.
  intros Hst Hu. revert Hst. induction Hu as [s|s out argv s' Ho _ IH]; intros Hst.
  - split; [exact Hst|]. intros path n Hpath. by exists n.
  - destruct (IH Hst) as [Hst' Hk]. destruct (prove_keeps_notes out s' argv Ho Hst') as [H1 H2]. split; [exact H1|].
    intros path n Hpath. destruct (Hk path n Hpath) as (n1 & Hn1 & Hl1). destruct (H2 path n1 Hn1) as (n2 & Hn2 & Hl2).
    exists n2. split; [exact Hn2|]. by transitivity n1.
Qed.
End Disk.

(** ** A session *)

Definition toy_outside : Outside :=
  {| chain_of := fun _ _ => toy_chain; randomBytes1 := be_bytes 48 77; randomBytes2 := be_bytes 48 6;
     writable := fun _ => Ok tt; exists_other := fun _ => false;
     other_note := fun _ => Throw (Error "ENOENT"); read_reply := fun _ => Throw (Error "ENOENT");
     read_signals := fun _ => Ok (("1", "7"), ("2", "9"))%string |}.

Definition toy_prove (s : store) (argv : list string) : verdict * store :=
  prove toy_digest flat_generators toy_libraries (fun _ _ => None) toy_outside s argv.

Example a_retry_prints_the_same_body : exists b,
  (toy_prove (toy_prove ∅ ["note"; "n.json"; "rpc"; "0xc"]%string).2 ["request"; "n.json"; "hi"]%string).1 = Printed (Body b)
  /\ (toy_prove (toy_prove (toy_prove ∅ ["note"; "n.json"; "rpc"; "0xc"]%string).2 ["request"; "n.json"; "hi"]%string).2
       ["request"; "n.json"; "something else"]%string).1 = Printed (Body b).
Proof. eexists. split; vm_compute; reflexivity. Qed.

Example a_note_is_not_overwritten :
  toy_prove (toy_prove ∅ ["note"; "n.json"; "rpc"; "0xc"]%string).2 ["note"; "n.json"; "rpc"; "0xd"]%string
  = (Failed (Error "already exists"), (toy_prove ∅ ["note"; "n.json"; "rpc"; "0xc"]%string).2).
Proof. vm_compute. reflexivity. Qed.

Example two_signals_give_the_key :
  (toy_prove ∅ ["slashing"; "signals.json"]%string).1 = Printed (SecretKey (hex64 5)).
Proof. vm_compute. reflexivity. Qed.
