(* ===== verification/Wire.v ===== *)
(** * Bodies over the wire

    The JSON of a request as [scripts/client/note.ts] sends it and as the validation pipe of
    [src/main.ts] reads it into the DTO of [dto/api-request.dto.ts]; the JSON of an answer,
    of [dto/api-response.dto.ts] or of [filters/tee-exception.filter.ts], and what the
    client reads of it. Whitelisting, nested validation and the optional rule are those
    class-validator documents. *)

From Stdlib Require Import Ascii String.
From S2P Require Import Prelude JsText JsNumber FieldElement ClaudePricing Json JsonText Quantization Gateway NoteClient.
Open Scope Z_scope.

(** ** Texts in JSON *)

Definition text_json (s : string) : json := JStr (code_units s).

Definition narrow_unit (u : Z) : option ascii :=
  if (0 <=? u) && (u <? 256) then Some (ascii_of_N (Z.to_N u)) else None.

(** A text of one-byte characters, as every field element and every name is. *)
Definition text_of_units (l : list Z) : option string := of_chars <$> mapM narrow_unit l.

Lemma text_of_code_units s : text_of_units (code_units s) = Some s.
Proof.
  unfold text_of_units, code_units.
  enough (H : mapM narrow_unit (map code (chars s)) = Some (chars s)) by (rewrite H; cbn; by rewrite of_chars_chars).
  generalize (chars s) as l. intros l. apply mapM_Some_2. induction l as [|c l IH]; cbn [map]; [constructor|].
  constructor; [|exact IH]. unfold narrow_unit. pose proof (code_range c).
  destruct (Z.leb_spec 0 (code c)), (Z.ltb_spec (code c) 256); [|lia..]. cbn [andb]. f_equal.
  unfold code. by rewrite N2Z.id, ascii_N_embedding.
Qed.

(** ** The request *)

(** [JSON.stringify(body)]: a model that is undefined is left out. *)
Definition request_json (b : LongjingRequestDto) : json :=
  JObj ([(code_units "payload", JStr (req_payload b));
         (code_units "nonce", text_json (req_nonce b));
         (code_units "nullifier", text_json (req_nullifier b));
         (code_units "signal", JObj [(code_units "x", text_json (signal_x (req_signal b)));
                                     (code_units "y", text_json (signal_y (req_signal b)))]);
         (code_units "proof", JStr (req_proof b));
         (code_units "merkleRoot", text_json (req_merkleRoot b));
         (code_units "accumulator", JObj [(code_units "x", text_json (acc_x (req_accumulator b)));
                                          (code_units "y", text_json (acc_y (req_accumulator b)))])]
        ++ match req_model b with Some m => [(code_units "model", text_json m)] | None => [] end).

(** [forbidNonWhitelisted]: no other property. *)
Definition only (names : list string) (fields : list (list Z * json)) : bool :=
  forallb (fun kv => bool_decide (kv.1 ∈ map code_units names)) fields.

Definition text_field (k : string) (fields : list (list Z * json)) : option string :=
  match field k fields with Some (JStr s) => text_of_units s | _ => None end.

Definition units_field (k : string) (fields : list (list Z * json)) : option (list Z) :=
  match field k fields with Some (JStr s) => Some s | _ => None end.

Definition pair_field (k : string) (fields : list (list Z * json)) : option (string * string) :=
  match field k fields with
  | Some (JObj fields) =>
      if only ["x"; "y"]%string fields then
        x ← text_field "x" fields; y ← text_field "y" fields; Some (x, y)
      else None
  | _ => None
  end.

(** [@IsOptional()]: undefined and null pass. *)
Definition optional_field (k : string) (fields : list (list Z * json)) : option (option string) :=
  match field k fields with
  | None | Some JNull => Some None
  | Some (JStr s) => Some <$> text_of_units s
  | Some _ => None
  end.

Definition LongjingRequestDto_of (body : jsv) : option LongjingRequestDto :=
  match body with
  | Some (JObj fields) =>
      if only ["payload"; "nonce"; "nullifier"; "signal"; "proof"; "merkleRoot"; "accumulator"; "model"]%string fields then
        payload ← units_field "payload" fields;
        nonce ← text_field "nonce" fields;
        nullifier ← text_field "nullifier" fields;
        '(sx, sy) ← pair_field "signal" fields;
        proof ← units_field "proof" fields;
        root ← text_field "merkleRoot" fields;
        '(ax, ay) ← pair_field "accumulator" fields;
        model ← optional_field "model" fields;
        Some {| req_payload := payload; req_nonce := nonce; req_nullifier := nullifier;
                req_signal := {| signal_x := sx; signal_y := sy |}; req_proof := proof; req_merkleRoot := root;
                req_accumulator := {| acc_x := ax; acc_y := ay |}; req_model := model |}
      else None
  | _ => None
  end.

(** The message of the exception the pipe throws, its list of errors left out. *)
Definition invalid_body : exn := BadRequestException "Bad Request Exception".

Definition validate_request (text_length : list Z -> Z) (body : jsv) : result LongjingRequestDto :=
  match LongjingRequestDto_of body with
  | Some dto => if LongjingRequestDto_valid text_length CLAUDE_MODELS dto then Ok dto else Throw invalid_body
  | None => Throw invalid_body
  end.

(** ** The answer *)

Definition signature_json (s : AccumulatorSignatureDto) : json :=
  JObj [(code_units "R8x", text_json (R8x s)); (code_units "R8y", text_json (R8y s)); (code_units "S", text_json (S_ s))].

Definition accumulator_json (a : SignedAccumulatorDto) : json :=
  JObj [(code_units "x", text_json (sa_x a)); (code_units "y", text_json (sa_y a));
        (code_units "signature", signature_json (sa_signature a))].

Definition unit_class_text (c : UnitClass) : string :=
  match c with UNIT_TINY => "tiny" | UNIT_SMALL => "small" | UNIT_MEDIUM => "medium" | UNIT_LARGE => "large"
  | UNIT_XLARGE => "xlarge" end.

Definition cost_class_text (c : CostClass) : string :=
  match c with COST_MICRO => "micro" | COST_SMALL => "small" | COST_MEDIUM => "medium" | COST_LARGE => "large"
  | COST_XLARGE => "xlarge" end.

Definition optional_json (k : string) (v : option json) : list (list Z * json) :=
  match v with Some v => [(code_units k, v)] | None => [] end.

(** [toISOString] of a timestamp is left to [date_text]. *)
Definition usage_json (date_text : Z -> list Z) (u : UsageDto) : json :=
  JObj ([(code_units "unitClass", text_json (unit_class_text (unitClass u)));
         (code_units "unitType", text_json (unitType u));
         (code_units "costClass", text_json (cost_class_text (costClass u)))]
        ++ optional_json "provider" (text_json <$> u_provider u)
        ++ optional_json "endpoint" (text_json <$> u_endpoint u)
        ++ optional_json "timestamp" ((fun t => JStr (date_text t)) <$> u_timestamp u)).

Definition response_json (date_text : Z -> list Z) (r : LongjingResponseDto) : json :=
  JObj [(code_units "response", JStr (response r)); (code_units "refund", text_json (refund r));
        (code_units "accumulator", accumulator_json (accumulator r));
        (code_units "usage", usage_json date_text (usage r))].

(** What the exception filter sends. *)
Definition error_json (status : Z) (message : string) : json :=
  JObj [(code_units "statusCode", JNum (num status)); (code_units "message", text_json message)].

(** A property the client hands to [BigInt]: undefined throws. A property that is there but no
    string does not come from this server. *)
Definition bigint_text (k : string) (v : jsv) : result string :=
  let* p := get_prop k v in
  match p with
  | Some (JStr s) => of_option (SyntaxError "Cannot convert to a BigInt") (text_of_units s)
  | _ => Throw (TypeError "Cannot convert to a BigInt")
  end.

(** The properties of the answer [receive] reads; all of them are read before it writes
    anything. *)
Definition read_reply (body : json) : result RequestResponse :=
  let* refund := bigint_text "refund" (Some body) in
  let* acc := get_prop "accumulator" (Some body) in
  let* x := bigint_text "x" acc in
  let* y := bigint_text "y" acc in
  let* sg := get_prop "signature" acc in
  let* r8x := bigint_text "R8x" sg in
  let* r8y := bigint_text "R8y" sg in
  let* s := bigint_text "S" sg in
  Ok {| rr_refund := refund;
        rr_accumulator := {| sa_x := x; sa_y := y; sa_signature := {| R8x := r8x; R8y := r8y; S_ := s |} |} |}.

(** ** Both directions *)

Lemma code_units_eq a b : code_units a = code_units b <-> a = b.
Proof.
  split; [|by intros ->]. intros H. rewrite <- (of_chars_chars a), <- (of_chars_chars b). f_equal.
  revert H. apply list_fmap_eq_inj. intros ? ?. apply code_inj.
Qed.

Lemma field_here k v fields : field k ((code_units k, v) :: fields) = Some v.
Proof. unfold field. cbn [List.find fst]. by rewrite bool_decide_true. Qed.

Lemma field_next k k' v fields : k' <> k -> field k ((code_units k', v) :: fields) = field k fields.
Proof.
  intros Hne. unfold field. cbn [List.find fst]. rewrite bool_decide_false; [done|]. by intros ->%code_units_eq.
Qed.

Lemma field_nil k : field k [] = None.
Proof. done. Qed.

Lemma text_here k s fields : text_field k ((code_units k, text_json s) :: fields) = Some s.
Proof. unfold text_field, text_json. by rewrite field_here, text_of_code_units. Qed.

(** Looks a field up in a list of named fields. *)
Ltac find_field := repeat first [rewrite field_here|rewrite field_next by discriminate|rewrite field_nil].

Lemma pair_there k x y fields : field k fields = Some (JObj [(code_units "x", text_json x); (code_units "y", text_json y)]) ->
  pair_field k fields = Some (x, y).
Proof.
  intros H. unfold pair_field. rewrite H.
  change (only _ _) with true. cbv iota. unfold text_field. find_field. unfold text_json. by rewrite !text_of_code_units.
Qed.

Lemma only_request_fields b : only ["payload"; "nonce"; "nullifier"; "signal"; "proof"; "merkleRoot"; "accumulator"; "model"]%string
  (match request_json b with JObj fields => fields | _ => [] end) = true.
Proof.
  unfold request_json. destruct (req_model b); unfold only; apply forallb_forall; intros kv Hkv;
    apply bool_decide_eq_true; cbn [app] in Hkv;
    repeat (destruct Hkv as [<-|Hkv]; [cbn [fst map]; rewrite !elem_of_cons; tauto|]); destruct Hkv.
Qed.

(** What the client sends is read back as the body it built. *)
Lemma request_json_read b : LongjingRequestDto_of (Some (request_json b)) = Some b.
Proof.
  pose proof (only_request_fields b) as Ho. unfold LongjingRequestDto_of. unfold request_json in *. rewrite Ho. clear Ho.
  destruct b as [payload nonce nullifier [sx sy] proof root [ax ay] model]. cbn [req_payload req_nonce req_nullifier req_signal
    req_proof req_merkleRoot req_accumulator req_model signal_x signal_y acc_x acc_y].
  unfold units_field, text_field.
  assert (Hm : optional_field "model"
    ([(code_units "payload", JStr payload); (code_units "nonce", text_json nonce); (code_units "nullifier", text_json nullifier);
      (code_units "signal", JObj [(code_units "x", text_json sx); (code_units "y", text_json sy)]);
      (code_units "proof", JStr proof); (code_units "merkleRoot", text_json root);
      (code_units "accumulator", JObj [(code_units "x", text_json ax); (code_units "y", text_json ay)])]
     ++ match model with Some m => [(code_units "model", text_json m)] | None => [] end) = Some model).
  { unfold optional_field. cbn [app]. find_field. destruct model as [m|]; find_field; [|done].
    unfold text_json. by rewrite text_of_code_units. }
  rewrite Hm. rewrite (pair_there "signal" sx sy) by (cbn [app]; by find_field).
  rewrite (pair_there "accumulator" ax ay) by (cbn [app]; by find_field).
  cbn [app]. find_field. unfold text_json. by rewrite !text_of_code_units.
Qed.

Lemma code_units_are_units s : Forall is_unit (code_units s).
Proof.
  unfold code_units. apply Forall_forall. intros u (c & -> & _)%list_elem_of_fmap.
  pose proof (code_range c). unfold is_unit. lia.
Qed.

Lemma request_json_printable b : Forall is_unit (req_payload b) -> Forall is_unit (req_proof b) ->
  printable_json (request_json b).
Proof.
  intros Hp Hpr. unfold request_json, text_json.
  destruct (req_model b); cbn [app printable_json map fst]; repeat split;
    first [apply code_units_are_units|assumption|apply (bool_decide_unpack _); vm_compute; reflexivity].
Qed.

(** Any valid body, stringified by the client, parsed and validated by the server, is the body. *)
Theorem request_body_roundtrip text_length b t : Forall is_unit (req_payload b) -> Forall is_unit (req_proof b) ->
  LongjingRequestDto_valid text_length CLAUDE_MODELS b = true -> JSON_stringify (request_json b) = Some t ->
  (let* body := JSON_parse t in validate_request text_length (Some body)) = Ok b.
Proof.
  intros Hp Hpr Hv Ht. rewrite (stringify_parse _ t (request_json_printable b Hp Hpr) Ht). cbn [rbind].
  unfold validate_request. by rewrite request_json_read, Hv.
Qed.

(** A reply that was served is read by the client; the body of an error never is. *)
Lemma response_is_read date_text r : read_reply (response_json date_text r)
  = Ok {| rr_refund := refund r; rr_accumulator := accumulator r |}.
Proof.
  destruct r as [text v [x y [r8x r8y s]] u]. unfold read_reply, response_json, bigint_text, accumulator_json, signature_json.
  cbn [get_prop rbind refund accumulator sa_x sa_y sa_signature R8x R8y S_]. find_field. unfold text_json.
  rewrite text_of_code_units. cbn [of_option rbind get_prop]. find_field. rewrite !text_of_code_units.
  cbn [of_option rbind get_prop]. find_field. rewrite !text_of_code_units. done.
Qed.

Lemma error_is_not_read status message : read_reply (error_json status message) = Throw (TypeError "Cannot convert to a BigInt").
Proof. unfold read_reply, error_json, bigint_text. cbn [get_prop rbind]. by find_field. Qed.
