(* ===== verification/NoteFixture.v ===== *)
(** * The notes the circuits are tested with

    [src/longjing/note.fixture.ts], a server and its notes for the tests of the circuits,
    and [scripts/testing/generate-settlement-fixtures.ts], the exits the tests of the
    contract replay. circomlibjs and snarkjs are those of the client. *)

From Stdlib Require Import String.
From S2P Require Import Prelude Field JsText FieldElement HexText Accumulator Slashing Gateway RefundSigner NoteClient NoteProtocol.
Open Scope Z_scope.

(** ** note.fixture.ts *)

Definition TREE_DEPTH : nat := 20.

Record Signature : Type := { sig_R8x : Z; sig_R8y : Z; sig_S : Z }.

Record Held : Type := { held_opening : Opening; held_signature : option Signature }.

Record FixtureNote : Type := { fx_commitment : Z; fx_leaf : Z; fx_root : Z; fx_genesis : Held }.

Definition SERVER_PRV_KEY : list byte := repeat (byte_of 7) 32.

Section Fixture.
Context (gens : Generators) (lib : Libraries).

Abbreviation hash := (poseidon (circom lib)).

Definition publicKey (prvKey : list byte) : Point := prv2pub (circom lib) prvKey.

Definition sign_accumulator (prvKey : list byte) (accumulator : Point) : Signature :=
  let signature := signPoseidon (circom lib) prvKey (F_e (circom lib) (hash [accumulator.1; accumulator.2])) in
  {| sig_R8x := signature.1.1; sig_R8y := signature.1.2; sig_S := signature.2 |}.

(** The note is the leftmost leaf, every other leaf is empty. *)
Definition tree_root (leaf : Z) : Z := Nat.iter TREE_DEPTH (fun root => hash [root; 0]) leaf.

Definition note (secretKey deposit : Z) : FixtureNote :=
  let commitment := hash [secretKey] in
  let leaf := hash [commitment; deposit] in
  {| fx_commitment := commitment; fx_leaf := leaf; fx_root := tree_root leaf;
     fx_genesis := {| held_opening := {| refunds := 0; index := 0; commitment := commitment; blinding := 0 |};
                      held_signature := None |} |}.

Definition respond (held : Held) (rerandomizer refund : Z) (prvKey : list byte) : Held :=
  let o := held_opening held in
  let next := applyRefund gens (rerandomize gens (commit gens o) rerandomizer) refund in
  {| held_opening := {| refunds := refunds o + refund; index := index o + 1; commitment := commitment o;
                        blinding := Z.rem (blinding o + rerandomizer) SUBGROUP_ORDER |};
     held_signature := Some (sign_accumulator prvKey next) |}.

(** Genesis takes a dummy signature. *)
Definition accumulatorInputs (held : Held) : AccumulatorInputs :=
  let o := held_opening held in
  let s := default {| sig_R8x := 0; sig_R8y := 1; sig_S := 0 |} (held_signature held) in
  {| isGenesis := match held_signature held with Some _ => "0" | None => "1" end;
     ai_refunds := toString (refunds o); ai_index := toString (index o); ai_blinding := toString (blinding o);
     signatureR8x := toString (sig_R8x s); signatureR8y := toString (sig_R8y s); signatureS := toString (sig_S s) |}.

(** ** generate-settlement-fixtures.ts *)

Definition FIXTURE_CONTRACT : Z := 0xcafe.
Definition CHAIN_ID : Z := 31337.
Definition FIXTURE_C_MAX : Z := 10 ^ 15.
Definition DEPOSIT : Z := 10 ^ 16.
Definition RECIPIENT : Z := 0x70997970c51812dc3a010c7d01b50e0d17dc79c8.
Definition RERANDOMIZER : Z := 987654321.

Record Scenario : Type := {
  sc_secretKey : Z;
  sc_held : Held;
  sc_claimedIndex : Z;
  requestSignal : option (Z * Z);
}.

Record SettlementProof : Type := {
  sp_secretKey : string; sp_commitment : string; sp_proof : list string; sp_nullifier : string;
  sp_signalY : string; sp_payout : string; sp_signalX : string; sp_requestSignal : option (string * string);
}.

Definition signalX : Z := hash [hash [RECIPIENT; CHAIN_ID]; FIXTURE_CONTRACT].

Definition settlement_inputs (scenario : Scenario) : WithdrawalInputs :=
  let key := publicKey SERVER_PRV_KEY in
  {| wi_secretKey := toString (sc_secretKey scenario); wi_accumulator := accumulatorInputs (sc_held scenario);
     wi_claimedIndex := toString (sc_claimedIndex scenario);
     wi_commitment := toString (fx_commitment (note (sc_secretKey scenario) DEPOSIT));
     wi_deposit := toString DEPOSIT; wi_maxCost := toString FIXTURE_C_MAX;
     wi_serverPublicKey := (toString key.1, toString key.2);
     wi_recipient := toString RECIPIENT; wi_signalX := toString signalX |}.

Definition prove (scenario : Scenario) : result SettlementProof :=
  let* proved := proveSettlementCircuit lib (settlement_inputs scenario) in
  let '(proof, publicSignals) := proved in
  let* abc := soliditySplit lib proof publicSignals in
  let '(a, b, c) := abc in
  let* words := map_result dec (a ++ concat b ++ c) in
  Ok {| sp_secretKey := toString (sc_secretKey scenario);
        sp_commitment := toString (fx_commitment (note (sc_secretKey scenario) DEPOSIT)); sp_proof := words;
        sp_nullifier := signal_at publicSignals 0; sp_signalY := signal_at publicSignals 1;
        sp_payout := signal_at publicSignals 2; sp_signalX := toString signalX;
        sp_requestSignal := option_map (fun s : Z * Z => (toString s.1, toString s.2)) (requestSignal scenario) |}.

Definition genesisOf (secretKey : Z) : Held := fx_genesis (note secretKey DEPOSIT).

(** Two requests refunded 0.0004 and 0.0006 ether. *)
Definition honest : Scenario :=
  {| sc_secretKey := 111;
     sc_held := respond (respond (genesisOf 111) RERANDOMIZER (4 * 10 ^ 14) SERVER_PRV_KEY) RERANDOMIZER
                  (6 * 10 ^ 14) SERVER_PRV_KEY;
     sc_claimedIndex := 2; requestSignal := None |}.

Definition genesis_exit : Scenario :=
  {| sc_secretKey := 222; sc_held := genesisOf 222; sc_claimedIndex := 0; requestSignal := None |}.

(** Index 1 was used with x = 777. *)
Definition understated : Scenario :=
  {| sc_secretKey := 333; sc_held := respond (genesisOf 333) RERANDOMIZER (5 * 10 ^ 14) SERVER_PRV_KEY;
     sc_claimedIndex := 1;
     requestSignal := Some (777, Z.rem (333 + hash [333; 1] * 777) FIELD_MODULUS) |}.

Record SettlementFixtures : Type := {
  sf_contract : string; sf_chainId : string; sf_cMax : string; sf_deposit : string; sf_recipient : string;
  sf_serverPublicKey : string * string;
  sf_honest : SettlementProof; sf_genesis : SettlementProof; sf_understated : SettlementProof;
}.

Definition address_text (z : Z) : string := "0x" +:+ padStart 40 zero_char (toString16 z).

Definition settlement_fixtures : result SettlementFixtures :=
  let* h := prove honest in
  let* g := prove genesis_exit in
  let* u := prove understated in
  let key := publicKey SERVER_PRV_KEY in
  Ok {| sf_contract := address_text FIXTURE_CONTRACT; sf_chainId := toString CHAIN_ID;
        sf_cMax := toString FIXTURE_C_MAX; sf_deposit := toString DEPOSIT; sf_recipient := address_text RECIPIENT;
        sf_serverPublicKey := (toString key.1, toString key.2);
        sf_honest := h; sf_genesis := g; sf_understated := u |}.

(** ** The fixture is the gateway and the client *)

Context (Hc : circomlib_ok (circom lib)) (Hg : generators_ok gens) (Hs : inSubgroup (gen_H gens) = true).

(** A note as the fixture holds it: what it opens is what the server signed. *)
Record held_ok (held : Held) : Prop := {
  ho_opening : opening_ok (held_opening held) /\ blinding (held_opening held) < SUBGROUP_ORDER;
  ho_signed : match held_signature held with
              | Some s => verifyPoseidon (circom lib)
                            (hash [(commit gens (held_opening held)).1; (commit gens (held_opening held)).2])
                            ((sig_R8x s, sig_R8y s), sig_S s) (publicKey SERVER_PRV_KEY) = true
              | None => refunds (held_opening held) = 0 /\ index (held_opening held) = 0 /\ blinding (held_opening held) = 0
              end;
}.

Lemma genesis_held_ok secretKey deposit : held_ok (fx_genesis (note secretKey deposit)).
Proof.
  pose proof (ck_poseidon _ Hc [secretKey]) as [Hp _]. pose proof SUBGROUP_ORDER_pos as Ho.
  split; cbn [note fx_genesis held_opening held_signature refunds index commitment blinding]; [|done].
  split; [|exact Ho]. unfold opening_ok; cbn [refunds index commitment blinding]. lia.
Qed.

(** The fixture's server moves a note as the gateway and [receive] do together: the opening is
    the next one, and the signature is on what that opens. *)
Theorem respond_is_the_protocol held s v : held_ok held -> 0 <= s -> 0 <= v ->
  let held' := respond held s v SERVER_PRV_KEY in
  held_opening held' = next_opening (held_opening held) s v /\ held_ok held'
  /\ held_signature held' = Some (sign_accumulator SERVER_PRV_KEY (commit gens (held_opening held'))).
Proof.
  intros H Hs0 Hv0 held'. pose proof (ho_opening held H) as [Ho _].
  assert (Hopen : held_opening held' = next_opening (held_opening held) s v) by reflexivity.
  assert (Hsig : held_signature held' = Some (sign_accumulator SERVER_PRV_KEY (commit gens (held_opening held')))).
  { rewrite Hopen, <- (next_accumulator gens Hg Hs (held_opening held) s v Ho Hs0 Hv0). reflexivity. }
  split; [exact Hopen|]. split; [|exact Hsig]. split.
  - rewrite Hopen. by apply next_opening_ok.
  - rewrite Hsig. unfold sign_accumulator; cbn [sig_R8x sig_R8y sig_S].
    pose proof (ck_poseidon _ Hc [(commit gens (held_opening held')).1; (commit gens (held_opening held')).2]) as Hm.
    rewrite (ck_e _ Hc _ Hm), <- !surjective_pairing. by apply (ck_verify _ Hc).
Qed.

(** The texts the circuits are given are those the client gives for the same note. *)
Lemma inputs_are_the_clients held n : NoteClient.opening n = opening_text (held_opening held) ->
  NoteClient.signature n = option_map (fun s => {| R8x := toString (sig_R8x s); R8y := toString (sig_R8y s);
                                        S_ := toString (sig_S s) |}) (held_signature held) ->
  NoteClient.accumulatorInputs n = accumulatorInputs held.
Proof.
  intros Ho Hsg. unfold NoteClient.accumulatorInputs, accumulatorInputs. rewrite Ho, Hsg. by destruct (held_signature held).
Qed.

(** The honest exit is made from a signed accumulator of two refunds adding up to C_MAX, at
    the index it claims; the understated one claims the index whose request signal is
    given, and its exit signal, at any other x of the same line, reveals the key. *)
Theorem fixtures_are_as_described :
  held_ok (sc_held honest) /\ refunds (held_opening (sc_held honest)) = FIXTURE_C_MAX
  /\ index (held_opening (sc_held honest)) = sc_claimedIndex honest
  /\ held_ok (sc_held genesis_exit)
  /\ held_ok (sc_held understated)
  /\ index (held_opening (sc_held understated)) = sc_claimedIndex understated
  /\ forall s x, requestSignal understated = Some s -> mod_p x <> mod_p s.1 ->
       recoverSecretKey s (x, mod_p (333 + hash [333; 1] * x)) = Ok (sc_secretKey understated).
Proof.
  assert (Hr : 0 <= RERANDOMIZER) by (unfold RERANDOMIZER; lia).
  destruct (respond_is_the_protocol _ RERANDOMIZER (4 * 10 ^ 14) (genesis_held_ok 111 DEPOSIT) Hr ltac:(lia)) as (_ & H1 & _).
  destruct (respond_is_the_protocol _ RERANDOMIZER (6 * 10 ^ 14) H1 Hr ltac:(lia)) as (_ & H2 & _).
  destruct (respond_is_the_protocol _ RERANDOMIZER (5 * 10 ^ 14) (genesis_held_ok 333 DEPOSIT) Hr ltac:(lia)) as (_ & H3 & _).
  split; [exact H2|]. split; [reflexivity|]. split; [reflexivity|]. split; [apply genesis_held_ok|].
  split; [exact H3|]. split; [reflexivity|]. intros s x [= <-] Hx. cbn [fst] in Hx.
  assert (Hmod : forall z, mod_p (mod_p z) = mod_p z) by (intros z; apply mod_p_small, mod_p_range).
  pose proof (ck_poseidon _ Hc [333; 1]) as [Hh _]. pose proof FIELD_MODULUS_gt as HF.
  rewrite (recover_line 333 (hash [333; 1]) 777); [|idtac|apply Hmod|congruence].
  - cbn [sc_secretKey understated]. by rewrite mod_p_small by lia.
  - rewrite Z.rem_mod_nonneg by lia. rewrite <- mod_p_spec. apply Hmod.
Qed.
End Fixture.

(** The client's concrete libraries satisfy what the theorems assume. *)
Example concrete_fixtures_hold : held_ok flat_generators toy_libraries (sc_held (honest flat_generators toy_libraries)).
Proof. exact (proj1 (fixtures_are_as_described flat_generators toy_libraries toy_circomlib_ok flat_generators_ok identity_inSubgroup)). Qed.
