(* ===== verification/RequestForm.v ===== *)
(** * The form of a client's request

    What [scripts/client/note.ts] builds against what [dto/api-request.dto.ts] accepts and
    what the gateway checks first: every request [proveRequest] makes for a payload of
    allowed length and a priced model passes the validation pipe, the model check and the
    payload binding. The length rule of class-validator is a parameter that counts at
    most one per code unit. *)

From Stdlib Require Import Ascii String.
From S2P Require Import Prelude Field Accumulator JsText Json JsonText FieldElement ClaudePricing RefundSigner Gateway NoteClient NoteProtocol.
Open Scope Z_scope.

Opaque FIELD_MODULUS SUBGROUP_ORDER.

(** ** Decimal texts are short *)

Lemma dec_digits_length f z acc (n : nat) : 0 <= z < 10 ^ Z.of_nat n ->
  (length (dec_digits f z acc) <= length acc + Nat.max 1 n)%nat.
Proof.
  revert z acc n. induction f as [|f IH]; intros z acc n Hz; [cbn; lia|].
  cbn [dec_digits]. destruct (Z.ltb_spec z 10) as [Hlt|Hge]; [cbn [length]; lia|].
  destruct n as [|n]; [cbn in Hz; lia|].
  rewrite Nat2Z.inj_succ, Z.pow_succ_r in Hz by lia.
  assert (Hn : (1 <= n)%nat).
  { destruct n; [cbn in Hz; lia|lia]. }
  assert (Hd : 0 <= z / 10 < 10 ^ Z.of_nat n).
  { split; [apply Z.div_pos; lia|apply Z.div_lt_upper_bound; lia]. }
  pose proof (IH (z / 10) (ascii_of_N (Z.to_N (48 + z mod 10)) :: acc) n Hd) as H.
  cbn [length] in H |- *. lia.
Qed.

Definition WORD : Z := 2 ^ 256.

Lemma word_digits : WORD <= 10 ^ Z.of_nat 78.
Proof. apply Z.leb_le. vm_compute. reflexivity. Qed.

Lemma field_word z : in_field z -> 0 <= z < WORD.
Proof.
  assert (H : (FIELD_MODULUS <=? WORD) = true) by (vm_compute; reflexivity).
  apply Z.leb_le in H. unfold in_field. lia.
Qed.

Lemma toString_length z : 0 <= z < WORD -> (length (chars (toString z)) <= 78)%nat.
Proof.
  intros Hz. pose proof word_digits. unfold toString.
  replace (z <? 0) with false by (symmetry; apply Z.ltb_ge; lia).
  rewrite chars_of_chars, Z.abs_eq by lia.
  pose proof (dec_digits_length (S (Z.to_nat (Z.log2 z))) z [] 78 ltac:(lia)) as H1.
  cbn [length] in H1. lia.
Qed.

(** The decimal text of a 256-bit integer passes [IsFieldElement]. *)
Lemma toString_IsFieldElement z : 0 <= z < WORD -> IsFieldElement (toString z) = true.
Proof.
  intros Hz. pose proof (toString_length z Hz) as Hl.
  destruct (dec_digits_text z ltac:(lia)) as (l & Hc & Hne & Hd). rewrite Hc in Hl.
  assert (Hlen : str_len (toString z) = Z.of_nat (length l)) by (unfold str_len; by rewrite <- chars_length, Hc).
  assert (H1 : (1 <= length l)%nat) by (destruct l; [done|cbn; lia]).
  unfold IsFieldElement, FIELD_ELEMENT_PATTERN. rewrite Hlen, Hc.
  replace (Z.of_nat (length l) =? 0) with false by (symmetry; apply Z.eqb_neq; lia).
  replace (Z.of_nat (length l) <=? 80) with true by (symmetry; apply Z.leb_le; lia).
  cbn [negb andb]. apply orb_true_iff. right.
  assert (Hm : after_prefix "-" l = None).
  { unfold after_prefix. destruct l as [|c l]; [done|]. cbn [chars chars_prefix] in Hd |- *.
    cbn [forallb] in Hd. apply andb_true_iff in Hd as [Hcd _].
    destruct (Ascii.eqb_spec "-" c) as [<-|_]; [vm_compute in Hcd; discriminate|reflexivity]. }
  rewrite Hm. unfold dec_text, length_within. rewrite Hd, andb_true_r.
  apply andb_true_iff. split; apply Nat.leb_le; lia.
Qed.

(** ** The text of a proof *)

Lemma quote_units_length l : (length (quote_units l) <= 6 * length l)%nat.
Proof.
  assert (H : forall k, (length l <= k)%nat -> (length (quote_units l) <= 6 * length l)%nat); [|by apply (H (length l))].
  intros k. revert l. induction k as [|k IH]; intros [|u l] Hk; try (cbn in *; lia).
  assert (Hq : (length (quote_unit u) <= 6)%nat).
  { unfold quote_unit. repeat (destruct (_ =? _); [cbn; lia|]). destruct (_ <? _); cbn; lia. }
  pose proof (IH l ltac:(cbn in Hk; lia)) as Hl. cbn [quote_units].
  destruct (is_high u).
  - destruct l as [|v l]; [cbn; lia|]. destruct (is_low v).
    + pose proof (IH l ltac:(cbn in Hk; lia)). cbn [length]. lia.
    + rewrite length_app. cbn [length unicode_escape] in *. lia.
  - destruct (is_low u); rewrite length_app; cbn [length unicode_escape] in *; lia.
Qed.

Definition decimal (t : string) : Prop := exists z, 0 <= z < WORD /\ t = toString z.

Definition COORDINATE : nat := 6 * 78 + 2.

Lemma coordinate_text l i : Forall decimal l ->
  exists t, JSON_stringify (json_at l i) = Some t /\ (length t <= COORDINATE)%nat.
Proof.
  intros Hl. unfold json_at. destruct (l !! i) as [s|] eqn:E; [|eexists; split; [reflexivity|cbn; lia]].
  eapply Forall_lookup_1 in Hl as (z & Hz & ->); [|exact E]. exists (quote (code_units (toString z))).
  split; [done|]. unfold quote, COORDINATE. cbn [length]. rewrite length_app.
  pose proof (quote_units_length (code_units (toString z))) as H.
  unfold code_units in *. rewrite length_map in H. pose proof (toString_length z Hz). cbn [length]. lia.
Qed.

(** The texts of every coordinate snarkjs returned are those of 256-bit integers. *)
Record decimal_proof (p : Groth16Proof) : Prop := {
  dp_a : Forall decimal (g_a p);
  dp_b : Forall (Forall decimal) (g_b p);
  dp_c : Forall decimal (g_c p);
}.

Lemma wire_length p w t : decimal_proof p -> wire p = Ok w -> JSON_stringify w = Some t ->
  t <> [] /\ Z.of_nat (length t) <= MAX_PROOF_LENGTH.
Proof.
  intros [Ha Hb Hc]. unfold wire. intros H. apply rbind_ok in H as (b0 & H0%nested_ok & H).
  apply rbind_ok in H as (b1 & H1%nested_ok & H). injection H as <-.
  pose proof (Forall_lookup_1 _ _ _ _ Hb H0) as Hb0. pose proof (Forall_lookup_1 _ _ _ _ Hb H1) as Hb1.
  destruct (coordinate_text _ 0 Ha) as (a0 & Ea0 & La0), (coordinate_text _ 1 Ha) as (a1 & Ea1 & La1),
    (coordinate_text _ 0 Hb0) as (c00 & E00 & L00), (coordinate_text _ 1 Hb0) as (c01 & E01 & L01),
    (coordinate_text _ 0 Hb1) as (c10 & E10 & L10), (coordinate_text _ 1 Hb1) as (c11 & E11 & L11),
    (coordinate_text _ 0 Hc) as (c0 & Ec0 & Lc0), (coordinate_text _ 1 Hc) as (c1 & Ec1 & Lc1).
  cbn [JSON_stringify]. rewrite Ea0, Ea1, E00, E01, E10, E11, Ec0, Ec1. cbn [mbind option_bind].
  intros Ht. injection Ht as <-. split; [discriminate|].
  cbn [join_text]. cbn [length app]. rewrite ?length_app. cbn [length]. rewrite ?length_app.
  cbn [length]. rewrite ?length_app. cbn [length]. rewrite ?length_app. cbn [length].
  unfold COORDINATE in *. unfold MAX_PROOF_LENGTH.
  change (length (quote (code_units "1"))) with 3%nat.
  change (length (quote (code_units "groth16"))) with 9%nat. lia.
Qed.

(** ** What a new request holds *)

Section Client.
Context (sha256 : list byte -> list byte) (lib : Libraries).

Definition asked_model (model : string) : option string := if str_len model =? 0 then None else Some model.

Lemma new_request n chain b1 b2 payload model body n' : pending n = None ->
  proveRequest sha256 lib n chain b1 b2 payload model = Ok (body, n') ->
  exists nonce x root rz inputs proof signals w text,
    randomBelow FIELD_MODULUS b1 = Ok nonce
    /\ payloadSignalX sha256 (poseidon (circom lib)) payload nonce = Ok x
    /\ merkleRoot chain = Ok root /\ BigInt root = Ok rz
    /\ proveRequestCircuit lib inputs = Ok (proof, signals)
    /\ wire proof = Ok w /\ JSON_stringify w = Some text
    /\ body = {| req_payload := payload; req_nonce := toString nonce;
                 req_nullifier := signal_at signals 0;
                 req_signal := {| signal_x := toString x; signal_y := signal_at signals 1 |};
                 req_proof := text; req_merkleRoot := toString rz;
                 req_accumulator := {| acc_x := signal_at signals 2; acc_y := signal_at signals 3 |};
                 req_model := model ≫= asked_model |}.
Proof.
  unfold proveRequest. intros -> H. apply rbind_ok in H as ([[cm amount] leaf] & _ & H).
  apply rbind_ok in H as (path & _ & H). apply rbind_ok in H as (root & Hroot & H).
  apply rbind_ok in H as (cMax & _ & H). apply rbind_ok in H as (key & _ & H).
  apply rbind_ok in H as (nonce & Hnonce & H). apply rbind_ok in H as (s & _ & H).
  apply rbind_ok in H as (x & Hx & H). apply rbind_ok in H as (elements & _ & H).
  apply rbind_ok in H as (rootDec & Hdec & H).
  unfold dec, rmap in Hdec. apply rbind_ok in Hdec as (rz & Hrz & Hdec). injection Hdec as <-.
  apply rbind_ok in H as ([proof signals] & Hpr & H). apply rbind_ok in H as (w & Hw & H).
  apply rbind_ok in H as (text & Ht & H). destruct (JSON_stringify w) as [t|] eqn:Ew; [|discriminate].
  injection Ht as ->. injection H as <- _.
  do 9 eexists. do 7 (split; [eassumption|]). by destruct model.
Qed.

(** What snarkjs documents of a proof of [request.circom]: four public outputs, field
    elements in decimal, and coordinates in decimal. *)
Definition circuit_texts : Prop := forall inputs proof signals,
  proveRequestCircuit lib inputs = Ok (proof, signals) ->
  decimal_proof proof /\ Forall decimal signals /\ (4 <= length signals)%nat.

Lemma signal_decimal signals i : Forall decimal signals -> (i < length signals)%nat -> decimal (signal_at signals i).
Proof.
  intros Hs Hi. unfold signal_at. destruct (lookup_lt_is_Some_2 signals i Hi) as [s E]. rewrite E.
  exact (Forall_lookup_1 _ _ _ _ Hs E).
Qed.

Lemma decimal_IsFieldElement t : decimal t -> IsFieldElement t = true.
Proof. intros (z & Hz & ->). by apply toString_IsFieldElement. Qed.

Context (text_length : list Z -> Z).

(** A model that is asked for is priced exactly when there is none, an empty or a priced one. *)
Lemma asked_priced (model : option string) :
  match model ≫= asked_model with Some m => bool_decide (m ∈ CLAUDE_MODELS) | None => true end = true
  <-> forall m, model = Some m -> m = EmptyString \/ m ∈ CLAUDE_MODELS.
Proof.
  destruct model as [m|]; [|done]. cbn [mbind option_bind]. unfold asked_model.
  destruct (str_len m =? 0) eqn:E.
  - split; [|done]. intros _ m' [= <-]. left. by destruct m.
  - rewrite bool_decide_eq_true. split; [by intros Hin m' [= <-]; right|].
    intros H. by destruct (H m eq_refl) as [->|].
Qed.

Lemma nonempty_iff {A} (l : list A) : nonempty l = true <-> l <> [].
Proof. by destruct l. Qed.

(** C40: which of the requests the client builds are well formed. Whatever payload and
    model [proveRequest] is given - it checks neither - the signal x of the body it makes
    is the one the gateway computes from its payload and nonce, and the body passes every
    decorator of the request DTO exactly when the payload is not empty and within the
    length limit and there is no model, an empty one or a priced one; the gateway then
    serves its model. *)
Theorem client_request_is_valid n chain b1 b2 payload model body n' :
  circomlib_ok (circom lib) -> circuit_texts -> (forall l, text_length l <= Z.of_nat (length l)) ->
  (forall root z, merkleRoot chain = Ok root -> BigInt root = Ok z -> 0 <= z < WORD) ->
  pending n = None -> b1 <> [] ->
  proveRequest sha256 lib n chain b1 b2 payload model = Ok (body, n') ->
  (LongjingRequestDto_valid text_length CLAUDE_MODELS body = true
     <-> payload <> [] /\ text_length payload <= MAX_PAYLOAD_LENGTH
         /\ forall m, model = Some m -> m = EmptyString \/ m ∈ CLAUDE_MODELS)
  /\ (LongjingRequestDto_valid text_length CLAUDE_MODELS body = true -> isClaudeModel (model_of body) = true)
  /\ signalXMatchesRequest sha256 (poseidon (circom lib)) (signal_x (req_signal body))
       (req_payload body) (req_nonce body) = Ok true.
Proof.
  intros Hc Ht Hlen Hroot Hp Hb1 H.
  destruct (new_request _ _ _ _ _ _ _ _ Hp H)
    as (nonce & x & root & rz & inputs & proof & signals & w & text & Hn & Hx & Hr & Hrz & Hpr & Hw & Htext & ->).
  destruct (Ht _ _ _ Hpr) as (Hdp & Hsig & Hfour).
  destruct (wire_length _ _ _ Hdp Hw Htext) as [Hne Hproof].
  pose proof (randomBelow_range _ _ _ FIELD_MODULUS_pos Hb1 Hn) as Hnonce.
  pose proof (Hroot _ _ Hr Hrz) as Hrw.
  assert (Hxr : in_field x).
  { unfold payloadSignalX in Hx. apply rbind_ok in Hx as (d & _ & Hx). injection Hx as <-. apply Hc. }
  assert (Hfn : IsFieldElement (toString nonce) = true) by (by apply toString_IsFieldElement, field_word).
  assert (Hfx : IsFieldElement (toString x) = true) by (by apply toString_IsFieldElement, field_word).
  pose proof (asked_priced model) as Hm.
  split; [|split].
  - unfold LongjingRequestDto_valid, RlnSignalDto_valid, AccumulatorDto_valid.
    cbn [req_payload req_nonce req_nullifier req_signal req_proof req_merkleRoot req_accumulator req_model
         signal_x signal_y acc_x acc_y].
    rewrite (nonempty_ne text), Hfn, Hfx by done.
    assert (Hs : forall i, (i < 4)%nat -> IsFieldElement (signal_at signals i) = true).
    { intros i Hi. apply decimal_IsFieldElement, signal_decimal; [done|lia]. }
    rewrite !Hs by lia.
    rewrite (toString_IsFieldElement rz) by done. pose proof (Hlen text).
    rewrite (proj2 (Z.leb_le (text_length text) MAX_PROOF_LENGTH)) by lia. rewrite !andb_true_r, !andb_true_iff, Z.leb_le, Hm.
    rewrite <- (nonempty_iff payload). tauto.
  - unfold LongjingRequestDto_valid, model_of. cbn [req_model]. intros [_ Hv]%andb_true_iff. apply isClaudeModel_iff.
    destruct (model ≫= asked_model); [by apply bool_decide_eq_true in Hv|by apply isClaudeModel_iff].
  - cbn [req_signal signal_x req_payload req_nonce]. unfold signalXMatchesRequest.
    rewrite !parse_toString by (first [apply Hxr|apply Hnonce]). cbn [rbind].
    replace (BN254_SCALAR_FIELD <=? nonce) with false by (symmetry; apply Z.leb_gt, Hnonce).
    rewrite Hx. cbn [rbind]. by rewrite Z.eqb_refl.
Qed.
End Client.

(** ** A request of a new note *)

Lemma toy_texts : circuit_texts toy_libraries.
Proof.
  assert (Hd : forall z t, t = toString z -> 0 <= z < WORD -> decimal t) by (intros z t -> Hz; by exists z).
  assert (Hsmall : forall n, (n < 100)%nat -> decimal (toString (Z.of_nat n))).
  { intros n Hn. apply (Hd (Z.of_nat n)); [done|]. pose proof word_digits.
    assert (H100 : (100 <=? WORD) = true) by (vm_compute; reflexivity). apply Z.leb_le in H100. lia. }
  intros inputs proof signals H. unfold toy_libraries, proveRequestCircuit, toy_prover in H.
  apply rbind_ok in H as (k & _ & H). apply rbind_ok in H as (r & _ & H). apply rbind_ok in H as (m & _ & H).
  apply rbind_ok in H as (b & _ & H). apply rbind_ok in H as (s & _ & H). cbv zeta in H.
  set (A := rerandomize _ _ _) in H. assert (HA : reduced A) by apply addPoints_reduced.
  injection H as <- <-. destruct HA as [H1 H2]. split; [|split; [|cbn; lia]].
  - split; cbn [g_a g_b g_c]; repeat first [apply Forall_nil_2|apply Forall_cons_2];
      first [exact (Hsmall 11%nat ltac:(lia))|exact (Hsmall 12%nat ltac:(lia))|exact (Hsmall 1%nat ltac:(lia))
            |exact (Hsmall 21%nat ltac:(lia))|exact (Hsmall 22%nat ltac:(lia))|exact (Hsmall 23%nat ltac:(lia))
            |exact (Hsmall 24%nat ltac:(lia))|exact (Hsmall 0%nat ltac:(lia))|exact (Hsmall 31%nat ltac:(lia))
            |exact (Hsmall 32%nat ltac:(lia))].
  - repeat first [apply Forall_nil_2|apply Forall_cons_2].
    + exact (Hsmall 5%nat ltac:(lia)).
    + exact (Hsmall 6%nat ltac:(lia)).
    + exact (Hd A.1 _ eq_refl (field_word _ H1)).
    + exact (Hd A.2 _ eq_refl (field_word _ H2)).
Qed.

Lemma client_request_is_valid_witness :
  exists n0 n1 body, toy_note = Ok n0 /\ toy_first = Ok (body, n1)
  /\ (LongjingRequestDto_valid (fun l => Z.of_nat (length l)) CLAUDE_MODELS body = true
      /\ isClaudeModel (model_of body) = true
      /\ signalXMatchesRequest toy_digest (poseidon toy_circomlib) (signal_x (req_signal body))
           (req_payload body) (req_nonce body) = Ok true).
Proof.
  destruct toy_note as [n0|] eqn:E0; [|vm_compute in E0; discriminate].
  destruct toy_first as [[body n1]|] eqn:E1; [|vm_compute in E1; discriminate].
  exists n0, n1, body. do 2 (split; [reflexivity|]). pose proof E1 as E2. unfold toy_first in E2. rewrite E0 in E2.
  destruct (client_request_is_valid toy_digest toy_libraries (fun l => Z.of_nat (length l)) n0 toy_chain
           (be_bytes 48 5) (be_bytes 48 6) (code_units "hi") None body n1) as (H1 & H2 & H3).
  - exact toy_circomlib_ok.
  - exact toy_texts.
  - intros l. apply Z.le_refl.
  - intros root z Hr Hz. injection Hr as <-. vm_compute in Hz. injection Hz as <-.
    split; [|apply Z.ltb_lt; vm_compute; reflexivity]. apply Z.leb_le. reflexivity.
  - exact (newNote_idle _ _ _ _ E0).
  - apply be_bytes_ne.
  - exact E2.
  - assert (Hv : LongjingRequestDto_valid (fun l => Z.of_nat (length l)) CLAUDE_MODELS body = true).
    { apply (proj2 H1). split; [discriminate|]. split; [apply Z.leb_le; reflexivity|discriminate]. }
    split; [exact Hv|]. split; [exact (H2 Hv)|exact H3].
Defined.
