(* ===== verification/Quote.v ===== *)
(** * Report data and TDX quotes

    [src/attestation/report-data.ts] and [tdx-quote.ts]: what the 64 bytes of
    [report_data] commit to, the measurements of a quote, and the replay of the
    dstack event log. The hash functions are parameters; only their output
    length is assumed, and only where said. *)

From Stdlib Require Import Ascii String.
From S2P Require Import Prelude JsText JsNumber FieldElement HexText Json.
Open Scope Z_scope.

(** [Buffer.alloc(n)], [buffer.subarray(from, from + n)]. *)
Definition alloc (n : nat) : list byte := repeat (byte_of 0) n.
Definition subarray (from n : nat) (b : list byte) : list byte := take n (drop from b).

(** [Buffer.from(s, 'hex')] on the code units of a JSON string. *)
Definition unit_ascii (u : Z) : ascii := if u <? 256 then ascii_of_N (Z.to_N u) else " "%char.
Definition hex_of_units (s : list Z) : list byte := of_hex_chars (map unit_ascii s).

Section Quote.
Context (sha256 sha384 : list byte -> list byte).

(** ** report-data.ts *)

Definition REPORT_DATA_LABEL : string := "longjing-report-v1".
Definition NONCE_LENGTH : nat := 32.

Record ReportDataInputs : Type := {
  mlkemPublicKey : list byte;
  identityPublicKey : option (list byte);
  refundSignerPublicKey : option (list byte);
  tlsCertificateDer : option (list byte);
}.

(** [writeUInt32BE] refuses a length of 2^32 or more. *)
Definition lengthPrefixed (bytes : list byte) : result (list byte) :=
  let n := Z.of_nat (length bytes) in
  if n <? 2 ^ 32 then Ok (be_bytes 4 n ++ bytes)
  else Throw (RangeError "The value of value is out of range").

Definition buildReportData (inputs : ReportDataInputs) (nonce : option (list byte)) : result (list byte) :=
  if match nonce with Some n => negb (length n =? NONCE_LENGTH)%nat | None => false end
  then Throw (Error "Nonce must be 32 bytes")
  else
    let certificateHash := match tlsCertificateDer inputs with Some der => sha256 der | None => [] end in
    let* label := lengthPrefixed (Buffer_from REPORT_DATA_LABEL) in
    let* ek := lengthPrefixed (mlkemPublicKey inputs) in
    let* identity := lengthPrefixed (default [] (identityPublicKey inputs)) in
    let* signer := lengthPrefixed (default [] (refundSignerPublicKey inputs)) in
    let* certificate := lengthPrefixed certificateHash in
    Ok (sha256 (label ++ ek ++ identity ++ signer ++ certificate) ++ default (alloc NONCE_LENGTH) nonce).

(** [/^[0-9a-fA-F]{lo,hi}$/]. *)
Definition hex_between (lo hi : nat) (s : string) : bool :=
  length_within lo hi (chars s) && str_all is_hex_digit s.

Definition parseNonce (value : option string) : result (option (list byte)) :=
  match value with
  | None => Ok None
  | Some v =>
      if str_len v =? 0 then Ok None
      else
        let hex := strip0x v in
        if hex_between 64 64 hex then Ok (Some (of_hex hex))
        else Throw (Error "Nonce must be 32 bytes of hex")
  end.

Definition coordinate (value : string) : result (list byte) :=
  let hex := strip0x value in
  if hex_between 1 64 hex then Ok (of_hex (padStart 64 zero_char hex))
  else Throw (Error "Refund signer coordinate must be at most 32 bytes of hex").

Definition encodeRefundSignerPublicKey (key : string * string) : result (list byte) :=
  let* x := coordinate key.1 in
  let* y := coordinate key.2 in
  Ok (x ++ y).

(** ** tdx-quote.ts *)

Definition QUOTE_HEADER_LENGTH : nat := 48.
Definition MEASUREMENT_LENGTH : nat := 48.
Definition TDX_QUOTE_MRTD_OFFSET : nat := QUOTE_HEADER_LENGTH + 136.
Definition TDX_QUOTE_RTMR_OFFSETS : list nat := map (fun o => QUOTE_HEADER_LENGTH + o)%nat [328; 376; 424; 472]%nat.
Definition TDX_QUOTE_BODY_END : nat := QUOTE_HEADER_LENGTH + 584.
Definition DSTACK_RUNTIME_EVENT_TYPE : Z := 0x08000001.

Record TdxMeasurements : Type := { mrtd : string; rtmrs : list string }.

Definition parseTdxMeasurements (quote : list byte) : result TdxMeasurements :=
  if (length quote <? TDX_QUOTE_BODY_END)%nat then Throw (Error "TDX quote too short")
  else
    let measurement offset := to_hex (subarray offset MEASUREMENT_LENGTH quote) in
    Ok {| mrtd := measurement TDX_QUOTE_MRTD_OFFSET; rtmrs := map measurement TDX_QUOTE_RTMR_OFFSETS |}.

(** [Buffer.from(value, 'hex')] on a value read from JSON: Node's conversion of
    arrays and objects is a parameter, anything else that is not a string throws. *)
Context (from_value : json -> result (list byte)).

Definition buffer_hex (v : jsv) : result (list byte) :=
  match v with
  | Some (JStr s) => Ok (hex_of_units s)
  | Some (JArr l) => from_value (JArr l)
  | Some (JObj f) => from_value (JObj f)
  | _ => Throw (TypeError "The first argument must be of type string")
  end.

(** [hash.update(value)]. *)
Definition update_arg (v : jsv) : result (list byte) :=
  match v with
  | Some (JStr s) => Ok (utf8 s)
  | _ => Throw (TypeError "The data argument must be of type string")
  end.

Fixpoint le_bytes (n : nat) (z : Z) : list byte :=
  match n with O => [] | S n' => byte_of z :: le_bytes n' (z / 256) end.

Definition colon : list byte := [byte_of 58].

(** Called on events whose type is [DSTACK_RUNTIME_EVENT_TYPE]. *)
Definition runtimeEventDigest (event : jsv) : result (list byte) :=
  let* name := get_prop "event" event in
  let* name := update_arg name in
  let* payload := get_prop "event_payload" event in
  let* payload := buffer_hex payload in
  Ok (sha384 (le_bytes 4 DSTACK_RUNTIME_EVENT_TYPE ++ colon ++ name ++ colon ++ payload)).

(** The register an event extends, when it is an integer from 0 to 3. *)
Definition imr_index (v : jsv) : option nat :=
  match v with
  | Some (JNum n) =>
      if negb (isInteger n) || nlt n (num 0) || ngt n (num 3) then None
      else match BigInt_of_number n with Ok z => Some (Z.to_nat z) | Throw _ => None end
  | _ => None
  end.

(** The body of the loop up to the extension: the register and the padded digest. *)
Definition extension (event : json) : result (nat * list byte) :=
  let ev := Some event in
  let* imr := get_prop "imr" ev in
  let* i := of_option (Error "Event extends an unknown RTMR") (imr_index imr) in
  let* digest := get_prop "digest" ev in
  let* digest := buffer_hex digest in
  if (MEASUREMENT_LENGTH <? length digest)%nat then Throw (Error "Event digest is longer than 48 bytes")
  else
    let* type := get_prop "event_type" ev in
    let* own := if is_number DSTACK_RUNTIME_EVENT_TYPE type
                then let* expected := runtimeEventDigest ev in Ok (bool_decide (digest = expected))
                else Ok true in
    if negb own then Throw (Error "Runtime event does not match its digest")
    else Ok (i, digest ++ alloc (MEASUREMENT_LENGTH - length digest)).

Definition extend (registers : list (list byte)) (x : nat * list byte) : list (list byte) :=
  <[x.1 := sha384 (default [] (registers !! x.1) ++ x.2)]> registers.

Fixpoint replay_loop (registers : list (list byte)) (events : list json) : result (list (list byte)) :=
  match events with
  | [] => Ok registers
  | event :: rest => let* x := extension event in replay_loop (extend registers x) rest
  end.

(** [for (const event of events)]: an array, or the characters of a string. *)
Definition iterate (events : json) : result (list json) :=
  match events with
  | JArr l => Ok l
  | JStr s => Ok (map (fun u => JStr [u]) s)
  | _ => Throw (TypeError "events is not iterable")
  end.

Definition initial_registers : list (list byte) := repeat (alloc MEASUREMENT_LENGTH) 4.

Definition replayRtmrs (eventLog : list Z) : result (list string) :=
  let* parsed := JSON_parse eventLog in
  let* events := iterate parsed in
  let* registers := replay_loop initial_registers events in
  Ok (map to_hex registers).

Inductive log_failure : Type :=
| CannotReplay (e : exn)
| RtmrMismatch (i : nat).

(** [rtmrs.flatMap(...)]. *)
Fixpoint mismatches (i : nat) (quoted replayed : list string) : list log_failure :=
  match quoted with
  | [] => []
  | r :: quoted' =>
      (if bool_decide (replayed !! 0%nat = Some r) then [] else [RtmrMismatch i])
      ++ mismatches (S i) quoted' (drop 1 replayed)
  end.

(** The reads of the quote throw; a log that cannot be replayed is a failure. *)
Definition verifyEventLog (quote : list byte) (eventLog : list Z) : result (list log_failure) :=
  let* m := parseTdxMeasurements quote in
  Ok (match replayRtmrs eventLog with
      | Throw e => [CannotReplay e]
      | Ok replayed => mismatches 0 (rtmrs m) replayed
      end).
End Quote.

(** ** Length-prefixed terms *)

(** [x] and [y] are different inputs with one digest. *)
Definition hash_collision (h : list byte -> list byte) (x y : list byte) : Prop := x <> y /\ h x = h y.

(** A hash gives back its input, unless these two inputs collide. *)
Lemma hash_inj h x y : h x = h y -> x = y \/ hash_collision h x y.
Proof. intros H. destruct (decide (x = y)) as [|Hn]; [by left|by right]. Qed.

Lemma lengthPrefixed_ok b t : lengthPrefixed b = Ok t ->
  t = be_bytes 4 (Z.of_nat (length b)) ++ b /\ Z.of_nat (length b) < 2 ^ 32.
Proof.
  unfold lengthPrefixed. destruct (Z.ltb_spec (Z.of_nat (length b)) (2 ^ 32)); [|done].
  intros H'. split; [congruence|done].
Qed.

Lemma lengthPrefixed_app b1 b2 t1 t2 r1 r2 : lengthPrefixed b1 = Ok t1 -> lengthPrefixed b2 = Ok t2 ->
  t1 ++ r1 = t2 ++ r2 -> b1 = b2 /\ r1 = r2.
Proof.
  intros [-> H1]%lengthPrefixed_ok [-> H2]%lengthPrefixed_ok H. rewrite <- !app_assoc in H.
  apply app_inj_1 in H as [Hl H]; [|by rewrite !be_bytes_length].
  apply (f_equal be_value) in Hl. rewrite !be_value_bytes in Hl.
  change (256 ^ Z.of_nat 4) with (2 ^ 32) in Hl. rewrite !Z.mod_small in Hl by lia.
  apply app_inj_1 in H as [-> ->]; [done|lia].
Qed.

Section Binding.
Context (sha256 : list byte -> list byte) (Hlen : forall x, length (sha256 x) = 32%nat).

(** What the first half of [report_data] commits to: an absent key is an empty term. *)
Definition committed (i : ReportDataInputs) : list byte * list byte * list byte * option (list byte) :=
  (mlkemPublicKey i, default [] (identityPublicKey i), default [] (refundSignerPublicKey i),
   tlsCertificateDer i).

(** The bytes whose digest is that half: five terms, each after its length. *)
Definition report_data_preimage (i : ReportDataInputs) : list byte :=
  concat (map (fun b => be_bytes 4 (Z.of_nat (length b)) ++ b)
    [Buffer_from REPORT_DATA_LABEL; mlkemPublicKey i; default [] (identityPublicKey i);
     default [] (refundSignerPublicKey i);
     match tlsCertificateDer i with Some der => sha256 der | None => [] end]).

(** A collision of SHA-256 between what was hashed for [i1] and for [i2]: the two preimages
    of their report data, or their two certificates. *)
Definition report_data_collision (i1 i2 : ReportDataInputs) : Prop :=
  hash_collision sha256 (report_data_preimage i1) (report_data_preimage i2)
  \/ exists d1 d2, tlsCertificateDer i1 = Some d1 /\ tlsCertificateDer i2 = Some d2 /\ hash_collision sha256 d1 d2.

Lemma certificate_inj i1 i2 :
  match tlsCertificateDer i1 with Some der => sha256 der | None => [] end
  = match tlsCertificateDer i2 with Some der => sha256 der | None => [] end ->
  tlsCertificateDer i1 = tlsCertificateDer i2 \/ report_data_collision i1 i2.
Proof.
  unfold report_data_collision.
  destruct (tlsCertificateDer i1) as [d1|], (tlsCertificateDer i2) as [d2|];
    [|intros H; apply (f_equal length) in H; rewrite Hlen in H; done..|by left].
  intros [->|Hc]%hash_inj; [by left|right; right]. by exists d1, d2.
Qed.

Lemma buildReportData_ok i nonce r : buildReportData sha256 i nonce = Ok r ->
  exists label ek id signer cert,
    lengthPrefixed (Buffer_from REPORT_DATA_LABEL) = Ok label /\ lengthPrefixed (mlkemPublicKey i) = Ok ek
    /\ lengthPrefixed (default [] (identityPublicKey i)) = Ok id
    /\ lengthPrefixed (default [] (refundSignerPublicKey i)) = Ok signer
    /\ lengthPrefixed (match tlsCertificateDer i with Some der => sha256 der | None => [] end) = Ok cert
    /\ r = sha256 (label ++ ek ++ id ++ signer ++ cert) ++ default (alloc NONCE_LENGTH) nonce
    /\ length (default (alloc NONCE_LENGTH) nonce) = NONCE_LENGTH.
Proof.
  unfold buildReportData. intros H.
  destruct (match nonce with Some n => _ | None => _ end) eqn:En; [done|].
  apply rbind_ok in H as (label & Hl & H). apply rbind_ok in H as (ek & He & H).
  apply rbind_ok in H as (id & Hi & H). apply rbind_ok in H as (signer & Hs & H).
  apply rbind_ok in H as (cert & Hc & H).
  exists label, ek, id, signer, cert. do 5 (split; [assumption|]). split; [congruence|].
  destruct nonce as [n|]; [|done]. cbn. apply negb_false_iff, Nat.eqb_eq in En. done.
Qed.

Lemma buildReportData_preimage i nonce r : buildReportData sha256 i nonce = Ok r ->
  r = sha256 (report_data_preimage i) ++ default (alloc NONCE_LENGTH) nonce.
Proof.
  intros (label & ek & id & sg & ct & [-> _]%lengthPrefixed_ok & [-> _]%lengthPrefixed_ok & [-> _]%lengthPrefixed_ok
          & [-> _]%lengthPrefixed_ok & [-> _]%lengthPrefixed_ok & -> & _)%buildReportData_ok.
  unfold report_data_preimage. cbn [map concat]. by rewrite app_nil_r.
Qed.

Lemma buildReportData_inj i1 i2 n1 n2 r :
  buildReportData sha256 i1 n1 = Ok r -> buildReportData sha256 i2 n2 = Ok r ->
  default (alloc NONCE_LENGTH) n1 = default (alloc NONCE_LENGTH) n2
  /\ (committed i1 = committed i2 \/ report_data_collision i1 i2).
Proof.
  intros H1 H2. pose proof (buildReportData_preimage _ _ _ H1) as E. rewrite (buildReportData_preimage _ _ _ H2) in E.
  apply app_inj_1 in E as [Hh Hn]; [|by rewrite !Hlen]. split; [by symmetry|].
  symmetry in Hh. apply hash_inj in Hh as [Hh|Hc]; [|by right; left].
  apply buildReportData_ok in H1 as (label & ek1 & id1 & sg1 & ct1 & Hl & E1 & I1 & S1 & C1 & _).
  apply buildReportData_ok in H2 as (label' & ek2 & id2 & sg2 & ct2 & Hl' & E2 & I2 & S2 & C2 & _).
  assert (Hpre : label ++ ek1 ++ id1 ++ sg1 ++ ct1 = label' ++ ek2 ++ id2 ++ sg2 ++ ct2).
  { unfold report_data_preimage in Hh. cbn [map concat] in Hh. rewrite !app_nil_r in Hh.
    apply lengthPrefixed_ok in Hl as [-> _], Hl' as [-> _], E1 as [-> _], E2 as [-> _], I1 as [-> _], I2 as [-> _],
      S1 as [-> _], S2 as [-> _], C1 as [-> _], C2 as [-> _]. exact Hh. }
  assert (label' = label) as -> by congruence. apply app_inv_head in Hpre.
  apply (lengthPrefixed_app _ _ _ _ _ _ E1 E2) in Hpre as [He Hpre].
  apply (lengthPrefixed_app _ _ _ _ _ _ I1 I2) in Hpre as [Hi Hpre].
  apply (lengthPrefixed_app _ _ _ _ _ _ S1 S2) in Hpre as [Hs Hpre].
  rewrite <- (app_nil_r ct1), <- (app_nil_r ct2) in Hpre.
  apply (lengthPrefixed_app _ _ _ _ _ _ C1 C2) in Hpre as [Hc _].
  apply certificate_inj in Hc as [Hc|]; [left|by right]. unfold committed. congruence.
Qed.

(** [report_data] is binding. Two calls that give the same 64 bytes committed to
    the same ML-KEM key, identity key, refund signer key and certificate (an absent
    key counting as an empty one) and to the same nonce (an absent one counting as
    zeros), unless what was hashed for the two collides; and every result has 64 bytes. *)
Theorem report_data_binding i1 i2 n1 n2 r :
  buildReportData sha256 i1 n1 = Ok r -> buildReportData sha256 i2 n2 = Ok r ->
  length r = 64%nat /\ default (alloc NONCE_LENGTH) n1 = default (alloc NONCE_LENGTH) n2
  /\ (committed i1 = committed i2 \/ report_data_collision i1 i2).
Proof.
  intros H1 H2. split; [|exact (buildReportData_inj i1 i2 n1 n2 r H1 H2)].
  apply buildReportData_ok in H1 as (? & ? & ? & ? & ? & _ & _ & _ & _ & _ & -> & L1).
  by rewrite length_app, Hlen, L1.
Qed.
End Binding.

Definition toy_sha256 (b : list byte) : list byte := be_bytes 32 (be_value b).

Lemma report_data_binding_witness :
  let i := {| mlkemPublicKey := [byte_of 1]; identityPublicKey := None;
              refundSignerPublicKey := None; tlsCertificateDer := None |} in
  exists r, buildReportData toy_sha256 i None = Ok r /\ length r = 64%nat.
Proof.
  intros i. eexists. split; [reflexivity|].
  refine (proj1 (report_data_binding toy_sha256 _ i i None None _ _ _)); [|reflexivity..].
  intros x. apply be_bytes_length.
Defined.

(** ** The replay of the event log *)

Section Replay.
Context (sha384 : list byte -> list byte) (Hlen : forall x, length (sha384 x) = 48%nat).
Context (from_value : json -> result (list byte)).

Fixpoint extensions (events : list json) : result (list (nat * list byte)) :=
  match events with
  | [] => Ok []
  | e :: rest => let* x := extension sha384 from_value e in let* xs := extensions rest in Ok (x :: xs)
  end.

(** The digests a log extends register [i] with, and what they replay to. *)
Definition digests_of (i : nat) (xs : list (nat * list byte)) : list (list byte) :=
  map snd (filter (fun x => x.1 = i) xs).

Definition replay_of (digests : list (list byte)) : list byte :=
  fold_left (fun r d => sha384 (r ++ d)) digests (alloc MEASUREMENT_LENGTH).

(** The inputs SHA-384 is given while a register that holds [r] is extended. *)
Fixpoint replay_inputs (r : list byte) (digests : list (list byte)) : list (list byte) :=
  match digests with
  | [] => []
  | d :: digests => (r ++ d) :: replay_inputs (sha384 (r ++ d)) digests
  end.

Definition inputs_of (digests : list (list byte)) : list (list byte) := replay_inputs (alloc MEASUREMENT_LENGTH) digests.

(** SHA-384 broken by the replays of two chains: an input of one collides with an input of
    the other, or an input of either has the initial register for digest. *)
Definition replay_collision (l1 l2 : list (list byte)) : Prop :=
  (exists x y, x ∈ inputs_of l1 /\ y ∈ inputs_of l2 /\ hash_collision sha384 x y)
  \/ exists x, x ∈ inputs_of l1 ++ inputs_of l2 /\ sha384 x = alloc MEASUREMENT_LENGTH.

Lemma replay_loop_ok events registers out : replay_loop sha384 from_value registers events = Ok out ->
  exists xs, extensions events = Ok xs /\ out = fold_left (extend sha384) xs registers.
Proof.
  revert registers; induction events as [|e events IH]; intros registers H; cbn [replay_loop] in H.
  - injection H as <-. by exists [].
  - apply rbind_ok in H as (x & Hx & H). apply IH in H as (xs & Hxs & ->).
    exists (x :: xs). split; [|reflexivity]. cbn [extensions]. rewrite Hx. cbn [rbind]. by rewrite Hxs.
Qed.

Lemma fold_extend xs registers i : fold_left (extend sha384) xs registers !! i
  = (fun r => fold_left (fun r d => sha384 (r ++ d)) (digests_of i xs) r) <$> registers !! i.
Proof.
  revert registers; induction xs as [|[j d] xs IH]; intros registers; cbn [fold_left].
  { by destruct (registers !! i). }
  rewrite IH. unfold digests_of, extend; cbn [fst snd]. rewrite filter_cons; cbn [fst].
  destruct (decide (j = i)) as [->|Hn].
  - cbn [map fold_left snd]. destruct (registers !! i) as [r|] eqn:Er.
    + rewrite list_lookup_insert_eq by (by eapply lookup_lt_Some). by cbn.
    + rewrite list_insert_ge by (by apply lookup_ge_None_1). by rewrite Er.
  - by rewrite list_lookup_insert_ne.
Qed.

Lemma extension_length e x : extension sha384 from_value e = Ok x -> length x.2 = MEASUREMENT_LENGTH.
Proof.
  unfold extension. intros H. apply rbind_ok in H as (imr & _ & H). apply rbind_ok in H as (i & _ & H).
  apply rbind_ok in H as (d0 & _ & H). apply rbind_ok in H as (d & _ & H).
  destruct (Nat.ltb_spec MEASUREMENT_LENGTH (length d)) as [|Hd]; [done|].
  apply rbind_ok in H as (ty & _ & H). apply rbind_ok in H as (own & _ & H). destruct own; [|done].
  cbn [negb] in H. assert (x.2 = d ++ alloc (MEASUREMENT_LENGTH - length d)) as ->.
  { by apply (f_equal (fun r => match r with Ok y => y.2 | Throw _ => [] end)) in H. }
  rewrite length_app. unfold alloc. rewrite repeat_length. lia.
Qed.

Lemma extensions_length events xs : extensions events = Ok xs ->
  Forall (fun x => length x.2 = MEASUREMENT_LENGTH) xs.
Proof.
  revert xs; induction events as [|e events IH]; intros xs H; cbn [extensions] in H.
  - injection H as <-. constructor.
  - apply rbind_ok in H as (x & Hx & H). apply rbind_ok in H as (ys & Hys & H). injection H as <-.
    constructor; [by apply extension_length in Hx|by apply IH].
Qed.

Lemma replay_of_snoc l d : replay_of (l ++ [d]) = sha384 (replay_of l ++ d).
Proof. unfold replay_of. by rewrite fold_left_app. Qed.

Lemma replay_of_length l : length (replay_of l) = MEASUREMENT_LENGTH.
Proof.
  destruct l as [|d l _] using rev_ind; [done|]. rewrite replay_of_snoc. apply Hlen.
Qed.

Lemma inputs_of_snoc l d : inputs_of (l ++ [d]) = inputs_of l ++ [replay_of l ++ d].
Proof.
  unfold inputs_of, replay_of. generalize (alloc MEASUREMENT_LENGTH) as r.
  induction l as [|d' l IH]; intros r; [done|]. cbn [app replay_inputs fold_left]. by rewrite IH.
Qed.

Lemma replay_collision_snoc l1 l2 d1 d2 : replay_collision l1 l2 -> replay_collision (l1 ++ [d1]) (l2 ++ [d2]).
Proof.
  unfold replay_collision. rewrite !inputs_of_snoc. intros [(x & y & Hx & Hy & H)|(x & Hx & H)]; [left|right].
  - exists x, y. rewrite !elem_of_app. by auto.
  - exists x. rewrite !elem_of_app in *. tauto.
Qed.

(** Two chains of digests that end in one register are the same chain. *)
Lemma replay_of_inj l1 l2 : replay_of l1 = replay_of l2 -> l1 = l2 \/ replay_collision l1 l2.
Proof.
  revert l2; induction l1 as [|d1 l1 IH] using rev_ind; intros l2; destruct l2 as [|d2 l2 _] using rev_ind.
  - by left.
  - rewrite replay_of_snoc. intros H. do 2 right. exists (replay_of l2 ++ d2). rewrite inputs_of_snoc. split; [|done].
    rewrite !elem_of_app, list_elem_of_singleton. auto.
  - rewrite replay_of_snoc. intros H. do 2 right. exists (replay_of l1 ++ d1). rewrite inputs_of_snoc. split; [|done].
    rewrite !elem_of_app, list_elem_of_singleton. auto.
  - rewrite !replay_of_snoc. intros [H|Hc]%hash_inj.
    + apply app_inj_1 in H as [H ->]; [|by rewrite !replay_of_length].
      apply IH in H as [->|H]; [by left|right; by apply replay_collision_snoc].
    + right; left. exists (replay_of l1 ++ d1), (replay_of l2 ++ d2). rewrite !inputs_of_snoc.
      rewrite !elem_of_app, !list_elem_of_singleton. auto.
Qed.

Lemma mismatches_nil i quoted replayed : mismatches i quoted replayed = [] ->
  forall k r, quoted !! k = Some r -> replayed !! k = Some r.
Proof.
  revert i replayed; induction quoted as [|q quoted IH]; intros i replayed; cbn [mismatches]; [done|].
  case_bool_decide as Hq; [|done]. cbn [app]. intros H [|k] r Hk; cbn in Hk; [congruence|].
  apply (IH _ _ H) in Hk. by rewrite lookup_drop in Hk.
Qed.

(** What an accepted log replays to. *)
Lemma verifyEventLog_ok quote log : verifyEventLog sha384 from_value quote log = Ok [] ->
  exists m d events xs, parseTdxMeasurements quote = Ok m /\ JSON_parse log = Ok d /\ iterate d = Ok events
    /\ extensions events = Ok xs
    /\ forall i r, rtmrs m !! i = Some r -> r = to_hex (replay_of (digests_of i xs)).
Proof.
  unfold verifyEventLog. intros H. apply rbind_ok in H as (m & Hm & H).
  destruct (replayRtmrs sha384 from_value log) as [replayed|] eqn:Hr; [|done].
  assert (Hmis : mismatches 0 (rtmrs m) replayed = []) by congruence.
  unfold replayRtmrs in Hr. apply rbind_ok in Hr as (d & Hd & Hr). apply rbind_ok in Hr as (events & He & Hr).
  apply rbind_ok in Hr as (out & Ho & Hr). apply replay_loop_ok in Ho as (xs & Hxs & ->).
  exists m, d, events, xs. do 4 (split; [assumption|]). intros i r Hi.
  apply (mismatches_nil _ _ _ Hmis) in Hi. injection Hr as <-.
  rewrite list_lookup_fmap, fold_extend in Hi.
  destruct (initial_registers !! i) as [z|] eqn:Ez; [|done]. cbn in Hi. injection Hi as <-.
  apply list_elem_of_lookup_2, list_elem_of_In, repeat_spec in Ez. by rewrite Ez.
Qed.

Lemma to_hex_inj a b : to_hex a = to_hex b -> a = b.
Proof. intros H. rewrite <- (of_hex_to_hex a), H. apply of_hex_to_hex. Qed.

(** C24: a quote determines its event log. Two logs accepted for the same quote extend each
    of the registers RTMR0 to RTMR3 with the same digests in the same order: no event can be
    added, dropped, reordered or given another digest, unless the inputs hashed by the two
    replays of that register collide, or one of them hashes to the initial register. *)
Theorem event_log_binding quote log1 log2 :
  verifyEventLog sha384 from_value quote log1 = Ok [] ->
  verifyEventLog sha384 from_value quote log2 = Ok [] ->
  exists d1 d2 events1 events2 xs1 xs2,
    JSON_parse log1 = Ok d1 /\ iterate d1 = Ok events1 /\ extensions events1 = Ok xs1
    /\ JSON_parse log2 = Ok d2 /\ iterate d2 = Ok events2 /\ extensions events2 = Ok xs2
    /\ forall i, (i < 4)%nat -> digests_of i xs1 = digests_of i xs2 \/ replay_collision (digests_of i xs1) (digests_of i xs2).
Proof.
  intros (m & d1 & e1 & xs1 & Hm & D1 & E1 & X1 & R1)%verifyEventLog_ok.
  intros (m' & d2 & e2 & xs2 & Hm' & D2 & E2 & X2 & R2)%verifyEventLog_ok.
  assert (m' = m) as -> by congruence. exists d1, d2, e1, e2, xs1, xs2. do 6 (split; [assumption|]).
  intros i Hi. assert (Hreg : exists r, rtmrs m !! i = Some r).
  { unfold parseTdxMeasurements in Hm. destruct (_ <? _)%nat; [done|].
    assert (length (rtmrs m) = 4%nat) by by apply (f_equal (rmap (fun m => length (rtmrs m)))) in Hm; cbn in Hm; congruence.
    apply lookup_lt_is_Some_2. lia. }
  destruct Hreg as [r Hr]. apply replay_of_inj, to_hex_inj. by rewrite <- (R1 i r Hr), <- (R2 i r Hr).
Qed.
End Replay.

(** ** A concrete quote and log *)

Definition toy_sha384 (b : list byte) : list byte := be_bytes 48 (be_value b + 1).
Definition toy_from_value (_ : json) : result (list byte) := Throw (TypeError "unsupported").

(** JSON text with apostrophes for quotes. *)
Definition json_text (s : string) : list Z := map (fun u => if u =? 39 then 34 else u) (code_units s).

Definition toy_log : list Z :=
  json_text "[{'imr':3,'event_type':1,'digest':'0a0b','event':'boot','event_payload':''}]".

(** RTMR3 extended once by [toy_log]. *)
Definition toy_quote : list byte :=
  alloc 520 ++ toy_sha384 (alloc 48 ++ [byte_of 10; byte_of 11] ++ alloc 46) ++ alloc 64.

Lemma toy_sha384_length x : length (toy_sha384 x) = 48%nat.
Proof. apply be_bytes_length. Qed.

(** The same log, written with other white space. *)
Definition toy_log' : list Z :=
  json_text "[ {'imr':3, 'event_type':1, 'digest':'0a0b', 'event':'boot', 'event_payload':''} ]".

Lemma event_log_binding_witness : exists xs1 xs2,
  digests_of 3 xs1 <> [] /\ (digests_of 3 xs1 = digests_of 3 xs2
    \/ replay_collision toy_sha384 (digests_of 3 xs1) (digests_of 3 xs2)).
Proof.
  assert (H1 : verifyEventLog toy_sha384 toy_from_value toy_quote toy_log = Ok []) by (vm_compute; reflexivity).
  assert (H2 : verifyEventLog toy_sha384 toy_from_value toy_quote toy_log' = Ok []) by (vm_compute; reflexivity).
  destruct (event_log_binding toy_sha384 toy_sha384_length toy_from_value toy_quote toy_log toy_log' H1 H2)
    as (d1 & _ & events1 & _ & xs1 & xs2 & Hd & He & Hx & _ & _ & _ & H).
  exists xs1, xs2. split; [|apply H; lia]. vm_compute in Hd. injection Hd as <-. vm_compute in He. injection He as <-.
  vm_compute in Hx. injection Hx as <-. vm_compute. discriminate.
Defined.
