(* ===== verification/AppGovernance.v ===== *)
(** * Who can change the running build

    [src/attestation/app-governance.ts], [credits-governance.ts] and
    [src/governance/release-batch.ts]: reading the owners and the history of the
    compose hashes, the rules checked on them, the compose hash of an event log
    and the timelock batch of a release. The RPC provider and the ABI coder of
    ethers are parameters: a call is what its answer decodes to. *)

From Stdlib Require Import Ascii String Sorted.
From S2P Require Import Prelude JsText Json Quote.
Open Scope Z_scope.

(** ** app-governance.ts *)

Definition ZeroAddress : string := "0x0000000000000000000000000000000000000000".
Definition DEFAULT_MIN_DELAY_SECONDS : Z := 7 * 24 * 60 * 60.

(** A log of the contract, parsed: the event, its hash or address, its block. *)
Inductive app_event : Type :=
| ComposeHashAdded (composeHash : string)
| ComposeHashRemoved (composeHash : string)
| Upgraded (implementation : string)
| Unparsed.

Definition app_log : Type := app_event * Z.

(** What the code asks of the chain, with the ABI decoding of ethers. *)
Record ChainReader : Type := {
  read_address : string -> string -> result string;
  read_bool : string -> string -> list string -> result bool;
  read_uint : string -> string -> result Z;
  getBlockNumber : result Z;
  getLogs : string -> Z -> Z -> result (list app_log);
}.

Record ComposeHashRecord : Type := {
  composeHash : string;
  allowed : bool;
  added : list Z;
  removed : list Z;
}.

Record AppOwner : Type := {
  ao_address : string;
  ao_timelock : string;
  ao_guardian : string;
  ao_minDelay : Z;
  timelockSelfAdministered : bool;
}.

Record AppGovernance : Type := {
  app : string;
  owner : string;
  pendingOwner : string;
  requireTcbUpToDate : bool;
  appOwner : option AppOwner;
  composeHashes : list ComposeHashRecord;
  upgrades : list (string * Z);
}.

Section Reading.
(** [getAddress] of ethers. *)
Context (getAddress : string -> result string) (reader : ChainReader).

(** The delay of a timelock, and whether it administers itself. *)
Definition readTimelock (timelock : string) : result (Z * bool) :=
  let* minDelay := read_uint reader timelock "getMinDelay" in
  let* self := read_bool reader timelock "hasRole" ["0x" +:+ of_chars (repeat "0"%char 64); timelock] in
  Ok (minDelay, self).

Definition readAppOwner (app owner : string) : result (option AppOwner) :=
  match (let* governed := read_address reader owner "app" in
         let* timelock := read_address reader owner "timelock" in
         let* guardian := read_address reader owner "guardian" in
         Ok (governed, timelock, guardian)) with
  | Throw _ => Ok None
  | Ok (governed, timelock, guardian) =>
      if negb (bool_decide (governed = app)) then Ok None
      else
        let* t := readTimelock timelock in
        Ok (Some {| ao_address := owner; ao_timelock := timelock; ao_guardian := guardian;
                    ao_minDelay := t.1; timelockSelfAdministered := t.2 |})
  end.

(** ** The history of the compose hashes: a Map keyed by the hash, in order of insertion *)

Definition note_event (hash : string) (is_added : bool) (block : Z) (r : ComposeHashRecord) : ComposeHashRecord :=
  {| composeHash := composeHash r; allowed := allowed r;
     added := if is_added then added r ++ [block] else added r;
     removed := if is_added then removed r else removed r ++ [block] |}.

Definition new_record (hash : string) : ComposeHashRecord :=
  {| composeHash := hash; allowed := false; added := []; removed := [] |}.

Fixpoint record_event (hash : string) (is_added : bool) (block : Z) (l : list ComposeHashRecord)
  : list ComposeHashRecord :=
  match l with
  | [] => [note_event hash is_added block (new_record hash)]
  | r :: l' =>
      if bool_decide (composeHash r = hash) then note_event hash is_added block r :: l'
      else r :: record_event hash is_added block l'
  end.

Definition history : Type := list ComposeHashRecord * list (string * Z).

Definition fold_log (h : history) (log : app_log) : history :=
  match log with
  | (ComposeHashAdded hash, block) => (record_event hash true block h.1, h.2)
  | (ComposeHashRemoved hash, block) => (record_event hash false block h.1, h.2)
  | (Upgraded implementation, block) => (h.1, h.2 ++ [(implementation, block)])
  | (Unparsed, _) => h
  end.

(** The loop over the block ranges; a range that is not positive never ends. *)
Fixpoint scan (fuel : nat) (app : string) (blockRange latest start : Z) (h : history) : option (result history) :=
  if start <=? latest then
    match fuel with
    | O => None
    | S f =>
        match getLogs reader app start (Z.min (start + blockRange - 1) latest) with
        | Throw e => Some (Throw e)
        | Ok logs => scan f app blockRange latest (start + blockRange) (fold_left fold_log logs h)
        end
    end
  else Some (Ok h).

Fixpoint read_allowed (app : string) (l : list ComposeHashRecord) : result (list ComposeHashRecord) :=
  match l with
  | [] => Ok []
  | r :: l' =>
      let* a := read_bool reader app "allowedComposeHashes" [composeHash r] in
      let* rest := read_allowed app l' in
      Ok ({| composeHash := composeHash r; allowed := a; added := added r; removed := removed r |} :: rest)
  end.

Definition readHistory (fuel : nat) (app : string) (fromBlock blockRange : option Z) : option (result history) :=
  match getBlockNumber reader with
  | Throw e => Some (Throw e)
  | Ok latest =>
      match scan fuel app (default 10000 blockRange) latest (default 0 fromBlock) ([], []) with
      | None => None
      | Some r => Some (let* h := r in let* records := read_allowed app h.1 in Ok (records, h.2))
      end
  end.

Definition readAppGovernance (fuel : nat) (address : string) (fromBlock blockRange : option Z)
  : option (result AppGovernance) :=
  match (let* app := getAddress address in
         let* owner := read_address reader app "owner" in
         let* pendingOwner := read_address reader app "pendingOwner" in
         let* tcb := read_bool reader app "requireTcbUpToDate" [] in
         let* appOwner := readAppOwner app owner in
         Ok (app, owner, pendingOwner, tcb, appOwner)) with
  | Throw e => Some (Throw e)
  | Ok (app, owner, pendingOwner, tcb, appOwner) =>
      option_map (rmap (fun h : history =>
        {| app := app; owner := owner; pendingOwner := pendingOwner; requireTcbUpToDate := tcb;
           appOwner := appOwner; composeHashes := h.1; upgrades := h.2 |}))
        (readHistory fuel app fromBlock blockRange)
  end.
End Reading.

(** ** The rules *)

(** The messages pushed, by what they say. *)
Inductive failure : Type :=
| NotLongjingAppOwner (owner : string)
| DelayTooShort (delay required : Z)
| TcbNotRequired
| RunningHashNotAllowed (hash : list Z).

Inductive warning : Type :=
| TimelockNotSelfAdministered
| NoGuardian
| TransferPending (address : string)
| SeveralHashesAllowed (n : nat)
| CreditsPaused.

(** Texts are code units here: hashes also come out of event logs. *)
Definition prefix_0x : list Z := code_units "0x".

Definition strip_0x_units (s : list Z) : list Z :=
  match s with a :: b :: l => if (a =? 48) && (b =? 120) then l else s | _ => s end.

Definition lower_unit (u : Z) : Z := if (65 <=? u) && (u <=? 90) then u + 32 else u.

Section Rules.
(** [s.toLowerCase()]: [lower_unit] on ASCII, Unicode's tables beyond. *)
Context (toLowerCase : list Z -> list Z).

(** [0x${hash.replace(/^0x/, '').toLowerCase()}]. *)
Definition normalizeHash (hash : list Z) : list Z := prefix_0x ++ toLowerCase (strip_0x_units hash).

Definition checkAppGovernance (g : AppGovernance) (minDelay : option Z) (running : option (list Z))
  : list failure * list warning :=
  let required := default DEFAULT_MIN_DELAY_SECONDS minDelay in
  let '(f1, w1) :=
    match appOwner g with
    | None => ([NotLongjingAppOwner (owner g)], [])
    | Some o =>
        (if ao_minDelay o <? required then [DelayTooShort (ao_minDelay o) required] else [],
         (if timelockSelfAdministered o then [] else [TimelockNotSelfAdministered])
         ++ (if bool_decide (ao_guardian o = ZeroAddress) then [NoGuardian] else []))
    end in
  let w2 := if bool_decide (pendingOwner g = ZeroAddress) then [] else [TransferPending (pendingOwner g)] in
  let f2 := if requireTcbUpToDate g then [] else [TcbNotRequired] in
  let allowed_now := List.filter allowed (composeHashes g) in
  let f3 :=
    match running with
    | None | Some [] => []
    | Some hash =>
        match List.find (fun r => bool_decide (code_units (composeHash r) = normalizeHash hash)) (composeHashes g) with
        | Some r => if allowed r then [] else [RunningHashNotAllowed hash]
        | None => [RunningHashNotAllowed hash]
        end
    end in
  let w3 := if (1 <? length allowed_now)%nat then [SeveralHashesAllowed (length allowed_now)] else [] in
  (f1 ++ f2 ++ f3, w1 ++ w2 ++ w3).

(** [entry?.event === 'compose-hash'] on an element of the log. *)
Definition is_compose_event (entry : json) : bool :=
  match entry with
  | JNull => false
  | _ => match get_prop "event" (Some entry) with Ok v => is_string "compose-hash" v | Throw _ => false end
  end.

(** The first entry named compose-hash; a payload that is truthy but not a string
    throws, as [hash.replace] is not a function. *)
Definition composeHashFromEventLog (eventLog : list Z) : result (option (list Z)) :=
  match JSON_parse eventLog with
  | Throw _ => Ok None
  | Ok (JArr events) =>
      match List.find is_compose_event events with
      | None => Ok None
      | Some entry =>
          let* payload := get_prop "event_payload" (Some entry) in
          if negb (js_truthy payload) then Ok None
          else match payload with
               | Some (JStr s) => Ok (Some (normalizeHash s))
               | _ => Throw (TypeError "hash.replace is not a function")
               end
      end
  | Ok _ => Ok None
  end.
End Rules.

(** ** credits-governance.ts *)

Record CreditsGovernance : Type := {
  credits : string;
  cg_owner : string;
  paused : bool;
  timelock : option (Z * bool);
}.

Definition readCreditsGovernance (getAddress : string -> result string) (reader : ChainReader) (address : string)
  : result CreditsGovernance :=
  let* credits := getAddress address in
  let* owner := read_address reader credits "owner" in
  let* paused := read_bool reader credits "paused" [] in
  Ok {| credits := credits; cg_owner := owner; paused := paused;
        timelock := match readTimelock reader owner with Ok t => Some t | Throw _ => None end |}.

Definition checkCreditsGovernance (g : CreditsGovernance) (minDelay : option Z) : list failure * list warning :=
  let required := default DEFAULT_MIN_DELAY_SECONDS minDelay in
  let '(f, w) :=
    match timelock g with
    | None => ([NotLongjingAppOwner (cg_owner g)], [])
    | Some (delay, self) =>
        (if delay <? required then [DelayTooShort delay required] else [],
         if self then [] else [TimelockNotSelfAdministered])
    end in
  (f, w ++ if paused g then [CreditsPaused] else []).

(** ** release-batch.ts *)

(** [\s]. *)
Definition unit_space (u : Z) : bool :=
  ((9 <=? u) && (u <=? 13)) || (u =? 32) || (u =? 160) || (u =? 0x1680) || ((0x2000 <=? u) && (u <=? 0x200a))
  || (u =? 0x2028) || (u =? 0x2029) || (u =? 0x202f) || (u =? 0x205f) || (u =? 0x3000) || (u =? 0xfeff).

Definition line_end (u : Z) : bool := (u =? 10) || (u =? 13) || (u =? 0x2028) || (u =? 0x2029).

Fixpoint drop_units (f : Z -> bool) (l : list Z) : list Z :=
  match l with u :: l' => if f u then drop_units f l' else l | [] => [] end.

Fixpoint take_units (f : Z -> bool) (l : list Z) : list Z :=
  match l with u :: l' => if f u then u :: take_units f l' else [] | [] => [] end.

(** [\s*image:\s*(\S+)] at the head of a text: the capture and the rest. *)
Definition image_at (l : list Z) : option (list Z * list Z) :=
  match parse_word (code_units "image:") (drop_units unit_space l) with
  | None => None
  | Some l2 =>
      let l3 := drop_units unit_space l2 in
      let image := take_units (fun u => negb (unit_space u)) l3 in
      if nonempty image then Some (image, drop_units (fun u => negb (unit_space u)) l3) else None
  end.

(** [matchAll(/^\s*image:\s*(\S+)/gm)]: every match advances, so the length of the
    text is enough fuel. *)
Fixpoint all_images (fuel : nat) (line_start : bool) (l : list Z) : list (list Z) :=
  match fuel, l with
  | S f, u :: l' =>
      match (if line_start then image_at l else None) with
      | Some (image, rest) => image :: all_images f false rest
      | None => all_images f (line_end u) l'
      end
  | _, _ => []
  end.

Definition lower_hex_unit (u : Z) : bool := ((48 <=? u) && (u <=? 57)) || ((97 <=? u) && (u <=? 102)).

(** [/@sha256:[0-9a-f]{64}$/]. *)
Definition pinned (image : list Z) : bool :=
  match parse_word (code_units "@sha256:") (drop (length image - 72) image) with
  | Some digest => (length digest =? 64)%nat && forallb lower_hex_unit digest
  | None => false
  end.

Inductive compose_failure : Type :=
| NotJson
| OtherComposeFile
| NoImage
| NotPinned (image : list Z).

Definition checkAppCompose (appCompose dockerCompose : list Z) : result (list compose_failure) :=
  match JSON_parse appCompose with
  | Throw _ => Ok [NotJson]
  | Ok parsed =>
      let* file := get_prop "docker_compose_file" (Some parsed) in
      let images := all_images (length dockerCompose) true dockerCompose in
      let same := match file with Some (JStr text) => bool_decide (text = dockerCompose) | _ => false end in
      Ok ((if same then [] else [OtherComposeFile])
          ++ (if nonempty images then [] else [NoImage])
          ++ map NotPinned (List.filter (fun i => negb (pinned i)) images))
  end.

(** The SHA-256 of the file, in hexadecimal. *)
Definition composeHashOf (sha256 : list byte -> list byte) (appCompose : list byte) : string :=
  "0x" +:+ to_hex (sha256 appCompose).

(** The calls of the batch, before ABI encoding. *)
Inductive app_call : Type :=
| AddComposeHash (h : list Z)
| RemoveComposeHash (h : list Z).

(** What the batch encodes: the coder of ethers, its hash of an operation. *)
Record AbiCoder : Type := {
  encode_execute : app_call -> string;
  encode_schedule : list string -> list Z -> list string -> list Z -> Z -> string;
  encode_executeBatch : list string -> list Z -> list string -> list Z -> string;
  operation_id : list string -> list Z -> list string -> list Z -> string;
}.

Record ReleaseBatch : Type := {
  rb_composeHash : list Z;
  retired : list (list Z);
  operationId : string;
  schedule : string * string;
  execute : string * string;
}.

Section Release.
Context (toLowerCase : list Z -> list Z) (abi : AbiCoder).

Definition release_calls (composeHash : list Z) (retired : list (list Z)) : list app_call :=
  AddComposeHash composeHash :: map RemoveComposeHash retired.

Definition retired_hashes (composeHash : list Z) (allowed : list (list Z)) : list (list Z) :=
  List.filter (fun hash => negb (bool_decide (hash = toLowerCase composeHash))) (map toLowerCase allowed).

Definition buildReleaseBatch (appOwner timelock : string) (delay : Z) (composeHash : list Z)
  (allowed : list (list Z)) : ReleaseBatch :=
  let hash := toLowerCase composeHash in
  let retired := retired_hashes composeHash allowed in
  let calls := release_calls hash retired in
  let targets := map (fun _ => appOwner) calls in
  let values := map (fun _ => 0) calls in
  let payloads := map (encode_execute abi) calls in
  {| rb_composeHash := hash; retired := retired;
     operationId := operation_id abi targets values payloads hash;
     schedule := (timelock, encode_schedule abi targets values payloads hash delay);
     execute := (timelock, encode_executeBatch abi targets values payloads hash) |}.
End Release.

(** ** A release leaves one build *)

(** What the DstackApp's two methods do to the set of allowed hashes. *)
Definition apply_call (s : gset (list Z)) (c : app_call) : gset (list Z) :=
  match c with AddComposeHash h => {[h]} ∪ s | RemoveComposeHash h => s ∖ {[h]} end.

Lemma apply_removals (l : list (list Z)) (s : gset (list Z)) :
  fold_left apply_call (map RemoveComposeHash l) s = s ∖ list_to_set l.
Proof.
  revert s; induction l as [|h l IH]; intros s; cbn [map fold_left]; [set_solver|].
  rewrite IH. cbn [apply_call list_to_set]. set_solver.
Qed.

(** After the calls of a release batch run on an app that allows exactly the
    hashes read from its history, exactly one build is allowed: the released one;
    it is allowed from the first call of the batch on; and exactly the other
    allowed hashes are retired. *)
Theorem release_leaves_one_build (toLowerCase : list Z -> list Z) (abi : AbiCoder)
  appOwner timelock delay hash allowed :
  let b := buildReleaseBatch toLowerCase abi appOwner timelock delay hash allowed in
  let calls := release_calls (rb_composeHash b) (retired b) in
  fold_left apply_call calls (list_to_set (map toLowerCase allowed)) = {[ toLowerCase hash ]}
  /\ (forall n, (0 < n)%nat -> toLowerCase hash ∈ fold_left apply_call (take n calls) (list_to_set (map toLowerCase allowed)))
  /\ (forall h, h ∈ retired b <-> h ∈ map toLowerCase allowed /\ h <> toLowerCase hash).
Proof.
  intros b calls.
  assert (Hret : forall h, h ∈ retired b <-> h ∈ map toLowerCase allowed /\ h <> toLowerCase hash).
  { intros h. unfold b, buildReleaseBatch, retired_hashes; cbn [retired].
    rewrite !list_elem_of_In, filter_In, negb_true_iff, bool_decide_eq_false. done. }
  assert (Hafter : forall l, (forall h, h ∈ l -> h ∈ retired b) ->
            toLowerCase hash ∈ fold_left apply_call (map RemoveComposeHash l)
                                 ({[toLowerCase hash]} ∪ list_to_set (map toLowerCase allowed) : gset (list Z))).
  { intros l Hl. rewrite apply_removals. apply elem_of_difference. split; [set_solver|].
    intros Hin%elem_of_list_to_set%Hl%Hret. by destruct Hin. }
  split; [|split; [|exact Hret]].
  - unfold calls, release_calls. cbn [fold_left apply_call]. rewrite apply_removals.
    apply set_eq. intros h. rewrite elem_of_difference, elem_of_union, elem_of_singleton, !elem_of_list_to_set, Hret.
    change (rb_composeHash b) with (toLowerCase hash). rewrite elem_of_singleton.
    destruct (decide (h = toLowerCase hash)); tauto.
  - intros [|n] Hn; [lia|]. unfold calls, release_calls. cbn [take fold_left apply_call].
    rewrite firstn_map. apply Hafter. intros h Hh. rewrite <- (take_drop n (retired b)). apply elem_of_app. by left.
Qed.

(** ** The history does not depend on the ranges it is read in *)

Definition in_range (lo hi : Z) (l : app_log) : bool := (lo <=? l.2) && (l.2 <=? hi).

Lemma empty_range lo hi l : hi < lo -> List.filter (in_range lo hi) l = [].
Proof.
  intros H. induction l as [|x l IH]; [done|]. cbn [List.filter]. unfold in_range at 1.
  destruct (Z.leb_spec lo x.2), (Z.leb_spec x.2 hi); cbn [andb]; (lia || done).
Qed.

Lemma range_below lo hi b (l : list app_log) : Forall (fun x : app_log => b <= x.2) l -> hi < b ->
  List.filter (in_range lo hi) l = [].
Proof.
  intros H Hb. induction H as [|x l Hx _ IH]; [done|]. cbn [List.filter]. unfold in_range at 1.
  destruct (Z.leb_spec x.2 hi); [lia|]. by rewrite andb_false_r.
Qed.

Lemma range_split chain lo mid hi : StronglySorted (fun a b : app_log => a.2 <= b.2) chain ->
  lo <= mid + 1 -> mid <= hi ->
  List.filter (in_range lo mid) chain ++ List.filter (in_range (mid + 1) hi) chain
  = List.filter (in_range lo hi) chain.
Proof.
  intros Hs Hlo Hhi. induction Hs as [|x l Hs IH Hx]; [done|]. cbn [List.filter].
  destruct (Z.ltb_spec mid x.2) as [Hm|Hm].
  - assert (in_range lo mid x = false) as ->.
    { unfold in_range. destruct (Z.leb_spec x.2 mid); [lia|apply andb_false_r]. }
    assert (in_range (mid + 1) hi x = in_range lo hi x) as ->.
    { unfold in_range. destruct (Z.leb_spec (mid + 1) x.2), (Z.leb_spec lo x.2); (lia || done). }
    rewrite <- IH, (range_below lo mid x.2 l Hx Hm). by destruct (in_range lo hi x).
  - assert (in_range (mid + 1) hi x = false) as ->.
    { unfold in_range. by destruct (Z.leb_spec (mid + 1) x.2); [lia|]. }
    assert (in_range lo mid x = in_range lo hi x) as ->.
    { unfold in_range. destruct (Z.leb_spec x.2 mid), (Z.leb_spec x.2 hi); (lia || done). }
    rewrite <- IH. by destruct (in_range lo hi x).
Qed.

(** ** What the history records *)

Definition find_record (hash : string) (l : list ComposeHashRecord) : option ComposeHashRecord :=
  List.find (fun r => bool_decide (composeHash r = hash)) l.

(** The blocks at which a hash was added (or removed), and the upgrades. *)
Definition event_block (is_added : bool) (hash : string) (l : app_log) : list Z :=
  match l.1 with
  | ComposeHashAdded h => if is_added && bool_decide (h = hash) then [l.2] else []
  | ComposeHashRemoved h => if negb is_added && bool_decide (h = hash) then [l.2] else []
  | _ => []
  end.

Definition event_blocks (is_added : bool) (hash : string) (logs : list app_log) : list Z :=
  flat_map (event_block is_added hash) logs.

Definition upgrade_events (logs : list app_log) : list (string * Z) :=
  flat_map (fun l => match l.1 with Upgraded i => [(i, l.2)] | _ => [] end) logs.

Definition record_spec (logs : list app_log) (hash : string) : option ComposeHashRecord :=
  let a := event_blocks true hash logs in
  let r := event_blocks false hash logs in
  if nonempty (a ++ r) then Some {| composeHash := hash; allowed := false; added := a; removed := r |} else None.

Lemma find_record_event h hash b block l : find_record h (record_event hash b block l)
  = if bool_decide (hash = h) then Some (note_event hash b block (default (new_record hash) (find_record hash l)))
    else find_record h l.
Proof.
  unfold find_record. induction l as [|r l IH]; cbn [record_event List.find].
  - cbn [note_event new_record composeHash]. by case_bool_decide.
  - destruct (bool_decide_reflect (composeHash r = hash)) as [Hr|Hr]; cbn [List.find].
    + cbn [note_event composeHash default from_option id]. rewrite Hr. by case_bool_decide.
    + rewrite IH. destruct (bool_decide_reflect (composeHash r = h)), (bool_decide_reflect (hash = h)); congruence.
Qed.

Lemma flat_map_snoc {A B} (f : A -> list B) l x : flat_map f (l ++ [x]) = flat_map f l ++ f x.
Proof. rewrite flat_map_app. cbn. by rewrite app_nil_r. Qed.

Lemma note_spec logs hash (is_added : bool) block l :
  event_block true hash l = (if is_added then [block] else []) ->
  event_block false hash l = (if is_added then [] else [block]) ->
  record_spec (logs ++ [l]) hash
  = Some (note_event hash is_added block (default (new_record hash) (record_spec logs hash))).
Proof.
  intros Ha Hr. unfold record_spec, event_blocks. rewrite !flat_map_snoc, Ha, Hr.
  set (a := flat_map (event_block true hash) logs). set (r := flat_map (event_block false hash) logs).
  assert (nonempty ((a ++ (if is_added then [block] else [])) ++ r ++ (if is_added then [] else [block])) = true) as ->.
  { destruct is_added, a, r; done. }
  f_equal. destruct (nonempty (a ++ r)) eqn:Hn; unfold note_event; cbn [default from_option id composeHash allowed added removed new_record].
  - destruct is_added; by rewrite ?app_nil_r.
  - by destruct is_added, a, r.
Qed.

Lemma other_spec logs hash l : event_block true hash l = [] -> event_block false hash l = [] ->
  record_spec (logs ++ [l]) hash = record_spec logs hash.
Proof. intros Ha Hr. unfold record_spec, event_blocks. by rewrite !flat_map_snoc, Ha, Hr, !app_nil_r. Qed.

Lemma fold_log_spec logs : let h := fold_left fold_log logs ([], []) in
  h.2 = upgrade_events logs /\ forall hash, find_record hash h.1 = record_spec logs hash.
Proof.
  induction logs as [|[e block] logs [IH2 IH1]] using rev_ind; [done|]. cbn zeta in *.
  rewrite fold_left_app. set (h := fold_left fold_log logs ([], [])) in *. cbn [fold_left].
  unfold upgrade_events. rewrite flat_map_snoc. fold (upgrade_events logs). rewrite <- IH2.
  destruct e as [g|g|i|]; cbn [fold_log fst snd]; rewrite ?app_nil_r; (split; [done|]); intros hash.
  - rewrite find_record_event, !IH1. destruct (bool_decide_reflect (g = hash)) as [->|Hn].
    + symmetry. apply note_spec; cbn; by rewrite ?bool_decide_true by done.
    + symmetry. apply other_spec; cbn; by rewrite ?bool_decide_false by done.
  - rewrite find_record_event, !IH1. destruct (bool_decide_reflect (g = hash)) as [->|Hn].
    + symmetry. apply note_spec; cbn; by rewrite ?bool_decide_true by done.
    + symmetry. apply other_spec; cbn; by rewrite ?bool_decide_false by done.
  - rewrite IH1. symmetry. by apply other_spec.
  - rewrite IH1. symmetry. by apply other_spec.
Qed.

Section History.
Context (reader : ChainReader) (chain : list app_log).
(** The logs of the app in the order of their blocks, and a node that answers with
    those of the range asked. *)
Context (Hsorted : StronglySorted (fun a b : app_log => a.2 <= b.2) chain).
Context (Hlogs : forall a lo hi, getLogs reader a lo hi = Ok (List.filter (in_range lo hi) chain)).

Lemma scan_all fuel app range latest start h : 0 < range -> latest - start < Z.of_nat fuel ->
  scan reader fuel app range latest start h
  = Some (Ok (fold_left fold_log (List.filter (in_range start latest) chain) h)).
Proof.
  intros Hr. revert start h; induction fuel as [|fuel IH]; intros start h Hf; cbn [scan].
  - destruct (Z.leb_spec start latest); [lia|]. by rewrite empty_range.
  - destruct (Z.leb_spec start latest); [|by rewrite empty_range]. rewrite Hlogs, IH by lia.
    rewrite <- fold_left_app. do 3 f_equal.
    destruct (Z.min_spec (start + range - 1) latest) as [[Hm ->]|[Hm ->]].
    + rewrite <- (range_split chain start (start + range - 1) latest) by (done || lia).
      by replace (start + range - 1 + 1) with (start + range) by lia.
    + rewrite (empty_range (start + range)) by lia. apply app_nil_r.
Qed.

Definition with_allowed (a : bool) (r : ComposeHashRecord) : ComposeHashRecord :=
  {| composeHash := composeHash r; allowed := a; added := added r; removed := removed r |}.

Lemma read_allowed_ok app l l' hash : read_allowed reader app l = Ok l' ->
  match find_record hash l with
  | None => find_record hash l' = None
  | Some r => exists a, read_bool reader app "allowedComposeHashes" [composeHash r] = Ok a
                /\ find_record hash l' = Some (with_allowed a r)
  end.
Proof.
  unfold find_record. revert l'; induction l as [|r l IH]; intros l' H; cbn [read_allowed] in H.
  - by injection H as <-.
  - apply rbind_ok in H as (a & Ha & H). apply rbind_ok in H as (rest & Hrest & H).
    assert (l' = with_allowed a r :: rest) as -> by (unfold with_allowed; congruence). cbn [List.find with_allowed composeHash].
    case_bool_decide; [by exists a|]. by apply IH.
Qed.

(** C31: the history is complete and does not depend on the ranges. Read in ranges of
    any positive size from any block, it ends (with fuel for one range per block);
    the upgrades are those of the logs in order; a hash has a record exactly when
    some log of the whole range adds or removes it; the record lists every block
    that added and every block that removed it, in order; and its [allowed] is
    what the contract answers, not what the log suggests. *)
Theorem history_is_complete fuel app from range latest : 0 < range ->
  getBlockNumber reader = Ok latest -> latest - from < Z.of_nat fuel ->
  exists r, readHistory reader fuel app (Some from) (Some range) = Some r
    /\ forall records ups, r = Ok (records, ups) ->
       let logs := List.filter (in_range from latest) chain in
       ups = upgrade_events logs
       /\ forall hash, match find_record hash records with
          | None => event_blocks true hash logs = [] /\ event_blocks false hash logs = []
          | Some rec =>
              composeHash rec = hash
              /\ added rec = event_blocks true hash logs /\ removed rec = event_blocks false hash logs
              /\ read_bool reader app "allowedComposeHashes" [hash] = Ok (allowed rec)
          end.
Proof.
  intros Hr Hl Hf. unfold readHistory. rewrite Hl. cbn [default from_option id].
  rewrite scan_all by done. set (logs := List.filter (in_range from latest) chain).
  destruct (fold_log_spec logs) as [Hu Hspec]. set (h := fold_left fold_log logs ([], [])) in *.
  eexists. split; [reflexivity|]. intros records ups H. cbn [rbind] in H.
  apply rbind_ok in H as (l' & Ha & H). cbn zeta. fold logs.
  assert (ups = h.2 /\ records = l') as [-> ->] by (split; congruence). split; [exact Hu|]. intros hash.
  pose proof (read_allowed_ok app h.1 l' hash Ha) as Hread. rewrite Hspec in Hread. unfold record_spec in Hread.
  destruct (nonempty (event_blocks true hash logs ++ event_blocks false hash logs)) eqn:Hn.
  - destruct Hread as (a & Hb & ->). by repeat split.
  - rewrite Hread. by destruct (event_blocks true hash logs), (event_blocks false hash logs).
Qed.
End History.

(** ** A passing check *)

Lemma read_allowed_in reader app l l' r : read_allowed reader app l = Ok l' -> List.In r l' ->
  read_bool reader app "allowedComposeHashes" [composeHash r] = Ok (allowed r).
Proof.
  revert l'; induction l as [|x l IH]; intros l' H; cbn [read_allowed] in H.
  - by injection H as <-.
  - apply rbind_ok in H as (a & Ha & H). apply rbind_ok in H as (rest & Hrest & H).
    assert (l' = with_allowed a x :: rest) as -> by (unfold with_allowed; congruence).
    intros [<-|Hin]; [exact Ha|by apply (IH rest)].
Qed.

(** The checks pass exactly when the rules hold of what was read. *)
Lemma check_passes toLowerCase g minDelay running w :
  checkAppGovernance toLowerCase g minDelay running = ([], w) ->
  exists o, appOwner g = Some o /\ default DEFAULT_MIN_DELAY_SECONDS minDelay <= ao_minDelay o
    /\ requireTcbUpToDate g = true
    /\ (forall h, running = Some h -> h <> [] -> exists r, List.In r (composeHashes g)
          /\ code_units (composeHash r) = normalizeHash toLowerCase h /\ allowed r = true)
    /\ (w = [] -> timelockSelfAdministered o = true /\ ao_guardian o <> ZeroAddress
          /\ pendingOwner g = ZeroAddress /\ (length (List.filter allowed (composeHashes g)) <= 1)%nat).
Proof.
  unfold checkAppGovernance. destruct (appOwner g) as [o|]; [|done]. intros H. injection H as Hf Hw.
  apply app_eq_nil in Hf as [Hd Hf]. apply app_eq_nil in Hf as [Ht Hr]. exists o. split; [done|].
  split; [by destruct (Z.ltb_spec (ao_minDelay o) (default DEFAULT_MIN_DELAY_SECONDS minDelay))|].
  split; [by destruct (requireTcbUpToDate g)|]. split.
  - intros h -> Hne. destruct h as [|u h]; [done|].
    destruct (List.find _ (composeHashes g)) as [r|] eqn:Hfind; [|done].
    apply find_some in Hfind as [Hin Heq]. apply bool_decide_eq_true in Heq.
    exists r. split; [done|]. split; [done|]. by destruct (allowed r).
  - intros ->. apply app_eq_nil in Hw as [Hw1 Hw]. apply app_eq_nil in Hw as [Hw2 Hw3].
    apply app_eq_nil in Hw1 as [Hs Hg]. split; [by destruct (timelockSelfAdministered o)|].
    split; [by destruct (bool_decide_reflect (ao_guardian o = ZeroAddress))|].
    split; [by destruct (bool_decide_reflect (pendingOwner g = ZeroAddress))|].
    destruct (Nat.ltb_spec 1 (length (List.filter allowed (composeHashes g)))); [done|lia].
Qed.

Lemma readAppOwner_ok reader app owner o : readAppOwner reader app owner = Ok (Some o) ->
  ao_address o = owner /\ read_address reader owner "app" = Ok app
  /\ read_address reader owner "timelock" = Ok (ao_timelock o)
  /\ read_uint reader (ao_timelock o) "getMinDelay" = Ok (ao_minDelay o).
Proof.
  unfold readAppOwner. intros H. destruct (read_address reader owner "app") as [governed|]; cbn [rbind] in H; [|done].
  destruct (read_address reader owner "timelock") as [t|]; cbn [rbind] in H; [|done].
  destruct (read_address reader owner "guardian") as [gu|]; cbn [rbind] in H; [|done].
  case_bool_decide; cbn [negb] in H; [subst|done].
  apply rbind_ok in H as ([d self] & Ht & H). unfold readTimelock in Ht.
  apply rbind_ok in Ht as (d' & Hd & Ht). apply rbind_ok in Ht as (s' & _ & Ht).
  injection Ht as <- <-. by injection H as <-.
Qed.

(** C28: when the governance read from the chain passes the checks, the chain itself
    says: the app's owner governs this very app and names a timelock whose minimum
    delay is at least the one required, up-to-date TCBs are required, and the
    running build, when given, is allowed. Without a warning moreover nobody else
    administers the timelock, there is a guardian, no transfer of ownership is
    pending and no second build can derive the keys. *)
Theorem passing_governance_holds_on_chain getAddress reader toLowerCase fuel address from range g minDelay running w :
  readAppGovernance getAddress reader fuel address from range = Some (Ok g) ->
  checkAppGovernance toLowerCase g minDelay running = ([], w) ->
  exists o, appOwner g = Some o
    /\ read_address reader (app g) "owner" = Ok (ao_address o)
    /\ read_address reader (ao_address o) "app" = Ok (app g)
    /\ read_address reader (ao_address o) "timelock" = Ok (ao_timelock o)
    /\ read_uint reader (ao_timelock o) "getMinDelay" = Ok (ao_minDelay o)
    /\ default DEFAULT_MIN_DELAY_SECONDS minDelay <= ao_minDelay o
    /\ read_bool reader (app g) "requireTcbUpToDate" [] = Ok true
    /\ (forall h, running = Some h -> h <> [] -> exists hash, code_units hash = normalizeHash toLowerCase h
          /\ read_bool reader (app g) "allowedComposeHashes" [hash] = Ok true)
    /\ (w = [] -> timelockSelfAdministered o = true /\ ao_guardian o <> ZeroAddress
          /\ read_address reader (app g) "pendingOwner" = Ok ZeroAddress
          /\ (length (List.filter allowed (composeHashes g)) <= 1)%nat).
Proof.
  intros Hread (o & Ho & Hd & Htcb & Hrun & Hw)%check_passes. unfold readAppGovernance in Hread.
  destruct (getAddress address) as [a|]; cbn [rbind] in Hread; [|done].
  destruct (read_address reader a "owner") as [ow|] eqn:How; cbn [rbind] in Hread; [|done].
  destruct (read_address reader a "pendingOwner") as [po|] eqn:Hpo; cbn [rbind] in Hread; [|done].
  destruct (read_bool reader a "requireTcbUpToDate" []) as [tcb|] eqn:Ht; cbn [rbind] in Hread; [|done].
  destruct (readAppOwner reader a ow) as [ao|] eqn:Hao; cbn [rbind] in Hread; [|done].
  destruct (readHistory reader fuel a from range) as [rh|] eqn:Hh; [|done]. cbn [option_map] in Hread.
  destruct rh as [[records ups]|]; [|done]. injection Hread as <-. cbn [app pendingOwner requireTcbUpToDate appOwner composeHashes] in *.
  subst ao tcb. apply readAppOwner_ok in Hao as (<- & Happ & Htl & Hdel).
  exists o. split; [reflexivity|]. do 6 (split; [assumption|]). split.
  - intros h Hr Hne. destruct (Hrun h Hr Hne) as (r & Hin & Heq & Hall). exists (composeHash r). split; [exact Heq|].
    unfold readHistory in Hh. destruct (getBlockNumber reader) as [latest|]; [|done].
    destruct (scan _ _ _ _ _ _ _) as [[h0|]|]; [|done|done]. cbn [rbind] in Hh.
    destruct (read_allowed reader a h0.1) as [l'|] eqn:Hl; [|done]. injection Hh as -> _.
    rewrite (read_allowed_in reader a h0.1 records r Hl Hin). by rewrite Hall.
  - intros Hw0. destruct (Hw Hw0) as (? & ? & -> & ?). by repeat split.
Qed.

(** ** The name and payload of an event that is not a runtime event *)

(** An event renamed compose-hash, with another payload. *)
Definition relabel (h : list Z) (fields : list (list Z * json)) : list (list Z * json) :=
  set_field (code_units "event") (JStr (code_units "compose-hash"))
    (set_field (code_units "event_payload") (JStr h) fields).

Lemma field_relabel k h fields : k <> "event"%string -> k <> "event_payload"%string ->
  field k (relabel h fields) = field k fields.
Proof. intros H1 H2. unfold relabel. by rewrite !field_set, !bool_decide_false. Qed.

Lemma relabel_extension sha384 from_value h fields :
  is_number DSTACK_RUNTIME_EVENT_TYPE (field "event_type" fields) = false ->
  extension sha384 from_value (JObj (relabel h fields)) = extension sha384 from_value (JObj fields).
Proof. intros Ht. unfold extension. cbn [get_prop rbind]. rewrite !field_relabel by done. by rewrite Ht. Qed.

(** The event log does not authenticate the compose hash read from it. Take any
    log a quote verifies whose first entry is not a dstack runtime event (the boot
    measurements are not): renaming that entry compose-hash and giving it any
    payload leaves the log accepted for the same quote, and [composeHashFromEventLog]
    then returns the forged hash, whatever the true one further down the log is. *)
Theorem compose_hash_can_be_forged toLowerCase sha384 from_value quote log log' fields rest h :
  JSON_parse log = Ok (JArr (JObj fields :: rest)) ->
  is_number DSTACK_RUNTIME_EVENT_TYPE (field "event_type" fields) = false ->
  JSON_parse log' = Ok (JArr (JObj (relabel h fields) :: rest)) -> h <> [] ->
  verifyEventLog sha384 from_value quote log = Ok [] ->
  verifyEventLog sha384 from_value quote log' = Ok []
  /\ composeHashFromEventLog toLowerCase log' = Ok (Some (normalizeHash toLowerCase h)).
Proof.
  intros Hp Ht Hp' Hne Hv. split.
  - rewrite <- Hv. unfold verifyEventLog, replayRtmrs. rewrite Hp, Hp'. cbn [rbind iterate replay_loop].
    by rewrite relabel_extension.
  - unfold composeHashFromEventLog. rewrite Hp'. cbn [List.find is_compose_event get_prop].
    unfold relabel. rewrite !field_set, bool_decide_true by done. cbn [is_string]. rewrite bool_decide_true by done.
    cbn [get_prop rbind]. rewrite !field_set, bool_decide_false, bool_decide_true by done. cbn [rbind js_truthy].
    by destruct h.
Qed.

(** ** A concrete app *)

Definition toy_chain : list app_log :=
  [(ComposeHashAdded "0xab", 3); (ComposeHashRemoved "0xab", 5); (Upgraded "0x11", 5); (ComposeHashAdded "0xcd", 9)].

Definition toy_reader : ChainReader :=
  {| read_address := fun to method =>
       Ok (if bool_decide (method = "owner") then "0x22" else if bool_decide (method = "app") then "0x01"
           else if bool_decide (method = "timelock") then "0x33"
           else if bool_decide (method = "pendingOwner") then ZeroAddress else "0x44")%string;
     read_bool := fun _ method args => Ok (negb (bool_decide (args = ["0xab"%string])));
     read_uint := fun _ _ => Ok 700000;
     getBlockNumber := Ok 12;
     getLogs := fun _ lo hi => Ok (List.filter (in_range lo hi) toy_chain) |}.

Lemma toy_chain_sorted : StronglySorted (fun a b : app_log => a.2 <= b.2) toy_chain.
Proof. repeat first [apply SSorted_nil|apply SSorted_cons|apply Forall_nil_2|apply Forall_cons_2; [cbn; lia|]]. Qed.

Lemma history_is_complete_witness :
  exists r, readHistory toy_reader 20 "0x01" (Some 0) (Some 4) = Some r
    /\ forall records ups, r = Ok (records, ups) -> ups = [("0x11"%string, 5)].
Proof.
  destruct (history_is_complete toy_reader toy_chain toy_chain_sorted (fun _ _ _ => eq_refl) 20 "0x01" 0 4 12)
    as (r & Hr & H); [lia|reflexivity|lia|].
  exists r. split; [exact Hr|]. intros records ups Hru. exact (proj1 (H records ups Hru)).
Defined.

Definition ascii_lower (s : list Z) : list Z := map lower_unit s.

Lemma passing_governance_holds_on_chain_witness :
  exists g, readAppGovernance (fun a => Ok a) toy_reader 20 "0x01" None None = Some (Ok g)
    /\ checkAppGovernance ascii_lower g None (Some (code_units "0xCD")) = ([], [])
    /\ exists o, appOwner g = Some o /\ read_address toy_reader (app g) "owner" = Ok (ao_address o).
Proof.
  destruct (readAppGovernance (fun a => Ok a) toy_reader 20 "0x01" None None) as [[g|]|] eqn:Hg;
    [|vm_compute in Hg; discriminate..].
  exists g. split; [reflexivity|].
  assert (Hc : checkAppGovernance ascii_lower g None (Some (code_units "0xCD")) = ([], [])).
  { vm_compute in Hg. injection Hg as <-. vm_compute. reflexivity. }
  split; [exact Hc|].
  destruct (passing_governance_holds_on_chain (fun a => Ok a) toy_reader ascii_lower 20 "0x01" None None g None _ _ Hg Hc)
    as (o & Ho & How & _).
  by exists o.
Defined.

Definition forged_log : list Z :=
  json_text "[{'imr':3,'event_type':1,'digest':'0a0b','event':'compose-hash','event_payload':'ff'}]".

Lemma compose_hash_can_be_forged_witness :
  verifyEventLog toy_sha384 toy_from_value toy_quote forged_log = Ok []
  /\ composeHashFromEventLog ascii_lower forged_log = Ok (Some (code_units "0xff")).
Proof.
  assert (Hlog : exists fields, JSON_parse toy_log = Ok (JArr [JObj fields])
            /\ is_number DSTACK_RUNTIME_EVENT_TYPE (field "event_type" fields) = false
            /\ JSON_parse forged_log = Ok (JArr [JObj (relabel (code_units "ff") fields)])).
  { eexists. split; [vm_compute; reflexivity|]. split; vm_compute; reflexivity. }
  destruct Hlog as (fields & H1 & H2 & H3).
  apply (compose_hash_can_be_forged ascii_lower toy_sha384 toy_from_value toy_quote toy_log forged_log fields []
           (code_units "ff") H1 H2 H3); [done|].
  vm_compute. reflexivity.
Defined.
