(* ===== verification/Keys.v ===== *)
(** * Keys derived in the enclave

    [src/keys/dstack-v1.client.ts] and [key-derivation.service.ts]: the answers of
    the dstack guest agent, the derivation of the four long-lived keys and the
    signed key manifest. The transport, HKDF, ML-KEM, secp256k1 and EIP-712 are
    parameters. Buffers zeroed after use are not read again, so the zeroing is not
    in the model. *)

From Stdlib Require Import Ascii String.
From S2P Require Import Prelude JsText JsNumber FieldElement HexText Json Profile Quote RefundSigner.
Open Scope Z_scope.

(** ** dstack-v1.client.ts *)

Definition DSTACK_SOCKET_PATH : string := "/var/run/dstack.sock".

(** An answer of the guest agent: the status and the decoded body. *)
Definition reply : Type := Z * list Z.

(** The bodies of the calls, before JSON. *)
Inductive dstack_call : Type :=
| GetKey (domain algorithm : string)
| GetTlsKey (subject : string) (alt_names : list string)
| GetQuote (report_data : string)
| Info.

Record GetKeyResponse : Type := {
  gk_key : list byte;
  gk_publicKey : list byte;
  gk_signatureChain : list (list byte);
}.

Record GetTlsKeyResponse : Type := {
  gt_key : list Z;
  gt_certificateChain : list (list Z);
  gt_leafCertificateDer : list byte;
}.

Record GetQuoteResponse : Type := { gq_quote : list byte; gq_eventLog : list Z }.

Section Dstack.
(** The endpoint the constructor read, the transport, [getAddress] of ethers and the
    X.509 reader of Node. *)
Context (e : env) (transport : string -> dstack_call -> result reply).
Context (getAddress : list Z -> result string) (x509_der : list Z -> result (list byte)).

Definition endpoint : string :=
  match e !! "DSTACK_SIMULATOR_ENDPOINT"%string with
  | Some v => if str_len v =? 0 then DSTACK_SOCKET_PATH else v
  | None => DSTACK_SOCKET_PATH
  end.

Definition isSimulator : bool := negb (bool_decide (endpoint = DSTACK_SOCKET_PATH)).

Definition call (body : dstack_call) : result json :=
  let* r := transport endpoint body in
  if negb (r.1 =? 200) then Throw (Error "dstack call failed")
  else match JSON_parse r.2 with
       | Ok v => Ok v
       | Throw _ => Throw (Error "dstack returned invalid JSON")
       end.

Definition unit_is_hex (u : Z) : bool := is_hex_digit (unit_ascii u).

(** Strict: an odd length or a character that is not a hex digit throws. *)
Definition decodeHex (value : jsv) : result (list byte) :=
  match value with
  | Some (JStr s) =>
      let hex := match parse_word (code_units "0x") s with Some l => l | None => s end in
      if negb (length hex mod 2 =? 0)%nat || negb (forallb unit_is_hex hex)
      then Throw (Error "dstack returned a malformed field")
      else Ok (hex_of_units hex)
  | _ => Throw (Error "dstack returned no field")
  end.

Fixpoint decode_all (l : list json) : result (list (list byte)) :=
  match l with
  | [] => Ok []
  | v :: l' => let* x := decodeHex (Some v) in let* xs := decode_all l' in Ok (x :: xs)
  end.

Definition getKey (domain algorithm : string) : result GetKeyResponse :=
  let* r := call (GetKey domain algorithm) in
  let* chain := get_prop "signature_chain" (Some r) in
  match chain with
  | Some (JArr links) =>
      let* key := get_prop "key" (Some r) in
      let* key := decodeHex key in
      let* public := get_prop "public_key" (Some r) in
      let* public := decodeHex public in
      let* chain := decode_all links in
      Ok {| gk_key := key; gk_publicKey := public; gk_signatureChain := chain |}
  | _ => Throw (Error "dstack GetKey returned no signature_chain")
  end.

Definition as_string (v : json) : option (list Z) := match v with JStr s => Some s | _ => None end.

Fixpoint all_strings (l : list json) : option (list (list Z)) :=
  match l with
  | [] => Some []
  | v :: l' => match as_string v, all_strings l' with Some s, Some ss => Some (s :: ss) | _, _ => None end
  end.

Definition getTlsKey (altNames : list string) : result GetTlsKeyResponse :=
  let subject := match altNames with n :: _ => n | [] => "longjing"%string end in
  let* r := call (GetTlsKey subject altNames) in
  let* chain := get_prop "certificate_chain" (Some r) in
  let* key := get_prop "key" (Some r) in
  match key, chain with
  | Some (JStr key), Some (JArr (leaf :: rest)) =>
      match all_strings (leaf :: rest) with
      | Some (pem :: pems) =>
          let* der := x509_der pem in
          Ok {| gt_key := key; gt_certificateChain := pem :: pems; gt_leafCertificateDer := der |}
      | _ => Throw (Error "dstack GetTlsKey returned no key or certificate_chain")
      end
  | _, _ => Throw (Error "dstack GetTlsKey returned no key or certificate_chain")
  end.

Definition getQuote (reportData : list byte) : result GetQuoteResponse :=
  if (64 <? length reportData)%nat then Throw (Error "report_data must be at most 64 bytes")
  else
    let* r := call (GetQuote (to_hex reportData)) in
    let* log := get_prop "event_log" (Some r) in
    match log with
    | Some (JStr eventLog) =>
        let* quote := get_prop "quote" (Some r) in
        let* quote := decodeHex quote in
        Ok {| gq_quote := quote; gq_eventLog := eventLog |}
    | _ => Throw (Error "dstack GetQuote returned no event_log")
    end.

Definition getAppId : result string :=
  let* r := call Info in
  let* appId := get_prop "app_id" (Some r) in
  match appId with
  | Some (JStr s) =>
      match parse_word (code_units "0x") s with
      | Some _ => getAddress s
      | None => getAddress (code_units "0x" ++ s)
      end
  | _ => Throw (Error "dstack Info returned no app_id")
  end.
End Dstack.

(** ** key-derivation.service.ts *)

Definition MLKEM_DOMAIN : string := "longjing/mlkem-1024/v1".
Definition REFUND_SIGNER_DOMAIN : string := "longjing/refund-signer/babyjub/v1".
Definition IDENTITY_DOMAIN : string := "longjing/identity/v1".
Definition TX_SIGNER_DOMAIN : string := "longjing/tx-signer/v1".
Definition HKDF_SALT : string := "longjing".
Definition MLKEM_SEED_INFO : result (list byte) := lengthPrefixed (Buffer_from "longjing-mlkem-1024-seed-v1").
Definition REFUND_SIGNER_INFO : result (list byte) := lengthPrefixed (Buffer_from "longjing-refund-signer-babyjub-v1").

Record KeyManifest : Type := {
  km_appId : string;
  mlkemPublicKeyHash : string;
  refundSignerX : string;
  refundSignerY : string;
  tlsCertificateHash : string;
  txSignerAddress : string;
  epoch : Z;
}.

Record SignedKeyManifest : Type := { manifest : KeyManifest; manifest_signature : string }.

(** A secp256k1 SigningKey: the private bytes and the uncompressed public key. *)
Record SigningKey : Type := { sk_private : list byte; sk_public : list byte }.

(** The cryptographic libraries. [new_signing_key] is [new SigningKey(hexlify(key))],
    [sign_typed] is [key.sign(TypedDataEncoder.hash(...)).serialized]. *)
Record Crypto : Type := {
  hkdf : list byte -> string -> list byte -> nat -> list byte;
  deriveKeyPair : list byte -> list byte * list byte;
  decap : list byte -> list byte -> result (list byte);
  new_signing_key : list byte -> result SigningKey;
  computeAddress : list byte -> string;
  sign_typed : SigningKey -> KeyManifest -> string;
}.

(** The fields of the service, null until [derive] ends. *)
Record KeyDerivationService : Type := {
  mlkemPair : option (list byte * list byte);
  refundSigner : option (list byte * (string * string) * list (list byte));
  identity : option (SigningKey * list (list byte));
  txSigner : option SigningKey;
  appId : option string;
  keyManifest : option SignedKeyManifest;
}.

Definition new_key_derivation : KeyDerivationService :=
  {| mlkemPair := None; refundSigner := None; identity := None; txSigner := None; appId := None;
     keyManifest := None |}.

Section Derivation.
Context (sha256 : list byte -> list byte) (crypto : Crypto) (circom : Circomlib).
Context (e : env) (transport : string -> dstack_call -> result reply).
Context (getAddress : list Z -> result string).

Definition ZeroHash : string := "0x" +:+ of_chars (repeat zero_char 64).

(** [sha256(bytes)] of ethers, 0x-hex. *)
Definition sha256_hex (bytes : list byte) : string := "0x" +:+ to_hex (sha256 bytes).

Definition derive (s : KeyDerivationService) : result KeyDerivationService :=
  let* mlkemSource := getKey e transport MLKEM_DOMAIN "ed25519" in
  let* info := MLKEM_SEED_INFO in
  let pair := deriveKeyPair crypto (hkdf crypto (gk_key mlkemSource) HKDF_SALT info 64) in
  let* signer := getKey e transport REFUND_SIGNER_DOMAIN "ed25519" in
  let* info := REFUND_SIGNER_INFO in
  let signerKey := hkdf crypto (gk_key signer) HKDF_SALT info 32 in
  let* id := getKey e transport IDENTITY_DOMAIN "secp256k1" in
  let* signingKey := new_signing_key crypto (gk_key id) in
  let* tx := getKey e transport TX_SIGNER_DOMAIN "secp256k1" in
  let* txKey := new_signing_key crypto (gk_key tx) in
  let* app := getAppId e transport getAddress in
  Ok {| mlkemPair := Some pair;
        refundSigner := Some (signerKey, public_text circom signerKey, gk_signatureChain signer);
        identity := Some (signingKey, gk_signatureChain id); txSigner := Some txKey;
        appId := Some app; keyManifest := keyManifest s |}.

Definition onModuleInit (s : KeyDerivationService) : result KeyDerivationService :=
  let* prod := isProd e in
  let production := prod && negb (keysOutsideEnclaveAllowed e) in
  if production && isSimulator e
  then Throw (Error "DSTACK_SIMULATOR_ENDPOINT must not be set in production: its keys are public")
  else match derive s with
       | Ok s' => Ok s'
       | Throw _ => if production then Throw (Error "Key derivation from dstack v1 GetKey failed") else Ok s
       end.

Definition isAvailable (s : KeyDerivationService) : bool :=
  bool_decide (is_Some (mlkemPair s)) && bool_decide (is_Some (refundSigner s))
  && bool_decide (is_Some (identity s)) && bool_decide (is_Some (txSigner s)).

Definition getMlKemPublicKey (s : KeyDerivationService) : option (list byte) := fst <$> mlkemPair s.

Definition decapsulate (ciphertext : list byte) (s : KeyDerivationService) : result (list byte) :=
  match mlkemPair s with
  | Some (_, secret) => decap crypto ciphertext secret
  | None => Throw (Error "ML-KEM keys not derived")
  end.

Definition getRefundSignerPrivateKey (s : KeyDerivationService) : option (list byte) := fst ∘ fst <$> refundSigner s.
Definition getRefundSignerPublicKey (s : KeyDerivationService) : option (string * string) := snd ∘ fst <$> refundSigner s.
Definition getRefundSignerSignatureChain (s : KeyDerivationService) : list (list byte) :=
  match refundSigner s with Some (_, chain) => chain | None => [] end.
Definition getIdentityAddress (s : KeyDerivationService) : option string :=
  (fun k => computeAddress crypto (sk_public k.1)) <$> identity s.
Definition getIdentityPublicKey (s : KeyDerivationService) : option (list byte) := (fun k => sk_public k.1) <$> identity s.
Definition getIdentitySignatureChain (s : KeyDerivationService) : list (list byte) :=
  match identity s with Some (_, chain) => chain | None => [] end.
Definition getTxSignerAddress (s : KeyDerivationService) : option string :=
  (fun k => computeAddress crypto (sk_public k)) <$> txSigner s.

Definition signKeyManifest (app certificateHash : string) (ep : Z) (s : KeyDerivationService)
  : result SignedKeyManifest :=
  match identity s, txSigner s, mlkemPair s, refundSigner s with
  | Some (id, _), Some tx, Some (public, _), Some (_, signer, _) =>
      let m := {| km_appId := app; mlkemPublicKeyHash := sha256_hex public;
                  refundSignerX := signer.1; refundSignerY := signer.2;
                  tlsCertificateHash := certificateHash;
                  txSignerAddress := computeAddress crypto (sk_public tx); epoch := ep |} in
      Ok {| manifest := m; manifest_signature := sign_typed crypto id m |}
  | _, _, _, _ => Throw (Error "Keys not derived")
  end.

(** [cert] is what [getTlsLeafCertificate()] returns now. *)
Definition getKeyManifest (cert : option (list byte)) (s : KeyDerivationService)
  : KeyDerivationService * result (option SignedKeyManifest) :=
  match appId s with
  | None => (s, Ok None)
  | Some app =>
      if str_len app =? 0 then (s, Ok None)
      else
        let hash := match cert with Some der => sha256_hex der | None => ZeroHash end in
        if bool_decide ((tlsCertificateHash ∘ manifest <$> keyManifest s) = Some hash)
        then (s, Ok (keyManifest s))
        else match signKeyManifest app hash 1 s with
             | Throw err => (s, Throw err)
             | Ok m => ({| mlkemPair := mlkemPair s; refundSigner := refundSigner s; identity := identity s;
                           txSigner := txSigner s; appId := appId s; keyManifest := Some m |}, Ok (Some m))
             end
  end.
End Derivation.

(** ** Facts *)

Section Facts.
Context (sha256 : list byte -> list byte) (crypto : Crypto) (circom : Circomlib).
Context (e : env) (transport : string -> dstack_call -> result reply).
Context (getAddress : list Z -> result string).

(** The keys one root gives: what [derive] computes from the answers of the agent. *)
Record derived_from (s : KeyDerivationService) : Prop := {
  df_mlkem : exists r info, getKey e transport MLKEM_DOMAIN "ed25519" = Ok r /\ MLKEM_SEED_INFO = Ok info
    /\ mlkemPair s = Some (deriveKeyPair crypto (hkdf crypto (gk_key r) HKDF_SALT info 64));
  df_signer : exists r info, getKey e transport REFUND_SIGNER_DOMAIN "ed25519" = Ok r /\ REFUND_SIGNER_INFO = Ok info
    /\ let key := hkdf crypto (gk_key r) HKDF_SALT info 32 in
       refundSigner s = Some (key, public_text circom key, gk_signatureChain r);
  df_identity : exists r k, getKey e transport IDENTITY_DOMAIN "secp256k1" = Ok r
    /\ new_signing_key crypto (gk_key r) = Ok k /\ identity s = Some (k, gk_signatureChain r);
  df_tx : exists r k, getKey e transport TX_SIGNER_DOMAIN "secp256k1" = Ok r
    /\ new_signing_key crypto (gk_key r) = Ok k /\ txSigner s = Some k;
  df_app : exists a, getAppId e transport getAddress = Ok a /\ appId s = Some a;
}.

Lemma derive_ok s s' : derive crypto circom e transport getAddress s = Ok s' ->
  derived_from s' /\ keyManifest s' = keyManifest s.
Proof.
  unfold derive. intros H. apply rbind_ok in H as (r1 & H1 & H). apply rbind_ok in H as (i1 & I1 & H).
  apply rbind_ok in H as (r2 & H2 & H). apply rbind_ok in H as (i2 & I2 & H).
  apply rbind_ok in H as (r3 & H3 & H). apply rbind_ok in H as (k3 & K3 & H).
  apply rbind_ok in H as (r4 & H4 & H). apply rbind_ok in H as (k4 & K4 & H).
  apply rbind_ok in H as (a & Ha & H).
  apply (f_equal (fun r => match r with Ok x => x | Throw _ => s' end)) in H. subst s'.
  split; [|done]. split; cbn [mlkemPair refundSigner identity txSigner appId].
  - by exists r1, i1.
  - by exists r2, i2.
  - by exists r3, k3.
  - by exists r4, k4.
  - by exists a.
Qed.

Lemma derived_available s : derived_from s -> isAvailable s = true.
Proof.
  intros [(? & ? & _ & _ & Hm) (? & ? & _ & _ & Hr) (? & ? & _ & _ & Hi) (? & ? & _ & _ & Ht) _].
  unfold isAvailable. by rewrite Hm, Hr, Hi, Ht.
Qed.

(** Where the keys come from. When the service starts in production without the
    compose opt-out, the agent is the enclave's socket and every key, with the
    app id, is the one derived from its answers; there is no start without them.
    Elsewhere a failed derivation leaves the service exactly as it was: never some
    of the keys. *)
Theorem keys_are_derived_or_absent s s' :
  onModuleInit crypto circom e transport getAddress s = Ok s' ->
  (isProd e = Ok true -> keysOutsideEnclaveAllowed e = false ->
     endpoint e = DSTACK_SOCKET_PATH /\ derived_from s' /\ isAvailable s' = true)
  /\ (derived_from s' /\ keyManifest s' = keyManifest s \/ s' = s).
Proof.
  unfold onModuleInit. intros H. apply rbind_ok in H as (prod & Hp & H).
  destruct (prod && negb (keysOutsideEnclaveAllowed e)) eqn:Hprod; cbn [andb] in H.
  - destruct (isSimulator e) eqn:Hsim; [done|].
    destruct (derive crypto circom e transport getAddress s) as [s1|] eqn:Hd; [|done].
    injection H as <-. apply derive_ok in Hd as [Hd Hm]. split; [|by left]. intros _ _.
    split; [|split; [done|by apply derived_available]].
    unfold isSimulator in Hsim. by apply negb_false_iff, bool_decide_eq_true in Hsim.
  - split.
    + intros Hp' Hk. rewrite Hp' in Hp. injection Hp as <-. by rewrite Hk in Hprod.
    + destruct (derive crypto circom e transport getAddress s) as [s1|] eqn:Hd; [|right; congruence].
      injection H as <-. left. by apply derive_ok.
Qed.

(** The manifest the keys sign for a certificate, without the cache. *)
Definition fresh_manifest (cert : option (list byte)) (s : KeyDerivationService)
  : result (option SignedKeyManifest) :=
  match appId s with
  | None => Ok None
  | Some app =>
      if str_len app =? 0 then Ok None
      else rmap Some (signKeyManifest sha256 crypto app
             (match cert with Some der => sha256_hex sha256 der | None => ZeroHash end) 1 s)
  end.

(** The cached manifest is one the current keys signed. *)
Definition cache_ok (s : KeyDerivationService) : Prop :=
  match keyManifest s with
  | None => True
  | Some m => exists app, appId s = Some app
                /\ signKeyManifest sha256 crypto app (tlsCertificateHash (manifest m)) 1 s = Ok m
  end.

Lemma signKeyManifest_hash app hash n s m : signKeyManifest sha256 crypto app hash n s = Ok m ->
  tlsCertificateHash (manifest m) = hash.
Proof.
  unfold signKeyManifest. destruct (identity s) as [[? ?]|]; [|done]. destruct (txSigner s); [|done].
  destruct (mlkemPair s) as [[? ?]|]; [|done]. destruct (refundSigner s) as [[[? ?] ?]|]; [|done].
  intros H. by injection H as <-.
Qed.

(** The cache of the key manifest is invisible. Whatever manifests were asked for
    before and however the served certificate changed in between, a call answers
    what signing anew for the current certificate gives, and the keys are
    untouched. *)
Theorem manifest_cache_is_transparent certs cert s s' r : cache_ok s ->
  s' = fold_left (fun s c => fst (getKeyManifest sha256 crypto c s)) certs s ->
  getKeyManifest sha256 crypto cert s' = r ->
  snd r = fresh_manifest cert s /\ cache_ok (fst r) /\ mlkemPair (fst r) = mlkemPair s
  /\ refundSigner (fst r) = refundSigner s /\ identity (fst r) = identity s.
Proof.
  assert (Hstep : forall c s, cache_ok s -> let r := getKeyManifest sha256 crypto c s in
            snd r = fresh_manifest c s /\ cache_ok (fst r)
            /\ (mlkemPair (fst r) = mlkemPair s /\ refundSigner (fst r) = refundSigner s
                /\ identity (fst r) = identity s /\ txSigner (fst r) = txSigner s /\ appId (fst r) = appId s)).
  { clear. intros c s Hs. unfold getKeyManifest, fresh_manifest. destruct (appId s) as [app|] eqn:Ha; [|done].
    destruct (str_len app =? 0); [done|]. set (hash := match c with Some der => _ | None => _ end).
    destruct (bool_decide_reflect ((tlsCertificateHash ∘ manifest <$> keyManifest s) = Some hash)) as [Hh|_].
    - cbn [fst snd]. destruct (keyManifest s) as [m|] eqn:Hm; [|done]. cbn in Hh. injection Hh as Hh.
      split; [|done]. unfold cache_ok in Hs. rewrite Hm in Hs. destruct Hs as (app' & Ha' & Hsig).
      assert (app' = app) as -> by congruence. rewrite Hh in Hsig. by rewrite Hsig.
    - destruct (signKeyManifest sha256 crypto app hash 1 s) as [m|] eqn:Hsig; cbn [fst snd]; [|done].
      split; [done|]. split; [|done]. exists app. split; [done|].
      pose proof (signKeyManifest_hash _ _ _ _ _ Hsig) as ->.
      unfold signKeyManifest in *. cbn [identity txSigner mlkemPair refundSigner]. exact Hsig. }
  intros Hs -> <-.
  assert (Hinv : forall l s0, cache_ok s0 -> let s1 := fold_left (fun s c => fst (getKeyManifest sha256 crypto c s)) l s0 in
            cache_ok s1 /\ mlkemPair s1 = mlkemPair s0 /\ refundSigner s1 = refundSigner s0
            /\ identity s1 = identity s0 /\ txSigner s1 = txSigner s0 /\ appId s1 = appId s0).
  { clear - Hstep. intros l. induction l as [|c l IH]; intros s0 Hs0; [done|]. cbn [fold_left].
    destruct (Hstep c s0 Hs0) as (_ & Hc & E1 & E2 & E3 & E4 & E5).
    destruct (IH _ Hc) as (Hc' & F1 & F2 & F3 & F4 & F5). cbn zeta. repeat split; congruence. }
  destruct (Hinv certs s Hs) as (Hc & E1 & E2 & E3 & E4 & E5).
  set (s1 := fold_left _ certs s) in *. destruct (Hstep cert s1 Hc) as (Hr & Hc' & F1 & F2 & F3 & _).
  split; [|repeat split; congruence || exact Hc']. rewrite Hr.
  unfold fresh_manifest, signKeyManifest. by rewrite E1, E2, E3, E4, E5.
Qed.
End Facts.

(** ** A concrete enclave *)

Definition toy_crypto : Crypto :=
  {| hkdf := fun key _ info n => be_bytes n (be_value key + Z.of_nat (length info));
     deriveKeyPair := fun seed => (be_bytes 8 (be_value seed), seed);
     decap := fun c _ => Ok c;
     new_signing_key := fun k => Ok {| sk_private := k; sk_public := byte_of 4 :: k |};
     computeAddress := fun p => "0x" +:+ to_hex p;
     sign_typed := fun k _ => to_hex (sk_public k) |}.

Definition toy_transport (_ : string) (body : dstack_call) : result reply :=
  Ok (200, match body with
           | Info => json_text "{'app_id':'0x01'}"
           | _ => json_text "{'key':'0a0b','public_key':'0c','signature_chain':['0d']}"
           end).

Definition toy_address (s : list Z) : result string := Ok (of_chars (map unit_ascii s)).
Definition prod_env : env := {["NODE_ENV"%string := "production"%string]}.

Definition toy_started : result KeyDerivationService :=
  onModuleInit toy_crypto toy_circomlib prod_env toy_transport toy_address new_key_derivation.

Lemma keys_are_derived_or_absent_witness :
  exists s, toy_started = Ok s /\ isAvailable s = true
    /\ derived_from toy_crypto toy_circomlib prod_env toy_transport toy_address s.
Proof.
  destruct toy_started as [s|] eqn:Hs; [|vm_compute in Hs; discriminate]. exists s. split; [reflexivity|].
  destruct (proj1 (keys_are_derived_or_absent toy_crypto toy_circomlib prod_env toy_transport toy_address
                     new_key_derivation s Hs) eq_refl eq_refl) as (_ & Hd & Ha).
  by split.
Defined.

Lemma manifest_cache_is_transparent_witness :
  exists s, toy_started = Ok s /\
    snd (getKeyManifest toy_sha256 toy_crypto None
           (fst (getKeyManifest toy_sha256 toy_crypto (Some [byte_of 1]) s)))
    = fresh_manifest toy_sha256 toy_crypto None s.
Proof.
  destruct toy_started as [s|] eqn:Hs; [|vm_compute in Hs; discriminate]. exists s. split; [reflexivity|].
  assert (Hc : cache_ok toy_sha256 toy_crypto s).
  { vm_compute in Hs. injection Hs as <-. exact I. }
  exact (proj1 (manifest_cache_is_transparent toy_sha256 toy_crypto [Some [byte_of 1]] None s _ _ Hc eq_refl eq_refl)).
Defined.
