(* ===== verification/Platforms.v ===== *)
(** * The TEE platform adapters

    [src/attestation/attestation.types.ts] and [platforms/]: one adapter per
    platform behind the interface [ITeePlatform]. What the machine answers
    (devices, the dstack SDK, the command-line tools, the clock) is the record
    [host]; Node's base64 is a parameter. *)

From Stdlib Require Import Ascii String.
From S2P Require Import Prelude JsText JsNumber FieldElement HexText Json JsonText Quote.
Open Scope Z_scope.

Inductive TeePlatform : Type := phala | intel_tdx | amd_sev_snp | aws_nitro | mock.

#[export] Instance TeePlatform_eq_dec : EqDecision TeePlatform.
Proof. solve_decision. Defined.

Definition platform_name (p : TeePlatform) : string :=
  match p with
  | phala => "phala" | intel_tdx => "intel-tdx" | amd_sev_snp => "amd-sev-snp"
  | aws_nitro => "aws-nitro" | mock => "mock"
  end.

Record AttestationQuote : Type := {
  aq_platform : TeePlatform;
  aq_quote : string;
  aq_reportData : string;
  measurement : string;
  aq_eventLog : option (list Z);
  timestamp : string;
}.

(** The public values [report_data] commits to, as clients get them. *)
Record BoundKeys : Type := {
  bk_mlkemPublicKey : string;
  bk_identityPublicKey : option string;
  bk_refundSignerPublicKey : option (string * string);
  bk_tlsCertificate : option string;
}.

Record BoundAttestation : Type := {
  ba_quote : AttestationQuote;
  ba_nonce : option string;
  ba_keys : BoundKeys;
}.

(** The interface an adapter promises. *)
Record ITeePlatform : Type := {
  p_name : TeePlatform;
  isAvailable : bool;
  generateQuote : list byte -> result AttestationQuote;
}.

(** The commands the adapters run. *)
Inductive command : Type :=
| TdxAttestUserData (reportData : string)
| TdxAttestFile (reportData : list byte)
| TdxAttest
| SnpGuestReport (reportData : string).

Record host : Type := {
  existsSync : string -> bool;
  dstack_info : result unit;
  dstack_getQuote : list byte -> result (string * list Z);
  execSync : command -> result unit;
  readQuoteFile : result (list byte);
  now : string;
  now_ms : number;
  to_base64 : list byte -> string;
  (* [JSON.stringify] of a document that holds a number *)
  stringify : json -> list Z;
}.

(** ** phala.platform.ts *)

Definition TDX_REPORT_DATA_OFFSET : nat := 48 + 520.
Definition TDX_REPORT_DATA_LENGTH : nat := 64.

Definition tdxQuoteReportData (quote : list byte) : result (list byte) :=
  if (length quote <? TDX_REPORT_DATA_OFFSET + TDX_REPORT_DATA_LENGTH)%nat then Throw (Error "TDX quote too short")
  else Ok (subarray TDX_REPORT_DATA_OFFSET TDX_REPORT_DATA_LENGTH quote).

(** Any error inside [generateQuote] becomes one error. *)
Definition wrap {A} (message : string) (r : result A) : result A :=
  match r with Ok a => Ok a | Throw _ => Throw (Error message) end.

Section Adapters.
Context (h : host).

Definition phala_isAvailable : bool :=
  existsSync h "/var/run/dstack.sock" && is_ok (dstack_info h).

Definition phala_generateQuote (reportData : list byte) : result AttestationQuote :=
  wrap "Phala TDX attestation generation failed"
    (let* r := dstack_getQuote h (of_hex (to_hex (subarray 0 64 reportData))) in
     let quoteBuffer := of_hex (strip0x r.1) in
     Ok {| aq_platform := phala; aq_quote := to_base64 h quoteBuffer; aq_reportData := to_hex reportData;
           measurement := to_hex (subarray 112 48 quoteBuffer); aq_eventLog := Some r.2; timestamp := now h |}).

Definition PhalaPlatform : ITeePlatform :=
  {| p_name := phala; isAvailable := phala_isAvailable; generateQuote := phala_generateQuote |}.

(** ** tdx.platform.ts: with the user data, with a file, and without either *)

Definition tdx_isAvailable : bool :=
  existsSync h "/dev/tdx-guest" || existsSync h "/dev/tdx_guest" || existsSync h "/sys/firmware/tdx_seam".

Definition tdx_generateQuote (reportData : list byte) : result AttestationQuote :=
  wrap "Intel TDX attestation generation failed"
    (let* _ := match execSync h (TdxAttestUserData (to_hex reportData)) with
               | Ok _ => Ok tt
               | Throw _ => match execSync h (TdxAttestFile reportData) with
                            | Ok _ => Ok tt
                            | Throw _ => execSync h TdxAttest
                            end
               end in
     let* quote := readQuoteFile h in
     Ok {| aq_platform := intel_tdx; aq_quote := to_base64 h quote; aq_reportData := to_hex reportData;
           measurement := to_hex (subarray 112 48 quote); aq_eventLog := None; timestamp := now h |}).

Definition TdxPlatform : ITeePlatform :=
  {| p_name := intel_tdx; isAvailable := tdx_isAvailable; generateQuote := tdx_generateQuote |}.

(** ** sev-snp.platform.ts *)

Definition sev_isAvailable : bool := existsSync h "/dev/sev-guest" || existsSync h "/dev/sev".

Definition sev_generateQuote (reportData : list byte) : result AttestationQuote :=
  wrap "AMD SEV-SNP attestation generation failed"
    (let* _ := execSync h (SnpGuestReport (to_hex reportData)) in
     let* report := readQuoteFile h in
     Ok {| aq_platform := amd_sev_snp; aq_quote := to_base64 h report; aq_reportData := to_hex reportData;
           measurement := to_hex (subarray 144 48 report); aq_eventLog := None; timestamp := now h |}).

Definition SevSnpPlatform : ITeePlatform :=
  {| p_name := amd_sev_snp; isAvailable := sev_isAvailable; generateQuote := sev_generateQuote |}.

(** ** nitro.platform.ts: a document with made-up register values *)

Definition generateMockPCR : string := to_hex (map (fun i => byte_of (Z.of_nat i mod 256)) (seq 0 48)).

Definition js_str (s : string) : json := JStr (code_units s).

Definition nitro_document (reportData : list byte) : json :=
  JObj [(code_units "module_id", js_str "i-1234567890abcdef0-enc1234567890abcd");
        (code_units "digest", js_str "SHA384");
        (code_units "timestamp", JNum (now_ms h));
        (code_units "pcrs", JObj [(code_units "0", js_str generateMockPCR); (code_units "1", js_str generateMockPCR);
                                  (code_units "2", js_str generateMockPCR)]);
        (code_units "certificate", js_str "BASE64_CERT_CHAIN");
        (code_units "cabundle", JArr []);
        (code_units "user_data", js_str (to_base64 h reportData));
        (code_units "nonce", JNull);
        (code_units "public_key", JNull)].

Definition nitro_generateQuote (reportData : list byte) : result AttestationQuote :=
  Ok {| aq_platform := aws_nitro; aq_quote := to_base64 h (utf8 (stringify h (nitro_document reportData)));
        aq_reportData := to_hex reportData; measurement := generateMockPCR; aq_eventLog := None;
        timestamp := now h |}.

Definition NitroPlatform : ITeePlatform :=
  {| p_name := aws_nitro; isAvailable := existsSync h "/dev/nsm"; generateQuote := nitro_generateQuote |}.

(** ** mock.platform.ts *)

Definition mock_report (reportData : list byte) : json :=
  JObj [(code_units "warning", js_str "MOCK_ATTESTATION_FOR_DEVELOPMENT_ONLY");
        (code_units "timestamp", js_str (now h));
        (code_units "message", js_str "This is not a real TEE environment");
        (code_units "reportData", js_str (to_hex reportData));
        (code_units "platform", js_str "mock")].

Definition mock_generateQuote (reportData : list byte) : result AttestationQuote :=
  Ok {| aq_platform := mock; aq_quote := to_base64 h (utf8 (default [] (JSON_stringify (mock_report reportData))));
        aq_reportData := to_hex reportData;
        measurement := "MOCK_MEASUREMENT_NOT_SECURE_" +:+ of_chars (repeat zero_char 64);
        aq_eventLog := None; timestamp := now h |}.

Definition MockPlatform : ITeePlatform :=
  {| p_name := mock; isAvailable := true; generateQuote := mock_generateQuote |}.

(** ** Facts *)

(** Every adapter labels its quotes with its name and returns the report data asked. *)
Definition platform_ok (p : ITeePlatform) : Prop := forall reportData q,
  generateQuote p reportData = Ok q -> aq_platform q = p_name p /\ aq_reportData q = to_hex reportData.

Lemma wrap_ok {A} m (r : result A) a : wrap m r = Ok a -> r = Ok a.
Proof. by destruct r. Qed.

Lemma adapters_ok : Forall platform_ok [PhalaPlatform; TdxPlatform; SevSnpPlatform; NitroPlatform; MockPlatform].
Proof.
  assert (Hinj : forall (q0 q : AttestationQuote), Ok q0 = Ok q -> q0 = q) by (intros ? ? H; congruence).
  repeat apply Forall_cons_2; [..|apply Forall_nil_2]; intros reportData q; cbn [generateQuote p_name];
    [intros H%wrap_ok..| |]; repeat (apply rbind_ok in H as (? & _ & H));
    try (intros H); apply Hinj in H; by rewrite <- H.
Qed.

(** The measurement reported on TDX is not MRTD. The adapters of Phala and of
    native TDX publish as [measurement] bytes 112 to 160 of the quote, while the
    measurements of the same quote read by [parseTdxMeasurements] take MRTD from
    byte 184 on: changing MRTD, or any byte from 160 on, never changes the
    published measurement. *)
Theorem published_measurement_ignores_mrtd reportData q log prefix body body' : length prefix = 160%nat ->
  dstack_getQuote h (of_hex (to_hex (subarray 0 64 reportData))) = Ok (to_hex (prefix ++ body), log) ->
  phala_generateQuote reportData = Ok q ->
  measurement q = to_hex (subarray 112 48 (prefix ++ body'))
  /\ (forall m, parseTdxMeasurements (prefix ++ body') = Ok m ->
        mrtd m = to_hex (subarray 24 48 body')).
Proof.
  intros Hp Hq H. split.
  - unfold phala_generateQuote in H. rewrite Hq in H. cbn [rbind wrap fst snd] in H.
    rewrite strip0x_hex, of_hex_to_hex in H.
    2: { unfold to_hex. rewrite chars_of_chars. apply to_hex_is_hex. }
    assert (Hm : measurement q = to_hex (subarray 112 48 (prefix ++ body))) by by injection H as <-.
    rewrite Hm. f_equal. unfold subarray. rewrite !drop_app_le, !take_app_le; (done || rewrite ?length_drop; lia).
  - intros m Hm. unfold parseTdxMeasurements in Hm. destruct (_ <? _)%nat; [done|].
    assert (mrtd m = to_hex (subarray TDX_QUOTE_MRTD_OFFSET MEASUREMENT_LENGTH (prefix ++ body'))) as -> by by injection Hm as <-.
    f_equal. unfold subarray, TDX_QUOTE_MRTD_OFFSET, QUOTE_HEADER_LENGTH.
    rewrite drop_app_ge by lia. by rewrite Hp.
Qed.
End Adapters.

(** The first 568 bytes of [toy_quote]: everything before the report data. *)
Definition toy_quote_body : list byte := take 568 toy_quote.

Definition toy_host : host :=
  {| existsSync := fun p => bool_decide (p = "/var/run/dstack.sock"%string); dstack_info := Ok tt;
     dstack_getQuote := fun rd => if (length rd =? 64)%nat then Ok (to_hex (toy_quote_body ++ rd), toy_log)
                                  else Throw (Error "report_data must be 64 bytes");
     execSync := fun _ => Throw (Error "not found"); readQuoteFile := Throw (Error "not found");
     now := "2026-01-01T00:00:00.000Z"; now_ms := num 0; to_base64 := to_hex; stringify := fun _ => [] |}.

Lemma published_measurement_ignores_mrtd_witness :
  exists q, phala_generateQuote toy_host (alloc 64) = Ok q
    /\ measurement q = to_hex (subarray 112 48 (take 160 toy_quote ++ drop 200 toy_quote)).
Proof.
  destruct (phala_generateQuote toy_host (alloc 64)) as [q|] eqn:Hq; [|vm_compute in Hq; discriminate].
  exists q. split; [reflexivity|].
  refine (proj1 (published_measurement_ignores_mrtd toy_host (alloc 64) q toy_log (take 160 toy_quote)
                   (drop 160 toy_quote_body ++ alloc 64) (drop 200 toy_quote) eq_refl _ Hq)).
  vm_compute. reflexivity.
Defined.
