(* ===== verification/KeyBinding.v ===== *)
(** * The client's check of an attestation

    [src/attestation/key-binding.ts]: [verifyKeyBinding], run by clients on the
    answer of GET /attestation. base64, EIP-712 recovery and the address functions
    of ethers are parameters. *)

From Stdlib Require Import Ascii String.
From S2P Require Import Prelude JsText FieldElement HexText Json Quote RefundSigner Keys Platforms.
Open Scope Z_scope.

Record KeyBindingEvidence : Type := {
  kb_platform : string;
  kb_quote : string;
  kb_reportData : string;
  kb_keys : BoundKeys;
  kb_eventLog : option (list Z);
}.

Record BindingOptions : Type := {
  opt_nonce : option (list byte);
  servedCertificate : option (list byte);
  opt_keyManifest : option SignedKeyManifest;
}.

(** The messages, by what they say. *)
Inductive binding_failure : Type :=
| ReportDataDoesNotCommit
| NoBoundCertificate
| OtherSessionCertificate
| QuoteReportDataMismatch
| QuoteUnreadable (e : exn)
| EventLogFailure (f : log_failure)
| OtherMlKemKey
| OtherRefundSigner
| OtherManifestCertificate
| NoIdentityKey
| NotSignedByIdentity
| InvalidManifestSignature.

(** [s.toLowerCase()] on ASCII; no other character lower-cases to a hex digit or x. *)
Definition toLowerCase (s : string) : string := of_chars (map lower (chars s)).

Section Binding.
Context (sha256 sha384 : list byte -> list byte) (from_value : json -> result (list byte)).
Context (from_base64 : string -> list byte).
(** [verifyTypedData], [getAddress] and [computeAddress] of ethers. *)
Context (verifyTypedData : KeyManifest -> string -> result string).
Context (getAddress : string -> result string) (computeAddress : list byte -> result string).

(** [keys.x ? decode(keys.x) : undefined]: an empty text counts as absent. *)
Definition decode_text (decode : string -> list byte) (v : option string) : option (list byte) :=
  match v with Some s => if str_len s =? 0 then None else Some (decode s) | None => None end.

(** [!refundSigner || BigInt(..) !== BigInt(..) || BigInt(..) !== BigInt(..)]. *)
Definition refund_signer_differs (m : KeyManifest) (keys : BoundKeys) : result bool :=
  match bk_refundSignerPublicKey keys with
  | None => Ok true
  | Some signer =>
      let* mx := BigInt (refundSignerX m) in
      let* x := BigInt signer.1 in
      if negb (mx =? x) then Ok true
      else
        let* my := BigInt (refundSignerY m) in
        let* y := BigInt signer.2 in
        Ok (negb (my =? y))
  end.

Definition push_if (b : bool) (f : binding_failure) : list binding_failure := if b then [f] else [].

Definition verifyManifest (signed : SignedKeyManifest) (ek : list byte) (keys : BoundKeys)
  (identity tlsCertificate : option (list byte)) : result (list binding_failure) :=
  let m := manifest signed in
  let f1 := push_if (negb (bool_decide (toLowerCase (mlkemPublicKeyHash m) = sha256_hex sha256 ek))) OtherMlKemKey in
  let* differs := refund_signer_differs m keys in
  let f2 := push_if differs OtherRefundSigner in
  let hash := match tlsCertificate with Some der => sha256_hex sha256 der | None => ZeroHash end in
  let f3 := push_if (negb (bool_decide (toLowerCase (tlsCertificateHash m) = hash))) OtherManifestCertificate in
  let f4 :=
    match identity with
    | None => [NoIdentityKey]
    | Some key =>
        match (let* signer := verifyTypedData m (manifest_signature signed) in
               let* signer := getAddress signer in
               let* address := computeAddress key in
               Ok (bool_decide (signer = address))) with
        | Ok true => []
        | Ok false => [NotSignedByIdentity]
        | Throw _ => [InvalidManifestSignature]
        end
    end in
  Ok (f1 ++ f2 ++ f3 ++ f4).

Definition verifyKeyBinding (evidence : KeyBindingEvidence) (options : BindingOptions)
  : result (list binding_failure) :=
  let keys := kb_keys evidence in
  let ek := from_base64 (bk_mlkemPublicKey keys) in
  let identity := decode_text (fun s => of_hex (strip0x s)) (bk_identityPublicKey keys) in
  let tlsCertificate := decode_text from_base64 (bk_tlsCertificate keys) in
  let* signer := match bk_refundSignerPublicKey keys with
                 | Some key => rmap Some (encodeRefundSignerPublicKey key)
                 | None => Ok None
                 end in
  let* expected := buildReportData sha256
    {| mlkemPublicKey := ek; identityPublicKey := identity; refundSignerPublicKey := signer;
       tlsCertificateDer := tlsCertificate |} (opt_nonce options) in
  let f1 := push_if (negb (bool_decide (of_hex (strip0x (kb_reportData evidence)) = expected))) ReportDataDoesNotCommit in
  let f2 := match servedCertificate options with
            | None => []
            | Some served => match tlsCertificate with
                             | None => [NoBoundCertificate]
                             | Some der => push_if (negb (bool_decide (served = der))) OtherSessionCertificate
                             end
            end in
  let* f3 :=
    if bool_decide (kb_platform evidence = "phala"%string) || bool_decide (kb_platform evidence = "intel-tdx"%string)
    then
      let quote := from_base64 (kb_quote evidence) in
      let q := match tdxQuoteReportData quote with
               | Ok attested => push_if (negb (bool_decide (attested = expected))) QuoteReportDataMismatch
               | Throw e => [QuoteUnreadable e]
               end in
      match kb_eventLog evidence with
      | None => Ok q
      | Some log => let* l := verifyEventLog sha384 from_value quote log in Ok (q ++ map EventLogFailure l)
      end
    else Ok [] in
  let* f4 := match opt_keyManifest options with
             | None => Ok []
             | Some signed => verifyManifest signed ek keys identity tlsCertificate
             end in
  Ok (f1 ++ f2 ++ f3 ++ f4).
End Binding.

(** ** What a passing check shows *)

Section Soundness.
Context (sha256 sha384 : list byte -> list byte) (from_value : json -> result (list byte)).
Context (from_base64 : string -> list byte).
Context (verifyTypedData : KeyManifest -> string -> result string).
Context (getAddress : string -> result string) (computeAddress : list byte -> result string).
Context (Hlen : forall x, length (sha256 x) = 32%nat).

Abbreviation check := (verifyKeyBinding sha256 sha384 from_value from_base64 verifyTypedData getAddress computeAddress).

(** The keys a client reads in an attestation. *)
Definition read_keys (keys : BoundKeys) : result ReportDataInputs :=
  let* signer := match bk_refundSignerPublicKey keys with
                 | Some key => rmap Some (encodeRefundSignerPublicKey key)
                 | None => Ok None
                 end in
  Ok {| mlkemPublicKey := from_base64 (bk_mlkemPublicKey keys);
        identityPublicKey := decode_text (fun s => of_hex (strip0x s)) (bk_identityPublicKey keys);
        refundSignerPublicKey := signer;
        tlsCertificateDer := decode_text from_base64 (bk_tlsCertificate keys) |}.

Definition on_tdx (evidence : KeyBindingEvidence) : Prop :=
  kb_platform evidence = "phala"%string \/ kb_platform evidence = "intel-tdx"%string.

Lemma push_if_nil b f : push_if b f = [] -> b = false.
Proof. by destruct b. Qed.

Lemma check_reads evidence options : check evidence options = Ok [] ->
  exists inputs expected, read_keys (kb_keys evidence) = Ok inputs
    /\ buildReportData sha256 inputs (opt_nonce options) = Ok expected
    /\ of_hex (strip0x (kb_reportData evidence)) = expected
    /\ (forall served, servedCertificate options = Some served -> tlsCertificateDer inputs = Some served)
    /\ (on_tdx evidence -> tdxQuoteReportData (from_base64 (kb_quote evidence)) = Ok expected
          /\ forall log, kb_eventLog evidence = Some log ->
               verifyEventLog sha384 from_value (from_base64 (kb_quote evidence)) log = Ok [])
    /\ (forall signed, opt_keyManifest options = Some signed ->
          verifyManifest sha256 verifyTypedData getAddress computeAddress signed (mlkemPublicKey inputs)
            (kb_keys evidence) (identityPublicKey inputs) (tlsCertificateDer inputs) = Ok []).
Proof.
  unfold verifyKeyBinding, read_keys. intros H. apply rbind_ok in H as (signer & Hs & H). rewrite Hs. cbn [rbind].
  apply rbind_ok in H as (expected & He & H). apply rbind_ok in H as (f3 & H3 & H). apply rbind_ok in H as (f4 & H4 & H).
  assert (Hnil : forall a b c d : list binding_failure, Ok (a ++ b ++ c ++ d) = Ok [] -> a = [] /\ b = [] /\ c = [] /\ d = []).
  { clear. intros a b c d H. assert (E : a ++ b ++ c ++ d = []) by congruence.
    apply app_eq_nil in E as [-> E]. apply app_eq_nil in E as [-> E]. by apply app_eq_nil in E as [-> ->]. }
  apply Hnil in H as (F1 & F2 & -> & ->). eexists _, expected. split; [reflexivity|]. split; [exact He|].
  split; [by apply push_if_nil, negb_false_iff, bool_decide_eq_true in F1|]. cbn [tlsCertificateDer mlkemPublicKey identityPublicKey].
  split; [|split].
  - intros served Hserved. rewrite Hserved in F2. destruct (decode_text from_base64 _) as [der|]; [|done].
    apply push_if_nil, negb_false_iff, bool_decide_eq_true in F2. by subst.
  - intros Hp. assert (bool_decide (kb_platform evidence = "phala"%string)
                       || bool_decide (kb_platform evidence = "intel-tdx"%string) = true) as Hb.
    { apply orb_true_iff. destruct Hp; [left|right]; by apply bool_decide_eq_true. }
    rewrite Hb in H3. cbn zeta in H3.
    assert (Hq : forall q : list binding_failure, q = match tdxQuoteReportData (from_base64 (kb_quote evidence)) with
                 | Ok attested => push_if (negb (bool_decide (attested = expected))) QuoteReportDataMismatch
                 | Throw e => [QuoteUnreadable e] end -> q = [] ->
                 tdxQuoteReportData (from_base64 (kb_quote evidence)) = Ok expected).
    { clear. intros q -> E. destruct (tdxQuoteReportData _) as [a|]; [|done].
      apply push_if_nil, negb_false_iff, bool_decide_eq_true in E. congruence. }
    destruct (kb_eventLog evidence) as [log|].
    + apply rbind_ok in H3 as (l & Hl & H3). assert (E : forall a b : list binding_failure, Ok (a ++ b) = Ok [] -> a = [] /\ b = []).
      { clear. intros a b H. apply app_eq_nil. congruence. }
      apply E in H3 as [Hq0 Hl0]. split; [by apply (Hq _ eq_refl)|]. intros log' [= <-].
      apply map_eq_nil in Hl0. by subst.
    + split; [|done]. apply (Hq _ eq_refl). congruence.
  - intros signed Hm. by rewrite Hm in H4.
Qed.

(** C21: no key can be substituted. Suppose a client's check of an attestation on a
    TDX platform passes, and the report data inside the quote is what the enclave
    built from its keys (which the quote's signature vouches for). Then the keys
    the client read are the enclave's, the certificate of its TLS session is the
    enclave's, and the nonce the enclave answered is the client's - unless what was hashed for the
    client's keys and for the enclave's, or their two certificates, collide. *)
Theorem attested_keys_are_the_enclaves evidence options attested enclave nonce' :
  check evidence options = Ok [] -> on_tdx evidence ->
  tdxQuoteReportData (from_base64 (kb_quote evidence)) = Ok attested ->
  buildReportData sha256 enclave nonce' = Ok attested ->
  exists inputs, read_keys (kb_keys evidence) = Ok inputs
    /\ default (alloc NONCE_LENGTH) (opt_nonce options) = default (alloc NONCE_LENGTH) nonce'
    /\ (report_data_collision sha256 inputs enclave
        \/ committed inputs = committed enclave
           /\ forall served, servedCertificate options = Some served -> tlsCertificateDer enclave = Some served).
Proof.
  intros H Htdx Hq Henc. destruct (check_reads _ _ H) as (inputs & expected & Hi & He & _ & Hcert & Hquote & _).
  destruct (Hquote Htdx) as [Hq' _]. assert (expected = attested) as -> by congruence.
  exists inputs. split; [exact Hi|].
  destruct (buildReportData_inj sha256 Hlen _ _ _ _ _ He Henc) as [Hn [Hc|Hc]]; (split; [exact Hn|]); [right|by left].
  split; [exact Hc|]. intros served Hs. apply Hcert in Hs. unfold committed in Hc. congruence.
Qed.
End Soundness.
