(* ===== verification/Dstack.v ===== *)
(** * What an honest dstack enclave answers

    The TD report inside a TDX quote and the event log of dstack, written from Intel's
    and dstack's descriptions and not from the code that reads them: the fields of the
    report with their lengths, in order, and a runtime measurement register as the
    chain of the digests extended into it. Theorems that need an honest enclave assume
    an answer of this form; that [tdxQuoteReportData] and [verifyEventLog] accept it is
    proved here. *)

From Stdlib Require Import Ascii String.
From S2P Require Import Prelude JsText JsNumber FieldElement HexText Json Quote Platforms.
Open Scope Z_scope.

(** ** The TD report of a version 4 quote *)

Record TdReport : Type := {
  tee_tcb_svn : list byte;
  mr_seam : list byte;
  mr_signer_seam : list byte;
  seam_attributes : list byte;
  td_attributes : list byte;
  td_xfam : list byte;
  mr_td : list byte;
  mr_config_id : list byte;
  mr_owner : list byte;
  mr_owner_config : list byte;
  rtmr_0 : list byte;
  rtmr_1 : list byte;
  rtmr_2 : list byte;
  rtmr_3 : list byte;
  report_data : list byte;
}.

Definition td_fields (r : TdReport) : list (list byte) :=
  [tee_tcb_svn r; mr_seam r; mr_signer_seam r; seam_attributes r; td_attributes r; td_xfam r; mr_td r;
   mr_config_id r; mr_owner r; mr_owner_config r; rtmr_0 r; rtmr_1 r; rtmr_2 r; rtmr_3 r; report_data r].

(** The lengths of a 48-byte header and of the fields. *)
Definition quote_lengths : list nat := [48; 16; 48; 48; 8; 8; 8; 48; 48; 48; 48; 48; 48; 48; 48; 64]%nat.

(** A quote: the header, the report, and the signature data after it. *)
Definition quote_bytes (header : list byte) (r : TdReport) (signature : list byte) : list byte :=
  concat (header :: td_fields r) ++ signature.

Definition well_sized (header : list byte) (r : TdReport) : Prop := map length (header :: td_fields r) = quote_lengths.

(** ** The event log *)

(** The type is kept as the number the log shows; the name is UTF-16 text. *)
Record LogEvent : Type := {
  ev_imr : nat;
  ev_type : number;
  ev_digest : list byte;
  ev_name : list Z;
  ev_payload : list byte;
}.

(** An entry of the log that shows the event, whatever else it holds. *)
Definition shows (entry : json) (ev : LogEvent) : Prop :=
  get_prop "imr" (Some entry) = Ok (Some (JNum (num (Z.of_nat (ev_imr ev)))))
  /\ get_prop "event_type" (Some entry) = Ok (Some (JNum (ev_type ev)))
  /\ get_prop "digest" (Some entry) = Ok (Some (JStr (code_units (to_hex (ev_digest ev)))))
  /\ get_prop "event" (Some entry) = Ok (Some (JStr (ev_name ev)))
  /\ get_prop "event_payload" (Some entry) = Ok (Some (JStr (code_units (to_hex (ev_payload ev))))).

Section Honest.
Context (sha384 : list byte -> list byte).

(** An event dstack logs: one of the four registers, a digest that fits it, and for the
    runtime events (type 0x08000001) the digest of that type in little-endian order, the
    name and the payload, with colons between. *)
Definition event_ok (ev : LogEvent) : Prop :=
  (ev_imr ev < 4)%nat /\ (length (ev_digest ev) <= 48)%nat
  /\ (neq (ev_type ev) (num 134217729) = true ->
      ev_digest ev = sha384 (map byte_of [1; 0; 0; 8; 58] ++ utf8 (ev_name ev) ++ map byte_of [58] ++ ev_payload ev)).

(** A register: 48 zero bytes, then for each of its events the digest of what it held
    and of the event's digest padded with zeros. *)
Definition extended (r : list byte) (ev : LogEvent) : list byte :=
  sha384 (r ++ ev_digest ev ++ repeat (byte_of 0) (48 - length (ev_digest ev))).

Definition register (i : nat) (events : list LogEvent) : list byte :=
  fold_left extended (filter (fun ev => ev_imr ev = i) events) (repeat (byte_of 0) 48).

(** An answer of the agent to a request for a quote on [rd]. *)
Record honest_quote (rd : list byte) (quote : string) (log : list Z) : Prop := {
  hq_bytes : exists header r signature events entries,
    (quote = to_hex (quote_bytes header r signature) \/ quote = "0x" +:+ to_hex (quote_bytes header r signature))
    /\ well_sized header r /\ report_data r = rd
    /\ JSON_parse log = Ok (JArr entries) /\ Forall2 shows entries events /\ Forall event_ok events
    /\ [rtmr_0 r; rtmr_1 r; rtmr_2 r; rtmr_3 r] = map (fun i => register i events) [0; 1; 2; 3]%nat;
}.
End Honest.

(** ** Reading the fields *)

Lemma subarray_field fs lens i f rest : map length fs = lens -> fs !! i = Some f ->
  subarray (sum_list (take i lens)) (length f) (concat fs ++ rest) = f.
Proof.
  intros <-. revert i; induction fs as [|g fs IH]; intros [|i] H; [done..| |]; cbn in H.
  - injection H as ->. cbn. unfold subarray. by rewrite drop_0, <- app_assoc, take_app_length.
  - rewrite <- (IH i H) at 2. cbn [map take sum_list]. unfold subarray. cbn [concat]. rewrite <- app_assoc.
    rewrite drop_app_ge by (cbn; lia). do 2 f_equal. cbn. lia.
Qed.

Lemma quote_length header r sg : well_sized header r -> (632 <= length (quote_bytes header r sg))%nat.
Proof.
  intros H. unfold quote_bytes. rewrite length_app, length_concat. unfold well_sized in H. rewrite H. cbn. lia.
Qed.

Lemma read_field header r sg i f n o : well_sized header r -> (header :: td_fields r) !! i = Some f ->
  quote_lengths !! i = Some n -> sum_list (take i quote_lengths) = o ->
  subarray o n (quote_bytes header r sg) = f.
Proof.
  intros Hs Hf Hn <-. rewrite <- Hs, list_lookup_fmap, Hf in Hn. injection Hn as <-. by apply subarray_field.
Qed.

Lemma report_data_read header r sg : well_sized header r ->
  tdxQuoteReportData (quote_bytes header r sg) = Ok (report_data r).
Proof.
  intros H. pose proof (quote_length header r sg H) as L. unfold tdxQuoteReportData.
  destruct (Nat.ltb_spec (length (quote_bytes header r sg)) (TDX_REPORT_DATA_OFFSET + TDX_REPORT_DATA_LENGTH)) as [Hl|_].
  { change (TDX_REPORT_DATA_OFFSET + TDX_REPORT_DATA_LENGTH)%nat with 632%nat in Hl. lia. }
  f_equal. by apply (read_field header r sg 15).
Qed.

Lemma rtmrs_read header r sg : well_sized header r -> exists m, parseTdxMeasurements (quote_bytes header r sg) = Ok m
  /\ rtmrs m = map to_hex [rtmr_0 r; rtmr_1 r; rtmr_2 r; rtmr_3 r].
Proof.
  intros H. pose proof (quote_length header r sg H) as L. unfold parseTdxMeasurements.
  destruct (Nat.ltb_spec (length (quote_bytes header r sg)) TDX_QUOTE_BODY_END) as [Hl|_].
  { change TDX_QUOTE_BODY_END with 632%nat in Hl. lia. }
  eexists. split; [reflexivity|]. cbn [rtmrs]. unfold TDX_QUOTE_RTMR_OFFSETS. cbn [map].
  by rewrite (read_field header r sg 11 (rtmr_0 r)), (read_field header r sg 12 (rtmr_1 r)),
    (read_field header r sg 13 (rtmr_2 r)), (read_field header r sg 14 (rtmr_3 r)).
Qed.

(** ** Replaying the log *)

Lemma hex_units b : hex_of_units (code_units (to_hex b)) = b.
Proof.
  unfold hex_of_units, code_units. rewrite map_map. rewrite <- (of_hex_to_hex b) at 2. unfold of_hex. f_equal.
  rewrite <- (map_id (chars (to_hex b))) at 2. apply map_ext. intros a. unfold unit_ascii.
  pose proof (code_range a) as Ha. destruct (Z.ltb_spec (code a) 256); [|lia]. unfold code. rewrite N2Z.id. apply ascii_N_embedding.
Qed.

Section Replay.
Context (sha384 : list byte -> list byte) (from_value : json -> result (list byte)).

Definition step_of (ev : LogEvent) : nat * list byte :=
  (ev_imr ev, ev_digest ev ++ alloc (MEASUREMENT_LENGTH - length (ev_digest ev))).

Lemma imr_read i : (i < 4)%nat -> imr_index (Some (JNum (num (Z.of_nat i)))) = Some i.
Proof. intros H. destruct i as [|[|[|[|i]]]]; [vm_compute; reflexivity..|lia]. Qed.

(** The loop accepts an entry that shows an event dstack logs. *)
Lemma event_read entry ev : shows entry ev -> event_ok sha384 ev ->
  extension sha384 from_value entry = Ok (step_of ev).
Proof.
  intros (Himr & Htype & Hdigest & Hname & Hpayload) (Hi & Hd & Hown). unfold extension.
  rewrite Himr. cbn [rbind]. rewrite imr_read by done. cbn [of_option rbind]. rewrite Hdigest. cbn [rbind buffer_hex].
  rewrite hex_units. destruct (Nat.ltb_spec MEASUREMENT_LENGTH (length (ev_digest ev))) as [Hl|_]; [unfold MEASUREMENT_LENGTH in Hl; lia|].
  rewrite Htype. cbn [rbind is_number]. change DSTACK_RUNTIME_EVENT_TYPE with 134217729.
  destruct (neq (ev_type ev) (num 134217729)); cbn [rbind negb]; [|done]. specialize (Hown eq_refl).
  unfold runtimeEventDigest. rewrite Hname. cbn [rbind update_arg]. rewrite Hpayload. cbn [rbind buffer_hex].
  rewrite hex_units, bool_decide_true; [done|]. rewrite Hown. f_equal.
Qed.

Lemma events_read entries events : Forall2 shows entries events -> Forall (event_ok sha384) events ->
  forall registers, replay_loop sha384 from_value registers entries = Ok (fold_left (extend sha384) (map step_of events) registers).
Proof.
  induction 1 as [|entry ev entries events Hs Hrest IH]; intros Hok registers; [done|].
  apply Forall_cons in Hok as [Hev Hok]. cbn [replay_loop map fold_left]. rewrite (event_read entry ev Hs Hev). cbn [rbind].
  by apply IH.
Qed.

Lemma register_replayed i events : replay_of sha384 (digests_of i (map step_of events)) = register sha384 i events.
Proof.
  unfold replay_of, register, digests_of, alloc. change MEASUREMENT_LENGTH with 48%nat. generalize (repeat (byte_of 0) 48) as r.
  induction events as [|ev events IH]; intros r; [done|]. cbn [map]. rewrite !filter_cons. cbn [step_of fst].
  destruct (decide (ev_imr ev = i)); [|apply IH]. cbn [map fold_left snd]. apply IH.
Qed.

Lemma registers_replayed events : map to_hex (fold_left (extend sha384) (map step_of events) initial_registers)
  = map (fun i => to_hex (register sha384 i events)) [0; 1; 2; 3]%nat.
Proof.
  apply list_eq. intros i. rewrite list_lookup_fmap, fold_extend. destruct (decide (i < 4)%nat) as [Hi|Hi].
  - assert (initial_registers !! i = Some (alloc MEASUREMENT_LENGTH)) as -> by by destruct i as [|[|[|[|i]]]]; [..|lia].
    cbn [fmap option_fmap option_map]. pose proof (register_replayed i events) as E. unfold replay_of in E. rewrite E.
    by destruct i as [|[|[|[|i]]]]; [..|lia].
  - rewrite (lookup_ge_None_2 initial_registers) by (cbn; lia). by rewrite lookup_ge_None_2 by (cbn; lia).
Qed.

Lemma mismatches_same i l : mismatches i l l = [].
Proof. revert i; induction l as [|x l IH]; intros i; [done|]. cbn [mismatches]. rewrite bool_decide_true by done. apply IH. Qed.

(** The two reads of an honest quote: its report data, and a log that replays. *)
Lemma honest_quote_read rd quote log : honest_quote sha384 rd quote log ->
  tdxQuoteReportData (of_hex (strip0x quote)) = Ok rd
  /\ verifyEventLog sha384 from_value (of_hex (strip0x quote)) log = Ok [].
Proof.
  intros [(header & r & sg & events & entries & Hq & Hs & Hrd & Hlog & Hshow & Hok & Hreg)].
  assert (of_hex (strip0x quote) = quote_bytes header r sg) as ->.
  { destruct Hq as [->| ->]; [|by rewrite strip0x_prefixed, of_hex_to_hex]. rewrite strip0x_hex; [apply of_hex_to_hex|].
    unfold to_hex. rewrite chars_of_chars. apply to_hex_is_hex. }
  split; [by rewrite (report_data_read header r sg Hs), Hrd|].
  destruct (rtmrs_read header r sg Hs) as (m & Hm & Hrt). unfold verifyEventLog. rewrite Hm. cbn [rbind]. f_equal.
  unfold replayRtmrs. rewrite Hlog. cbn [rbind iterate]. rewrite (events_read entries events Hshow Hok). cbn [rbind].
  rewrite Hrt, Hreg, registers_replayed, map_map. apply mismatches_same.
Qed.
End Replay.

(** ** A concrete answer *)

Definition toy_report (rd : list byte) : TdReport :=
  {| tee_tcb_svn := alloc 16; mr_seam := alloc 48; mr_signer_seam := alloc 48; seam_attributes := alloc 8;
     td_attributes := alloc 8; td_xfam := alloc 8; mr_td := alloc 48; mr_config_id := alloc 48; mr_owner := alloc 48;
     mr_owner_config := alloc 48; rtmr_0 := alloc 48; rtmr_1 := alloc 48; rtmr_2 := alloc 48;
     rtmr_3 := toy_sha384 (alloc 48 ++ [byte_of 10; byte_of 11] ++ alloc 46); report_data := rd |}.

Definition toy_event : LogEvent :=
  {| ev_imr := 3; ev_type := num 1; ev_digest := [byte_of 10; byte_of 11]; ev_name := code_units "boot"; ev_payload := [] |}.

Lemma toy_body_report rd : toy_quote_body ++ rd = quote_bytes (alloc 48) (toy_report rd) [].
Proof.
  unfold quote_bytes. rewrite app_nil_r.
  assert (toy_quote_body = concat (alloc 48 :: take 14 (td_fields (toy_report [])))) as -> by (vm_compute; reflexivity).
  unfold td_fields, toy_report. cbn [take concat app tee_tcb_svn mr_seam mr_signer_seam seam_attributes td_attributes td_xfam mr_td
    mr_config_id mr_owner mr_owner_config rtmr_0 rtmr_1 rtmr_2 rtmr_3 report_data]. rewrite <- !app_assoc, !app_nil_l, app_nil_r. done.
Qed.

Lemma toy_report_sized rd : length rd = 64%nat -> well_sized (alloc 48) (toy_report rd).
Proof.
  intros H. unfold well_sized, td_fields. cbn [map toy_report report_data]. rewrite H. vm_compute. reflexivity.
Qed.

Lemma toy_event_ok : event_ok toy_sha384 toy_event.
Proof.
  unfold event_ok, toy_event. cbn [ev_imr ev_type ev_digest]. split; [lia|]. split; [unfold length; lia|].
  assert (neq (num 1) (num 134217729) = false) as -> by (vm_compute; reflexivity). discriminate.
Qed.

Lemma toy_log_shows : exists l, JSON_parse toy_log = Ok (JArr l) /\ Forall2 shows l [toy_event].
Proof.
  eexists. split; [vm_compute; reflexivity|]. constructor; [|constructor]. unfold shows. split_and!; vm_compute; reflexivity.
Qed.

(** The enclave of [Platforms.toy_host] is an honest one. *)
Lemma toy_dstack rd q log : dstack_getQuote toy_host rd = Ok (q, log) -> honest_quote toy_sha384 rd q log.
Proof.
  cbn [dstack_getQuote toy_host]. destruct (Nat.eqb_spec (length rd) 64) as [Hl|]; [|done].
  intros H. assert (q = to_hex (toy_quote_body ++ rd)) as -> by congruence. assert (log = toy_log) as -> by congruence.
  destruct toy_log_shows as (l & Hlog & Hl').
  split. exists (alloc 48), (toy_report rd), [], [toy_event], l. split; [left; by rewrite toy_body_report|].
  split; [by apply toy_report_sized|]. do 3 (split; [done|]). split; [|vm_compute; reflexivity].
  constructor; [|constructor]. apply toy_event_ok.
Qed.
