(* ===== verification/Attestation.v ===== *)
(** * The attestation service

    [src/attestation/tee-key-manager.service.ts], [attestation.service.ts] and
    [attestation.controller.ts]: which ML-KEM key is served, which platform
    attests, what a quote binds, and the two GET handlers. *)

From Stdlib Require Import Ascii String.
From S2P Require Import Prelude JsText FieldElement HexText Json Profile Quote RefundSigner Keys Platforms KeyBinding Dstack.
Open Scope Z_scope.

(** ** tee-key-manager.service.ts *)

Record TeeKeyManagerService : Type := {
  km_mlkem : bool;
  km_publicKey : option (list byte);
  envPrivateKey : option (list byte);
  km_derived : bool;
}.

Definition new_key_manager : TeeKeyManagerService :=
  {| km_mlkem := false; km_publicKey := None; envPrivateKey := None; km_derived := false |}.

Section KeyManager.
(** The configuration, the key derivation, base64 and [mlkem.decap]. *)
Context (config : env) (from_base64 : string -> list byte) (crypto : Crypto).

Definition config_text (name : string) : option string :=
  match config !! name with Some v => if str_len v =? 0 then None else Some v | None => None end.

Definition initializeEnvKeys (m : TeeKeyManagerService) : result TeeKeyManagerService :=
  match config_text "ADMIN_MLKEM_PUBLIC_KEY", config_text "ADMIN_MLKEM_PRIVATE_KEY" with
  | Some public, Some private =>
      let publicKey := from_base64 public in
      let privateKey := from_base64 private in
      if negb (length publicKey =? 1568)%nat then Throw (Error "Invalid ML-KEM-1024 public key size")
      else if negb (length privateKey =? 3168)%nat then Throw (Error "Invalid ML-KEM-1024 private key size")
      else Ok {| km_mlkem := km_mlkem m; km_publicKey := Some publicKey; envPrivateKey := Some privateKey;
                 km_derived := km_derived m |}
  | _, _ => Ok m
  end.

Definition km_onModuleInit (keys : KeyDerivationService) (m : TeeKeyManagerService) : result TeeKeyManagerService :=
  match getMlKemPublicKey keys with
  | Some public =>
      Ok {| km_mlkem := true; km_publicKey := Some public; envPrivateKey := envPrivateKey m; km_derived := true |}
  | None =>
      initializeEnvKeys {| km_mlkem := true; km_publicKey := km_publicKey m; envPrivateKey := envPrivateKey m;
                           km_derived := km_derived m |}
  end.

Definition getPublicKeyBytes (m : TeeKeyManagerService) : option (list byte) := km_publicKey m.

Definition km_decapsulate (keys : KeyDerivationService) (ciphertext : list byte) (m : TeeKeyManagerService)
  : result (list byte) :=
  if km_derived m then decapsulate crypto ciphertext keys
  else match envPrivateKey m with
       | Some private => if km_mlkem m then decap crypto ciphertext private
                         else Throw (Error "ML-KEM encryption not initialized")
       | None => Throw (Error "ML-KEM encryption not initialized")
       end.

Definition km_isAvailable (m : TeeKeyManagerService) : bool :=
  km_mlkem m && (km_derived m || bool_decide (is_Some (envPrivateKey m))).

Definition isTeeMode (m : TeeKeyManagerService) : bool := km_derived m.
End KeyManager.

(** ** attestation.service.ts *)

Section Service.
Context (sha256 : list byte -> list byte) (e : env) (h : host).
Context (from_base64 : string -> list byte).

(** [createPlatformByName]. *)
Definition createPlatformByName (name : string) : result ITeePlatform :=
  let named n := bool_decide (name = n) in
  if named "phala"%string then Ok (PhalaPlatform h)
  else if named "intel-tdx"%string || named "tdx"%string then Ok (TdxPlatform h)
  else if named "amd-sev-snp"%string || named "sev-snp"%string then Ok (SevSnpPlatform h)
  else if named "aws-nitro"%string || named "nitro"%string then Ok (NitroPlatform h)
  else if named "mock"%string then Ok (MockPlatform h)
  else Throw (Error "Unknown TEE_PLATFORM").

Definition selectProductionPlatform (forced : option string) : result ITeePlatform :=
  if match forced with
     | Some f => negb (str_len f =? 0) && negb (bool_decide (f = "auto"%string)) && negb (bool_decide (f = "phala"%string))
     | None => false
     end
  then Throw (Error "TEE_PLATFORM is not allowed in production: only dstack attests")
  else if is_set e "DSTACK_SIMULATOR_ENDPOINT"
  then Throw (Error "DSTACK_SIMULATOR_ENDPOINT must not be set in production: its quotes are not from a TEE")
  else if isAvailable (PhalaPlatform h) then Ok (PhalaPlatform h)
  else Throw (Error "Cannot start in production without the dstack socket at /var/run/dstack.sock").

Definition candidates : list ITeePlatform :=
  [PhalaPlatform h; TdxPlatform h; SevSnpPlatform h; NitroPlatform h; MockPlatform h].

(** What [onModuleInit] leaves in [this.platform]. *)
Definition as_onModuleInit (forced : option string) : result ITeePlatform :=
  let* prod := isProd e in
  if prod then selectProductionPlatform forced
  else match forced with
       | Some f =>
           if negb (str_len f =? 0) && negb (bool_decide (f = "auto"%string)) then createPlatformByName f
           else Ok (default (MockPlatform h) (List.find isAvailable candidates))
       | None => Ok (default (MockPlatform h) (List.find isAvailable candidates))
       end.

(** The values bound: the inputs of report_data and the texts clients get. *)
Definition boundKeys (km : TeeKeyManagerService) (keys : KeyDerivationService) (cert : option (list byte))
  : result (ReportDataInputs * BoundKeys) :=
  match getPublicKeyBytes km with
  | None => Throw (Error "ML-KEM public key not available from TEE Key Manager")
  | Some ek =>
      let identity := getIdentityPublicKey keys in
      let signer := getRefundSignerPublicKey keys in
      let* encoded := match signer with
                      | Some key => rmap Some (encodeRefundSignerPublicKey key)
                      | None => Ok None
                      end in
      Ok ({| mlkemPublicKey := ek; identityPublicKey := identity; refundSignerPublicKey := encoded;
             tlsCertificateDer := cert |},
          {| bk_mlkemPublicKey := to_base64 h ek;
             bk_identityPublicKey := (fun k => "0x" +:+ to_hex k) <$> identity;
             bk_refundSignerPublicKey := signer;
             bk_tlsCertificate := to_base64 h <$> cert |})
  end.

(** [platform] is [this.platform], null before [onModuleInit]. *)
Definition getAttestation (platform : option ITeePlatform) (km : TeeKeyManagerService)
  (keys : KeyDerivationService) (cert : option (list byte)) (nonce : option (list byte)) : result BoundAttestation :=
  match platform with
  | None => Throw (Error "Attestation service not initialized")
  | Some p =>
      let* bound := boundKeys km keys cert in
      let* reportData := buildReportData sha256 bound.1 nonce in
      let* quote := generateQuote p reportData in
      Ok {| ba_quote := quote; ba_nonce := (fun n => "0x" +:+ to_hex n) <$> nonce; ba_keys := bound.2 |}
  end.

Definition onApplicationBootstrap (platform : option ITeePlatform) (km : TeeKeyManagerService)
  (keys : KeyDerivationService) (cert : option (list byte)) : result unit :=
  let* prod := isProd e in
  if negb prod then Ok tt
  else
    let* bound := boundKeys km keys cert in
    let* requested := buildReportData sha256 bound.1 None in
    match getAttestation platform km keys cert None with
    | Throw _ => Throw (Error "Cannot start in production: first quote failed")
    | Ok a =>
        let* attested := tdxQuoteReportData (from_base64 (aq_quote (ba_quote a))) in
        if bool_decide (attested = requested) then Ok tt
        else Throw (Error "Cannot start in production: the quote does not carry the requested report_data")
    end.

Definition getPlatform (platform : option ITeePlatform) : string :=
  match platform with Some p => platform_name (p_name p) | None => "unknown" end.

Definition isInTee (platform : option ITeePlatform) : bool :=
  match platform with Some p => negb (bool_decide (p_name p = mock)) | None => true end.

(** ** attestation.controller.ts *)

(** GET /attestation: the attestation and the platform its instructions are for. *)
Definition get_attestation_handler (platform : option ITeePlatform) (km : TeeKeyManagerService)
  (keys : KeyDerivationService) (cert : option (list byte)) (nonce : option string)
  : result (BoundAttestation * TeePlatform) :=
  match parseNonce nonce with
  | Throw (JsError _ message) | Throw (HttpException _ message) => Throw (BadRequestException message)
  | Ok parsed =>
      let* a := getAttestation platform km keys cert parsed in
      Ok (a, aq_platform (ba_quote a))
  end.

Record KeyManifestResponse : Type := {
  kr_signed : SignedKeyManifest;
  kr_mlkemPublicKey : string;
  kr_identity : option string * option string * list string;
  kr_refundSigner : option (string * string) * list string;
}.

Definition hex0x (bytes : list byte) : string := "0x" +:+ to_hex bytes.

(** GET /attestation/manifest. *)
Definition get_manifest_handler (crypto : Crypto) (cert : option (list byte)) (keys : KeyDerivationService)
  : KeyDerivationService * result KeyManifestResponse :=
  let '(keys', r) := getKeyManifest sha256 crypto cert keys in
  (keys', let* signed := r in
          match signed with
          | None => Throw (ServiceUnavailableException "Keys were not derived from dstack, so there is no key manifest")
          | Some m =>
              Ok {| kr_signed := m;
                    kr_mlkemPublicKey := to_base64 h (default [] (getMlKemPublicKey keys'));
                    kr_identity := (getIdentityAddress crypto keys', hex0x <$> getIdentityPublicKey keys',
                                    map hex0x (getIdentitySignatureChain keys'));
                    kr_refundSigner := (getRefundSignerPublicKey keys',
                                        map hex0x (getRefundSignerSignatureChain keys')) |}
          end).
End Service.

(** ** Properties *)

Section Properties.
Context (sha256 sha384 : list byte -> list byte) (from_value : json -> result (list byte)).
Context (e : env) (h : host) (from_base64 : string -> list byte).
Context (crypto : Crypto) (circom : Circomlib).
Context (verifyTypedData : KeyManifest -> string -> result string).
Context (getAddress : string -> result string) (computeAddress' : list byte -> result string).

(** C23: production attests with dstack or does not start. When the service comes up in
    production - the platform is selected and the first quote is checked - the
    platform is the dstack one, its socket is there, no simulator is configured and
    no other platform was forced, and the quote it gives carries the report data
    built from the keys the service holds. In particular the mock never attests. *)
Theorem production_attests_with_dstack forced p km keys cert :
  as_onModuleInit e h forced = Ok p -> isProd e = Ok true ->
  onApplicationBootstrap sha256 e h from_base64 (Some p) km keys cert = Ok tt ->
  p = PhalaPlatform h /\ existsSync h "/var/run/dstack.sock" = true
  /\ is_set e "DSTACK_SIMULATOR_ENDPOINT" = false /\ isInTee (Some p) = true
  /\ exists bound requested a, boundKeys h km keys cert = Ok bound
       /\ buildReportData sha256 bound.1 None = Ok requested
       /\ getAttestation sha256 h (Some p) km keys cert None = Ok a
       /\ tdxQuoteReportData (from_base64 (aq_quote (ba_quote a))) = Ok requested
       /\ ba_keys a = bound.2.
Proof.
  unfold as_onModuleInit, onApplicationBootstrap. intros Hp Hprod Hb. rewrite Hprod in Hp, Hb. cbn [rbind negb] in *.
  unfold selectProductionPlatform in Hp. destruct (match forced with Some f => _ | None => _ end); [done|].
  destruct (is_set e "DSTACK_SIMULATOR_ENDPOINT"); [done|].
  destruct (isAvailable (PhalaPlatform h)) eqn:Hav; [|done]. injection Hp as <-.
  split; [done|]. split; [by apply andb_true_iff in Hav as [? _]|]. split; [done|]. split; [done|].
  apply rbind_ok in Hb as (bound & Hbound & Hb). apply rbind_ok in Hb as (requested & Hreq & Hb).
  destruct (getAttestation _ _ _ _ _ _ _) as [a|] eqn:Ha in Hb; [|done].
  apply rbind_ok in Hb as (attested & Hatt & Hb). case_bool_decide; [subst|done].
  exists bound, requested, a. do 4 (split; [assumption|]).
  unfold getAttestation in Ha. rewrite Hbound in Ha. cbn [rbind] in Ha.
  apply rbind_ok in Ha as (rd & _ & Ha). apply rbind_ok in Ha as (q & _ & Ha). by injection Ha as <-.
Qed.

(** What a client posts to its own check of an attestation. *)
Definition evidence_of (a : BoundAttestation) : KeyBindingEvidence :=
  {| kb_platform := platform_name (aq_platform (ba_quote a)); kb_quote := aq_quote (ba_quote a);
     kb_reportData := aq_reportData (ba_quote a); kb_keys := ba_keys a; kb_eventLog := aq_eventLog (ba_quote a) |}.

Lemma lower_digit n : 0 <= n < 16 -> lower (hex_digit n) = hex_digit n.
Proof.
  intros H. assert (Hn : n ∈ seqZ 0 16) by (apply elem_of_seqZ; lia).
  clear H; revert n Hn. apply Forall_forall. by repeat constructor.
Qed.

Lemma lower_hex b : map lower (to_hex_chars b) = to_hex_chars b.
Proof.
  induction b as [|x b IH]; [done|]. cbn [to_hex_chars map].
  pose proof (byteZ_range x). pose proof (Z.mod_pos_bound (byteZ x) 16 ltac:(lia)).
  assert (0 <= byteZ x / 16 < 16) by (split; [apply Z.div_pos|apply Z.div_lt_upper_bound]; lia).
  by rewrite !lower_digit, IH by lia.
Qed.

Lemma lower_hash b : toLowerCase (sha256_hex sha256 b) = sha256_hex sha256 b.
Proof.
  unfold toLowerCase, sha256_hex. rewrite chars_app. unfold to_hex. rewrite chars_of_chars, map_app, lower_hex.
  rewrite <- (of_chars_chars ("0x" +:+ of_chars (to_hex_chars (sha256 b)))), chars_app, chars_of_chars. reflexivity.
Qed.

Lemma strip0x_to_hex b : of_hex (strip0x (to_hex b)) = b.
Proof.
  rewrite strip0x_hex; [apply of_hex_to_hex|]. unfold to_hex. rewrite chars_of_chars. apply to_hex_is_hex.
Qed.

(** The parameters do what they document. *)
Context (Hlen : forall x, length (sha256 x) = 32%nat).
Context (Hc : circomlib_ok circom).
Context (Hbase64 : forall b, from_base64 (to_base64 h b) = b).
Context (Hbase64_nil : forall b, b <> [] -> (str_len (to_base64 h b) =? 0) = false).
(** ethers: for the signing keys it makes, a signature gives the signer's address back,
    and the address functions of the client and of the server agree. *)
Context (Hrecover : forall b k m, new_signing_key crypto b = Ok k ->
  verifyTypedData m (sign_typed crypto k m) = Ok (computeAddress crypto (sk_public k))).
Context (Haddress : forall b k, new_signing_key crypto b = Ok k ->
  getAddress (computeAddress crypto (sk_public k)) = Ok (computeAddress crypto (sk_public k))).
Context (Hcompute : forall b k, new_signing_key crypto b = Ok k ->
  computeAddress' (sk_public k) = Ok (computeAddress crypto (sk_public k))).
(** A dstack agent whose quotes are honest. *)
Context (Hdstack : forall rd q log, dstack_getQuote h rd = Ok (q, log) -> honest_quote sha384 rd q log).

(** A refund signer whose public key is the one its private key has, and an identity key
    that ethers made. *)
Definition keys_ok (keys : KeyDerivationService) : Prop :=
  match refundSigner keys with Some (key, public, _) => public = public_text circom key | None => True end
  /\ match identity keys with Some (id, _) => exists b, new_signing_key crypto b = Ok id | None => True end.

(** The keys derived from dstack are such keys. *)
Lemma derived_keys_ok e' transport getAddress' s : derived_from crypto circom e' transport getAddress' s -> keys_ok s.
Proof.
  intros [_ (r & info & _ & _ & Hr) (r' & k & _ & Hk & Hi) _ _]. unfold keys_ok. rewrite Hr, Hi. split; [done|by exists (gk_key r')].
Qed.

Lemma lower_cert cert : toLowerCase (match cert with Some der => sha256_hex sha256 der | None => ZeroHash end)
  = match cert with Some der => sha256_hex sha256 der | None => ZeroHash end.
Proof. destruct cert; [apply lower_hash|vm_compute; reflexivity]. Qed.

Lemma manifest_verifies keys cert m ek bk : keys_ok keys ->
  getMlKemPublicKey keys = Some ek -> bk_refundSignerPublicKey bk = getRefundSignerPublicKey keys ->
  fresh_manifest sha256 crypto cert keys = Ok (Some m) ->
  verifyManifest sha256 verifyTypedData getAddress computeAddress' m ek bk (getIdentityPublicKey keys) cert = Ok [].
Proof.
  intros [Hsok Hidok] Hek Hbk Hm. unfold fresh_manifest in Hm. destruct (appId keys) as [app|]; [|done].
  destruct (str_len app =? 0); [done|]. unfold rmap in Hm. apply rbind_ok in Hm as (m' & Hm & E).
  assert (m' = m) as -> by congruence. clear E. unfold signKeyManifest in Hm.
  unfold getMlKemPublicKey in Hek. unfold getRefundSignerPublicKey in Hbk. unfold getIdentityPublicKey in *.
  destruct (identity keys) as [[id chain]|]; [destruct Hidok as [b Hid]|done]. destruct (txSigner keys) as [tx|]; [|done].
  destruct (mlkemPair keys) as [[public secret]|]; [|done].
  destruct (refundSigner keys) as [[[key signer] chain']|]; [|done].
  cbn in Hek, Hbk. assert (public = ek) as -> by congruence. subst signer.
  apply (f_equal (fun r => match r with Ok x => x | Throw _ => m end)) in Hm. subst m.
  unfold verifyManifest, refund_signer_differs. rewrite Hbk. cbn [manifest manifest_signature]. rewrite (Hrecover b) by done.
  cbn [mlkemPublicKeyHash refundSignerX refundSignerY tlsCertificateHash fst snd fmap option_fmap option_map].
  rewrite lower_hash, lower_cert, !bool_decide_true by done. cbn [negb push_if].
  destruct (public_reads circom Hc key) as [Hx Hy]. rewrite Hx, Hy. cbn [rbind].
  rewrite !Z.eqb_refl. cbn [negb rbind]. rewrite (Haddress b) by done. cbn [rbind negb push_if].
  rewrite (Hcompute b) by done. cbn [rbind]. by rewrite bool_decide_true.
Qed.

(** What the client decodes of the returned keys is what the enclave bound. *)
Lemma bound_keys_read km keys cert bound : boundKeys h km keys cert = Ok bound -> cert <> Some [] ->
  read_keys from_base64 bound.2 = Ok bound.1
  /\ getPublicKeyBytes km = Some (mlkemPublicKey bound.1) /\ identityPublicKey bound.1 = getIdentityPublicKey keys
  /\ tlsCertificateDer bound.1 = cert /\ bk_refundSignerPublicKey bound.2 = getRefundSignerPublicKey keys.
Proof.
  unfold boundKeys. destruct (getPublicKeyBytes km) as [ek|]; [|done]. intros H Hcert.
  apply rbind_ok in H as (encoded & Henc & H).
  apply (f_equal (fun r => match r with Ok b => b | Throw _ => bound end)) in H. subst bound.
  split; [|done]. unfold read_keys. cbn [snd bk_refundSignerPublicKey bk_mlkemPublicKey bk_identityPublicKey bk_tlsCertificate].
  rewrite Henc. cbn [rbind fst]. rewrite Hbase64. do 2 f_equal.
  - destruct (getIdentityPublicKey keys) as [k|]; [|done]. cbn [fmap option_fmap option_map decode_text].
    change (str_len ("0x" +:+ to_hex k) =? 0) with false. cbv iota. by rewrite strip0x_prefixed, of_hex_to_hex.
  - destruct cert as [der|]; [|done]. cbn [fmap option_fmap option_map decode_text].
    rewrite Hbase64_nil by congruence. by rewrite Hbase64.
Qed.

(** C22: an honest attestation verifies. A client that sends a nonce, reads the answer of
    an enclave attesting with dstack and the key manifest of the same moment, over a
    TLS session that presented the certificate the enclave serves, gets no failure
    from [verifyKeyBinding]: the report data is found in the quote, the event log
    replays to its registers, and the text forms of the keys, the quote and the
    manifest give back what was bound. Honest means that the agent's answer is a TDX
    quote of Intel's layout on the requested report data, whose registers are the
    digests of the logged events extended in order ([Dstack.honest_quote]). *)
Theorem honest_attestation_verifies km keys cert nonce a signed :
  keys_ok keys -> getPublicKeyBytes km = getMlKemPublicKey keys -> cert <> Some [] ->
  getAttestation sha256 h (Some (PhalaPlatform h)) km keys cert nonce = Ok a ->
  fresh_manifest sha256 crypto cert keys = Ok signed ->
  verifyKeyBinding sha256 sha384 from_value from_base64 verifyTypedData getAddress computeAddress' (evidence_of a)
    {| opt_nonce := nonce; servedCertificate := cert; opt_keyManifest := signed |} = Ok [].
Proof.
  intros Hsok Hkm Hcert Ha Hm. unfold getAttestation in Ha. apply rbind_ok in Ha as (bound & Hb & Ha).
  apply rbind_ok in Ha as (rd & Hrd & Ha). apply rbind_ok in Ha as (q & Hq & Ha).
  destruct (bound_keys_read km keys cert bound Hb Hcert) as (Hread & Hek & Hid & Htls & Hsg).
  assert (Ek : ba_keys a = bound.2) by by injection Ha as <-.
  assert (Eq : ba_quote a = q) by by injection Ha as <-.
  unfold evidence_of. rewrite Ek, Eq. clear Ha.
  unfold generateQuote, PhalaPlatform, phala_generateQuote in Hq. apply wrap_ok, rbind_ok in Hq as ([qh log] & Hd & Hq).
  assert (Hlen_rd : length rd = 64%nat).
  { apply buildReportData_ok in Hrd as (? & ? & ? & ? & ? & _ & _ & _ & _ & _ & -> & L). by rewrite length_app, Hlen, L. }
  rewrite of_hex_to_hex in Hd. unfold subarray in Hd. rewrite drop_0, firstn_all2 in Hd by lia.
  destruct (honest_quote_read sha384 from_value rd qh log (Hdstack rd qh log Hd)) as [Hrdq Hlog]. cbn [fst snd] in Hq.
  assert (Q1 : aq_platform q = phala) by by injection Hq as <-.
  assert (Q2 : aq_quote q = to_base64 h (of_hex (strip0x qh))) by by injection Hq as <-.
  assert (Q3 : aq_reportData q = to_hex rd) by by injection Hq as <-.
  assert (Q4 : aq_eventLog q = Some log) by by injection Hq as <-.
  unfold verifyKeyBinding. cbn [kb_platform kb_quote kb_reportData kb_keys kb_eventLog opt_nonce servedCertificate opt_keyManifest].
  rewrite Q1, Q2, Q3, Q4. cbn zeta. unfold read_keys in Hread. apply rbind_ok in Hread as (sg & Hsg' & Hread).
  rewrite Hsg'. cbn [rbind].
  apply (f_equal (fun r => match r with Ok b => b | Throw _ => bound.1 end)) in Hread.
  assert (Ecert : decode_text from_base64 (bk_tlsCertificate bound.2) = cert) by (rewrite <- Htls, <- Hread; done).
  assert (Eid : decode_text (fun s => of_hex (strip0x s)) (bk_identityPublicKey bound.2) = getIdentityPublicKey keys)
    by (rewrite <- Hid, <- Hread; done).
  assert (Eek : from_base64 (bk_mlkemPublicKey bound.2) = mlkemPublicKey bound.1) by (rewrite <- Hread; done).
  rewrite Hread, Hrd. cbn [rbind]. rewrite strip0x_to_hex, bool_decide_true by done. cbn [negb push_if].
  rewrite Ecert, Eid, Eek, Hbase64, Hrdq, Hlog. cbn [orb bool_decide rbind].
  assert (Hf2 : match cert with Some served => match cert with None => [NoBoundCertificate]
            | Some der => push_if (negb (bool_decide (served = der))) OtherSessionCertificate end | None => [] end = []).
  { destruct cert; [|done]. by rewrite bool_decide_true. }
  rewrite Hf2. rewrite !bool_decide_true by done. cbn [orb negb push_if app map rbind].
  destruct signed as [m|]; [|done].
  rewrite (manifest_verifies keys cert m _ bound.2 Hsok); [done|by rewrite <- Hkm, Hek|exact Hsg|exact Hm].
Qed.
End Properties.

(** ** A concrete enclave and client *)

Definition toy_recover (_ : KeyManifest) (sg : string) : result string := Ok ("0x" +:+ sg).

Lemma toy_hex_nonempty b : b <> [] -> (str_len (to_hex b) =? 0) = false.
Proof. intros Hb. unfold str_len. rewrite to_hex_length. destruct b; [done|]. cbn [length]. apply Z.eqb_neq. lia. Qed.

Definition toy_manager (s : KeyDerivationService) : TeeKeyManagerService :=
  {| km_mlkem := true; km_publicKey := getMlKemPublicKey s; envPrivateKey := None; km_derived := true |}.

Lemma production_attests_with_dstack_witness :
  exists s p, toy_started = Ok s /\ as_onModuleInit prod_env toy_host None = Ok p /\ p = PhalaPlatform toy_host.
Proof.
  destruct toy_started as [s|] eqn:Hs; [|vm_compute in Hs; discriminate].
  exists s, (PhalaPlatform toy_host). split; [reflexivity|].
  assert (Hp : as_onModuleInit prod_env toy_host None = Ok (PhalaPlatform toy_host)) by reflexivity.
  split; [exact Hp|].
  refine (proj1 (production_attests_with_dstack toy_sha256 prod_env toy_host of_hex None _ (toy_manager s) s None Hp eq_refl _)).
  vm_compute in Hs. injection Hs as <-. vm_compute. reflexivity.
Defined.

Lemma honest_attestation_verifies_witness :
  exists s a signed, toy_started = Ok s
    /\ getAttestation toy_sha256 toy_host (Some (PhalaPlatform toy_host)) (toy_manager s) s (Some [byte_of 7]) (Some (alloc 32)) = Ok a
    /\ verifyKeyBinding toy_sha256 toy_sha384 toy_from_value of_hex toy_recover (fun x => Ok x)
         (fun p => Ok ("0x" +:+ to_hex p)) (evidence_of a)
         {| opt_nonce := Some (alloc 32); servedCertificate := Some [byte_of 7]; opt_keyManifest := signed |} = Ok [].
Proof.
  destruct toy_started as [s|] eqn:Hs; [|vm_compute in Hs; discriminate].
  destruct (getAttestation toy_sha256 toy_host (Some (PhalaPlatform toy_host)) (toy_manager s) s (Some [byte_of 7]) (Some (alloc 32)))
    as [a|] eqn:Ha; [|exfalso; vm_compute in Hs; injection Hs as <-; vm_compute in Ha; discriminate].
  destruct (fresh_manifest toy_sha256 toy_crypto (Some [byte_of 7]) s) as [signed|] eqn:Hm;
    [|exfalso; vm_compute in Hs; injection Hs as <-; vm_compute in Hm; discriminate].
  exists s, a, signed. split; [reflexivity|]. split; [exact Ha|].
  apply (honest_attestation_verifies toy_sha256 toy_sha384 toy_from_value toy_host of_hex toy_crypto toy_circomlib
    toy_recover (fun x => Ok x) (fun p => Ok ("0x" +:+ to_hex p)) (fun x => be_bytes_length 32 _) toy_circomlib_ok
    of_hex_to_hex toy_hex_nonempty (fun _ _ _ _ => eq_refl) (fun _ _ _ => eq_refl) (fun _ _ _ => eq_refl) toy_dstack
    (toy_manager s) s (Some [byte_of 7]) (Some (alloc 32)) a signed); [|reflexivity|discriminate|exact Ha|exact Hm].
  vm_compute in Hs. injection Hs as <-. split; [reflexivity|]. eexists. vm_compute. reflexivity.
Defined.

Lemma attested_keys_are_the_enclaves_witness :
  exists s a bound inputs, toy_started = Ok s
    /\ getAttestation toy_sha256 toy_host (Some (PhalaPlatform toy_host)) (toy_manager s) s None None = Ok a
    /\ boundKeys toy_host (toy_manager s) s None = Ok bound
    /\ read_keys of_hex (kb_keys (evidence_of a)) = Ok inputs
    /\ committed inputs = committed bound.1.
Proof.
  destruct toy_started as [s|] eqn:Hs; [|vm_compute in Hs; discriminate].
  assert (Hall : exists a bound attested,
    getAttestation toy_sha256 toy_host (Some (PhalaPlatform toy_host)) (toy_manager s) s None None = Ok a
    /\ boundKeys toy_host (toy_manager s) s None = Ok bound
    /\ verifyKeyBinding toy_sha256 toy_sha384 toy_from_value of_hex toy_recover (fun x => Ok x)
         (fun p => Ok ("0x" +:+ to_hex p)) (evidence_of a)
         {| opt_nonce := None; servedCertificate := None; opt_keyManifest := None |} = Ok []
    /\ kb_platform (evidence_of a) = "phala"%string
    /\ tdxQuoteReportData (of_hex (kb_quote (evidence_of a))) = Ok attested
    /\ buildReportData toy_sha256 bound.1 None = Ok attested
    /\ read_keys of_hex (kb_keys (evidence_of a)) = Ok bound.1).
  { vm_compute in Hs. injection Hs as <-. do 3 eexists. do 3 (split; [vm_compute; reflexivity|]).
    split; [reflexivity|]. split_and!; vm_compute; reflexivity. }
  destruct Hall as (a & bound & attested & Ha & Hb & Hcheck & Hp & Hq & Henc & Hread).
  destruct (attested_keys_are_the_enclaves toy_sha256 toy_sha384 toy_from_value of_hex toy_recover (fun x => Ok x)
              (fun p => Ok ("0x" +:+ to_hex p)) (fun x => be_bytes_length 32 _) (evidence_of a) _ attested bound.1 None
              Hcheck (or_introl Hp) Hq Henc) as (inputs & Hin & _ & Hc).
  exists s, a, bound, inputs. split; [reflexivity|]. do 3 (split; [assumption|]). destruct Hc as [Hc|[Hc _]]; [|exact Hc].
  exfalso. assert (inputs = bound.1) as -> by congruence.
  destruct Hc as [[Hc _]|(d1 & d2 & D1 & D2 & Hc & _)]; [by apply Hc|congruence].
Defined.
