(* ===== verification/Blockchain.v ===== *)
(** * The connection to the contract

    [src/longjing/blockchain.service.ts] and [chain.ts]. The production connection
    is an asynchronous function that suspends at each RPC call while the service's
    methods keep being called: it is modelled as a state machine whose inputs are
    the answers awaited and the calls made in between. ethers and the RPC node are
    the answers; a handler is its number. *)

From Stdlib Require Import Ascii String SpecFloat.
From S2P Require Import Prelude JsText JsNumber FieldElement Profile.
Open Scope Z_scope.

(** ** chain.ts *)

(** [config] holds what ConfigService reads; [random] is [Math.random()]. *)
Definition rpc_urls (config : env) : list string :=
  List.filter (fun url => 0 <? str_len url)
    (map trim (split ","%char (default EmptyString (config !! "ETHEREUM_RPC_URLS"%string)))).

Definition selectRpcUrl (config : env) (current : Profile) (random : number) : option string :=
  match current with
  | local => match config !! "ANVIL_RPC_URL"%string with
             | Some v => if str_len v =? 0 then None else Some v
             | None => None
             end
  | prod =>
      let urls := rpc_urls config in
      match BigInt_of_number (Math_floor (nmul random (num (Z.of_nat (length urls))))) with
      | Ok i => if i <? 0 then None else urls !! Z.to_nat i
      | Throw _ => None
      end
  end.

(** The parsed body of eth_chainId: a result text, or an error. *)
Definition fetchChainId (response : result (option string)) : result Z :=
  let* body := response in
  match body with
  | Some text => BigInt text
  | None => Throw (Error "eth_chainId failed")
  end.

Definition assertChainMatchesProfile (chainId : Z) (current : Profile) : result unit :=
  match current with
  | local => if chainId =? LOCAL_CHAIN_ID then Ok tt
             else Throw (Error "NODE_ENV=development or test runs on Anvil only")
  | prod => if chainId =? LOCAL_CHAIN_ID then Throw (Error "NODE_ENV=production refuses the local chain")
            else Ok tt
  end.

(** ** blockchain.service.ts *)

Definition WITHDRAWAL_LOOKBACK_BLOCKS : Z := 25000.

(** Where the connection under way is suspended; [RunningHandlers] holds those left
    after the one running, [StartRefused] is a failed start. *)
Inductive phase : Type :=
| Unstarted
| Idle
| FetchingChain (atBoot : bool)
| ReadingCMax (atBoot : bool)
| ReadingServerKey (atBoot : bool)
| ReadingSigner (atBoot : bool) (onchain : string * string)
| ReadingServerAddress (atBoot : bool)
| RunningHandlers (rest : list nat)
| StartRefused.

Record BlockchainService : Type := {
  provider : option Z;
  contract : option Z;
  wallet : option string;
  cMax : option Z;
  retry : bool;
  destroyed : bool;
  connectedHandlers : list nat;
  at_phase : phase;
  started : list nat;
}.

Definition new_blockchain : BlockchainService :=
  {| provider := None; contract := None; wallet := None; cMax := None; retry := false; destroyed := false;
     connectedHandlers := []; at_phase := Unstarted; started := [] |}.

Definition goto (p : phase) (s : BlockchainService) : BlockchainService :=
  {| provider := provider s; contract := contract s; wallet := wallet s; cMax := cMax s; retry := retry s;
     destroyed := destroyed s; connectedHandlers := connectedHandlers s; at_phase := p; started := started s |}.

Definition with_cMax (m : option Z) (s : BlockchainService) : BlockchainService :=
  {| provider := provider s; contract := contract s; wallet := wallet s; cMax := m; retry := retry s;
     destroyed := destroyed s; connectedHandlers := connectedHandlers s; at_phase := at_phase s; started := started s |}.

Definition with_retry (r : bool) (s : BlockchainService) : BlockchainService :=
  {| provider := provider s; contract := contract s; wallet := wallet s; cMax := cMax s; retry := r;
     destroyed := destroyed s; connectedHandlers := connectedHandlers s; at_phase := at_phase s; started := started s |}.

(** [build]: the contract is set here, before anything is read from it. [signer] is
    the address of the wallet [createSigner] makes, if any. *)
Definition build (signer : option string) (chainId : Z) (s : BlockchainService) : BlockchainService :=
  {| provider := Some chainId; contract := Some chainId; wallet := signer; cMax := cMax s; retry := retry s;
     destroyed := destroyed s; connectedHandlers := connectedHandlers s; at_phase := at_phase s; started := started s |}.

Definition disconnect (s : BlockchainService) : BlockchainService :=
  {| provider := None; contract := None; wallet := None; cMax := None; retry := retry s;
     destroyed := destroyed s; connectedHandlers := connectedHandlers s; at_phase := at_phase s; started := started s |}.

Definition isAvailable (s : BlockchainService) : bool :=
  bool_decide (is_Some (contract s)) && bool_decide (is_Some (provider s)).

(** The [catch] of [connectProd]. *)
Definition misconfigured (atBoot : bool) (s : BlockchainService) : BlockchainService :=
  goto (if atBoot then StartRefused else Idle) (disconnect s).

Definition try_later (s : BlockchainService) : BlockchainService :=
  let s := goto Idle (disconnect s) in
  if destroyed s then s else with_retry true s.

(** The loop over the handlers taken: the next one starts when the last one ends. *)
Definition next_handler (l : list nat) (s : BlockchainService) : BlockchainService :=
  match l with
  | [] => goto Idle s
  | h :: l' =>
      {| provider := provider s; contract := contract s; wallet := wallet s; cMax := cMax s; retry := retry s;
         destroyed := destroyed s; connectedHandlers := connectedHandlers s; at_phase := RunningHandlers l';
         started := started s ++ [h] |}
  end.

(** [connectedHandlers.splice(0)]. *)
Definition take_handlers (s : BlockchainService) : BlockchainService :=
  {| provider := provider s; contract := contract s; wallet := wallet s; cMax := cMax s; retry := retry s;
     destroyed := destroyed s; connectedHandlers := []; at_phase := at_phase s; started := started s |}.

Definition connected_prod (s : BlockchainService) : BlockchainService :=
  next_handler (connectedHandlers s) (take_handlers s).

(** [BigInt(a) !== BigInt(b)], which throws on a text that is not a number. *)
Definition keys_differ (onchain signer : string * string) : result bool :=
  let* ox := BigInt onchain.1 in
  let* sx := BigInt signer.1 in
  if negb (ox =? sx) then Ok true
  else
    let* oy := BigInt onchain.2 in
    let* sy := BigInt signer.2 in
    Ok (negb (oy =? sy)).

(** The answers awaited, and the calls of other parts of the server. *)
Inductive input : Type :=
| Boot
| RetryTimer
| ChainAnswer (r : result Z)
| CMaxAnswer (r : result Z)
| ServerKeyAnswer (r : result (string * string))
| SignerAnswer (r : result (string * string))
| ServerAddressAnswer (r : result string)
| HandlerDone
| OnConnected (h : nat)
| Destroy.

Section Connection.
Context (signer : option string).

(** [connectProd], resumed by the answer it waits for. An answer nobody awaits does
    nothing. *)
Definition step (s : BlockchainService) (i : input) : BlockchainService :=
  match i, at_phase s with
  | Boot, Unstarted => goto (FetchingChain true) s
  | RetryTimer, Idle => if retry s then goto (FetchingChain false) (with_retry false s) else s
  | ChainAnswer (Ok chainId), FetchingChain b =>
      match assertChainMatchesProfile chainId prod with
      | Ok _ => goto (ReadingCMax b) (build signer chainId s)
      | Throw _ => misconfigured b s
      end
  | ChainAnswer (Throw _), FetchingChain _ => try_later s
  | CMaxAnswer (Ok m), ReadingCMax b => goto (ReadingServerKey b) (with_cMax (Some m) s)
  | CMaxAnswer (Throw _), ReadingCMax _ => try_later s
  | ServerKeyAnswer (Ok key), ReadingServerKey b => goto (ReadingSigner b key) s
  | ServerKeyAnswer (Throw _), ReadingServerKey _ => try_later s
  | SignerAnswer (Ok key), ReadingSigner b onchain =>
      match keys_differ onchain key with
      | Ok true => misconfigured b s
      | Ok false => goto (ReadingServerAddress b) s
      | Throw _ => try_later s
      end
  | SignerAnswer (Throw _), ReadingSigner _ _ => try_later s
  | ServerAddressAnswer (Ok _), ReadingServerAddress _ => connected_prod s
  | ServerAddressAnswer (Throw _), ReadingServerAddress _ => try_later s
  | HandlerDone, RunningHandlers l => next_handler l s
  | OnConnected h, _ =>
      if isAvailable s
      then {| provider := provider s; contract := contract s; wallet := wallet s; cMax := cMax s; retry := retry s;
              destroyed := destroyed s; connectedHandlers := connectedHandlers s; at_phase := at_phase s;
              started := started s ++ [h] |}
      else {| provider := provider s; contract := contract s; wallet := wallet s; cMax := cMax s; retry := retry s;
              destroyed := destroyed s; connectedHandlers := connectedHandlers s ++ [h]; at_phase := at_phase s;
              started := started s |}
  | Destroy, p =>
      {| provider := provider s; contract := contract s; wallet := wallet s; cMax := cMax s; retry := false;
         destroyed := true; connectedHandlers := connectedHandlers s; at_phase := p; started := started s |}
  | _, _ => s
  end.

Definition run_inputs (l : list input) (s : BlockchainService) : BlockchainService := fold_left step l s.
End Connection.

(** The start outside production: the chain, then the contract; a contract that does not
    answer leaves the service connected without C_MAX. *)
Definition local_onModuleInit (config : env) (random : number) (signer : option string)
  (chain : result Z) (c_max : result Z) (s : BlockchainService) : result BlockchainService :=
  match selectRpcUrl config local random, config !! "ZK_CONTRACT_ADDRESS"%string with
  | Some _, Some address =>
      if str_len address =? 0 then Ok s
      else match chain with
           | Throw _ => Ok s
           | Ok chainId =>
               let* _ := assertChainMatchesProfile chainId local in
               let s := build signer chainId s in
               match c_max with
               | Ok m => Ok (with_cMax (Some m) s)
               | Throw _ => Ok s
               end
           end
  | _, _ => Ok s
  end.

(** The start in production: without configuration the server does not start. *)
Definition prod_onModuleInit (config : env) (random : number) (signer : option string) (s : BlockchainService)
  : result BlockchainService :=
  match selectRpcUrl config prod random, config !! "ZK_CONTRACT_ADDRESS"%string with
  | Some _, Some address =>
      if str_len address =? 0 then Throw (Error "NODE_ENV=production requires ETHEREUM_RPC_URLS and ZK_CONTRACT_ADDRESS")
      else Ok (step signer s Boot)
  | _, _ => Throw (Error "NODE_ENV=production requires ETHEREUM_RPC_URLS and ZK_CONTRACT_ADDRESS")
  end.

(** ** Reading the contract *)

Definition connected (s : BlockchainService) : result Z :=
  of_option (Error "Blockchain service not initialized") (contract s).

Definition getSigner (s : BlockchainService) : option string :=
  match contract s with Some _ => wallet s | None => None end.

Definition getCMax (s : BlockchainService) : result Z :=
  let* _ := connected s in
  of_option (Error "C_MAX not read from the contract") (cMax s).

(** [answer] is the contract's, asked with the root as 32 bytes. *)
Definition isKnownRoot (toBeHex32 : Z -> result string) (answer : string -> result bool) (root : string)
  (s : BlockchainService) : result bool :=
  let* _ := connected s in
  let* z := BigInt root in
  let* hex := toBeHex32 z in
  answer hex.

(** The other reads forward to the contract. *)
Definition forward {A} (answer : result A) (s : BlockchainService) : result A :=
  let* _ := connected s in answer.

Definition getMerkleRoot (answer : result string) (s : BlockchainService) : result string := forward answer s.
Definition getServerAddress (answer : result string) (s : BlockchainService) : result string := forward answer s.
Definition getServerPublicKey (answer : result (string * string)) (s : BlockchainService) : result (string * string) :=
  forward answer s.

(** [contract.target]. *)
Definition getContractAddress (address : string) (s : BlockchainService) : option string :=
  match contract s with Some _ => Some address | None => None end.

(** The wallet [build] gives the contract: the enclave's key in production, the
    configured key outside. [walletOf] makes the wallet of a private key. *)
Definition createSigner {A} (walletOf : string -> result A) (production : bool) (txSigner : option A) (config : env)
  : result (option A) :=
  if production then Ok txSigner
  else match config !! "SERVER_TX_PRIVATE_KEY"%string with
       | Some k => if str_len k =? 0 then Ok None else rmap Some (walletOf k)
       | None => Ok None
       end.

(** What [Misconfigured] is thrown with, and what tells it from another error. *)
Definition Misconfigured (message : string) : exn := JsError "Misconfigured" message.
Definition is_misconfigured (e : exn) : bool :=
  match e with JsError n _ => bool_decide (n = "Misconfigured"%string) | HttpException _ _ => false end.

(** The three answers it awaits; another server address is only logged. *)
Definition checkServerKeys (onchain signer : result (string * string)) (serverAddress : result string) : result unit :=
  let* onchain := onchain in
  let* signer := signer in
  let* differ := keys_differ onchain signer in
  if differ then Throw (Misconfigured "LongjingCredits.serverPublicKey is not the refund signer")
  else rmap (fun _ => tt) serverAddress.

(** The timer is cleared and the listeners removed; [destroyed] stops the retries. *)
Definition onModuleDestroy (s : BlockchainService) : BlockchainService := step None s Destroy.

(** The exits handled, given every exit with its block: those from the look-back to
    the block of the query, then those after the block [contract.on] polls from. *)
Definition watchWithdrawals {A} (latest queried subscribed : Z) (exits : list (A * Z)) : list (A * Z) :=
  List.filter (fun x => (Z.max 0 (latest - WITHDRAWAL_LOOKBACK_BLOCKS) <=? x.2) && (x.2 <=? queried)) exits
  ++ List.filter (fun x => subscribed <? x.2) exits.

(** ** The connection's invariant *)

(** What a service that is connected once and for all went through. *)
Definition verified (l : list input) (s : BlockchainService) : Prop :=
  ∃ c m onchain key,
    In (ChainAnswer (Ok c)) l ∧ c ≠ LOCAL_CHAIN_ID ∧ contract s = Some c ∧ provider s = Some c
    ∧ In (CMaxAnswer (Ok m)) l ∧ cMax s = Some m
    ∧ In (ServerKeyAnswer (Ok onchain)) l ∧ In (SignerAnswer (Ok key)) l ∧ keys_differ onchain key = Ok false.

Definition is_disconnected (s : BlockchainService) : Prop :=
  provider s = None ∧ contract s = None ∧ wallet s = None ∧ cMax s = None.

Definition built (l : list input) (s : BlockchainService) : Prop :=
  ∃ c, In (ChainAnswer (Ok c)) l ∧ c ≠ LOCAL_CHAIN_ID ∧ contract s = Some c ∧ provider s = Some c.

Definition priced (l : list input) (s : BlockchainService) : Prop :=
  built l s ∧ ∃ m, In (CMaxAnswer (Ok m)) l ∧ cMax s = Some m.

(** What holds at each point where the connection is suspended. *)
Definition phase_ok (l : list input) (s : BlockchainService) : Prop :=
  match at_phase s with
  | Unstarted | FetchingChain _ | StartRefused => is_disconnected s ∧ retry s = false
  | Idle => is_disconnected s ∨ (retry s = false ∧ connectedHandlers s = [] ∧ verified l s)
  | ReadingCMax _ => built l s ∧ retry s = false
  | ReadingServerKey _ => priced l s ∧ retry s = false
  | ReadingSigner _ onchain => priced l s ∧ retry s = false ∧ In (ServerKeyAnswer (Ok onchain)) l
  | ReadingServerAddress _ => verified l s ∧ retry s = false
  | RunningHandlers _ => verified l s ∧ retry s = false ∧ connectedHandlers s = []
  end.

Definition registered (l : list input) : list nat :=
  omap (fun i => match i with OnConnected h => Some h | _ => None end) l.

Definition pending (s : BlockchainService) : list nat :=
  match at_phase s with RunningHandlers l => l | _ => [] end ++ connectedHandlers s.

Lemma run_inputs_snoc signer l i s : run_inputs signer (l ++ [i]) s = step signer (run_inputs signer l s) i.
Proof. unfold run_inputs. by rewrite fold_left_app. Qed.

Create HintDb connection.

Lemma In_snoc {A} (x : A) l y : In x l → In x (l ++ [y]).
Proof. rewrite in_app_iff. by left. Qed.

Lemma In_last {A} (x : A) l : In x (l ++ [x]).
Proof. rewrite in_app_iff. right. by left. Qed.

#[export] Hint Resolve In_snoc In_last : connection.

Section Grow.
Context (l : list input) (i : input) (s : BlockchainService).

Lemma built_snoc : built l s → built (l ++ [i]) s.
Proof. intros (c & ? & ?). exists c. eauto with connection. Qed.

Lemma priced_snoc : priced l s → priced (l ++ [i]) s.
Proof. intros (Hb & m & ? & ?). split; [by apply built_snoc|]. exists m. eauto with connection. Qed.

Lemma verified_snoc : verified l s → verified (l ++ [i]) s.
Proof. intros (c & m & o & k & ?). exists c, m, o, k. naive_solver eauto with connection. Qed.

Lemma verified_priced : verified l s → priced l s.
Proof. intros (c & m & o & k & ?). unfold priced, built. naive_solver. Qed.
End Grow.

#[export] Hint Resolve built_snoc priced_snoc verified_snoc : connection.

Lemma phase_ok_snoc l i s : phase_ok l s → phase_ok (l ++ [i]) s.
Proof. unfold phase_ok. destruct (at_phase s); naive_solver eauto with connection. Qed.

Lemma try_later_ok l s : phase_ok l (try_later s).
Proof.
  unfold try_later. destruct (destroyed _); unfold phase_ok, is_disconnected; simpl; naive_solver.
Qed.

Lemma misconfigured_ok l b s : retry s = false → phase_ok l (misconfigured b s).
Proof. unfold misconfigured, phase_ok, is_disconnected. destruct b; simpl; naive_solver. Qed.

Lemma next_handler_ok l hs s :
  verified l s → retry s = false → connectedHandlers s = [] → phase_ok l (next_handler hs s).
Proof. destruct hs; unfold phase_ok; simpl; naive_solver. Qed.

#[export] Hint Resolve phase_ok_snoc try_later_ok misconfigured_ok : connection.

Lemma available_inv l s : phase_ok l s → isAvailable s = true → retry s = false.
Proof.
  unfold phase_ok, isAvailable, is_disconnected. intros H Ha.
  apply andb_true_iff in Ha as [[c Hc]%bool_decide_eq_true _].
  destruct (at_phase s); naive_solver.
Qed.

(** The calls that run between two answers change nothing the invariant reads, the
    list of handlers apart. *)
Lemma phase_ok_ext l s s' :
  provider s' = provider s → contract s' = contract s → wallet s' = wallet s → cMax s' = cMax s →
  at_phase s' = at_phase s → (retry s' = retry s ∨ retry s' = false) →
  (connectedHandlers s' = connectedHandlers s ∨ isAvailable s = false) →
  phase_ok l s → phase_ok l s'.
Proof.
  intros Hp Hc Hw Hm Hph Hr Hh.
  assert (retry s = false → retry s' = false) as Hr' by (destruct Hr; congruence).
  assert (verified l s → connectedHandlers s = [] → connectedHandlers s' = []) as Hh'.
  { intros (c & m & o & k & _ & _ & E1 & E2 & _) E. destruct Hh as [Hh|Hh]; [congruence|].
    unfold isAvailable in Hh. rewrite E1, E2 in Hh. done. }
  unfold verified in Hh'. unfold phase_ok, is_disconnected, priced, built, verified.
  rewrite Hp, Hc, Hw, Hm, Hph. clear Hr Hh.
  destruct (at_phase s); [tauto| |tauto..].
  intros [?|(? & ? & ?)]; [by left|right; auto].
Qed.

Lemma step_ok signer l i s : phase_ok l s → phase_ok (l ++ [i]) (step signer s i).
Proof.
  intros H. pose proof (phase_ok_snoc _ i _ H) as H'.
  destruct i as [| |r|r|r|r|r| |h|].
  1-8: destruct (at_phase s) as [| |b|b|b|b k|b|hs|] eqn:Hp; try (unfold step; rewrite Hp; try destruct r; exact H').
  - unfold step. rewrite Hp. unfold phase_ok in *. rewrite Hp in H'. exact H'.
  - unfold step. rewrite Hp. destruct (retry s) eqn:Hr; [|exact H'].
    unfold phase_ok in *. rewrite Hp in H'. simpl. destruct H' as [?|[? _]]; [done|congruence].
  - unfold step. rewrite Hp. destruct r as [c|]; [|apply try_later_ok].
    unfold phase_ok in H. rewrite Hp in H. destruct H as [_ Hr].
    unfold assertChainMatchesProfile. destruct (c =? LOCAL_CHAIN_ID) eqn:Hc; [by apply misconfigured_ok|].
    split; [|done]. exists c. simpl. split_and!; [apply In_last|by apply Z.eqb_neq|done|done].
  - unfold step. rewrite Hp. destruct r as [m|]; [|apply try_later_ok].
    unfold phase_ok in *. rewrite Hp in H'. destruct H' as [Hb Hr]. simpl.
    split; [|done]. split; [exact Hb|]. exists m. simpl. split; [apply In_last|done].
  - unfold step. rewrite Hp. destruct r as [k|]; [|apply try_later_ok].
    unfold phase_ok in *. rewrite Hp in H'. destruct H' as [Hb Hr]. simpl.
    split_and!; [exact Hb|done|apply In_last].
  - unfold step. rewrite Hp. destruct r as [key|]; [|apply try_later_ok].
    unfold phase_ok in H'. rewrite Hp in H'. destruct H' as (((c & ? & ? & ? & ?) & m & ? & ?) & Hr & ?).
    destruct (keys_differ k key) as [[|]|] eqn:Hk; [by apply misconfigured_ok| |apply try_later_ok].
    split; [|done]. exists c, m, k, key. simpl. split_and!; try done. apply In_last.
  - unfold step. rewrite Hp. destruct r as [a|]; [|apply try_later_ok].
    unfold phase_ok in H'. rewrite Hp in H'. destruct H' as [Hv Hr].
    apply next_handler_ok; [exact Hv|exact Hr|done].
  - unfold step. rewrite Hp. unfold phase_ok in H'. rewrite Hp in H'. destruct H' as (Hv & Hr & Hh).
    by apply next_handler_ok.
  - unfold step. destruct (isAvailable s) eqn:Ha.
    + apply (phase_ok_ext _ s); try done; auto.
    + apply (phase_ok_ext _ s); try done; auto.
  - unfold step. destruct (at_phase s) eqn:Hp; apply (phase_ok_ext _ s); auto.
Qed.

Lemma run_ok signer l : phase_ok l (run_inputs signer l new_blockchain).
Proof.
  induction l as [|i l IH] using rev_ind.
  - by cbv.
  - rewrite run_inputs_snoc. by apply step_ok.
Qed.

(** ** The handlers *)

(** Those started and those still to run. *)
Definition known (s : BlockchainService) : list nat := started s ++ pending s.

Lemma registered_app l l' : registered (l ++ l') = registered l ++ registered l'.
Proof. apply omap_app. Qed.

Definition between_handlers (s : BlockchainService) : Prop :=
  match at_phase s with RunningHandlers _ => False | _ => True end.

Lemma known_eq s s' :
  between_handlers s → between_handlers s' → started s' = started s →
  connectedHandlers s' = connectedHandlers s → known s' = known s.
Proof.
  unfold known, pending, between_handlers. intros Hb Hb' -> ->.
  by destruct (at_phase s), (at_phase s').
Qed.

Lemma try_later_known s : between_handlers s → known (try_later s) = known s.
Proof. intros. unfold try_later. destruct (destroyed _); by apply known_eq. Qed.

Lemma misconfigured_known b s : between_handlers s → known (misconfigured b s) = known s.
Proof. intros. unfold misconfigured. destruct b; by apply known_eq. Qed.

Lemma next_handler_known hs s :
  connectedHandlers s = [] → known (next_handler hs s) = started s ++ hs.
Proof.
  unfold known, pending. intros E. destruct hs; simpl; rewrite E; [done|].
  by rewrite app_nil_r, <- app_assoc.
Qed.

Lemma on_connected_known signer h s : known (step signer s (OnConnected h)) ≡ₚ known s ++ [h].
Proof.
  unfold known, pending, step. destruct (isAvailable s), (at_phase s); simpl; solve_Permutation.
Qed.

Lemma destroy_known signer s : known (step signer s Destroy) = known s.
Proof. unfold known, pending, step. by destruct (at_phase s). Qed.

Lemma step_known signer l i s :
  phase_ok l s → known (step signer s i) ≡ₚ known s ++ registered [i].
Proof.
  intros Hok. destruct i as [| |r|r|r|r|r| |h|]; cycle 8;
    [apply on_connected_known|by rewrite destroy_known, app_nil_r|..]; simpl; rewrite app_nil_r.
  all: unfold step; destruct (at_phase s) as [| |b|b|b|b k|b|hs|] eqn:Hp; try reflexivity.
  all: assert (between_handlers s ∨ ∃ hs, at_phase s = RunningHandlers hs) as [Hb|[? ?]] by
    (unfold between_handlers; rewrite Hp; eauto); try congruence.
  all: try destruct r; try reflexivity; try (by rewrite (try_later_known s Hb)).
  - by rewrite (known_eq s).
  - destruct (retry s); [by rewrite (known_eq s)|done].
  - try unfold assertChainMatchesProfile; destruct (_ =? _); [by rewrite (misconfigured_known _ s Hb)|by rewrite (known_eq s)].
  - by rewrite (known_eq s).
  - by rewrite (known_eq s).
  - destruct (keys_differ _ _) as [[|]|];
      [by rewrite (misconfigured_known _ s Hb)|by rewrite (known_eq s)|by rewrite (try_later_known s Hb)].
  - unfold connected_prod. rewrite next_handler_known by done. unfold known, pending. by rewrite Hp.
  - unfold between_handlers in Hb. by rewrite Hp in Hb.
  - unfold phase_ok in Hok. rewrite Hp in Hok. destruct Hok as (_ & _ & Hh).
    rewrite next_handler_known by done. unfold known, pending. by rewrite Hp, Hh, app_nil_r.
Qed.

Lemma run_known signer l : registered l ≡ₚ known (run_inputs signer l new_blockchain).
Proof.
  induction l as [|i l IH] using rev_ind; [done|].
  rewrite run_inputs_snoc, (step_known _ l) by apply run_ok. by rewrite registered_app, IH.
Qed.

Lemma run_inputs_app signer l1 l2 s : run_inputs signer (l1 ++ l2) s = run_inputs signer l2 (run_inputs signer l1 s).
Proof. unfold run_inputs. apply fold_left_app. Qed.

(** Nothing is being verified any more: at rest, or running the handlers. *)
Definition at_rest (s : BlockchainService) : Prop :=
  match at_phase s with Idle | RunningHandlers _ | StartRefused => True | _ => False end.

Lemma verified_available l s : verified l s → isAvailable s = true.
Proof. intros (c & m & o & k & _ & _ & E1 & E2 & _). unfold isAvailable. by rewrite E1, E2. Qed.

Lemma rest_cases signer l :
  let s := run_inputs signer l new_blockchain in
  at_rest s → is_disconnected s ∨ (verified l s ∧ connectedHandlers s = []).
Proof.
  simpl. pose proof (run_ok signer l) as H. unfold phase_ok, at_rest in *.
  destruct (at_phase _); naive_solver.
Qed.

(** The answers that let a connection through, and the ends of the handlers. *)
Definition good_answers (c m : Z) (onchain key : string * string) (address : string) (n : nat) : list input :=
  [ChainAnswer (Ok c); CMaxAnswer (Ok m); ServerKeyAnswer (Ok onchain); SignerAnswer (Ok key);
   ServerAddressAnswer (Ok address)] ++ repeat HandlerDone n.

Lemma registered_answers c m onchain key address n :
  registered (RetryTimer :: good_answers c m onchain key address n) = [].
Proof. unfold good_answers, registered. simpl. by induction n. Qed.

Lemma run_inputs_cons signer i l s : run_inputs signer (i :: l) s = run_inputs signer l (step signer s i).
Proof. done. Qed.

Lemma step_handler_done signer hs s : at_phase s = RunningHandlers hs → step signer s HandlerDone = next_handler hs s.
Proof. unfold step. by intros ->. Qed.

Lemma run_handlers signer hs s :
  let s' := run_inputs signer (repeat HandlerDone (length hs)) (next_handler hs s) in
  at_phase s' = Idle ∧ contract s' = contract s ∧ provider s' = provider s ∧ cMax s' = cMax s.
Proof.
  revert s. induction hs as [|h hs IH]; intros s; [done|].
  cbv zeta. change (repeat _ _) with (HandlerDone :: repeat HandlerDone (length hs)).
  rewrite run_inputs_cons, (step_handler_done _ hs) by done. exact (IH (next_handler (h :: hs) s)).
Qed.

Lemma connect_runs signer c m onchain key address b s :
  at_phase s = FetchingChain b → c ≠ LOCAL_CHAIN_ID → keys_differ onchain key = Ok false →
  let s' := run_inputs signer (good_answers c m onchain key address (length (connectedHandlers s))) s in
  at_phase s' = Idle ∧ contract s' = Some c ∧ provider s' = Some c ∧ cMax s' = Some m.
Proof.
  intros Hp Hc Hk. cbv zeta. unfold good_answers. rewrite run_inputs_app, !run_inputs_cons.
  assert (step signer s (ChainAnswer (Ok c)) = goto (ReadingCMax b) (build signer c s)) as ->.
  { unfold step. rewrite Hp. unfold assertChainMatchesProfile. by apply Z.eqb_neq in Hc as ->. }
  set (s1 := goto _ _).
  change (step signer s1 _) with (goto (ReadingServerKey b) (with_cMax (Some m) s1)). set (s2 := goto _ _).
  change (step signer s2 _) with (goto (ReadingSigner b onchain) s2). set (s3 := goto _ _).
  assert (step signer s3 (SignerAnswer (Ok key)) = goto (ReadingServerAddress b) s3) as ->.
  { unfold step. simpl. by rewrite Hk. }
  exact (run_handlers signer (connectedHandlers s) (take_handlers (goto (ReadingServerAddress b) s3))).
Qed.

(** C25: Connection safety. In every order of answers, timers and calls, a production
    connection at rest is either closed, with no contract, provider, signer nor C_MAX,
    or it is one whose chain is not the local one, whose C_MAX was read from that
    contract, and whose on-chain server key is the refund signer's. No handler registered
    is lost or started twice: each was started once or waits, and when the connection is
    up and idle none waits. *)
Theorem connection_at_rest_is_verified (signer : option string) (l : list input) :
  let s := run_inputs signer l new_blockchain in
  at_rest s →
  (is_disconnected s ∧ isAvailable s = false ∨ verified l s ∧ isAvailable s = true)
  ∧ registered l ≡ₚ started s ++ pending s
  ∧ (isAvailable s = true → at_phase s = Idle → registered l ≡ₚ started s).
Proof.
  intros s Hrest. pose proof (run_known signer l) as Hk. fold s in Hk. unfold known in Hk.
  assert (is_disconnected s → isAvailable s = false) as Hd.
  { intros (E & _). unfold isAvailable. rewrite E. by rewrite andb_false_r. }
  destruct (rest_cases signer l Hrest) as [H|[H Hh]]; fold s in H.
  - split_and!; [by left; auto|done|]. intros Ha. by rewrite Hd in Ha.
  - fold s in Hh. split_and!; [right; split; [done|by eapply verified_available]|done|].
    intros _ Hp. rewrite Hk. unfold pending. by rewrite Hp, Hh, !app_nil_r.
Qed.

(** Retries succeed. Whatever happened before, a service that waits for its retry
    timer, given one connection whose answers come and whose keys agree, ends connected
    and available, and every handler registered until then has been run once. *)
Theorem retry_connects (signer : option string) (l : list input) (c m : Z) (onchain key : string * string)
    (address : string) :
  let s := run_inputs signer l new_blockchain in
  let answers := RetryTimer :: good_answers c m onchain key address (length (connectedHandlers s)) in
  let s' := run_inputs signer answers s in
  at_phase s = Idle → retry s = true → c ≠ LOCAL_CHAIN_ID → keys_differ onchain key = Ok false →
  isAvailable s' = true ∧ contract s' = Some c ∧ getCMax s' = Ok m ∧ registered l ≡ₚ started s'.
Proof.
  intros s answers s' Hp Hr Hc Hk.
  assert (s' = run_inputs signer (l ++ answers) new_blockchain) as Hs' by (unfold s'; by rewrite run_inputs_app).
  set (s1 := goto (FetchingChain false) (with_retry false s)).
  assert (s' = run_inputs signer (good_answers c m onchain key address (length (connectedHandlers s1))) s1) as Hs1.
  { unfold s', answers. rewrite run_inputs_cons. unfold step at 1. by rewrite Hp, Hr. }
  destruct (connect_runs signer c m onchain key address false s1 eq_refl Hc Hk) as (Hp' & Hco & Hpr & Hcm).
  rewrite <- Hs1 in Hp', Hco, Hpr, Hcm.
  assert (isAvailable s' = true) as Ha by (unfold isAvailable; by rewrite Hco, Hpr).
  split_and!; [done|done|unfold getCMax, connected; by rewrite Hco, Hcm|].
  assert (registered l = registered (l ++ answers)) as ->.
  { unfold answers. by rewrite registered_app, registered_answers, app_nil_r. }
  rewrite (run_known signer), <- Hs'. unfold known, pending. rewrite Hp'.
  pose proof (rest_cases signer (l ++ answers)) as Hrest. cbv zeta in Hrest. rewrite <- Hs' in Hrest.
  destruct Hrest as [(_ & E & _)|[_ E]]; [unfold at_rest; by rewrite Hp'|congruence|].
  by rewrite E, app_nil_r.
Qed.

(** A first attempt that fails, two handlers registered, then a connection. *)
Lemma retry_connects_witness :
  ∃ s : BlockchainService, isAvailable s = true ∧ contract s = Some 100 ∧ getCMax s = Ok 5 ∧ [1; 2]%nat ≡ₚ started s.
Proof.
  eexists. refine (retry_connects None [Boot; OnConnected 1%nat; ChainAnswer (Throw (Error "no answer")); OnConnected 2%nat]
    100 5 ("7", "8")%string ("7", "8")%string "0x"%string _ _ _ _).
  - reflexivity.
  - reflexivity.
  - discriminate.
  - reflexivity.
Defined.

Lemma connection_at_rest_is_verified_witness :
  let l := [Boot; ChainAnswer (Ok 100); CMaxAnswer (Ok 5); ServerKeyAnswer (Ok ("7", "8")%string);
            OnConnected 3%nat; SignerAnswer (Ok ("7", "8")%string); ServerAddressAnswer (Ok "0x"%string)] in
  let s := run_inputs None l new_blockchain in
  at_rest s ∧ (isAvailable s = true → at_phase s = Idle → registered l ≡ₚ started s).
Proof.
  split; [exact I|]. exact (proj2 (proj2 (connection_at_rest_is_verified None
    [Boot; ChainAnswer (Ok 100); CMaxAnswer (Ok 5); ServerKeyAnswer (Ok ("7", "8")%string);
     OnConnected 3%nat; SignerAnswer (Ok ("7", "8")%string); ServerAddressAnswer (Ok "0x"%string)] I))).
Defined.

(** The contract is set before its keys are checked: in between, the service says it is
    available, hands out the contract's answers and runs a handler against it; when the
    check fails the handler is not kept for the connection that comes. *)
Theorem unverified_contract_is_served :
  ∃ before after : list input,
    let s1 := run_inputs None before new_blockchain in
    let s2 := run_inputs None after s1 in
    isAvailable s1 = true ∧ getCMax s1 = Ok 5 ∧ ¬ at_rest s1
    ∧ started s2 = [3]%nat ∧ isAvailable s2 = false ∧ pending s2 = [] ∧ at_phase s2 = Idle.
Proof.
  exists [Boot; ChainAnswer (Throw (Error "down")); RetryTimer; ChainAnswer (Ok 100); CMaxAnswer (Ok 5)],
    [OnConnected 3%nat; ServerKeyAnswer (Ok ("7", "8")%string); SignerAnswer (Ok ("1", "2")%string)].
  vm_compute. by split_and!.
Qed.

(** An exit mined after the query's block and up to the block polling starts from is
    handled by neither, and those are the only recent ones left out. *)
Theorem watched_exits_gap {A} (latest queried subscribed : Z) (exits : list (A * Z)) x :
  In x exits → Z.max 0 (latest - WITHDRAWAL_LOOKBACK_BLOCKS) <= x.2 →
  (In x (watchWithdrawals latest queried subscribed exits) ↔ ¬ (queried < x.2 <= subscribed)).
Proof.
  intros Hin Hold. unfold watchWithdrawals. rewrite in_app_iff, !filter_In, andb_true_iff, !Z.leb_le, Z.ltb_lt.
  split; [lia|]. intros Hgap. destruct (decide (x.2 <= queried)); [left|right]; (split; [done|lia]).
Qed.

(** ** The key check, in one piece *)

(** [connectProd] from its key check on: what the machine does with the three answers is
    what [checkServerKeys] decides of them. *)
Lemma key_check_runs signer b s onchain key address : at_phase s = ReadingServerKey b →
  (∀ e, onchain = Throw e → is_misconfigured e = false) → (∀ e, key = Throw e → is_misconfigured e = false) →
  (∀ e, address = Throw e → is_misconfigured e = false) →
  run_inputs signer [ServerKeyAnswer onchain; SignerAnswer key; ServerAddressAnswer address] s
  = match checkServerKeys onchain key address with
    | Ok _ => connected_prod s
    | Throw e => if is_misconfigured e then misconfigured b s else try_later s
    end.
Proof.
  intros Hp Ho Hk Ha. unfold run_inputs. cbn [fold_left]. unfold step at 3. rewrite Hp.
  destruct onchain as [o|e]; cbn [checkServerKeys rbind].
  2:{ rewrite (Ho e eq_refl). unfold try_later. cbn [goto disconnect destroyed]. destruct (destroyed s), key, address; reflexivity. }
  cbn [step at_phase goto]. destruct key as [k|e]; cbn [rbind].
  2:{ rewrite (Hk e eq_refl). unfold try_later. cbn [goto disconnect destroyed]. destruct (destroyed s), address; reflexivity. }
  destruct (keys_differ o k) as [[|]|e] eqn:Hd; cbn [rbind].
  - destruct b, address; reflexivity.
  - cbn [step at_phase goto]. destruct address as [a|e]; cbn [rmap rbind]; [|by rewrite (Ha e eq_refl)].
    unfold connected_prod, next_handler. cbn [goto connectedHandlers take_handlers]. by destruct (connectedHandlers s).
  - assert (is_misconfigured e = false) as ->.
    { unfold keys_differ, BigInt in Hd. destruct (BigInt_of_string o.1); cbn in Hd; [|by injection Hd as <-].
      destruct (BigInt_of_string k.1); cbn in Hd; [|by injection Hd as <-]. destruct (negb _); [done|].
      destruct (BigInt_of_string o.2); cbn in Hd; [|by injection Hd as <-].
      destruct (BigInt_of_string k.2); cbn in Hd; [done|by injection Hd as <-]. }
    unfold try_later. cbn [goto disconnect destroyed]. destruct (destroyed s), address; reflexivity.
Qed.

(** Once destroyed, no failure leaves a retry behind. *)
Lemma destroyed_never_retries s : retry (try_later (onModuleDestroy s)) = false.
Proof. done. Qed.
