(* ===== verification/Utf8.v ===== *)
(** * Reading UTF-8

    [buffer.toString('utf-8')]: the decoder of the WHATWG standard, which replaces each
    maximal invalid part by U+FFFD, and the proof that it gives back what
    [Buffer.from(text)] wrote, lone surrogates replaced. *)

From Stdlib Require Strings.String.
From S2P Require Import Prelude JsText Json JsonText.
Open Scope Z_scope.

(** Inside a sequence: the bytes still needed, the bounds of the next one, and the value. *)
Definition utf8_state : Type := option (nat * Z * Z * Z).

Definition REPLACEMENT : Z := 0xFFFD.

Definition lead (b : Z) : list Z * utf8_state :=
  if b <? 0x80 then ([b], None)
  else if (0xC2 <=? b) && (b <=? 0xDF) then ([], Some (1%nat, 0x80, 0xBF, b - 0xC0))
  else if (0xE0 <=? b) && (b <=? 0xEF) then
    ([], Some (2%nat, if b =? 0xE0 then 0xA0 else 0x80, if b =? 0xED then 0x9F else 0xBF, b - 0xE0))
  else if (0xF0 <=? b) && (b <=? 0xF4) then
    ([], Some (3%nat, if b =? 0xF0 then 0x90 else 0x80, if b =? 0xF4 then 0x8F else 0xBF, b - 0xF0))
  else ([REPLACEMENT], None).

(** The code units of a code point. *)
Definition units_of (p : Z) : list Z :=
  if p <? 0x10000 then [p] else [0xD800 + (p - 0x10000) / 1024; 0xDC00 + (p - 0x10000) mod 1024].

Fixpoint decode (st : utf8_state) (l : list Z) : list Z :=
  match l with
  | [] => match st with None => [] | Some _ => [REPLACEMENT] end
  | b :: l' =>
      match st with
      | Some (n, lo, hi, p) =>
          if (lo <=? b) && (b <=? hi) then
            match n with
            | S (S n') => decode (Some (S n', 0x80, 0xBF, p * 64 + (b - 0x80))) l'
            | _ => units_of (p * 64 + (b - 0x80)) ++ decode None l'
            end
          else let '(out, st') := lead b in REPLACEMENT :: out ++ decode st' l'
      | None => let '(out, st') := lead b in out ++ decode st' l'
      end
  end.

Definition from_utf8 (bytes : list byte) : list Z := decode None (map byteZ bytes).

(** The code units of a text literal of a source file, which is UTF-8. *)
Definition source_text (s : Strings.String.string) : list Z := from_utf8 (map (fun c => byte_of (code c)) (chars s)).

(** [text.toWellFormed()]. *)
Fixpoint toWellFormed (l : list Z) : list Z :=
  match l with
  | [] => []
  | u :: l' =>
      if is_high u then
        match l' with
        | v :: l'' => if is_low v then u :: v :: toWellFormed l'' else REPLACEMENT :: toWellFormed l'
        | [] => [REPLACEMENT]
        end
      else if is_low u then REPLACEMENT :: toWellFormed l'
      else u :: toWellFormed l'
  end.

Definition scalar (p : Z) : Prop := 0 <= p < 0xD800 ∨ 0xE000 <= p < 0x110000.

Lemma in_bounds lo hi b : lo <= b <= hi → (lo <=? b) && (b <=? hi) = true.
Proof. intros. apply andb_true_iff. rewrite !Z.leb_le. lia. Qed.

Lemma out_of_bounds lo hi b : b < lo ∨ hi < b → (lo <=? b) && (b <=? hi) = false.
Proof. intros. apply andb_false_iff. rewrite !Z.leb_gt. lia. Qed.

Lemma byteZ_small z : 0 <= z < 256 → byteZ (byte_of z) = z.
Proof. intros. rewrite byteZ_byte_of. by apply Z.mod_small. Qed.

(** A continuation byte. *)
Lemma decode_continue n lo hi p c rest : 0x80 <= lo → hi <= 0xBF → lo <= 0x80 + c <= hi →
  decode (Some (S n, lo, hi, p)) (0x80 + c :: rest)
  = match n with
    | S n' => decode (Some (S n', 0x80, 0xBF, p * 64 + c)) rest
    | O => units_of (p * 64 + c) ++ decode None rest
    end.
Proof.
  intros. cbn [decode]. rewrite in_bounds by done.
  replace (0x80 + c - 0x80) with c by lia. by destruct n.
Qed.

Lemma lead_2 c : 2 <= c < 32 → lead (0xC0 + c) = ([], Some (1%nat, 0x80, 0xBF, c)).
Proof.
  intros. unfold lead. destruct (Z.ltb_spec (0xC0 + c) 0x80); [lia|]. rewrite in_bounds by lia.
  by replace (0xC0 + c - 0xC0) with c by lia.
Qed.

Lemma lead_3 c : 0 <= c < 16 → lead (0xE0 + c) =
  ([], Some (2%nat, if c =? 0 then 0xA0 else 0x80, if c =? 13 then 0x9F else 0xBF, c)).
Proof.
  intros. unfold lead. destruct (Z.ltb_spec (0xE0 + c) 0x80); [lia|].
  rewrite out_of_bounds, in_bounds by lia. replace (0xE0 + c - 0xE0) with c by lia.
  replace (0xE0 + c =? 0xE0) with (c =? 0) by (destruct (Z.eqb_spec c 0), (Z.eqb_spec (0xE0 + c) 0xE0); lia || done).
  by replace (0xE0 + c =? 0xED) with (c =? 13) by (destruct (Z.eqb_spec c 13), (Z.eqb_spec (0xE0 + c) 0xED); lia || done).
Qed.

Lemma lead_4 c : 0 <= c < 5 → lead (0xF0 + c) =
  ([], Some (3%nat, if c =? 0 then 0x90 else 0x80, if c =? 4 then 0x8F else 0xBF, c)).
Proof.
  intros. unfold lead. destruct (Z.ltb_spec (0xF0 + c) 0x80); [lia|].
  rewrite !out_of_bounds, in_bounds by lia. replace (0xF0 + c - 0xF0) with c by lia.
  replace (0xF0 + c =? 0xF0) with (c =? 0) by (destruct (Z.eqb_spec c 0), (Z.eqb_spec (0xF0 + c) 0xF0); lia || done).
  by replace (0xF0 + c =? 0xF4) with (c =? 4) by (destruct (Z.eqb_spec c 4), (Z.eqb_spec (0xF0 + c) 0xF4); lia || done).
Qed.

Lemma decode_lead c st rest : lead c = ([], st) → decode None (c :: rest) = decode st rest.
Proof. intros H. cbn [decode]. by rewrite H. Qed.

(** The bytes of a scalar value are read back as it. *)
Lemma decode_point p rest : scalar p →
  decode None (map byteZ (utf8_point p) ++ rest) = units_of p ++ decode None rest.
Proof.
  intros Hp. unfold scalar in Hp. unfold utf8_point.
  pose proof (Z_div_mod_eq_full p 64). pose proof (Z.mod_pos_bound p 64 eq_refl).
  pose proof (Z_div_mod_eq_full (p / 64) 64). pose proof (Z.mod_pos_bound (p / 64) 64 eq_refl).
  pose proof (Z_div_mod_eq_full (p / 4096) 64). pose proof (Z.mod_pos_bound (p / 4096) 64 eq_refl).
  assert (p / 64 / 64 = p / 4096) as E1 by (by rewrite Z.div_div by lia).
  assert (p / 4096 / 64 = p / 262144) as E2 by (by rewrite Z.div_div by lia).
  destruct (Z.ltb_spec p 0x80).
  { cbn [map app]. rewrite byteZ_small by lia. cbn [decode lead]. unfold lead, units_of.
    destruct (Z.ltb_spec p 0x80), (Z.ltb_spec p 0x10000); lia || done. }
  destruct (Z.ltb_spec p 0x800).
  { cbn [map app]. rewrite !byteZ_small by lia. rewrite (decode_lead _ _ _ (lead_2 (p / 64) ltac:(lia))).
    rewrite decode_continue by lia. do 2 f_equal. lia. }
  destruct (Z.ltb_spec p 0x10000).
  { cbn [map app]. rewrite !byteZ_small by lia. rewrite (decode_lead _ _ _ (lead_3 (p / 4096) ltac:(lia))).
    rewrite decode_continue by (repeat case_match; lia). rewrite decode_continue by lia. do 2 f_equal. lia. }
  cbn [map app]. rewrite !byteZ_small by lia. rewrite (decode_lead _ _ _ (lead_4 (p / 262144) ltac:(lia))).
  rewrite decode_continue by (repeat case_match; lia). rewrite !decode_continue by lia. do 2 f_equal. lia.
Qed.

Lemma is_high_true u : is_high u = true ↔ 0xD800 <= u <= 0xDBFF.
Proof. unfold is_high. rewrite andb_true_iff, !Z.leb_le. lia. Qed.

Lemma is_low_true u : is_low u = true ↔ 0xDC00 <= u <= 0xDFFF.
Proof. unfold is_low. rewrite andb_true_iff, !Z.leb_le. lia. Qed.

Definition code_unit (u : Z) : Prop := 0 <= u < 65536.

Lemma units_of_pair u v : is_high u = true → is_low v = true →
  let p := 0x10000 + (u - 0xD800) * 1024 + (v - 0xDC00) in scalar p ∧ units_of p = [u; v].
Proof.
  rewrite is_high_true, is_low_true. intros Hu Hv. cbv zeta. split; [unfold scalar; lia|].
  unfold units_of. set (p := 0x10000 + _ + _). destruct (Z.ltb_spec p 0x10000); [lia|].
  replace (p - 0x10000) with ((u - 0xD800) * 1024 + (v - 0xDC00)) by lia.
  rewrite Z.div_add_l, Z.div_small by lia.
  replace ((u - 55296) * 1024 + (v - 56320)) with ((v - 56320) + (u - 55296) * 1024) by lia.
  rewrite Z.mod_add, Z.mod_small by lia. f_equal; [lia|f_equal; lia].
Qed.

Lemma utf8_replacement rest :
  decode None (map byteZ (utf8_point 0xFFFD) ++ rest) = REPLACEMENT :: decode None rest.
Proof. apply (decode_point 0xFFFD). right. lia. Qed.

(** Writing a text as UTF-8 and reading it back gives the text, its lone surrogates
    replaced. *)
Lemma from_utf8_utf8 l : Forall code_unit l → from_utf8 (utf8 l) = toWellFormed l.
Proof.
  unfold from_utf8. remember (length l) as n eqn:Hn. revert l Hn.
  induction (lt_wf n) as [n _ IH]. intros l -> Hl. destruct Hl as [|u l Hu Hl]; [done|].
  cbn [utf8 toWellFormed]. destruct (is_high u) eqn:Eh.
  - destruct Hl as [|v l Hv Hl]; [apply (utf8_replacement [])|].
    destruct (is_low v) eqn:El.
    + destruct (units_of_pair u v Eh El) as [Hs Hunits]. rewrite map_app, decode_point, Hunits by done.
      simpl. do 2 f_equal. by eapply IH; [|reflexivity|]; [simpl; lia|].
    + rewrite map_app, utf8_replacement. f_equal. eapply IH; [|reflexivity|by constructor]. simpl. lia.
  - destruct (is_low u) eqn:El.
    + rewrite map_app, utf8_replacement. f_equal. eapply IH; [|reflexivity|done]. simpl. lia.
    + rewrite map_app, decode_point.
      2: { unfold scalar, code_unit in *.
           assert (¬ 0xD800 <= u <= 0xDBFF) by (by rewrite <- is_high_true, Eh).
           assert (¬ 0xDC00 <= u <= 0xDFFF) by (by rewrite <- is_low_true, El). lia. }
      unfold units_of. destruct (Z.ltb_spec u 0x10000); [|unfold code_unit in Hu; lia]. simpl. f_equal.
      eapply IH; [|reflexivity|done]. simpl. lia.
Qed.

Lemma toWellFormed_id l : Forall (λ u, is_high u = false ∧ is_low u = false) l → toWellFormed l = l.
Proof. induction 1 as [|u l [H1 H2] _ IH]; [done|]. simpl. by rewrite H1, H2, IH. Qed.

(** ** Printed JSON

    [JSON.stringify] escapes lone surrogates, so its text survives UTF-8. *)

(** A text of code units whose surrogates are all in pairs. *)
Inductive paired : list Z → Prop :=
| paired_nil : paired []
| paired_unit u l : code_unit u → is_high u = false → is_low u = false → paired l → paired (u :: l)
| paired_pair u v l : is_high u = true → is_low v = true → paired l → paired (u :: v :: l).

Lemma paired_app l1 l2 : paired l1 → paired l2 → paired (l1 ++ l2).
Proof.
  intros H H2. induction H as [|u l|u v l]; cbn [app]; [done|by constructor|by apply paired_pair].
Qed.

Lemma utf8_app_paired l1 l2 : paired l1 → utf8 (l1 ++ l2) = utf8 l1 ++ utf8 l2.
Proof.
  induction 1 as [|u l _ Hh Hl _ IH|u v l Hh Hl _ IH]; [done|..]; cbn [app utf8].
  - by rewrite Hh, Hl, IH, app_assoc.
  - by rewrite Hh, Hl, IH, app_assoc.
Qed.

Lemma paired_units l : paired l → Forall code_unit l.
Proof.
  induction 1 as [| |u v l Hh Hl _ IH]; constructor; [done..| |constructor; [|done]]; unfold code_unit;
    [apply is_high_true in Hh; lia|apply is_low_true in Hl; lia].
Qed.

Lemma paired_well_formed l : paired l → toWellFormed l = l.
Proof.
  induction 1 as [|u l _ Hh Hl _ IH|u v l Hh Hl _ IH]; [done|..]; cbn [toWellFormed]; by rewrite Hh, ?Hl, IH.
Qed.

Lemma paired_utf8 l : paired l → from_utf8 (utf8 l) = l.
Proof. intros H. rewrite from_utf8_utf8 by by apply paired_units. by apply paired_well_formed. Qed.

Lemma paired_plain l : Forall (λ u, 0 <= u < 0xD800) l → paired l.
Proof.
  induction 1 as [|u l Hu _ IH]; [constructor|]. constructor; [unfold code_unit; lia|..|done].
  - apply not_true_iff_false. rewrite is_high_true. lia.
  - apply not_true_iff_false. rewrite is_low_true. lia.
Qed.

Lemma paired_escape u : code_unit u → paired (unicode_escape u).
Proof.
  unfold code_unit. intros Hu. assert (Hd : ∀ n, 0 <= n < 16 → 0 <= unit_hex_digit n < 0xD800).
  { intros n Hn. unfold unit_hex_digit. destruct (n <? 10); lia. }
  apply paired_plain. unfold unicode_escape.
  do 6 (constructor; [first [lia|apply Hd; first [apply Z.mod_pos_bound; lia|
    split; [apply Z.div_pos|apply Z.div_lt_upper_bound]; lia]]|]). constructor.
Qed.

Lemma paired_quote_units s : Forall code_unit s → paired (quote_units s).
Proof.
  remember (length s) as n eqn:Hn. revert s Hn. induction (lt_wf n) as [n _ IH]. intros s -> Hs.
  destruct Hs as [|u s Hu Hs]; [constructor|]. cbn [quote_units].
  assert (IHs : paired (quote_units s)) by (eapply IH; [|reflexivity|done]; simpl; lia).
  destruct (is_high u) eqn:Eh.
  - destruct Hs as [|v s Hv Hs]; [by apply paired_escape|]. destruct (is_low v) eqn:El.
    + apply paired_pair; [done..|]. eapply IH; [|reflexivity|done]. simpl; lia.
    + by apply paired_app; [apply paired_escape|].
  - destruct (is_low u) eqn:El; (apply paired_app; [|done]); [by apply paired_escape|].
    unfold quote_unit. repeat (case_match; [by apply paired_plain; repeat constructor|]).
    destruct (u <? 32); [by apply paired_escape|]. apply paired_unit; [done..|constructor].
Qed.

Lemma paired_quote s : Forall is_unit s → paired (quote s).
Proof.
  intros Hs. unfold quote. change (34 :: ?l) with ([34] ++ l).
  repeat apply paired_app; [by apply paired_plain; repeat constructor|by apply paired_quote_units|by apply paired_plain; repeat constructor].
Qed.

Lemma paired_one u : 0 <= u < 0xD800 → paired [u].
Proof. intros H. apply paired_plain. by constructor. Qed.

Lemma paired_wrap a b l : 0 <= a < 0xD800 → 0 <= b < 0xD800 → paired l → paired (a :: l ++ [b]).
Proof.
  intros Ha Hb Hl. change (a :: l ++ [b]) with ([a] ++ l ++ [b]).
  apply paired_app; [by apply paired_one|]. apply paired_app; [done|by apply paired_one].
Qed.

Lemma paired_join l : Forall paired l → paired (join_text l).
Proof.
  induction 1 as [|t l Ht Hl IH]; [constructor|]. cbn [join_text]. destruct l as [|t2 l]; [done|].
  apply paired_app; [done|]. change (44 :: ?x) with ([44] ++ x). apply paired_app; [by apply paired_plain; repeat constructor|done].
Qed.

Lemma stringify_paired v t : printable_json v → JSON_stringify v = Some t → paired t.
Proof.
  revert t. induction v as [|b|n|s|l IHl|fields IHf] using json_nested_ind; intros t Hp Ht; cbn [JSON_stringify] in Ht.
  - injection Ht as <-. by apply paired_plain; repeat constructor.
  - destruct b; injection Ht as <-; by apply paired_plain; repeat constructor.
  - done.
  - injection Ht as <-. by apply paired_quote.
  - apply bind_Some in Ht as (items & Hi & Ht). injection Ht as <-. apply paired_wrap; [lia..|]. apply paired_join.
    revert items Hi Hp. induction IHl as [|v l Hv _ IH]; intros items Hi Hp; [injection Hi as <-; constructor|].
    destruct Hp as [Hpv Hp]. apply bind_Some in Hi as (t & Ht & Hi). apply bind_Some in Hi as (ts & Hts & Hi).
    injection Hi as <-. constructor; [by apply Hv|by apply IH].
  - apply bind_Some in Ht as (items & Hi & Ht). injection Ht as <-. apply paired_wrap; [lia..|]. apply paired_join.
    destruct Hp as [_ Hp]. revert items Hi Hp.
    induction IHf as [|[k v] l Hv _ IH]; intros items Hi Hp; [injection Hi as <-; constructor|].
    destruct Hp as (Hk & Hpv & Hp). apply bind_Some in Hi as (t & Ht & Hi). apply bind_Some in Hi as (ts & Hts & Hi).
    injection Hi as <-. constructor; [|by apply IH]. apply (paired_app (quote k)); [by apply paired_quote|].
    apply (paired_app [58]); [by apply paired_plain; repeat constructor|by apply Hv].
Qed.

(** What a server decodes of the bytes a client sends is the text it printed. *)
Lemma stringify_utf8 v t : printable_json v → JSON_stringify v = Some t → from_utf8 (utf8 t) = t.
Proof. intros Hp Ht. by apply paired_utf8, (stringify_paired v). Qed.
