(* ===== verification/JsCoerce.v ===== *)
(** * Conversions between JavaScript values

    [Number::toString] on doubles, [String(v)] and [Number(v)] on JSON values, as
    arithmetic and [join] apply them. *)

From Stdlib Require Import Ascii String SpecFloat.
From S2P Require Import Prelude JsText JsNumber Json JsonText.
Open Scope Z_scope.

(** ** The text of a number *)

(** A positive finite double as a fraction. *)
Definition fraction (m : positive) (e : Z) : Z * Z :=
  if 0 <=? e then (Z.pos m * 2 ^ e, 1) else (Z.pos m, 2 ^ (- e)).

Definition digit_count (z : Z) : Z := str_len (toString z).

(** The [n] with 10^(n-1) <= a/b < 10^n. *)
Definition decimal_exponent (a b : Z) : Z :=
  if b <=? a then digit_count (a / b) else 1 - digit_count ((b - 1) / a).

(** The integer multiples of 10^q around a/b that read back as [x], the closest first. *)
Definition nearest_multiple (x : number) (a b q : Z) : option Z :=
  let '(a, b) := if 0 <=? q then (a, b * 10 ^ q) else (a * 10 ^ (- q), b) in
  let s := a / b in
  let r := a mod b in
  let low := neq (decimal s q) x in
  let high := neq (decimal (s + 1) q) x in
  match low, high with
  | true, true => Some (if 2 * r <? b then s else if b <? 2 * r then s + 1 else if Z.even s then s else s + 1)
  | true, false => Some s
  | false, true => Some (s + 1)
  | false, false => None
  end.

(** The fewest digits that read back as [x], from [k] on; a double needs at most 17. *)
Fixpoint shortest (fuel : nat) (k : Z) (x : number) (a b n : Z) : option (Z * Z) :=
  match fuel with
  | O => None
  | S f =>
      match nearest_multiple x a b (n - k) with
      | Some s => if (10 ^ (k - 1) <=? s) && (s <? 10 ^ k) then Some (s, k) else shortest f (k + 1) x a b n
      | None => shortest f (k + 1) x a b n
      end
  end.

Definition zeros (n : Z) : list Z := repeat 48 (Z.to_nat n).

(** The layout of digits [ds] with the point after the [n]-th. *)
Definition layout (ds : list Z) (n : Z) : list Z :=
  let k := Z.of_nat (length ds) in
  if (k <=? n) && (n <=? 21) then ds ++ zeros (n - k)
  else if (0 <? n) && (n <=? 21) then take (Z.to_nat n) ds ++ 46 :: drop (Z.to_nat n) ds
  else if (-6 <? n) && (n <=? 0) then 48 :: 46 :: zeros (- n) ++ ds
  else
    let mantissa := match ds with [d] => [d] | d :: ds' => d :: 46 :: ds' | [] => [] end in
    mantissa ++ 101 :: (if 0 <? n then 43 else 45) :: code_units (toString (Z.abs (n - 1))).

Definition finite_text (m : positive) (e : Z) : list Z :=
  let '(a, b) := fraction m e in
  let n := decimal_exponent a b in
  match shortest 17 1 (S754_finite false m e) a b n with
  | Some (s, _) => layout (code_units (toString s)) n
  | None => []
  end.

Definition number_text (x : number) : list Z :=
  match x with
  | S754_nan => code_units "NaN"
  | S754_zero _ => [48]
  | S754_infinity s => (if s then [45] else []) ++ code_units "Infinity"
  | S754_finite s m e => (if s then [45] else []) ++ finite_text m e
  end.

(** ** [String(v)] *)

Fixpoint join_units (sep : list Z) (l : list (list Z)) : list Z :=
  match l with
  | [] => []
  | [t] => t
  | t :: l' => t ++ sep ++ join_units sep l'
  end.

(** An object whose own [toString] is not a function converts to no primitive value;
    an array joins its elements with commas, null as an empty text. *)
Fixpoint js_string (v : json) : result (list Z) :=
  match v with
  | JNull => Ok (code_units "null")
  | JBool b => Ok (code_units (if b then "true" else "false"))
  | JNum n => Ok (number_text n)
  | JStr s => Ok s
  | JObj fields =>
      match field "toString" fields with
      | None => Ok (code_units "[object Object]")
      | Some _ => Throw (TypeError "Cannot convert object to primitive value")
      end
  | JArr l =>
      let* texts := (fix go l := match l with
                                 | [] => Ok []
                                 | JNull :: l' => let* ts := go l' in Ok ([] :: ts)
                                 | v :: l' => let* t := js_string v in let* ts := go l' in Ok (t :: ts)
                                 end) l in
      Ok (join_units [44] texts)
  end.

(** ** [JSON.stringify(v)], of any value: NaN and the infinities print as null. *)

Definition json_number_text (x : number) : list Z :=
  match x with S754_nan | S754_infinity _ => code_units "null" | _ => number_text x end.

Fixpoint JSON_text (v : json) : list Z :=
  match v with
  | JNull => code_units "null"
  | JBool b => code_units (if b then "true" else "false")
  | JNum n => json_number_text n
  | JStr s => quote s
  | JArr l => 91 :: join_text (map JSON_text l) ++ [93]
  | JObj fields =>
      123 :: join_text ((fix go l := match l with
                                     | [] => []
                                     | (k, v) :: l' => (quote k ++ 58 :: JSON_text v) :: go l'
                                     end) fields) ++ [125]
  end.

(** ** [Number(v)] *)

(** [\s] beyond ASCII. *)
Definition wide_space (u : Z) : bool :=
  (u =? 0x1680) || ((0x2000 <=? u) && (u <=? 0x200a)) || (u =? 0x2028) || (u =? 0x2029)
  || (u =? 0x202f) || (u =? 0x205f) || (u =? 0x3000) || (u =? 0xfeff).

(** A text with its wide spaces as spaces, and any other wide character as one no
    number holds. *)
Definition narrow (u : Z) : ascii :=
  ascii_of_N (Z.to_N (if u <? 256 then u else if wide_space u then 32 else 33)).

Definition number_of_units (s : list Z) : number := Number_of_string (of_chars (map narrow s)).

Definition to_number (v : jsv) : result number :=
  match v with
  | None => Ok NaN
  | Some JNull => Ok (num 0)
  | Some (JBool b) => Ok (num (if b then 1 else 0))
  | Some (JNum n) => Ok n
  | Some (JStr s) => Ok (number_of_units s)
  | Some v => rmap number_of_units (js_string v)
  end.

(** ** Tests of the printer *)

Example number_text_1 : map number_text [num 0; num 8192; num (-5); decimal 1 (-1); decimal 125 (-2)]
  = map code_units ["0"; "8192"; "-5"; "0.1"; "1.25"]%string.
Proof. by vm_compute. Qed.

Example number_text_2 : map number_text [nadd (decimal 1 (-1)) (decimal 2 (-1)); decimal 15 (-8); num (10 ^ 21); decimal 5 (-324); num (2 ^ 70)]
  = map code_units ["0.30000000000000004"; "1.5e-7"; "1e+21"; "5e-324"; "1.1805916207174113e+21"]%string.
Proof. by vm_compute. Qed.

Example to_number_1 : map (fun v => to_number (Some v)) [JArr []; JArr [JNum (num 7)]; JStr (code_units " 12 "); JArr [JNum (num 1); JNum (num 2)]; JObj []]
  = [Ok (num 0); Ok (num 7); Ok (num 12); Ok NaN; Ok NaN].
Proof. by vm_compute. Qed.

(** What [shortest] returns reads back as the number it prints. *)
Lemma nearest_multiple_reads x a b q s : nearest_multiple x a b q = Some s → neq (decimal s q) x = true.
Proof.
  unfold nearest_multiple. destruct (0 <=? q);
    destruct (neq (decimal _ q) x) eqn:E1, (neq (decimal (_ + 1) q) x) eqn:E2; try done; intros [= <-];
    try done; destruct (_ <? _); try done; destruct (_ <? _); try done; destruct (Z.even _); done.
Qed.

Lemma shortest_reads fuel k x a b n s k' :
  shortest fuel k x a b n = Some (s, k') → neq (decimal s (n - k')) x = true ∧ 10 ^ (k' - 1) <= s < 10 ^ k'.
Proof.
  revert k. induction fuel as [|f IH]; intros k; [done|]. cbn [shortest].
  destruct (nearest_multiple x a b (n - k)) as [s'|] eqn:E; [|apply IH].
  destruct (_ && _) eqn:Eb; [|apply IH]. intros [= <- <-].
  apply andb_true_iff in Eb as [?%Z.leb_le ?%Z.ltb_lt]. split; [by eapply nearest_multiple_reads|done].
Qed.
