(* ===== verification/Pricing.v ===== *)
(** * Pricing: the repository of price models and the oracle over it

    [src/pricing/dto/pricing-model.dto.ts], [pricing.repository.ts] and
    [pricing-oracle.service.ts]. The two tables are lists of rows in the order of
    insertion. A date is the millisecond it names, [None] an Invalid Date; a date
    column holds ISO texts, whose order is the order of time between the years 0
    and 9999. The rates column holds the JSON text of the rates, kept here as the
    rates that text reads back as. A call happens at one instant. *)

From Stdlib Require Import SpecFloat String.
From S2P Require Import Prelude JsText JsNumber.
Open Scope Z_scope.

(** ** pricing-model.dto.ts *)

Inductive PricingType : Type := PerToken | PerCall | PerUnit | Tiered | Composite.

#[export] Instance PricingType_eq_dec : EqDecision PricingType.
Proof. solve_decision. Defined.

Record PricingTier : Type := { tier_from : number; tier_to : option number; tier_rate : number }.

Record PricingRate : Type := {
  rate_type : PricingType;
  rate : number;
  unit : option string;
  tiers : option (list PricingTier);
}.

Record PricingModel : Type := {
  providerId : string;
  endpoint : option string;
  pricingType : PricingType;
  rates : list PricingRate;
  currency : string;
  effectiveFrom : option Z;
  effectiveUntil : option (option Z);
}.

(** [JSON.parse(JSON.stringify(rates))]: the minus of a zero is lost; NaN and the
    infinities become null, which the calculations below read as 0. *)
Definition json_number (x : number) : number :=
  match x with S754_finite _ _ _ => x | _ => num 0 end.

Definition json_tier (t : PricingTier) : PricingTier :=
  {| tier_from := json_number (tier_from t); tier_to := json_number <$> tier_to t;
     tier_rate := json_number (tier_rate t) |}.

Definition json_rate (r : PricingRate) : PricingRate :=
  {| rate_type := rate_type r; rate := json_number (rate r); unit := unit r;
     tiers := map json_tier <$> tiers r |}.

(** ** pricing.repository.ts *)

Record PricingModelRow : Type := {
  row_provider_id : string;
  row_endpoint : option string;
  row_pricing_type : PricingType;
  row_currency : string;
  row_rates : list PricingRate;
  row_effective_from : Z;
  row_effective_until : option Z;
}.

Record PricingHistoryRow : Type := {
  ph_provider_id : string;
  ph_endpoint : option string;
  ph_old_rates : option (list PricingRate);
  ph_new_rates : list PricingRate;
  ph_changed_by : string;
  ph_changed_at : Z;
  ph_reason : string;
}.

Record PricingDb : Type := {
  pricing_models : list PricingModelRow;
  pricing_history : list PricingHistoryRow;
}.

Definition empty_db : PricingDb := {| pricing_models := []; pricing_history := [] |}.

Definition rowToPricingModel (r : PricingModelRow) : PricingModel :=
  {| providerId := row_provider_id r; endpoint := row_endpoint r; pricingType := row_pricing_type r;
     rates := row_rates r; currency := row_currency r;
     effectiveFrom := Some (row_effective_from r); effectiveUntil := Some <$> row_effective_until r |}.

(** [effective_from <= now AND (effective_until IS NULL OR effective_until > now)]. *)
Definition active (now : Z) (r : PricingModelRow) : bool :=
  (row_effective_from r <=? now)
  && match row_effective_until r with None => true | Some u => now <? u end.

Definition row_is (provider : string) (ep : option string) (r : PricingModelRow) : bool :=
  bool_decide (row_provider_id r = provider) && bool_decide (row_endpoint r = ep).

(** [ORDER BY effective_from DESC LIMIT 1], the first row on a tie. *)
Fixpoint latest_row (l : list PricingModelRow) : option PricingModelRow :=
  match l with
  | [] => None
  | r :: l' =>
      match latest_row l' with
      | Some r' => Some (if row_effective_from r <? row_effective_from r' then r' else r)
      | None => Some r
      end
  end.

Definition select_row (provider : string) (ep : option string) (now : Z) (db : PricingDb) : option PricingModelRow :=
  latest_row (List.filter (fun r => row_is provider ep r && active now r) (pricing_models db)).

(** An empty endpoint is falsy. *)
Definition given (ep : option string) : option string :=
  match ep with Some e => if str_len e =? 0 then None else Some e | None => None end.

Definition repo_getPricing (provider : string) (ep : option string) (now : Z) (db : PricingDb) : option PricingModel :=
  let general := rowToPricingModel <$> select_row provider None now db in
  match given ep with
  | Some e =>
      match select_row provider (Some e) now db with
      | Some specific => Some (rowToPricingModel specific)
      | None => general
      end
  | None => general
  end.

Definition close_row (now : Z) (r : PricingModelRow) : PricingModelRow :=
  {| row_provider_id := row_provider_id r; row_endpoint := row_endpoint r; row_pricing_type := row_pricing_type r;
     row_currency := row_currency r; row_rates := row_rates r; row_effective_from := row_effective_from r;
     row_effective_until := Some now |}.

(** The UPDATE: the rows of the key still open. *)
Definition close_open (provider : string) (ep : option string) (now : Z) (l : list PricingModelRow) : list PricingModelRow :=
  map (fun r => if row_is provider ep r && negb (bool_decide (is_Some (row_effective_until r))) then close_row now r else r) l.

Definition toISOString (d : option Z) : result Z := of_option (RangeError "Invalid time value") d.

(** The UPDATE is made before the dates of the INSERT are written out. *)
Definition upsertPricing (model : PricingModel) (now : Z) (db : PricingDb) : PricingDb * result Datatypes.unit :=
  let models :=
    match repo_getPricing (providerId model) (endpoint model) now db with
    | Some _ => close_open (providerId model) (given (endpoint model)) now (pricing_models db)
    | None => pricing_models db
    end in
  let db := {| pricing_models := models; pricing_history := pricing_history db |} in
  match (let* from := toISOString (effectiveFrom model) in
         let* until := match effectiveUntil model with
                       | Some d => rmap Some (toISOString d)
                       | None => Ok None
                       end in
         Ok (from, until)) with
  | Throw e => (db, Throw e)
  | Ok (from, until) =>
      ({| pricing_models := models ++
            [{| row_provider_id := providerId model; row_endpoint := endpoint model;
                row_pricing_type := pricingType model; row_currency := currency model;
                row_rates := map json_rate (rates model);
                row_effective_from := from; row_effective_until := until |}];
          pricing_history := pricing_history db |}, Ok tt)
  end.

Definition addHistory (provider : string) (ep : option string) (oldRates : option (list PricingRate))
  (newRates : list PricingRate) (changedBy reason : string) (now : Z) (db : PricingDb) : PricingDb :=
  {| pricing_models := pricing_models db;
     pricing_history := pricing_history db ++
       [{| ph_provider_id := provider; ph_endpoint := ep; ph_old_rates := map json_rate <$> oldRates;
           ph_new_rates := map json_rate newRates; ph_changed_by := changedBy; ph_changed_at := now;
           ph_reason := reason |}] |}.

(** [ORDER BY changed_at DESC LIMIT 50], the first row on a tie. *)
Fixpoint insert_change (r : PricingHistoryRow) (l : list PricingHistoryRow) : list PricingHistoryRow :=
  match l with
  | [] => [r]
  | r' :: l' => if ph_changed_at r' <=? ph_changed_at r then r :: l else r' :: insert_change r l'
  end.

Definition getHistory (provider : string) (db : PricingDb) : list PricingHistoryRow :=
  take 50 (foldr insert_change []
    (List.filter (fun r => bool_decide (ph_provider_id r = provider)) (pricing_history db))).

(** ** pricing-oracle.service.ts *)

Definition CACHE_TTL_MS : Z := 60 * 60 * 1000.

Record PricingOracleService : Type := {
  pricingCache : gmap string (PricingModel * Z);
  pricingRepository : PricingDb;
}.

Definition new_pricing_oracle (db : PricingDb) : PricingOracleService := {| pricingCache := ∅; pricingRepository := db |}.

Definition cache_key (provider : string) (ep : option string) : string := provider +:+ ":" +:+ default "" ep.

Definition getPricing (provider : string) (ep : option string) (now : Z) (s : PricingOracleService)
  : PricingOracleService * result PricingModel :=
  let fetch :=
    match repo_getPricing provider ep now (pricingRepository s) with
    | None => (s, Throw (NotFoundException "No pricing model found for provider"))
    | Some model =>
        ({| pricingCache := <[cache_key provider ep := (model, now + CACHE_TTL_MS)]> (pricingCache s);
            pricingRepository := pricingRepository s |}, Ok model)
    end in
  match pricingCache s !! cache_key provider ep with
  | Some (model, expiry) => if now <? expiry then (s, Ok model) else fetch
  | None => fetch
  end.

(** *** Costs *)

Record UsageMetrics : Type := {
  units : number;
  costUSD : number;
  breakdown : option (gmap string number);
}.

(** [usage.breakdown?.k], when it is truthy. *)
Definition usage_of (k : string) (usage : UsageMetrics) : option number :=
  match breakdown usage ≫= lookup k with
  | Some x => if truthy x then Some x else None
  | None => None
  end.

Definition token_field (u : option string) : option string :=
  match u with
  | Some u =>
      if bool_decide (u = "input_token") then Some "input"
      else if bool_decide (u = "output_token") then Some "output"
      else if bool_decide (u = "cache_read_token") then Some "cacheRead"
      else if bool_decide (u = "cache_write_token") then Some "cacheWrite"
      else None
  | None => None
  end%string.

Definition calculateTokenCost (usage : UsageMetrics) (pricing : PricingModel) : number :=
  fold_left (fun cost r =>
    match token_field (unit r) ≫= fun k => usage_of k usage with
    | Some x => nadd cost (nmul (ndiv x (num 1000)) (rate r))
    | None => cost
    end) (rates pricing) (num 0).

(** [pricing.rates[0]?.rate || 0]. *)
Definition first_rate (pricing : PricingModel) : number :=
  match rates pricing with r :: _ => if truthy (rate r) then rate r else num 0 | [] => num 0 end.

Definition calculatePerCallCost (usage : UsageMetrics) (pricing : PricingModel) : number := first_rate pricing.

Definition calculatePerUnitCost (usage : UsageMetrics) (pricing : PricingModel) : number :=
  nmul (units usage) (first_rate pricing).

Fixpoint tier_loop (l : list PricingTier) (cost remaining : number) : number :=
  match l with
  | [] => cost
  | t :: l' =>
      if nle remaining (num 0) then cost
      else
        let size := match tier_to t with
                    | Some to => if truthy to then nsub to (tier_from t) else Infinity
                    | None => Infinity
                    end in
        let in_tier := Math_min remaining size in
        tier_loop l' (nadd cost (nmul in_tier (tier_rate t))) (nsub remaining in_tier)
  end.

Definition calculateTieredCost (usage : UsageMetrics) (pricing : PricingModel) : result number :=
  match rates pricing with
  | r :: _ =>
      match tiers r with
      | Some l => Ok (tier_loop l (num 0) (units usage))
      | None => Throw (Error "Tiered pricing requires tiers configuration")
      end
  | [] => Throw (Error "Tiered pricing requires tiers configuration")
  end.

Definition calculateCompositeCost (usage : UsageMetrics) (pricing : PricingModel) : number :=
  fold_left (fun cost r =>
    match unit r with
    | Some u => if str_len u =? 0 then cost
                else match usage_of u usage with
                     | Some x => nadd cost (nmul x (rate r))
                     | None => cost
                     end
    | None => cost
    end) (rates pricing) (num 0).

Definition calculateCostUSD (usage : UsageMetrics) (provider : string) (ep : option string) (now : Z)
  (s : PricingOracleService) : PricingOracleService * result number :=
  let '(s, pricing) := getPricing provider ep now s in
  (s, let* pricing := pricing in
      match pricingType pricing with
      | PerToken => Ok (calculateTokenCost usage pricing)
      | PerCall => Ok (calculatePerCallCost usage pricing)
      | PerUnit => Ok (calculatePerUnitCost usage pricing)
      | Tiered => calculateTieredCost usage pricing
      | Composite => Ok (calculateCompositeCost usage pricing)
      end).

(** *** Updates *)

(** [a > b] on dates; false when either is invalid. *)
Definition date_after (a b : option Z) : bool :=
  match a, b with Some a, Some b => b <? a | _, _ => false end.

Fixpoint check_rates (l : list PricingRate) : result Datatypes.unit :=
  match l with
  | [] => Ok tt
  | r :: l' =>
      if nle (rate r) (num 0) then Throw (Error "Rate must be greater than 0")
      else if bool_decide (rate_type r = Tiered) && negb (bool_decide (is_Some (tiers r)))
      then Throw (Error "Tiered pricing requires tiers configuration")
      else check_rates l'
  end.

Definition validatePricingModel (model : PricingModel) (now : Z) : result Datatypes.unit :=
  match rates model with
  | [] => Throw (Error "Pricing model must have at least one rate")
  | l =>
      let* _ := check_rates l in
      if date_after (effectiveFrom model) (default (Some now) (effectiveUntil model))
      then Throw (Error "effectiveFrom must be before effectiveUntil")
      else Ok tt
  end.

Definition updatePricing (model : PricingModel) (changedBy reason : string) (now : Z) (s : PricingOracleService)
  : PricingOracleService * result Datatypes.unit :=
  match validatePricingModel model now with
  | Throw e => (s, Throw e)
  | Ok _ =>
      let oldModel := repo_getPricing (providerId model) (endpoint model) now (pricingRepository s) in
      match upsertPricing model now (pricingRepository s) with
      | (db, Throw e) => ({| pricingCache := pricingCache s; pricingRepository := db |}, Throw e)
      | (db, Ok _) =>
          ({| pricingCache := delete (cache_key (providerId model) (endpoint model)) (pricingCache s);
              pricingRepository :=
                addHistory (providerId model) (endpoint model) (rates <$> oldModel) (rates model)
                  changedBy reason now db |}, Ok tt)
      end
  end.

Definition getPricingHistory (provider : string) (s : PricingOracleService) : list PricingHistoryRow :=
  getHistory provider (pricingRepository s).

(** ** The price book

    What the table stands for: the last model registered for each provider and
    endpoint, from the moment of its registration, without an end. *)

#[local] Abbreviation book := (gmap (string * option string) PricingModel).

Definition book_pricing (b : book) (provider : string) (ep : option string) : option PricingModel :=
  let general := b !! (provider, None) in
  match given ep with
  | Some e => match b !! (provider, Some e) with Some m => Some m | None => general end
  | None => general
  end.

(** The model as it is read back. *)
Definition as_stored (m : PricingModel) : PricingModel :=
  {| providerId := providerId m; endpoint := endpoint m; pricingType := pricingType m;
     rates := map json_rate (rates m); currency := currency m;
     effectiveFrom := effectiveFrom m; effectiveUntil := effectiveUntil m |}.

Definition book_update (m : PricingModel) (b : book) : book := <[(providerId m, endpoint m) := as_stored m]> b.

(** A registration: from now on, for a named endpoint or for none. *)
Definition registration (now : Z) (m : PricingModel) : Prop :=
  effectiveFrom m = Some now ∧ effectiveUntil m = None ∧ endpoint m ≠ Some ""%string
  ∧ validatePricingModel m now = Ok tt.

Definition is_open (r : PricingModelRow) : bool := negb (bool_decide (is_Some (row_effective_until r))).

Definition opens (provider : string) (ep : option string) (l : list PricingModelRow) : list PricingModelRow :=
  List.filter (fun r => row_is provider ep r && is_open r) l.

Definition past (t : Z) (r : PricingModelRow) : Prop :=
  row_effective_from r <= t ∧ match row_effective_until r with Some u => u <= t | None => True end.

Record represents (t : Z) (b : book) (db : PricingDb) : Prop := {
  rep_past : Forall (past t) (pricing_models db);
  rep_open : ∀ p ep, map rowToPricingModel (opens p ep (pricing_models db)) = option_list (b !! (p, ep));
}.

Lemma past_later t t' r : t <= t' → past t r → past t' r.
Proof. unfold past. intros ? [? Hu]. split; [lia|]. destruct (row_effective_until r); [lia|done]. Qed.

Lemma past_active t now r : t <= now → past t r → active now r = is_open r.
Proof.
  unfold past, active, is_open. intros ? [? Hu].
  destruct (Z.leb_spec (row_effective_from r) now); [|lia].
  destruct (row_effective_until r) as [u|]; simpl; [|done].
  apply Z.ltb_ge. lia.
Qed.

(** What a query selects is the open row of its key. *)
Lemma select_row_book t b db now p ep : represents t b db → t <= now →
  rowToPricingModel <$> select_row p ep now db = b !! (p, ep).
Proof.
  intros [Hp Ho] Hle. unfold select_row.
  assert (List.filter (fun r => row_is p ep r && active now r) (pricing_models db) = opens p ep (pricing_models db)) as ->.
  { apply filter_ext_in. intros r Hin. rewrite Forall_forall in Hp.
    rewrite (past_active t); [done|done|]. by apply Hp, list_elem_of_In. }
  specialize (Ho p ep). destruct (opens p ep _) as [|r [|]], (b !! (p, ep)); simpl in *; congruence.
Qed.

Lemma repo_getPricing_book t b db now p ep : represents t b db → t <= now →
  repo_getPricing p ep now db = book_pricing b p ep.
Proof.
  intros Hr Hle. unfold repo_getPricing, book_pricing.
  rewrite (select_row_book t b) by done. destruct (given ep) as [e|]; [|done].
  rewrite <- (select_row_book t b db now p (Some e)) by done. by destruct (select_row p (Some e) now db).
Qed.

Lemma row_is_true p ep r : row_is p ep r = true ↔ (row_provider_id r, row_endpoint r) = (p, ep).
Proof. unfold row_is. rewrite andb_true_iff, !bool_decide_eq_true. split; [by intros [-> ->]|by intros [= -> ->]]. Qed.

Lemma opens_close_same p ep now l : opens p ep (close_open p ep now l) = [].
Proof.
  unfold opens, close_open. induction l as [|r l IH]; simpl; [done|].
  fold (is_open r). destruct (row_is p ep r && is_open r) eqn:E; simpl.
  - unfold is_open at 1. simpl. by rewrite andb_false_r.
  - by rewrite E.
Qed.

Lemma opens_close_other p ep p' ep' now l : (p', ep') ≠ (p, ep) →
  opens p' ep' (close_open p ep now l) = opens p' ep' l.
Proof.
  intros Hne. unfold opens, close_open. induction l as [|r l IH]; simpl; [done|].
  fold (is_open r). destruct (row_is p ep r && is_open r) eqn:E; simpl; rewrite IH; [|done].
  apply andb_true_iff in E as [E _]. apply row_is_true in E.
  assert (row_is p' ep' r = false) as ->.
  { apply not_true_iff_false. rewrite row_is_true. congruence. }
  assert (row_is p' ep' (close_row now r) = false) as ->; [|done].
  apply not_true_iff_false. rewrite row_is_true. simpl. congruence.
Qed.

Lemma close_open_past t now p ep l : t <= now → Forall (past t) l → Forall (past now) (close_open p ep now l).
Proof.
  intros Hle H. unfold close_open. apply Forall_map. eapply Forall_impl; [exact H|]. simpl.
  intros r Hr. destruct (_ && _); [|by eapply past_later]. destruct Hr. split; simpl; lia.
Qed.

Lemma option_list_nil {A} (o : option A) : option_list o = [] → o = None.
Proof. by destruct o. Qed.

Lemma opens_snoc p ep l r : is_open r = true →
  opens p ep (l ++ [r]) = opens p ep l ++ if decide ((row_provider_id r, row_endpoint r) = (p, ep)) then [r] else [].
Proof.
  intros Hr. unfold opens. rewrite List.filter_app. f_equal. simpl. rewrite Hr, andb_true_r.
  case_decide as E; [by rewrite (proj2 (row_is_true _ _ _) E)|].
  destruct (row_is p ep r) eqn:Er; [|done]. by apply row_is_true in Er.
Qed.

(** The rows once the open ones of the key are closed. *)
Definition closed_rows (m : PricingModel) (now : Z) (db : PricingDb) : list PricingModelRow :=
  match repo_getPricing (providerId m) (endpoint m) now db with
  | Some _ => close_open (providerId m) (given (endpoint m)) now (pricing_models db)
  | None => pricing_models db
  end.

Lemma closed_rows_past t b now m db : t <= now → represents t b db → Forall (past now) (closed_rows m now db).
Proof.
  intros Hle [Hp _]. unfold closed_rows. destruct (repo_getPricing _ _ _ _); [by apply (close_open_past t)|].
  eapply Forall_impl; [exact Hp|]. intros r. by apply past_later.
Qed.

Lemma closed_rows_opens t b now m db p ep : t <= now → represents t b db → endpoint m ≠ Some ""%string →
  opens p ep (closed_rows m now db)
  = if decide ((p, ep) = (providerId m, endpoint m)) then [] else opens p ep (pricing_models db).
Proof.
  intros Hle Hr Hne. assert (given (endpoint m) = endpoint m) as Hg.
  { unfold given. destruct (endpoint m) as [[|c e]|]; done. }
  unfold closed_rows. rewrite Hg. destruct (repo_getPricing _ _ _ _) as [o|] eqn:Eo.
  - case_decide as E; [injection E as -> ->; apply opens_close_same|by apply opens_close_other].
  - case_decide as E; [|done]. injection E as -> ->.
    rewrite (repo_getPricing_book t b) in Eo by done. unfold book_pricing in Eo. rewrite Hg in Eo.
    pose proof (rep_open _ _ _ Hr (providerId m) (endpoint m)) as Ho.
    assert (b !! (providerId m, endpoint m) = None) as Hb.
    { destruct (endpoint m) as [e|]; [|done]. by destruct (b !! (_, Some e)). }
    rewrite Hb in Ho. by apply map_eq_nil in Ho.
Qed.

(** One registration. *)
Lemma registration_represents t b now m changedBy reason s : t <= now → registration now m →
  represents t b (pricingRepository s) →
  let '(s', r) := updatePricing m changedBy reason now s in
  r = Ok tt ∧ represents now (book_update m b) (pricingRepository s').
Proof.
  intros Hle (Hf & Hu & Hne & Hv) Hr.
  unfold updatePricing. rewrite Hv. unfold upsertPricing. rewrite Hf, Hu. simpl.
  fold (closed_rows m now (pricingRepository s)). split; [done|]. split; simpl.
  - apply Forall_app. split; [by eapply closed_rows_past|]. constructor; [|done]. split; simpl; [lia|done].
  - intros p ep. rewrite opens_snoc, (closed_rows_opens t b) by done. simpl. unfold book_update.
    destruct (decide ((p, ep) = (providerId m, endpoint m))) as [E|E].
    + rewrite E, lookup_insert, !decide_True by done. simpl. unfold as_stored, rowToPricingModel. simpl.
      by rewrite Hf, Hu.
    + rewrite lookup_insert_ne, decide_False by congruence. rewrite app_nil_r. apply Hr.
Qed.

(** A history of registrations, each with its instant and its author. *)
Definition register_all (l : list (Z * PricingModel)) (s : PricingOracleService) : PricingOracleService :=
  fold_left (fun s x => fst (updatePricing x.2 "system" "Auto-seeded" x.1 s)) l s.

Fixpoint in_order (t : Z) (l : list (Z * PricingModel)) : Prop :=
  match l with
  | [] => True
  | (now, m) :: l' => t <= now ∧ registration now m ∧ in_order now l'
  end.

Definition last_time (t : Z) (l : list (Z * PricingModel)) : Z := default t (fst <$> last l).

Definition book_of (l : list (Z * PricingModel)) : book := fold_left (fun b x => book_update x.2 b) l ∅.

Lemma register_all_represents l t b s : in_order t l → represents t b (pricingRepository s) →
  represents (last_time t l) (fold_left (fun b x => book_update x.2 b) l b) (pricingRepository (register_all l s)).
Proof.
  revert t b s. induction l as [|[now m] l IH]; intros t b s; [done|]. intros (Hle & Hreg & Hl) Hr.
  pose proof (registration_represents t b now m "system" "Auto-seeded" s Hle Hreg Hr) as H.
  simpl. destruct (updatePricing m _ _ now s) as [s' r] eqn:E. simpl. destruct H as [_ H].
  assert (last_time t ((now, m) :: l) = last_time now l) as ->.
  { unfold last_time. rewrite last_cons. by destruct (last l). }
  by apply IH.
Qed.

Lemma represents_empty t : represents t ∅ empty_db.
Proof. split; [constructor|]. intros p ep. by rewrite lookup_empty. Qed.

(** The table implements the price book. Whatever registrations
    were made, in the order of time, a query at any later instant answers the last
    model registered for the endpoint, or else the last one registered for the
    provider as a whole: rows are closed and opened so that exactly one is active. *)
Theorem table_implements_book l t now p ep : in_order t l → last_time t l <= now →
  repo_getPricing p ep now (pricingRepository (register_all l (new_pricing_oracle empty_db)))
  = book_pricing (book_of l) p ep.
Proof.
  intros Hl Hle. apply (repo_getPricing_book (last_time t l)); [|done].
  by apply register_all_represents, represents_empty.
Qed.

(** A registration for the provider as a whole, one for an endpoint, and a second one
    for the endpoint: each key answers its last model. *)
Definition flat_rate (p : string) (ep : option string) (x now : Z) : PricingModel :=
  {| providerId := p; endpoint := ep; pricingType := PerCall;
     rates := [{| rate_type := PerCall; rate := num x; unit := None; tiers := None |}];
     currency := "USD"; effectiveFrom := Some now; effectiveUntil := None |}.

Definition three_registrations : list (Z * PricingModel) :=
  [(10, flat_rate "claude" None 3 10); (20, flat_rate "claude" (Some "/v1/messages") 5 20);
   (30, flat_rate "claude" (Some "/v1/messages") 7 30)].

Lemma table_implements_book_witness :
  first_rate <$> repo_getPricing "claude" (Some "/v1/messages") 40
                   (pricingRepository (register_all three_registrations (new_pricing_oracle empty_db))) = Some (num 7)
  ∧ first_rate <$> repo_getPricing "claude" (Some "/v1/models") 40
                   (pricingRepository (register_all three_registrations (new_pricing_oracle empty_db))) = Some (num 3).
Proof.
  assert (in_order 0 three_registrations) as Hl.
  { simpl. unfold registration. split_and!; try done; by vm_compute. }
  rewrite !(table_implements_book three_registrations 0 40) by (done || exact Hl).
  split; vm_compute; reflexivity.
Defined.

(** An empty endpoint is stored as it is but looked up as none: the registration closes
    the provider's own pricing, and what it adds is never found. *)
Theorem empty_endpoint_loses_pricing :
  let s := register_all [(10, flat_rate "claude" None 3 10)] (new_pricing_oracle empty_db) in
  let '(s', r) := updatePricing (flat_rate "claude" (Some "") 5 20) "admin" "new rate" 20 s in
  r = Ok tt ∧ length (pricing_models (pricingRepository s')) = 2%nat
  ∧ repo_getPricing "claude" (Some "") 20 (pricingRepository s') = None
  ∧ repo_getPricing "claude" None 20 (pricingRepository s') = None.
Proof. vm_compute. by split_and!. Qed.

(** A date that is not one passes the validation, and fails after the old row was
    closed: the provider is left without a price. *)
Theorem invalid_date_loses_pricing :
  let s := register_all [(10, flat_rate "claude" None 3 10)] (new_pricing_oracle empty_db) in
  let m := flat_rate "claude" None 5 20 in
  let bad := {| providerId := "claude"; endpoint := None; pricingType := PerCall; rates := rates m;
                currency := "USD"; effectiveFrom := None; effectiveUntil := None |} in
  let '(s', r) := updatePricing bad "admin" "new rate" 20 s in
  is_ok r = false ∧ repo_getPricing "claude" None 20 (pricingRepository s') = None.
Proof. vm_compute. by split_and!. Qed.

(** ** The cache of the oracle *)

Inductive pricing_op : Type :=
| AskPricing (provider : string) (ep : option string)
| UpdatePricing (model : PricingModel) (changedBy reason : string).

Definition pricing_step (s : PricingOracleService) (x : Z * pricing_op) : PricingOracleService :=
  match x.2 with
  | AskPricing p ep => fst (getPricing p ep x.1 s)
  | UpdatePricing m by_ why => fst (updatePricing m by_ why x.1 s)
  end.

(** The instants of the calls, each with the tables it found. *)
Fixpoint sightings (s : PricingOracleService) (l : list (Z * pricing_op)) : list (Z * PricingDb) :=
  match l with
  | [] => []
  | x :: l' => (x.1, pricingRepository s) :: sightings (pricing_step s x) l'
  end.

Definition seen_in (seen : list (Z * PricingDb)) (key : string) (m : PricingModel) (t : Z) : Prop :=
  ∃ db p ep, In (t, db) seen ∧ cache_key p ep = key ∧ repo_getPricing p ep t db = Some m.

Definition cache_seen (seen : list (Z * PricingDb)) (s : PricingOracleService) : Prop :=
  ∀ key m expiry, pricingCache s !! key = Some (m, expiry) → seen_in seen key m (expiry - CACHE_TTL_MS).

Lemma seen_in_app seen seen' key m t : seen_in seen key m t → seen_in (seen ++ seen') key m t.
Proof. intros (db & p & ep & ? & ?). exists db, p, ep. rewrite in_app_iff. naive_solver. Qed.

Lemma getPricing_cases p ep now s s' r : getPricing p ep now s = (s', r) →
  (s' = s ∧ ((∃ m expiry, pricingCache s !! cache_key p ep = Some (m, expiry) ∧ now < expiry ∧ r = Ok m)
     ∨ repo_getPricing p ep now (pricingRepository s) = None ∧ is_ok r = false))
  ∨ ∃ m, repo_getPricing p ep now (pricingRepository s) = Some m ∧ r = Ok m
     ∧ s' = {| pricingCache := <[cache_key p ep := (m, now + CACHE_TTL_MS)]> (pricingCache s);
               pricingRepository := pricingRepository s |}.
Proof.
  unfold getPricing. intros H.
  destruct (repo_getPricing p ep now _) as [m|] eqn:Er, (pricingCache s !! _) as [[m' e]|] eqn:Ec;
    try destruct (Z.ltb_spec now e); injection H as <- <-; eauto 10.
Qed.

Lemma cache_seen_insert seen s key m now db p ep :
  cache_seen seen s → cache_key p ep = key → repo_getPricing p ep now db = Some m → In (now, db) seen →
  cache_seen seen {| pricingCache := <[key := (m, now + CACHE_TTL_MS)]> (pricingCache s); pricingRepository := pricingRepository s |}.
Proof.
  intros Hs Hk Hr Hin k m' e. simpl. rewrite lookup_insert_Some. intros [[<- [= <- <-]]|[_ H]]; [|by apply Hs].
  exists db, p, ep. by replace (now + CACHE_TTL_MS - CACHE_TTL_MS) with now by lia.
Qed.

Lemma pricing_step_seen seen s x : cache_seen seen s →
  cache_seen (seen ++ [(x.1, pricingRepository s)]) (pricing_step s x).
Proof.
  intros Hs. set (seen' := seen ++ _).
  assert (cache_seen seen' s) as Hs' by (intros k m e ?; by apply seen_in_app, Hs).
  destruct x as [now [p ep|m by_ why]]; unfold pricing_step; simpl.
  - destruct (getPricing p ep now s) as [s' r] eqn:E.
    apply getPricing_cases in E as [[-> _]|(m & Hr & _ & ->)]; [done|].
    eapply cache_seen_insert; [done|done|done|]. apply in_app_iff. right. by left.
  - unfold updatePricing. destruct (validatePricingModel m now); [|done].
    destruct (upsertPricing m now _) as [db [|]]; [|done].
    intros k m' e. simpl. rewrite lookup_delete_Some. intros [_ H]. by apply Hs'.
Qed.

Lemma pricing_run_seen l seen s : cache_seen seen s →
  cache_seen (seen ++ sightings s l) (fold_left pricing_step l s).
Proof.
  revert seen s. induction l as [|x l IH]; intros seen s Hs; simpl; [by rewrite app_nil_r|].
  specialize (IH _ _ (pricing_step_seen _ _ x Hs)). by rewrite <- app_assoc in IH.
Qed.

(** A price the oracle answers was the repository's answer less than an hour before, for
    a provider and endpoint of the same cache key. *)
Theorem pricing_is_recent l now p ep db m :
  let s := fold_left pricing_step l (new_pricing_oracle db) in
  snd (getPricing p ep now s) = Ok m →
  ∃ t, now < t + CACHE_TTL_MS
    ∧ seen_in (sightings (new_pricing_oracle db) l ++ [(now, pricingRepository s)]) (cache_key p ep) m t.
Proof.
  intros s. assert (cache_seen (sightings (new_pricing_oracle db) l) s) as Hs.
  { apply (pricing_run_seen l []). intros k m' e. simpl. by rewrite lookup_empty. }
  destruct (getPricing p ep now s) as [s' r] eqn:E. simpl. intros ->.
  apply getPricing_cases in E as [[_ [(m' & e & Hc & Hlt & [= ->])|[_ ?]]]|(m' & Hr & [= ->] & _)]; [|done|].
  - exists (e - CACHE_TTL_MS). split; [lia|]. by apply seen_in_app, Hs.
  - exists now. split; [unfold CACHE_TTL_MS; lia|]. exists (pricingRepository s), p, ep.
    split_and!; [apply in_app_iff; right; by left|done|done].
Qed.

Lemma pricing_is_recent_witness :
  let l := [(10, UpdatePricing (flat_rate "claude" None 3 10) "system" "seed");
            (20, AskPricing "claude" (Some "/v1/models"));
            (30, UpdatePricing (flat_rate "claude" None 5 30) "system" "raise")] in
  let s := fold_left pricing_step l (new_pricing_oracle empty_db) in
  ∃ m t, 40 < t + CACHE_TTL_MS ∧
    seen_in (sightings (new_pricing_oracle empty_db) l ++ [(40, pricingRepository s)])
      (cache_key "claude" (Some "/v1/models")) m t.
Proof.
  eexists. refine (pricing_is_recent
    [(10, UpdatePricing (flat_rate "claude" None 3 10) "system" "seed");
     (20, AskPricing "claude" (Some "/v1/models"));
     (30, UpdatePricing (flat_rate "claude" None 5 30) "system" "raise")]
    40 "claude" (Some "/v1/models") empty_db _ _).
  vm_compute. reflexivity.
Defined.

(** An update forgets the cache of its own key only: an endpoint priced through the
    provider keeps the old price until its entry expires. *)
Theorem update_leaves_fallback_cached :
  let l := [(10, UpdatePricing (flat_rate "claude" None 3 10) "system" "seed");
            (20, AskPricing "claude" (Some "/v1/models"));
            (30, UpdatePricing (flat_rate "claude" None 5 30) "system" "raise")] in
  let s := fold_left pricing_step l (new_pricing_oracle empty_db) in
  rmap first_rate (snd (getPricing "claude" (Some "/v1/models") 40 s)) = Ok (num 3)
  ∧ first_rate <$> repo_getPricing "claude" (Some "/v1/models") 40 (pricingRepository s) = Some (num 5).
Proof. vm_compute. by split. Qed.

(** ** Costs are not negative *)

Definition usage_ok (usage : UsageMetrics) : Prop :=
  nonneg_or_nan (units usage) = true
  ∧ ∀ k x, breakdown usage ≫= lookup k = Some x → nonneg_or_nan x = true.

Definition rate_ok (r : PricingRate) : Prop := nonneg_or_nan (rate r) = true.

Lemma nle_false_nonneg x : nle x (num 0) = false → nonneg_or_nan x = true.
Proof. destruct x as [[]|[]| |[]]; done. Qed.

Lemma check_rates_ok l : check_rates l = Ok tt → Forall rate_ok l.
Proof.
  induction l as [|r l IH]; [constructor|]. cbn [check_rates].
  destruct (nle (rate r) (num 0)) eqn:E; [done|]. destruct (_ && _); [done|].
  intros H. constructor; [by apply nle_false_nonneg|auto].
Qed.

Lemma json_rate_ok r : rate_ok r → rate_ok (json_rate r).
Proof. unfold rate_ok, json_rate, json_number. simpl. by destruct (rate r). Qed.

Lemma usage_of_ok k usage x : usage_ok usage → usage_of k usage = Some x → nonneg_or_nan x = true.
Proof.
  intros [_ H]. unfold usage_of. destruct (breakdown usage ≫= lookup k) as [y|] eqn:E; [|done].
  destruct (truthy y); [|done]. intros [= <-]. by eapply H.
Qed.

Lemma sum_nonneg {A} (f : number → A → number) (P : A → Prop) l cost :
  (∀ c a, P a → nonneg_or_nan c = true → nonneg_or_nan (f c a) = true) →
  Forall P l → nonneg_or_nan cost = true → nonneg_or_nan (fold_left f l cost) = true.
Proof.
  intros Hf Hl. revert cost. induction Hl as [|a l Ha Hl IH]; intros cost Hc; [done|].
  apply IH. by apply Hf.
Qed.

Lemma first_rate_nonneg m : Forall rate_ok (rates m) → nonneg_or_nan (first_rate m) = true.
Proof.
  unfold first_rate. intros H. destruct (rates m) as [|r l]; [done|]. inversion H; subst.
  by destruct (truthy (rate r)).
Qed.

(** What a validated model of any type but tiered charges for a usage that is not
    negative is never negative, so that its conversion to wei is not either. *)
Theorem validated_costs_nonneg m now usage :
  validatePricingModel m now = Ok tt → usage_ok usage →
  Forall (λ cost, nonneg_or_nan cost = true)
    [calculateTokenCost usage (as_stored m); calculatePerCallCost usage (as_stored m);
     calculatePerUnitCost usage (as_stored m); calculateCompositeCost usage (as_stored m)].
Proof.
  intros Hv Hu.
  assert (Forall rate_ok (rates (as_stored m))) as Hr.
  { simpl. apply Forall_map. unfold validatePricingModel in Hv.
    destruct (rates m) as [|r l]; [done|]. apply rbind_ok in Hv as ([] & Hc & _).
    apply check_rates_ok in Hc. eapply Forall_impl; [exact Hc|]. apply json_rate_ok. }
  repeat constructor.
  - apply (sum_nonneg _ rate_ok); [|done|done]. intros c r Hok Hc.
    destruct (token_field (unit r)) as [k|]; simpl; [|done].
    destruct (usage_of k usage) as [x|] eqn:E; [|done].
    apply nadd_nonneg; [done|]. apply nmul_nonneg; [|done].
    apply ndiv_nonneg; [by eapply usage_of_ok|done].
  - by apply first_rate_nonneg.
  - apply nmul_nonneg; [apply Hu|by apply first_rate_nonneg].
  - apply (sum_nonneg _ rate_ok); [|done|done]. intros c r Hok Hc.
    destruct (unit r) as [u|]; [|done]. destruct (str_len u =? 0); [done|].
    destruct (usage_of u usage) as [x|] eqn:E; [|done].
    apply nadd_nonneg; [done|]. apply nmul_nonneg; [by eapply usage_of_ok|done].
Qed.

Definition one_tier (from to : option Z) (x : Z) : PricingModel :=
  {| providerId := "p"; endpoint := None; pricingType := Tiered;
     rates := [{| rate_type := Tiered; rate := num 1; unit := None;
                  tiers := Some [{| tier_from := num (default 0 from); tier_to := num <$> to; tier_rate := num x |}] |}];
     currency := "USD"; effectiveFrom := Some 0; effectiveUntil := None |}.

(** A tier that ends at 0 is unbounded, and one that ends before it starts, which the
    validation accepts, charges a negative price. *)
Theorem tiers_are_not_validated :
  let usage := {| units := num 10; costUSD := num 0; breakdown := None |} in
  calculateTieredCost usage (one_tier (Some 0) (Some 0) 2) = Ok (num 20)
  ∧ validatePricingModel (one_tier (Some 8) (Some 3) 2) 1 = Ok tt
  ∧ calculateTieredCost usage (one_tier (Some 8) (Some 3) 2) = Ok (num (-10)).
Proof. vm_compute. by split_and!. Qed.
