(* ===== verification/Providers.v ===== *)
(** * The API providers

    [src/providers]: the base class, the Claude provider and the registry. A request
    body and its metadata are JSON values. The Anthropic client is a function from
    the parameters sent to a message or an error; an error is the JSON view of the
    object thrown, with its message. Dates are the instants they are made at. *)

From Stdlib Require Import Ascii String SpecFloat.
From S2P Require Import Prelude JsText JsNumber Json JsCoerce ClaudePricing Pricing.
Open Scope Z_scope.

(** ** provider.interface.ts *)

Record ProviderConfig : Type := { apiKey : option string; timeout : option number; retries : option number }.

Record ProviderRequest : Type := {
  rq_endpoint : string;
  rq_method : string;
  rq_headers : list (string * string);
  rq_body : jsv;
  rq_metadata : jsv;
}.

Record ProviderResponse : Type := {
  rs_status : Z;
  rs_body : list (string * jsv);
  rs_usage : UsageMetrics;
  rs_metadata : list (string * jsv);
}.

Record ValidationResult : Type := { valid : bool; errors : list string }.

Record CostEstimate : Type := {
  minCostUSD : number;
  maxCostUSD : number;
  estimatedCostUSD : number;
  confidence : number;
  ce_input : number;
  ce_output : number;
}.

Inductive health_status : Type := healthy | degraded | down.

Record ProviderHealth : Type := { status : health_status; latencyMs : option Z; lastCheck : Z }.

(** ** base.provider.ts *)

Definition METHODS : list string := ["GET"; "POST"; "PUT"; "DELETE"]%string.

Definition push_when (b : bool) (e : string) : list string := if b then [e] else [].

Definition base_validateRequest (request : ProviderRequest) : ValidationResult :=
  let errors :=
    push_when (str_len (rq_endpoint request) =? 0) "endpoint is required"
    ++ push_when (str_len (rq_method request) =? 0) "method is required"
    ++ push_when (negb (bool_decide (rq_method request ∈ METHODS))) "method must be GET, POST, PUT, or DELETE" in
  {| valid := negb (nonempty errors); errors := errors |}.

Definition base_healthCheck (start stop : Z) : ProviderHealth :=
  {| status := healthy; latencyMs := Some (stop - start); lastCheck := stop |}.

Definition SENSITIVE_KEYS : list string := ["authorization"; "api-key"; "x-api-key"; "x-auth-token"]%string.

Definition sanitizeHeaders (headers : list (string * string)) : list (string * string) :=
  map (fun kv => if bool_decide (toLowerCase kv.1 ∈ SENSITIVE_KEYS) then (kv.1, "[REDACTED]"%string) else kv) headers.

(** What [logRequest] keeps of a request. *)
Definition sanitized_request (request : ProviderRequest) : ProviderRequest :=
  {| rq_endpoint := rq_endpoint request; rq_method := rq_method request;
     rq_headers := sanitizeHeaders (rq_headers request);
     rq_body := if js_truthy (rq_body request) then Some (JStr (code_units "[REDACTED]")) else None;
     rq_metadata := rq_metadata request |}.

Definition calculateRetryDelay (attempt : nat) (baseDelay : number) : number :=
  Math_min (nmul baseDelay (num (2 ^ Z.of_nat attempt))) (num 10000).

(** A property of a truthy value that is not undefined: [get_prop] does not throw. *)
Definition prop (k : string) (v : jsv) : jsv := match get_prop k v with Ok p => p | Throw _ => None end.

Definition isRetryableError (error : jsv) : bool :=
  match error with
  | Some (JObj _) | Some (JArr _) =>
      if is_string "ECONNRESET" (prop "code" error) || is_string "ETIMEDOUT" (prop "code" error) then true
      else
        match prop "status" (prop "response" error) with
        | Some (JNum n) => (nge n (num 500) && nlt n (num 600)) || neq n (num 429)
        | _ => false
        end
  | _ => false
  end.

(** ** claude.provider.ts *)

Definition CACHE_WRITE_MULTIPLIER : number := decimal 125 (-2).
Definition CACHE_READ_MULTIPLIER : number := decimal 1 (-1).

Definition perThousand (perMillion : number) : number := ndiv perMillion (num 1000).

Definition per_token (u : string) (x : number) : PricingRate :=
  {| rate_type := PerToken; rate := x; unit := Some u; tiers := None |}.

Definition CLAUDE_EFFECTIVE_FROM : Z := 1735689600000.

(** Reading the price of anything but a model throws; the callers check the model. *)
Definition getPricingConfig (model : string) : result PricingModel :=
  let* p := of_option undefined_read (price_of model) in
  Ok {| providerId := "claude"; endpoint := Some "/v1/messages"; pricingType := PerToken;
        rates := [per_token "input_token" (perThousand (price_input p));
                  per_token "output_token" (perThousand (price_output p));
                  per_token "cache_creation_input_token" (perThousand (nmul (price_input p) CACHE_WRITE_MULTIPLIER));
                  per_token "cache_read_input_token" (perThousand (nmul (price_input p) CACHE_READ_MULTIPLIER))];
        currency := "USD"; effectiveFrom := Some CLAUDE_EFFECTIVE_FROM; effectiveUntil := None |}%string.

(** [pricing.rates.find((r) => r.unit === unit)?.rate ?? 0]. *)
Definition rate_for (pricing : PricingModel) (u : string) : number :=
  match List.find (fun r => bool_decide (unit r = Some u)) (rates pricing) with
  | Some r => rate r
  | None => num 0
  end.

Definition tokenCostUSD (pricing : PricingModel) (u : string) (tokens : number) : number :=
  ndiv (nmul tokens (rate_for pricing u)) (num 1000).

(** The client made by [initialize]: its key, timeout and retries. *)
Record Anthropic : Type := { client_key : string; client_timeout : number; client_retries : number }.

Record ClaudeProvider : Type := { cp_config : option ProviderConfig; anthropic : option Anthropic }.

Definition new_claude : ClaudeProvider := {| cp_config := None; anthropic := None |}.

Definition or_number (x : option number) (d : number) : number :=
  match x with Some x => if truthy x then x else d | None => d end.

Definition initialize (config : ProviderConfig) (s : ClaudeProvider) : ClaudeProvider :=
  {| cp_config := Some config;
     anthropic := Some {| client_key := match apiKey config with
                                        | Some k => if str_len k =? 0 then "mock-key"%string else k
                                        | None => "mock-key"%string end;
                          client_timeout := or_number (timeout config) (num 120000);
                          client_retries := or_number (retries config) (num 2) |} |}.

(** The model a JSON text names, if it is one. *)
Definition claude_model (v : jsv) : option string :=
  match v with
  | Some (JStr s) => List.find (fun m => bool_decide (s = code_units m)) CLAUDE_MODELS
  | _ => None
  end.

Definition positive_integer (v : jsv) : bool :=
  match v with Some (JNum n) => isInteger n && negb (nle n (num 0)) | _ => false end.

Definition nonempty_array (v : jsv) : bool := match v with Some (JArr (_ :: _)) => true | _ => false end.

Definition validateRequest (request : ProviderRequest) : ValidationResult :=
  let base := base_validateRequest request in
  if negb (valid base) then base
  else if negb (js_truthy (rq_body request)) then {| valid := false; errors := ["request body is required"%string] |}
  else
    let body := rq_body request in
    let errors :=
      push_when (negb (nonempty_array (prop "messages" body))) "messages array is required and cannot be empty"
      ++ push_when (negb (js_undefined (prop "model" body)) && negb (bool_decide (is_Some (claude_model (prop "model" body)))))
           "model must be one of the priced models"
      ++ push_when (negb (js_undefined (prop "maxTokens" body)) && negb (positive_integer (prop "maxTokens" body)))
           "maxTokens must be a positive integer" in
    {| valid := negb (nonempty errors); errors := errors |}.

(** [const { k = d } = o]. *)
Definition prop_or (k : string) (d : jsv) (o : jsv) : jsv := if js_undefined (prop k o) then d else prop k o.

(** The usage of a message: the cache counts may be missing. *)
Record MessageUsage : Type := {
  input_tokens : number;
  output_tokens : number;
  cache_creation_input_tokens : option number;
  cache_read_input_tokens : option number;
}.

(** A message: its other fields are passed on as they are. *)
Record Message : Type := {
  m_id : jsv; m_type : jsv; m_role : jsv; m_content : jsv; m_model : jsv;
  m_stop_reason : jsv; m_stop_sequence : jsv; m_usage : MessageUsage;
}.

Definition extractUsage (u : MessageUsage) (model : string) : result UsageMetrics :=
  let* pricing := getPricingConfig model in
  let write := or_number (cache_creation_input_tokens u) (num 0) in
  let read := or_number (cache_read_input_tokens u) (num 0) in
  let total :=
    nadd (nadd (nadd (tokenCostUSD pricing "input_token" (input_tokens u))
                     (tokenCostUSD pricing "output_token" (output_tokens u)))
               (tokenCostUSD pricing "cache_creation_input_token" write))
         (tokenCostUSD pricing "cache_read_input_token" read) in
  Ok {| units := nadd (nadd (nadd (input_tokens u) (output_tokens u)) write) read;
        costUSD := total;
        breakdown := Some (<["input" := input_tokens u]> (<["output" := output_tokens u]>
                       (<["cacheWrite" := write]> (<["cacheRead" := read]> ∅)))) |}%string.

(** The parameters sent, in the order of the code. *)
Definition create_params (body : jsv) : list (string * jsv) :=
  [("model", prop_or "model" (Some (JStr (code_units DEFAULT_CLAUDE_MODEL))) body);
   ("max_tokens", prop_or "maxTokens" (Some (JNum (num 8192))) body);
   ("temperature", prop_or "temperature" (Some (JNum (num 1))) body);
   ("system", prop "system" body);
   ("messages", prop "messages" body);
   ("top_p", prop "topP" body);
   ("top_k", prop "topK" body);
   ("stop_sequences", prop "stopSequences" body);
   ("metadata", prop "metadata" body);
   ("stream", prop_or "stream" (Some (JBool false)) body)]%string.

(** What the client throws: the object and its message. *)
Record thrown : Type := { thrown_value : jsv; thrown_message : string }.

Section Execute.
Context (create : Anthropic -> list (string * jsv) -> Message + thrown).

Definition not_initialized : exn := Error "Provider claude not initialized. Call initialize() first.".

Definition claude_error (retryable : bool) (message : string) : exn :=
  Error ((if retryable then "Retryable error from Claude API: " else "Claude API error: ") +:+ message).

Definition execute (request : ProviderRequest) (s : ClaudeProvider) : result ProviderResponse :=
  match cp_config s, anthropic s with
  | None, _ => Throw not_initialized
  | Some _, None => Throw (Error "Anthropic client not initialized")
  | Some _, Some client =>
      let validation := validateRequest request in
      if negb (valid validation) then Throw (Error ("Invalid request: " +:+ join ", " (errors validation)))
      else
        let body := rq_body request in
        match create client (create_params body) with
        | inr e => Throw (claude_error (isRetryableError (thrown_value e)) (thrown_message e))
        | inl response =>
            let model := match prop "model" body with
                         | None => DEFAULT_CLAUDE_MODEL
                         | v => default EmptyString (claude_model v)
                         end in
            match extractUsage (m_usage response) model with
            | Throw _ => Throw (claude_error false "Cannot destructure property")
            | Ok usage =>
                Ok {| rs_status := 200;
                      rs_body := [("id", m_id response); ("type", m_type response); ("role", m_role response);
                                  ("content", m_content response); ("model", m_model response);
                                  ("stopReason", m_stop_reason response); ("stopSequence", m_stop_sequence response)];
                      rs_usage := usage;
                      rs_metadata := [("model", m_model response); ("responseId", m_id response)] |}%string
            end
        end
  end.

Definition ping : list (string * jsv) :=
  [("model", Some (JStr (code_units DEFAULT_CLAUDE_MODEL))); ("max_tokens", Some (JNum (num 10)));
   ("messages", Some (JArr [JObj [(code_units "role", JStr (code_units "user"));
                                  (code_units "content", JStr (code_units "ping"))]]))]%string.

Definition healthCheck (start stop : Z) (s : ClaudeProvider) : result ProviderHealth :=
  match cp_config s, anthropic s with
  | None, _ => Throw not_initialized
  | Some _, None => Ok {| status := down; latencyMs := None; lastCheck := stop |}
  | Some _, Some client =>
      Ok match create client ping with
         | inl _ => {| status := healthy; latencyMs := Some (stop - start); lastCheck := stop |}
         | inr _ => {| status := down; latencyMs := None; lastCheck := stop |}
         end
  end.
End Execute.

(** *** The estimate *)

(** [typeof c === 'string' ? c : c.text || '']: the characters a part of a message
    adds once joined; an array joins null as an empty text. *)
Definition part_length (c : json) : result Z :=
  match c with
  | JStr s => Ok (Z.of_nat (length s))
  | _ =>
      let* text := get_prop "text" (Some c) in
      match text with
      | Some v => if js_truthy text then rmap (fun t => Z.of_nat (length t)) (js_string v) else Ok 0
      | None => Ok 0
      end
  end.

(** [map] goes through every part before [join] converts them. *)
Fixpoint read_parts (l : list json) : result Datatypes.unit :=
  match l with
  | [] => Ok tt
  | JStr _ :: l' => read_parts l'
  | c :: l' => let* _ := get_prop "text" (Some c) in read_parts l'
  end.

Fixpoint sum_lengths {A} (f : A -> result Z) (l : list A) : result Z :=
  match l with
  | [] => Ok 0
  | a :: l' => let* n := f a in let* rest := sum_lengths f l' in Ok (n + rest)
  end.

Definition message_length (msg : json) : result Z :=
  if negb (js_truthy (Some msg)) then Ok 0
  else
    match prop "content" (Some msg) with
    | Some (JStr s) => Ok (Z.of_nat (length s))
    | Some (JArr parts) => let* _ := read_parts parts in sum_lengths part_length parts
    | _ => Ok 0
    end.

Definition estimateTokenCount (messages : jsv) : result number :=
  match messages with
  | Some (JArr l) =>
      let* total := sum_lengths message_length l in
      Ok (Math_ceil (ndiv (num total) (num 4)))
  | _ => Ok (num 0)
  end.

(** [(request.metadata || request.body || {})]. *)
Definition estimate_source (request : ProviderRequest) : jsv :=
  if js_truthy (rq_metadata request) then rq_metadata request
  else if js_truthy (rq_body request) then rq_body request
  else Some (JObj []).

Definition bad_model : exn := BadRequestException "model must be one of the priced models".

Definition estimateCost (request : ProviderRequest) : result CostEstimate :=
  let source := estimate_source request in
  match (match prop "model" source with
         | None => Some DEFAULT_CLAUDE_MODEL
         | v => claude_model v
         end) with
  | None => Throw bad_model
  | Some model =>
      let messages := prop "messages" source in
      let* input := estimateTokenCount (if js_truthy messages then messages else Some (JArr [])) in
      let* pricing := getPricingConfig model in
      let inputCost := tokenCostUSD pricing "input_token" input in
      let* output := to_number (prop_or "maxTokens" (Some (JNum (num 1024))) source) in
      let outputCost := tokenCostUSD pricing "output_token" output in
      let cost := nadd inputCost outputCost in
      Ok {| minCostUSD := nmul cost (decimal 7 (-1)); maxCostUSD := nmul cost (decimal 15 (-1));
            estimatedCostUSD := cost; confidence := decimal 8 (-1);
            ce_input := inputCost; ce_output := outputCost |}
  end.

Definition calculateActualCost (response : ProviderResponse) : UsageMetrics := rs_usage response.

Record RateLimitConfig : Type := { requestsPerMinute : Z; requestsPerDay : Z; concurrentRequests : Z }.

Definition getRateLimits : RateLimitConfig :=
  {| requestsPerMinute := 50; requestsPerDay := 1000; concurrentRequests := 5 |}.

(** ** provider-registry.service.ts *)

(** What the registry uses of a provider. *)
Record ApiProvider : Type := {
  id : string;
  version : string;
  pricing_config : result PricingModel;
  provider_estimate : ProviderRequest -> result CostEstimate;
  health : result ProviderHealth;
}.

(** A Map: a provider registered again keeps its place. *)
Fixpoint map_set {A} (k : string) (v : A) (l : list (string * A)) : list (string * A) :=
  match l with
  | [] => [(k, v)]
  | (k', v') :: l' => if bool_decide (k = k') then (k, v) :: l' else (k', v') :: map_set k v l'
  end.

Definition map_get {A} (k : string) (l : list (string * A)) : option A :=
  snd <$> List.find (fun kv => bool_decide (kv.1 = k)) l.

Definition providers_map : Type := list (string * ApiProvider).

(** [{...pricingConfig, effectiveFrom: new Date()}]. *)
Definition seeded (m : PricingModel) (now : Z) : PricingModel :=
  {| providerId := providerId m; endpoint := endpoint m; pricingType := pricingType m; rates := rates m;
     currency := currency m; effectiveFrom := Some now; effectiveUntil := effectiveUntil m |}.

Definition seedProviderPricing (provider : ApiProvider) (now : Z) (oracle : PricingOracleService)
  : PricingOracleService * result Datatypes.unit :=
  match pricing_config provider with
  | Throw e => (oracle, Throw e)
  | Ok config =>
      updatePricing (seeded config now) "system"
        ("Auto-seeded from provider " +:+ id provider +:+ " v" +:+ version provider) now oracle
  end.

(** The provider is in the map even when seeding its price throws. *)
Definition register (provider : ApiProvider) (now : Z) (providers : providers_map) (oracle : PricingOracleService)
  : providers_map * PricingOracleService * result Datatypes.unit :=
  let '(oracle, r) := seedProviderPricing provider now oracle in
  (map_set (id provider) provider providers, oracle, r).

Definition get (providerId : string) (providers : providers_map) : result ApiProvider :=
  of_option (NotFoundException ("Provider not found: " +:+ providerId)) (map_get providerId providers).

Definition has (providerId : string) (providers : providers_map) : bool :=
  bool_decide (is_Some (map_get providerId providers)).

Definition getProviderIds (providers : providers_map) : list string := map fst providers.

Definition healthCheckAll (now : Z) (providers : providers_map) : list (string * ProviderHealth) :=
  map (fun kv => (kv.1, match health kv.2 with
                        | Ok h => h
                        | Throw _ => {| status := down; latencyMs := None; lastCheck := now |}
                        end)) providers.

Definition unregister (providerId : string) (providers : providers_map) : providers_map * bool :=
  (List.filter (fun kv => negb (bool_decide (kv.1 = providerId))) providers, has providerId providers).

(** The Claude provider as the registry sees it. *)
Definition claude_provider (h : result ProviderHealth) : ApiProvider :=
  {| id := "claude"; version := "1.0.0"; pricing_config := getPricingConfig DEFAULT_CLAUDE_MODEL;
     provider_estimate := estimateCost; health := h |}.

Definition list_providers (providers : providers_map) : list ApiProvider := map snd providers.

(** [LongjingModule.onModuleInit]: the client is made with the key of the configuration, then
    the provider is registered, which seeds its price. *)
Definition LongjingModule_onModuleInit (key : option string) (h : result ProviderHealth) (now : Z)
  (s : ClaudeProvider) (providers : providers_map) (oracle : PricingOracleService)
  : ClaudeProvider * providers_map * PricingOracleService * result Datatypes.unit :=
  let s := initialize {| apiKey := key; timeout := Some (num 120000); retries := Some (num 2) |} s in
  let '(providers, oracle, r) := register (claude_provider h) now providers oracle in
  (s, providers, oracle, r).

(** ** Properties *)

(** The registry lists its providers in the order of their first registration. *)
Lemma list_ids providers : Forall (fun kv => kv.1 = id kv.2) providers -> map id (list_providers providers) = getProviderIds providers.
Proof.
  unfold list_providers, getProviderIds. rewrite map_map. induction 1 as [|kv l H _ IH]; [done|]. cbn [map]. by rewrite H, IH.
Qed.

Lemma push_when_nil b e : push_when b e = [] ↔ b = false.
Proof. by destruct b. Qed.

Lemma nonempty_false {A} (l : list A) : nonempty l = false ↔ l = [].
Proof. by destruct l. Qed.

Lemma claude_model_some v m : claude_model v = Some m → v = Some (JStr (code_units m)) ∧ m ∈ CLAUDE_MODELS.
Proof.
  unfold claude_model. destruct v as [[]|]; try done. intros H. apply find_some in H as [Hin Hb].
  apply bool_decide_eq_true in Hb as ->. split; [done|]. by apply list_elem_of_In.
Qed.

(** A request passes exactly when it has an endpoint and a method, and its body a
    non-empty array of messages, a priced model or none, and a positive integer of
    output tokens or none. *)
Theorem validateRequest_iff request :
  valid (validateRequest request) = true ↔
  rq_endpoint request ≠ ""%string ∧ rq_method request ∈ METHODS ∧ js_truthy (rq_body request) = true
  ∧ (∃ m l, prop "messages" (rq_body request) = Some (JArr (m :: l)))
  ∧ (prop "model" (rq_body request) = None
     ∨ ∃ m, m ∈ CLAUDE_MODELS ∧ claude_model (prop "model" (rq_body request)) = Some m)
  ∧ (prop "maxTokens" (rq_body request) = None ∨ positive_integer (prop "maxTokens" (rq_body request)) = true).
Proof.
  assert (valid (base_validateRequest request) = true ↔ rq_endpoint request ≠ ""%string ∧ rq_method request ∈ METHODS) as Hbase.
  { unfold base_validateRequest. cbn [valid]. rewrite negb_true_iff, nonempty_false.
    rewrite !app_nil, !push_when_nil, negb_false_iff, bool_decide_eq_true.
    assert (∀ s, (str_len s =? 0) = false ↔ s ≠ ""%string) as Hlen.
    { intros [|c s]; [split; [done|intros H; by destruct H]|]. split; [done|]. intros _.
      apply Z.eqb_neq. unfold str_len. simpl. lia. }
    rewrite !Hlen. split; [tauto|]. intros [? Hm]. split_and!; [done| |done].
    intros E. rewrite E in Hm. revert Hm. apply (bool_decide_eq_false _). by vm_compute. }
  unfold validateRequest. destruct (valid (base_validateRequest request)) eqn:Eb; cbn [negb].
  2: { rewrite Eb. split; [done|]. intros (? & ? & _). by apply Hbase. }
  destruct (js_truthy (rq_body request)) eqn:Et; cbn [negb valid]; [|naive_solver].
  rewrite negb_true_iff, nonempty_false, !app_nil, !push_when_nil, !andb_false_iff, !negb_false_iff.
  assert (nonempty_array (prop "messages" (rq_body request)) = true
          ↔ ∃ m l, prop "messages" (rq_body request) = Some (JArr (m :: l))) as ->.
  { unfold nonempty_array. destruct (prop _ _) as [[| | | |[|m l]|]|]; naive_solver. }
  assert (∀ v, js_undefined v = true ↔ v = None) as Hu by (by intros [v|]).
  rewrite !Hu, bool_decide_eq_true. unfold is_Some. 
  assert (∀ v m, claude_model v = Some m → m ∈ CLAUDE_MODELS) as Hm by (intros v m H; by apply claude_model_some in H as [_ ?]).
  naive_solver.
Qed.

(** The client is never called on a request that does not pass. *)
Theorem invalid_request_not_sent create request s :
  valid (validateRequest request) = false → is_ok (execute create request s) = false
  ∧ ∀ create', execute create' request s = execute create request s.
Proof. intros H. unfold execute. rewrite H. by destruct (cp_config s), (anthropic s). Qed.

(** No credential reaches the log: the keys are those sent, every sensitive value is
    replaced, in any case of its name, and the others are kept. *)
Theorem sanitizeHeaders_hides headers :
  map fst (sanitizeHeaders headers) = map fst headers
  ∧ Forall2 (λ kv kv', if bool_decide (toLowerCase kv.1 ∈ SENSITIVE_KEYS) then kv'.2 = "[REDACTED]"%string else kv' = kv)
      headers (sanitizeHeaders headers).
Proof.
  unfold sanitizeHeaders. induction headers as [|[k v] l [IH1 IH2]]; simpl; [by split|].
  rewrite IH1. destruct (bool_decide _) eqn:E; simpl; (split; [done|]); constructor; try done; simpl; by rewrite E.
Qed.

(** What Anthropic bills for is never negative. *)
Theorem extractUsage_nonneg u model usage :
  nonneg_or_nan (input_tokens u) = true → nonneg_or_nan (output_tokens u) = true →
  nonneg_or_nan (or_number (cache_creation_input_tokens u) (num 0)) = true →
  nonneg_or_nan (or_number (cache_read_input_tokens u) (num 0)) = true →
  extractUsage u model = Ok usage → usage_ok usage ∧ nonneg_or_nan (costUSD usage) = true.
Proof.
  intros Hi Ho Hw Hr. unfold extractUsage, getPricingConfig.
  destruct (price_of model) as [p|] eqn:Ep; [|done]. simpl. intros [= <-].
  destruct (price_of_nonneg _ _ Ep) as [Hpi Hpo].
  assert (∀ u x, nonneg_or_nan x = true → nonneg_or_nan (tokenCostUSD
    {| providerId := "claude"; endpoint := Some "/v1/messages"%string; pricingType := PerToken;
       rates := [per_token "input_token" (perThousand (price_input p));
                 per_token "output_token" (perThousand (price_output p));
                 per_token "cache_creation_input_token" (perThousand (nmul (price_input p) CACHE_WRITE_MULTIPLIER));
                 per_token "cache_read_input_token" (perThousand (nmul (price_input p) CACHE_READ_MULTIPLIER))];
       currency := "USD"; effectiveFrom := Some CLAUDE_EFFECTIVE_FROM; effectiveUntil := None |} u x) = true) as Hcost.
  { intros u' x Hx. unfold tokenCostUSD. apply ndiv_nonneg; [|done]. apply nmul_nonneg; [done|].
    unfold rate_for. destruct (List.find _ _) as [r|] eqn:Ef; [|done]. apply find_some in Ef as [Hin _].
    unfold perThousand, per_token in Hin. simpl in Hin.
    destruct Hin as [<-|[<-|[<-|[<-|[]]]]]; simpl; (apply ndiv_nonneg; [|done]); try done; by apply nmul_nonneg. }
  split; [split|].
  - simpl. repeat apply nadd_nonneg; done.
  - intros k x. simpl. rewrite !lookup_insert_Some, lookup_empty. naive_solver.
  - simpl. repeat apply nadd_nonneg; by apply Hcost.
Qed.

Lemma default_config : exists config, getPricingConfig DEFAULT_CLAUDE_MODEL = Ok config.
Proof. eexists. vm_compute. reflexivity. Qed.

(** The price seeded for Claude is exactly its table, for the messages endpoint and no
    other: a lookup without an endpoint still finds none. *)
Theorem claude_is_seeded l now h : in_order 0 l → last_time 0 l <= now →
  book_of l !! ("claude"%string, None) = None →
  let '(providers, oracle, r) := register (claude_provider h) now [] (register_all l (new_pricing_oracle empty_db)) in
  r = Ok tt ∧ has "claude" providers = true
  ∧ rmap Some (rmap (fun m => seeded m now) (getPricingConfig DEFAULT_CLAUDE_MODEL))
    = Ok (repo_getPricing "claude" (Some "/v1/messages"%string) now (pricingRepository oracle))
  ∧ repo_getPricing "claude" None now (pricingRepository oracle) = None.
Proof.
  intros Hl Hle Hnone. unfold register, seedProviderPricing.
  destruct default_config as [config Ec].
  cbn [pricing_config claude_provider]. rewrite Ec.
  assert (registration now (seeded config now) ∧ as_stored (seeded config now) = seeded config now
          ∧ providerId config = "claude"%string ∧ endpoint config = Some "/v1/messages"%string) as (Hreg & Hst & Hp & He).
  { apply (f_equal (fun r => match r with Ok m => m | Throw _ => flat_rate "" None 0 0 end)) in Ec.
    rewrite <- Ec. unfold registration. split_and!; try done.
    unfold validatePricingModel. simpl. by rewrite Z.ltb_irrefl. }
  pose proof (register_all_represents l 0 ∅ (new_pricing_oracle empty_db) Hl (represents_empty 0)) as Hr.
  fold (book_of l) in Hr.
  pose proof (registration_represents _ _ now (seeded config now) "system"
    ("Auto-seeded from provider " +:+ id (claude_provider h) +:+ " v" +:+ version (claude_provider h)) _ Hle Hreg Hr) as H.
  destruct (updatePricing _ _ _ now _) as [oracle r]. destruct H as [-> H].
  rewrite !(repo_getPricing_book now _ _ now) by (done || lia). unfold book_update. rewrite Hst.
  cbn [providerId endpoint seeded]. rewrite Hp, He. split_and!; [done|done|..].
  - cbn [rmap]. unfold book_pricing. simpl. by rewrite lookup_insert_eq.
  - unfold book_pricing. simpl. by rewrite lookup_insert_ne.
Qed.

(** The oracle never charges the cache tokens of Claude: the units of its rates are not
    those the oracle looks for. *)
Theorem oracle_ignores_cache_tokens units cost input output write read write' read' :
  let usage w r := {| units := units; costUSD := cost;
                      breakdown := Some (<["input" := input]> (<["output" := output]>
                                     (<["cacheWrite" := w]> (<["cacheRead" := r]> ∅)))) |}%string in
  match getPricingConfig DEFAULT_CLAUDE_MODEL with
  | Ok pricing => calculateTokenCost (usage write read) pricing = calculateTokenCost (usage write' read') pricing
  | Throw _ => False
  end.
Proof. done. Qed.
