(* ===== verification/CostEstimation.v ===== *)
(** * Cost estimates

    [src/longjing/cost-estimation.service.ts] and [dto/cost-estimate.dto.ts], over the
    registry, the pricing oracle and the rate oracle. The cache is a Map: the list of its
    entries in the order of insertion. An estimate is one atomic step that reads the
    clock five times; what the rate feeds answer is an argument. *)

From Stdlib Require Import Ascii String SpecFloat Sorting.Sorted.
From S2P Require Import Prelude JsText JsNumber Json JsCoerce EthRate ClaudePricing Pricing Providers.
Open Scope Z_scope.

(** ** cost-estimate.dto.ts *)

Record CostEstimateRequestDto : Type := {
  er_provider : string;
  er_endpoint : option string;
  estimatedUnits : number;
  unitType : option string;
  er_metadata : jsv;
}.

Record CostEstimateResponseDto : Type := {
  re_provider : string;
  re_endpoint : option string;
  re_estimatedCostUSD : number;
  estimatedCostWei : string;
  recommendedDepositWei : string;
  baseCostUSD : number;
  safetyMarginUSD : number;
  currentEthRateUSD : number;
  re_confidence : number;
  pricingModel : PricingType;
  timestamp : Z;
}.

(** ** cost-estimation.service.ts *)

Definition CACHE_TTL_MS : Z := 5 * 60 * 1000.
Definition MAX_CACHE_ENTRIES : nat := 1000.

Definition entry : Type := list Z * (CostEstimateResponseDto * Z).

Definition expiry (e : entry) : Z := e.2.2.

Definition cache_get (key : list Z) (l : list entry) : option (CostEstimateResponseDto * Z) :=
  snd <$> List.find (fun e : entry => bool_decide (e.1 = key)) l.

Definition cache_delete (key : list Z) (l : list entry) : list entry :=
  List.filter (fun e : entry => negb (bool_decide (e.1 = key))) l.

(** The loop over the Map: what is left of it is its size. *)
Fixpoint evict (now : Z) (l : list entry) : list entry :=
  match l with
  | [] => []
  | e :: l' => if (now <? expiry e) && (length l <? MAX_CACHE_ENTRIES)%nat then l else evict now l'
  end.

Definition cacheEstimate (key : list Z) (estimate : CostEstimateResponseDto) (now : Z) (l : list entry) : list entry :=
  evict now (cache_delete key l) ++ [(key, (estimate, now + CACHE_TTL_MS))].

Definition getCacheKey (request : CostEstimateRequestDto) : list Z :=
  code_units (er_provider request) ++ 58 :: code_units (default "" (er_endpoint request)) ++
  58 :: number_text (estimatedUnits request) ++ 58 :: code_units (default "" (unitType request)).

(** [{...request.metadata, estimatedUnits, unitType}]: what is not an object spreads at
    most index keys, which no provider reads. *)
Definition estimate_metadata (request : CostEstimateRequestDto) : jsv :=
  let fields := match er_metadata request with Some (JObj fields) => fields | _ => [] end in
  let fields := set_field (code_units "estimatedUnits") (JNum (estimatedUnits request)) fields in
  Some (JObj match unitType request with
             | Some u => set_field (code_units "unitType") (JStr (code_units u)) fields
             | None => List.filter (fun kv => negb (bool_decide (kv.1 = code_units "unitType"))) fields
             end).

Definition estimate_request (request : CostEstimateRequestDto) : ProviderRequest :=
  {| rq_endpoint := default EmptyString (er_endpoint request); rq_method := "POST"; rq_headers := [];
     rq_body := None; rq_metadata := estimate_metadata request |}.

Record EstimationState : Type := {
  estimateCache : list entry;
  registry : providers_map;
  pricingOracle : PricingOracleService;
  ethRateOracle : oracle;
}.

Definition with_cache (l : list entry) (s : EstimationState) : EstimationState :=
  {| estimateCache := l; registry := registry s; pricingOracle := pricingOracle s; ethRateOracle := ethRateOracle s |}.

Definition with_pricing (o : PricingOracleService) (s : EstimationState) : EstimationState :=
  {| estimateCache := estimateCache s; registry := registry s; pricingOracle := o; ethRateOracle := ethRateOracle s |}.

Definition with_rates (o : oracle) (s : EstimationState) : EstimationState :=
  {| estimateCache := estimateCache s; registry := registry s; pricingOracle := pricingOracle s; ethRateOracle := o |}.

(** The readings of the clock, and the feeds at the two conversions. *)
Record moments : Type := {
  at_start : Z;
  at_pricing : Z;
  at_convert : Z;
  at_rate : Z;
  at_store : Z;
  feeds_convert : result KrakenResponse * option (result Z) * N;
  feeds_rate : result KrakenResponse * option (result Z) * N;
}.

Definition rate_at (f : result KrakenResponse * option (result Z) * N) (now : Z) (s : oracle) : oracle * result number :=
  getEthUsdRate f.1.1 f.1.2 f.2 now s.

Definition convert_at (f : result KrakenResponse * option (result Z) * N) (usd : number) (now : Z) (s : oracle) : oracle * result Z :=
  usdToWei f.1.1 f.1.2 f.2 usd now s.

(** [wei * 120n / 100n]. *)
Definition with_margin (wei : Z) : Z := Z.quot (wei * 120) 100.

Definition build_estimate (request : CostEstimateRequestDto) (e : CostEstimate) (pricing : PricingModel)
  (wei : Z) (ethRate : number) (now : Z) : CostEstimateResponseDto :=
  {| re_provider := er_provider request; re_endpoint := er_endpoint request;
     re_estimatedCostUSD := estimatedCostUSD e;
     estimatedCostWei := toString wei; recommendedDepositWei := toString (with_margin wei);
     baseCostUSD := estimatedCostUSD e; safetyMarginUSD := nmul (estimatedCostUSD e) (decimal 2 (-1));
     currentEthRateUSD := ethRate; re_confidence := Providers.confidence e;
     pricingModel := pricingType pricing; timestamp := now |}.

(** After a miss. *)
Definition fresh_estimate (t : moments) (request : CostEstimateRequestDto) (s : EstimationState)
  : EstimationState * result CostEstimateResponseDto :=
  match (let* provider := get (er_provider request) (registry s) in provider_estimate provider (estimate_request request)) with
  | Throw e => (s, Throw e)
  | Ok providerEstimate =>
      let '(o, pricing) := getPricing (er_provider request) (er_endpoint request) (at_pricing t) (pricingOracle s) in
      let s := with_pricing o s in
      match pricing with
      | Throw e => (s, Throw e)
      | Ok pricing =>
          let '(rates, wei) := convert_at (feeds_convert t) (estimatedCostUSD providerEstimate) (at_convert t) (ethRateOracle s) in
          let s := with_rates rates s in
          match wei with
          | Throw e => (s, Throw e)
          | Ok wei =>
              let '(rates, ethRate) := rate_at (feeds_rate t) (at_rate t) (ethRateOracle s) in
              let s := with_rates rates s in
              match ethRate with
              | Throw e => (s, Throw e)
              | Ok ethRate =>
                  let estimate := build_estimate request providerEstimate pricing wei ethRate (at_store t) in
                  (with_cache (cacheEstimate (getCacheKey request) estimate (at_store t) (estimateCache s)) s, Ok estimate)
              end
          end
      end
  end.

Definition estimateCost (t : moments) (request : CostEstimateRequestDto) (s : EstimationState)
  : EstimationState * result CostEstimateResponseDto :=
  match cache_get (getCacheKey request) (estimateCache s) with
  | Some (estimate, expiry) => if at_start t <? expiry then (s, Ok estimate) else fresh_estimate t request s
  | None => fresh_estimate t request s
  end.

(** ** The cache *)

Fixpoint expired_prefix (now : Z) (l : list entry) : nat :=
  match l with
  | [] => 0
  | e :: l' => if now <? expiry e then 0 else S (expired_prefix now l')
  end.

(** In the order of expiry, an eviction drops the expired entries, and then the oldest
    ones while 1000 are left: nothing else. *)
Lemma evict_drop now l : StronglySorted (fun a b => expiry a <= expiry b) l →
  evict now l = drop (expired_prefix now l `max` (length l - 999)) l.
Proof.
  induction l as [|e l IH]; intros Hs; [done|]. inversion_clear Hs as [|? ? Hs' He].
  cbn [evict expired_prefix]. destruct (Z.ltb_spec now (expiry e)) as [Hlt|Hge]; cbn [andb length].
  - destruct (Nat.ltb_spec (S (length l)) MAX_CACHE_ENTRIES) as [Hn|Hn].
    + by replace (0 `max` (S (length l) - 999))%nat with 0%nat by (unfold MAX_CACHE_ENTRIES in Hn; lia).
    + rewrite IH by done. unfold MAX_CACHE_ENTRIES in Hn.
      assert (expired_prefix now l = 0%nat) as ->.
      { destruct l as [|e' l']; [done|]. simpl. inversion_clear He. destruct (Z.ltb_spec now (expiry e')); [done|lia]. }
      by replace (0 `max` (S (length l) - 999))%nat with (S (0 `max` (length l - 999))) by lia.
  - rewrite IH by done.
    by replace (S (expired_prefix now l) `max` (S (length l) - 999))%nat
      with (S (expired_prefix now l `max` (length l - 999))) by lia.
Qed.

Definition in_expiry_order (l : list entry) : Prop := StronglySorted (λ a b, expiry a <= expiry b) l.

(** The invariant of the cache at a time [now] that every entry was stored before. *)
Record cache_ok (now : Z) (l : list entry) : Prop := {
  co_size : (length l <= MAX_CACHE_ENTRIES)%nat;
  co_keys : NoDup (map fst l);
  co_order : in_expiry_order l;
  co_past : Forall (λ e, expiry e <= now + CACHE_TTL_MS) l;
}.

Lemma cache_delete_ok now key l : cache_ok now l → cache_ok now (cache_delete key l).
Proof.
  unfold cache_delete. intros [Hn Hk Ho Hp]. split.
  - etransitivity; [apply filter_length_le|done].
  - clear -Hk. induction l as [|e l IH]; [done|]. simpl in *. inversion_clear Hk as [|? ? Hni Hk'].
    destruct (negb _); simpl; [|by apply IH]. constructor; [|by apply IH].
    rewrite list_elem_of_fmap in Hni |- *. intros (e' & ? & Hin). apply Hni. exists e'. split; [done|].
    apply list_elem_of_In, filter_In in Hin as [Hin _]. by apply list_elem_of_In.
  - clear -Ho. induction Ho as [|e l Ho IH He]; simpl; [constructor|].
    destruct (negb _); [|done]. constructor; [done|]. rewrite Forall_forall in He |- *. intros x Hx. apply He.
    apply list_elem_of_In, filter_In in Hx as [Hx _]. by apply list_elem_of_In.
  - rewrite Forall_forall in Hp |- *. intros x Hx. apply Hp.
    apply list_elem_of_In, filter_In in Hx as [Hx _]. by apply list_elem_of_In.
Qed.

Lemma StronglySorted_drop {A} (R : A → A → Prop) n l : StronglySorted R l → StronglySorted R (drop n l).
Proof. revert l. induction n as [|n IH]; intros [|a l] H; try done. inversion_clear H. by apply IH. Qed.

Lemma StronglySorted_snoc {A} (R : A → A → Prop) l x :
  StronglySorted R l → Forall (λ a, R a x) l → StronglySorted R (l ++ [x]).
Proof.
  induction 1 as [|a l Hl IH Ha]; intros Hx; simpl; [by repeat constructor|].
  inversion_clear Hx. constructor; [by apply IH|]. apply Forall_app. split; [done|by repeat constructor].
Qed.

Lemma evict_short now l : (length (evict now l) < MAX_CACHE_ENTRIES)%nat.
Proof.
  induction l as [|e l IH]; simpl; [unfold MAX_CACHE_ENTRIES; lia|].
  destruct (_ && _) eqn:E; [|done]. apply andb_true_iff in E as [_ E%Nat.ltb_lt]. exact E.
Qed.

Lemma cache_delete_gone key l : key ∉ map fst (cache_delete key l).
Proof.
  rewrite list_elem_of_fmap. intros (e & -> & Hin). apply list_elem_of_In, filter_In in Hin as [_ H].
  by rewrite bool_decide_eq_true_2 in H.
Qed.

Lemma cacheEstimate_ok now now' key estimate l : now <= now' → cache_ok now l →
  cache_ok now' (cacheEstimate key estimate now' l).
Proof.
  intros Hle H. apply (cache_delete_ok _ key) in H as [Hn Hk Ho Hp]. unfold cacheEstimate.
  pose proof (evict_short now' (cache_delete key l)) as Hs. pose proof (cache_delete_gone key l) as Hg.
  rewrite evict_drop in * by done. set (n := (_ `max` _)%nat) in *.
  assert (∀ P, Forall P (cache_delete key l) → Forall P (drop n (cache_delete key l))) as Hd by (intros; by apply Forall_drop).
  split.
  - rewrite length_app. simpl. lia.
  - rewrite map_app, <- skipn_map. simpl. apply NoDup_app. split_and!.
    + rewrite <- (take_drop n (map fst _)) in Hk. by apply NoDup_app in Hk as (_ & _ & ?).
    + intros k Hin [->|[]%elem_of_nil]%elem_of_cons. apply Hg.
      rewrite <- (take_drop n (map fst _)). apply elem_of_app. by right.
    + apply NoDup_singleton.
  - apply StronglySorted_snoc; [by apply StronglySorted_drop|]. apply Hd.
    eapply Forall_impl; [exact Hp|]. unfold expiry. simpl. lia.
  - apply Forall_app. split; [apply Hd; eapply Forall_impl; [exact Hp|]; simpl; lia|].
    constructor; [unfold expiry; simpl; lia|constructor].
Qed.

(** ** Sequences of estimates *)

#[local] Abbreviation call := (moments * CostEstimateRequestDto)%type.

Definition run_calls (l : list call) (s : EstimationState) : EstimationState :=
  fold_left (fun s c => fst (estimateCost c.1 c.2 s)) l s.

Fixpoint timed (now : Z) (l : list call) : Prop :=
  match l with
  | [] => True
  | (t, _) :: l' => now <= at_store t ∧ timed (at_store t) l'
  end.

(** The last instant something was stored at. *)
Definition end_time (now : Z) (l : list call) : Z := default now (at_store <$> (fst <$> last l)).

Lemma fresh_estimate_cases t request s s' r : fresh_estimate t request s = (s', r) →
  (∃ e, r = Ok e ∧ timestamp e = at_store t ∧ re_provider e = er_provider request ∧ re_endpoint e = er_endpoint request
     ∧ estimateCache s' = cacheEstimate (getCacheKey request) e (at_store t) (estimateCache s))
  ∨ (is_ok r = false ∧ estimateCache s' = estimateCache s).
Proof.
  unfold fresh_estimate. intros H.
  destruct (let* provider := _ in _) as [e|]; [|injection H as <- <-; by right].
  destruct (getPricing _ _ _ _) as [o [p|]]; [|injection H as <- <-; by right].
  destruct (convert_at _ _ _ _) as [o1 [w|]]; [|injection H as <- <-; by right].
  destruct (rate_at _ _ _) as [o2 [x|]]; [|injection H as <- <-; by right].
  injection H as <- <-. left. by eexists.
Qed.

Definition stamped (l : list entry) : Prop := Forall (λ e, expiry e = timestamp e.2.1 + CACHE_TTL_MS) l.

Lemma cacheEstimate_stamped key e l : stamped l → stamped (cacheEstimate key e (timestamp e) l).
Proof.
  intros H. unfold cacheEstimate. apply Forall_app. split; [|by repeat constructor].
  assert (stamped (cache_delete key l)) as Hd.
  { unfold stamped in *. rewrite Forall_forall in H |- *. intros x Hx. apply H.
    apply list_elem_of_In, filter_In in Hx as [Hx _]. by apply list_elem_of_In. }
  induction Hd as [|a l' Ha Hl IH]; simpl; [constructor|]. destruct (_ && _); [by constructor|done].
Qed.

Lemma run_calls_ok l now s : timed now l → cache_ok now (estimateCache s) → stamped (estimateCache s) →
  cache_ok (end_time now l) (estimateCache (run_calls l s)) ∧ stamped (estimateCache (run_calls l s)).
Proof.
  revert now s. induction l as [|[t request] l IH]; intros now s Ht Hc Hs; [done|]. destruct Ht as [Hle Ht].
  assert (end_time now ((t, request) :: l) = end_time (at_store t) l) as ->.
  { unfold end_time. rewrite last_cons. by destruct (last l). }
  assert (∀ now', now <= now' → cache_ok now' (estimateCache s)) as Hlater.
  { intros now' ?. destruct Hc as [? ? ? Hp]. split; [done..|]. eapply Forall_impl; [exact Hp|]. simpl. lia. }
  simpl. unfold estimateCost.
  assert (∀ s', fst (fresh_estimate t request s) = s' →
    cache_ok (end_time (at_store t) l) (estimateCache (run_calls l s')) ∧ stamped (estimateCache (run_calls l s'))) as Hfresh.
  { intros s' <-. destruct (fresh_estimate t request s) as [s' r] eqn:E.
    apply fresh_estimate_cases in E as [(e & _ & Hstamp & _ & _ & E)|[_ E]]; apply IH; simpl; try done; rewrite E.
    - by apply (cacheEstimate_ok now).
    - rewrite <- Hstamp. by apply cacheEstimate_stamped.
    - by apply Hlater.
    - done. }
  destruct (cache_get _ _) as [[e exp]|]; [|by apply Hfresh].
  destruct (_ <? _); [|by apply Hfresh]. apply IH; [done|by apply Hlater|done].
Qed.

(** The cache never holds more than 1000 estimates, one per key, and what is answered
    was computed less than five minutes before; from any sequence of requests. *)
Theorem estimates_are_recent l t request s e :
  timed 0 l → estimateCache s = [] → at_start t <= at_store t →
  let s1 := run_calls l s in
  snd (estimateCost t request s1) = Ok e →
  (length (estimateCache s1) <= MAX_CACHE_ENTRIES)%nat ∧ NoDup (map fst (estimateCache s1))
  ∧ at_start t < timestamp e + CACHE_TTL_MS.
Proof.
  intros Ht Hs Hle s1. destruct (run_calls_ok l 0 s Ht) as [Hc Hst].
  { rewrite Hs. split; simpl; [lia|constructor..]. }
  { rewrite Hs. constructor. }
  fold s1 in Hc, Hst. unfold estimateCost.
  assert (snd (fresh_estimate t request s1) = Ok e → at_start t < timestamp e + CACHE_TTL_MS) as Hfresh.
  { destruct (fresh_estimate t request s1) as [s' r] eqn:E. simpl. intros ->.
    apply fresh_estimate_cases in E as [(e' & [= ->] & -> & _)|[? _]]; [|done]. unfold CACHE_TTL_MS. lia. }
  intros H. split_and!; [apply Hc|apply Hc|].
  unfold cache_get in H. destruct (List.find _ _) as [[k [e' exp]]|] eqn:Ef; simpl in H; [|by apply Hfresh].
  destruct (Z.ltb_spec (at_start t) exp); [|by apply Hfresh]. injection H as ->.
  apply find_some in Ef as [Hin _]. unfold stamped in Hst. rewrite Forall_forall in Hst.
  apply list_elem_of_In, Hst in Hin. unfold expiry in Hin. simpl in Hin. lia.
Qed.

(** ** The deposit recommended *)

(** For a cost that is not negative, the deposit is the cost and a fifth of it, rounded
    down to a wei. *)
Theorem margin_is_a_fifth wei : 0 <= wei →
  100 * with_margin wei <= 120 * wei < 100 * (with_margin wei + 1) ∧ wei <= with_margin wei.
Proof.
  intros H. unfold with_margin. rewrite Z.quot_div_nonneg by lia.
  pose proof (Z_div_mod_eq_full (wei * 120) 100). pose proof (Z.mod_pos_bound (wei * 120) 100). lia.
Qed.

(** ** The server after a start on an empty database *)

Definition kraken_answer (price : string) : result KrakenResponse * option (result Z) * N :=
  (Ok {| kr_ok := true; kr_body := Ok (Some [], Some price) |}, None, 0%N).

Definition moments_at (now : Z) : moments :=
  {| at_start := now; at_pricing := now; at_convert := now; at_rate := now; at_store := now;
     feeds_convert := kraken_answer "2000.0"; feeds_rate := kraken_answer "2000.0" |}.

Definition boot (now : Z) (h : result ProviderHealth) : EstimationState :=
  let '(providers, oracle, _) := register (claude_provider h) now [] (new_pricing_oracle empty_db) in
  {| estimateCache := []; registry := providers; pricingOracle := oracle; ethRateOracle := initial_oracle |}.

Definition a_request (ep : option string) (metadata : jsv) : CostEstimateRequestDto :=
  {| er_provider := "claude"; er_endpoint := ep; estimatedUnits := num 1000; unitType := None; er_metadata := metadata |}.

Lemma boot_unpriced now h t : now <= t →
  repo_getPricing "claude" None t (pricingRepository (pricingOracle (boot now h))) = None
  ∧ pricingCache (pricingOracle (boot now h)) = ∅.
Proof.
  intros Hle.
  pose proof (registration_represents now ∅ now (seeded (match getPricingConfig DEFAULT_CLAUDE_MODEL with Ok m => m | Throw _ => flat_rate "" None 0 0 end) now)
    "system" ("Auto-seeded from provider " +:+ id (claude_provider h) +:+ " v" +:+ version (claude_provider h))
    (new_pricing_oracle empty_db) (Z.le_refl now)) as H.
  unfold boot, register, seedProviderPricing. cbn [pricing_config claude_provider].
  destruct (getPricingConfig DEFAULT_CLAUDE_MODEL) as [m|] eqn:Em; [|by vm_compute in Em].
  assert (registration now (seeded m now)) as Hreg.
  { apply (f_equal (fun r => match r with Ok m => m | Throw _ => flat_rate "" None 0 0 end)) in Em.
    rewrite <- Em. unfold registration. split_and!; try done. unfold validatePricingModel. simpl. by rewrite Z.ltb_irrefl. }
  specialize (H Hreg (represents_empty now)).
  destruct (updatePricing _ _ _ now _) as [oracle r] eqn:Eu. destruct H as [_ H]. simpl. split.
  - rewrite (repo_getPricing_book now _ _ t) by done. unfold book_pricing, book_update. simpl.
    apply (f_equal (fun r => match r with Ok m => m | Throw _ => flat_rate "" None 0 0 end)) in Em.
    rewrite lookup_insert_ne; [done|]. rewrite <- Em. done.
  - unfold updatePricing in Eu. destruct (validatePricingModel _ _); [|by injection Eu as <- _].
    destruct (upsertPricing _ _ _) as [db [|]]; injection Eu as <- _; simpl; [apply delete_empty|done].
Qed.

(** An estimate that names no endpoint, which the DTO allows, is never given: Claude is
    priced for its messages endpoint only, and the lookup of a price without one is a 404. *)
Theorem estimate_without_endpoint_is_refused now h t metadata : now <= at_pricing t →
  is_ok (snd (estimateCost t (a_request None metadata) (boot now h))) = false.
Proof.
  intros Hle. destruct (boot_unpriced now h _ Hle) as [Hr Hc].
  assert (estimateCache (boot now h) = []) as Hn by (unfold boot; by destruct (register _ _ _ _) as [[? ?] ?]).
  revert Hr Hc Hn. generalize (boot now h). intros s Hr Hc Hn.
  unfold estimateCost. rewrite Hn. unfold cache_get. cbn [List.find fmap option_fmap option_map].
  unfold fresh_estimate. destruct (let* provider := _ in _) as [e|]; [|done].
  unfold getPricing. rewrite Hc, lookup_empty. cbn [er_provider er_endpoint a_request]. by rewrite Hr.
Qed.

Definition model_metadata (model : string) (maxTokens : Z) : jsv :=
  Some (JObj [(code_units "model", JStr (code_units model)); (code_units "maxTokens", JNum (num maxTokens))]).

Definition messages_request : jsv -> CostEstimateRequestDto := a_request (Some "/v1/messages"%string).

(** The metadata an estimate depends on is not in the key of the cache: after an estimate
    for the cheapest model, one for the dearest gets the same answer, ten times too low. *)
Theorem cache_ignores_metadata :
  let s := boot 0 (Throw (Error "")) in
  let haiku := messages_request (model_metadata "claude-haiku-4-5" 8000) in
  let fable := messages_request (model_metadata "claude-fable-5-1" 8000) in
  let s1 := fst (estimateCost (moments_at 10) haiku s) in
  rmap recommendedDepositWei (snd (estimateCost (moments_at 10) haiku s)) = Ok "24000000000000"%string
  ∧ rmap recommendedDepositWei (snd (estimateCost (moments_at 20) fable s)) = Ok "240000000000000"%string
  ∧ rmap recommendedDepositWei (snd (estimateCost (moments_at 20) fable s1)) = Ok "24000000000000"%string.
Proof. vm_compute. by split_and!. Qed.

(** Nothing checks the metadata: a negative [maxTokens] recommends a negative deposit. *)
Theorem deposit_can_be_negative :
  rmap recommendedDepositWei
    (snd (estimateCost (moments_at 10) (messages_request (model_metadata "claude-haiku-4-5" (-8000))) (boot 0 (Throw (Error "")))))
  = Ok "-24000000000000"%string.
Proof. by vm_compute. Qed.
