(* ===== verification/Encryption.v ===== *)
(** * ML-KEM encryption

    [src/encryption/mlkem-encryption.service.ts], over the key manager of
    [Attestation.v]. ML-KEM, AES-256-GCM, base64 and the random values are
    parameters; texts are code units and pass through UTF-8. *)

From Stdlib Require Import Ascii String.
From S2P Require Import Prelude JsText Utf8 RefundSigner Profile Keys Attestation.
Open Scope Z_scope.

Record RecipientEntry : Type := { re_publicKey : string; re_ciphertext : string }.

Record MultiRecipientEncryptedPayload : Type := {
  recipients : list RecipientEntry;
  mr_encryptedData : string;
  mr_iv : string;
  mr_authTag : string;
}.

Record EncryptedPayload : Type := {
  ep_ciphertext : string;
  ep_encryptedData : string;
  ep_iv : string;
  ep_authTag : string;
}.

(** The ciphers: [mlkem.encap] with its randomness; AES-256-GCM, which rejects keys,
    vectors and tags of a wrong size, and whose reader rejects a wrong tag. *)
Record Ciphers : Type := {
  encap : list byte -> list byte -> result (list byte * list byte);
  gcm_seal : list byte -> list byte -> list byte -> result (list byte * list byte);
  gcm_open : list byte -> list byte -> list byte -> list byte -> result (list byte);
}.

Definition KEM_CIPHERTEXT_LENGTH : nat := 1568.

Definition byte_or_zero (l : list byte) (i : nat) : Z := default 0 (byteZ <$> l !! i).

(** [aesKey[i] = encryptedAesKey[i] ^ kek[i]]: a missing byte counts as zero. *)
Definition xor_key (encrypted kek : list byte) : list byte :=
  map (fun i => byte_of (Z.lxor (byte_or_zero encrypted i) (byte_or_zero kek i))) (seq 0 32).

Definition not_initialized : exn := Error "ML-KEM encryption not initialized".

Section Service.
Context (e : env) (from_base64 : string -> list byte) (to_base64 : list byte -> string).
Context (crypto : Crypto) (c : Ciphers).
Context (keys : KeyDerivationService) (km : TeeKeyManagerService).

Definition getPublicKey : option string := to_base64 <$> getPublicKeyBytes km.

Definition isAvailable : bool := km_isAvailable km.

Definition in_test : bool := bool_decide (e !! "NODE_ENV"%string = Some "test"%string).

(** The [catch]: the cause is only shown in tests. *)
Definition guarded {A} (message : string) (r : result A) : result A :=
  match r with
  | Ok a => Ok a
  | Throw err => if in_test then Throw err else Throw (Error message)
  end.

Definition find_recipient (server : string) (l : list RecipientEntry) : option RecipientEntry :=
  List.find (fun r => bool_decide (re_publicKey r = server)) l.

(** Splitting the combined ciphertext, and the AES key inside. *)
Definition recover_key (combined : list byte) : result (list byte) :=
  if negb (length combined =? KEM_CIPHERTEXT_LENGTH + 32)%nat then Throw (Error "Invalid combined ciphertext size")
  else
    let* shared := km_decapsulate crypto keys (take KEM_CIPHERTEXT_LENGTH combined) km in
    Ok (xor_key (drop KEM_CIPHERTEXT_LENGTH combined) (take 32 shared)).

Definition decryptMultiRecipient (payload : MultiRecipientEncryptedPayload) : result (list Z) :=
  match getPublicKeyBytes km with
  | Some publicKey =>
      if km_isAvailable km then
        guarded "Failed to decrypt multi-recipient data"
          (let* entry := of_option (Error "Server public key not found in recipients list")
                           (find_recipient (to_base64 publicKey) (recipients payload)) in
           let* aesKey := recover_key (from_base64 (re_ciphertext entry)) in
           let* plain := gcm_open c aesKey (from_base64 (mr_iv payload)) (from_base64 (mr_encryptedData payload))
                           (from_base64 (mr_authTag payload)) in
           Ok (from_utf8 plain))
      else Throw not_initialized
  | None => Throw not_initialized
  end.

Definition decrypt (payload : EncryptedPayload) : result (list Z) :=
  if negb (km_isAvailable km) then Throw not_initialized
  else
    guarded "Failed to decrypt data"
      (let ciphertext := from_base64 (ep_ciphertext payload) in
       if negb (length ciphertext =? KEM_CIPHERTEXT_LENGTH)%nat then Throw (Error "Invalid ML-KEM ciphertext size")
       else
         let* shared := km_decapsulate crypto keys ciphertext km in
         let* plain := gcm_open c shared (from_base64 (ep_iv payload)) (from_base64 (ep_encryptedData payload))
                         (from_base64 (ep_authTag payload)) in
         Ok (from_utf8 plain)).

(** [randomness] and [iv] are the random values drawn. *)
Definition encrypt (plaintext : list Z) (randomness iv : list byte) : result EncryptedPayload :=
  match getPublicKeyBytes km with
  | Some publicKey =>
      if km_mlkem km then
        match (let* kem := encap c publicKey randomness in
               let* sealed := gcm_seal c kem.2 iv (utf8 plaintext) in
               Ok {| ep_ciphertext := to_base64 kem.1; ep_encryptedData := to_base64 sealed.1;
                     ep_iv := to_base64 iv; ep_authTag := to_base64 sealed.2 |}) with
        | Ok p => Ok p
        | Throw _ => Throw (Error "Failed to encrypt data")
        end
      else Throw not_initialized
  | None => Throw not_initialized
  end.
End Service.

(** ** Round trips *)

(** What the ciphers promise of the key pair of one seed. *)
Record ciphers_ok (from_base64 : string -> list byte) (to_base64 : list byte -> string) (crypto : Crypto) (c : Ciphers)
  (seed : list byte) : Prop := {
  base64_reads : ∀ b, from_base64 (to_base64 b) = b;
  kem_agrees : ∀ r ct shared, encap c (deriveKeyPair crypto seed).1 r = Ok (ct, shared) →
    decap crypto ct (deriveKeyPair crypto seed).2 = Ok shared ∧ length ct = KEM_CIPHERTEXT_LENGTH ∧ length shared = 32%nat;
  gcm_reads : ∀ key iv p ct tag, gcm_seal c key iv p = Ok (ct, tag) → gcm_open c key iv ct tag = Ok p;
}.

(** The key manager of a service that derived its keys. *)
Definition derived_manager (keys : KeyDerivationService) : TeeKeyManagerService :=
  {| km_mlkem := true; km_publicKey := getMlKemPublicKey keys; envPrivateKey := None; km_derived := true |}.

Lemma derived_manager_init from_base64 config keys k : getMlKemPublicKey keys = Some k →
  km_onModuleInit config from_base64 keys new_key_manager = Ok (derived_manager keys).
Proof. intros H. unfold km_onModuleInit, derived_manager. by rewrite H. Qed.

Section RoundTrips.
Context (e : env) (from_base64 : string -> list byte) (to_base64 : list byte -> string).
Context (crypto : Crypto) (c : Ciphers) (keys : KeyDerivationService) (seed : list byte).
Context (Hlaws : ciphers_ok from_base64 to_base64 crypto c seed).
Context (Hkeys : mlkemPair keys = Some (deriveKeyPair crypto seed)).

Let km := derived_manager keys.

Lemma manager_key : getPublicKeyBytes km = Some (deriveKeyPair crypto seed).1.
Proof. unfold km, getPublicKeyBytes, derived_manager, getMlKemPublicKey. simpl. by rewrite Hkeys. Qed.

Lemma manager_decapsulates r ct shared : encap c (deriveKeyPair crypto seed).1 r = Ok (ct, shared) →
  km_decapsulate crypto keys ct km = Ok shared ∧ length ct = KEM_CIPHERTEXT_LENGTH ∧ length shared = 32%nat.
Proof.
  intros H. apply (kem_agrees _ _ _ _ _ Hlaws) in H as (Hd & ? & ?). split; [|done].
  unfold km_decapsulate, km, derived_manager, decapsulate. simpl. rewrite Hkeys.
  by destruct (deriveKeyPair crypto seed).
Qed.

(** What was encrypted for the server is decrypted to the same text, its lone
    surrogates replaced. *)
Lemma encrypt_decrypt plaintext randomness iv p : Forall code_unit plaintext →
  encrypt to_base64 c km plaintext randomness iv = Ok p →
  decrypt e from_base64 crypto c keys km p = Ok (toWellFormed plaintext).
Proof.
  intros Hp. unfold encrypt, decrypt. rewrite manager_key. simpl.
  destruct (encap c _ randomness) as [[ct shared]|] eqn:Ek; [|done]. simpl.
  destruct (gcm_seal c shared iv _) as [[data tag]|] eqn:Es; [|done]. simpl. intros [= <-]. simpl.
  destruct (manager_decapsulates _ _ _ Ek) as (Hd & Hc & _).
  rewrite !(base64_reads _ _ _ _ _ Hlaws), Hc. simpl. rewrite Hd. simpl.
  rewrite (gcm_reads _ _ _ _ _ Hlaws _ _ _ _ _ Es). simpl. by rewrite (from_utf8_utf8 _ Hp).
Qed.

(** A payload in the format clients send: some entry is the server's, with the AES key
    masked by the secret encapsulated to the server. *)
Record addressed (payload : MultiRecipientEncryptedPayload) (aesKey : list byte) (plaintext : list Z) : Prop := {
  ad_entry : ∃ others rest entry r ct shared,
    recipients payload = others ++ entry :: rest
    ∧ Forall (λ x, re_publicKey x ≠ to_base64 (deriveKeyPair crypto seed).1) others
    ∧ re_publicKey entry = to_base64 (deriveKeyPair crypto seed).1
    ∧ encap c (deriveKeyPair crypto seed).1 r = Ok (ct, shared)
    ∧ re_ciphertext entry = to_base64 (ct ++ xor_key aesKey shared);
  ad_data : ∃ iv data tag, gcm_seal c aesKey iv (utf8 plaintext) = Ok (data, tag)
    ∧ mr_iv payload = to_base64 iv ∧ mr_encryptedData payload = to_base64 data ∧ mr_authTag payload = to_base64 tag;
}.

Lemma xor_key_length a b : length (xor_key a b) = 32%nat.
Proof. unfold xor_key. by rewrite length_map, length_seq. Qed.

Lemma xor_key_twice a b : length a = 32%nat → xor_key (xor_key a b) b = a.
Proof.
  intros Ha. apply list_eq. intros i. unfold xor_key at 1. rewrite list_lookup_fmap.
  destruct (decide (i < 32)%nat) as [Hi|Hi].
  - rewrite lookup_seq_lt by done. simpl.
    destruct (lookup_lt_is_Some_2 a i) as [x Hx]; [lia|]. rewrite Hx. f_equal.
    assert (xor_key a b !! i = Some (byte_of (Z.lxor (byteZ x) (byte_or_zero b i)))) as E.
    { unfold xor_key. rewrite list_lookup_fmap, lookup_seq_lt by done. simpl. unfold byte_or_zero at 1. by rewrite Hx. }
    unfold byte_or_zero at 1. rewrite E. simpl.
    assert (0 <= byte_or_zero b i < 256) as Hb.
    { unfold byte_or_zero. destruct (b !! i); simpl; [apply byteZ_range|lia]. }
    pose proof (byteZ_range x) as Hx'.
    assert (0 <= Z.lxor (byteZ x) (byte_or_zero b i) < 256) as Hl.
    { split; [by apply Z.lxor_nonneg; lia|].
      destruct (Z.eq_dec (Z.lxor (byteZ x) (byte_or_zero b i)) 0) as [->|]; [lia|].
      change 256 with (2 ^ 8). apply Z.log2_lt_pow2.
      - pose proof (proj2 (Z.lxor_nonneg (byteZ x) (byte_or_zero b i))). lia.
      - eapply Z.le_lt_trans; [apply Z.log2_lxor; lia|].
        assert (∀ y, 0 <= y < 256 → Z.log2 y < 8) as Hlog.
        { intros y Hy. destruct (Z.eq_dec y 0) as [->|]; [done|]. apply Z.log2_lt_pow2; lia. }
        apply Z.max_lub_lt; apply Hlog; lia. }
    rewrite byteZ_byte_of, Z.mod_small by done.
    by rewrite Z.lxor_assoc, Z.lxor_nilpotent, Z.lxor_0_r, byte_of_byteZ.
  - rewrite lookup_seq_ge by lia. simpl. symmetry. apply lookup_ge_None_2. lia.
Qed.

Lemma find_recipient_entry server others entry rest :
  Forall (λ x, re_publicKey x ≠ server) others → re_publicKey entry = server →
  find_recipient server (others ++ entry :: rest) = Some entry.
Proof.
  intros Ho He. unfold find_recipient. induction Ho as [|x l Hx _ IH]; simpl.
  - by rewrite bool_decide_eq_true_2.
  - by rewrite bool_decide_eq_false_2.
Qed.

Lemma addressed_decrypted payload aesKey plaintext :
  addressed payload aesKey plaintext → length aesKey = 32%nat → Forall code_unit plaintext →
  decryptMultiRecipient e from_base64 to_base64 crypto c keys km payload = Ok (toWellFormed plaintext).
Proof.
  intros [(others & rest & entry & r & ct & shared & Hr & Ho & Hpk & Hk & Hct) (iv & data & tag & Hs & Hiv & Hdata & Htag)] Hlen Hp.
  destruct (manager_decapsulates _ _ _ Hk) as (Hd & Hc & Hsh).
  unfold decryptMultiRecipient. rewrite manager_key. simpl.
  rewrite Hr, find_recipient_entry by done. simpl. unfold recover_key.
  rewrite Hct, (base64_reads _ _ _ _ _ Hlaws), length_app, Hc, xor_key_length, Nat.eqb_refl. simpl.
  rewrite take_app_length', drop_app_length' by done. rewrite Hd. simpl.
  rewrite take_ge by lia. rewrite xor_key_twice by done.
  rewrite Hiv, Hdata, Htag, !(base64_reads _ _ _ _ _ Hlaws), (gcm_reads _ _ _ _ _ Hlaws _ _ _ _ _ Hs). simpl.
  by rewrite (from_utf8_utf8 _ Hp).
Qed.
End RoundTrips.

(** A payload addressed to the server is read by it. If some entry of the recipients is
    the first with the server's key, holds a ciphertext encapsulated to that key and the
    AES key masked with the shared secret, and the data were sealed under that AES key,
    then the server decrypts the text that was sent, lone surrogates replaced by U+FFFD,
    whatever the other recipients are; and what the service encrypts it decrypts. *)
Theorem addressed_payload_is_decrypted e from_base64 to_base64 crypto c keys seed payload aesKey plaintext :
  ciphers_ok from_base64 to_base64 crypto c seed → mlkemPair keys = Some (deriveKeyPair crypto seed) →
  addressed to_base64 crypto c seed payload aesKey plaintext → length aesKey = 32%nat → Forall code_unit plaintext →
  decryptMultiRecipient e from_base64 to_base64 crypto c keys (derived_manager keys) payload = Ok (toWellFormed plaintext)
  ∧ ∀ randomness iv p, encrypt to_base64 c (derived_manager keys) plaintext randomness iv = Ok p →
      decrypt e from_base64 crypto c keys (derived_manager keys) p = Ok (toWellFormed plaintext).
Proof.
  intros Hlaws Hkeys Ha Hlen Hp. split; [by eapply addressed_decrypted|].
  intros randomness iv p. by eapply encrypt_decrypt.
Qed.

(** Outside tests every failure of a decryption is the same error: whether the entry, the
    sizes, the key or the tag was wrong does not show. *)
Theorem decryption_errors_are_uniform e from_base64 to_base64 crypto c keys km p1 p2 e1 e2 :
  in_test e = false →
  decryptMultiRecipient e from_base64 to_base64 crypto c keys km p1 = Throw e1 →
  decryptMultiRecipient e from_base64 to_base64 crypto c keys km p2 = Throw e2 → e1 = e2.
Proof.
  unfold decryptMultiRecipient, guarded. intros ->. destruct (getPublicKeyBytes km); [|congruence].
  destruct (km_isAvailable km); [|congruence].
  destruct (let* entry := _ in _), (let* entry := of_option _ (find_recipient _ (recipients p2)) in _); congruence.
Qed.

(** *** A toy cipher *)

Definition toy_kem : Crypto :=
  {| hkdf := fun key _ _ _ => key; deriveKeyPair := fun seed => (seed, seed);
     decap := fun ct _ => Ok (take 32 ct);
     new_signing_key := fun _ => Throw (Error "unused"); computeAddress := fun _ => EmptyString;
     sign_typed := fun _ _ => EmptyString |}.

Definition toy_ciphers : Ciphers :=
  {| encap := fun _ r => if (length r =? KEM_CIPHERTEXT_LENGTH)%nat then Ok (r, take 32 r) else Throw (Error "size");
     gcm_seal := fun key _ p => Ok (p, key);
     gcm_open := fun key _ d tag => if bool_decide (key = tag) then Ok d else Throw (Error "tag") |}.

Lemma toy_ciphers_ok seed : ciphers_ok of_hex to_hex toy_kem toy_ciphers seed.
Proof.
  split.
  - exact of_hex_to_hex.
  - intros r ct shared. simpl. destruct (Nat.eqb_spec (length r) KEM_CIPHERTEXT_LENGTH) as [E|]; [|done].
    intros [= <- <-]. split_and!; [done|done|]. rewrite length_take, E. reflexivity.
  - intros key iv p ct tag. simpl. intros [= <- <-]. by rewrite bool_decide_eq_true_2.
Qed.

Definition toy_secret : list byte := repeat (byte_of 7) KEM_CIPHERTEXT_LENGTH.
Definition toy_aes : list byte := repeat (byte_of 9) 32.
Definition toy_text : list Z := [104; 105; 0xD83D; 0xDE00; 0xD800].

Definition toy_keys : KeyDerivationService :=
  {| mlkemPair := Some (deriveKeyPair toy_kem [byte_of 1]); refundSigner := None; identity := None;
     txSigner := None; appId := None; keyManifest := None |}.

Definition toy_payload : MultiRecipientEncryptedPayload :=
  {| recipients := [{| re_publicKey := "aa"; re_ciphertext := "" |};
                    {| re_publicKey := to_hex [byte_of 1];
                       re_ciphertext := to_hex (toy_secret ++ xor_key toy_aes (take 32 toy_secret)) |}];
     mr_encryptedData := to_hex (utf8 toy_text); mr_iv := ""; mr_authTag := to_hex toy_aes |}.

Lemma addressed_payload_is_decrypted_witness :
  decryptMultiRecipient ∅ of_hex to_hex toy_kem toy_ciphers toy_keys (derived_manager toy_keys) toy_payload
  = Ok [104; 105; 0xD83D; 0xDE00; 0xFFFD].
Proof.
  refine (proj1 (addressed_payload_is_decrypted ∅ of_hex to_hex toy_kem toy_ciphers toy_keys [byte_of 1]
    toy_payload toy_aes toy_text (toy_ciphers_ok _) eq_refl _ eq_refl _)).
  - split.
    + exists [{| re_publicKey := "aa"; re_ciphertext := "" |}], [],
        {| re_publicKey := to_hex [byte_of 1];
           re_ciphertext := to_hex (toy_secret ++ xor_key toy_aes (take 32 toy_secret)) |}, toy_secret, toy_secret, (take 32 toy_secret).
      split_and!; [reflexivity|repeat constructor; discriminate|reflexivity|reflexivity|reflexivity].
    + exists [], (utf8 toy_text), toy_aes. split_and!; reflexivity.
  - repeat constructor; unfold code_unit; lia.
Defined.
