(* ===== verification/Http.v ===== *)
(** * Around the handlers

    The layers a request goes through: [middleware/request-sanitizer.middleware.ts],
    [guards/request-fingerprint-throttler.guard.ts], the two interceptors of
    [interceptors/], [filters/tee-exception.filter.ts], [health/health.controller.ts]
    and [logging/sanitized-logger.ts], composed the way [app.module.ts] and [main.ts]
    install them. The throttler of NestJS that the guard extends, and the handler, are
    parameters. *)

From Stdlib Require Import Ascii String SpecFloat.
From S2P Require Import Prelude JsText JsNumber Json JsonText JsCoerce Profile Blockchain.
Open Scope Z_scope.

(** ** request-sanitizer.middleware.ts *)

Definition IDENTIFYING_HEADERS : list string :=
  ["user-agent"; "referer"; "referrer"; "origin"; "x-forwarded-for"; "x-real-ip"; "x-client-ip";
   "cf-connecting-ip"; "true-client-ip"; "x-forwarded-proto"; "x-forwarded-host"; "forwarded"; "via";
   "accept-language"; "accept-encoding"; "accept-charset"; "dnt"; "sec-ch-ua"; "sec-ch-ua-mobile";
   "sec-ch-ua-platform"; "sec-fetch-site"; "sec-fetch-mode"; "sec-fetch-dest"]%string.

(** A connection; [configurable] is whether its address may still be redefined. *)
Record Socket : Type := { remoteAddress : string; remotePort : Z; configurable : bool }.

(** Node gives header names in lower case. *)
Record Request : Type := {
  req_headers : list (string * string);
  ip : string;
  ips : list string;
  socket : option Socket;
  req_body : jsv;
}.

Definition anonymous_socket : Socket := {| remoteAddress := "0.0.0.0"; remotePort := 0; configurable := false |}.

Definition use (req : Request) : Request :=
  {| req_headers := List.filter (fun kv => negb (bool_decide (kv.1 ∈ IDENTIFYING_HEADERS))) (req_headers req);
     ip := "0.0.0.0"; ips := [];
     socket := (fun s => if configurable s then anonymous_socket else s) <$> socket req;
     req_body := req_body req |}.

(** ** request-fingerprint-throttler.guard.ts *)

Definition RATE_LIMIT_HEADERS : list string :=
  ["X-RateLimit-Limit"; "X-RateLimit-Remaining"; "X-RateLimit-Reset"; "Retry-After"; "X-Retry-After";
   "RateLimit-Limit"; "RateLimit-Remaining"; "RateLimit-Reset"]%string.

(** The headers of a response, whose names are read in any case. *)
Definition headers : Type := list (string * string).

Definition removeHeader (name : string) (h : headers) : headers :=
  List.filter (fun kv => negb (bool_decide (toLowerCase kv.1 = toLowerCase name))) h.

Definition setHeader (name value : string) (h : headers) : headers := removeHeader name h ++ [(name, value)].

Definition remove_all (names : list string) (h : headers) : headers := fold_left (fun h n => removeHeader n h) names h.

(** What is sent: the delay is the milliseconds waited and the random part added. *)
Record Response (A : Type) : Type := {
  status : Z;
  res_headers : headers;
  body : A + string;
  delay : option (Z * number);
}.
Arguments status {A}.
Arguments res_headers {A}.
Arguments body {A}.
Arguments delay {A}.

Section Layers.
Context (sha256 : list byte -> list byte).

(** [req.body || {}]. *)
Definition body_or_empty (body : jsv) : json :=
  match body with Some v => if js_truthy body then v else JObj [] | None => JObj [] end.

Definition getTracker (now : Z) (req : Request) : string :=
  to_hex (sha256 (utf8 (JSON_text (body_or_empty (req_body req)) ++ code_units (toString (now / 60000))))).

Definition throttled : exn := ThrottlerException "Request temporarily unavailable".

(** [canActivate]: [passes] is the answer of the guard of NestJS for the tracker, with the
    headers it sets; the headers are removed on every path. *)
Definition canActivate (passes : string -> headers -> headers * bool) (now : Z) (req : Request) (h : headers)
  : headers * result unit :=
  let '(h, ok) := passes (getTracker now req) h in
  (remove_all RATE_LIMIT_HEADERS h, if ok then Ok tt else Throw throttled).

(** ** The interceptors *)

Definition REVEALING_HEADERS : list string :=
  ["x-powered-by"; "x-request-id"; "x-correlation-id"; "x-response-time"; "x-runtime"; "x-transaction-id";
   "x-trace-id"; "x-span-id"; "server"; "etag"; "last-modified"; "via"; "x-cache"; "x-cache-hits";
   "x-served-by"; "x-timer"; "x-backend-server"; "x-varnish"; "age"; "cf-ray"; "cf-cache-status";
   "x-amz-cf-id"; "x-amz-cf-pop"; "x-azure-ref"]%string.

(** [tap]: run when the handler gives a value, not when it throws. *)
Definition sanitize_metadata {A} (r : result A) (h : headers) : headers :=
  match r with
  | Ok _ =>
      let h := remove_all REVEALING_HEADERS h in
      let h := setHeader "Cache-Control" "no-store, no-cache, must-revalidate, private" h in
      let h := setHeader "Pragma" "no-cache" h in
      let h := setHeader "Expires" "0" h in
      removeHeader "Vary" h
  | Throw _ => h
  end.

Definition MIN_RESPONSE_TIME (e : env) : Z := if bool_decide (e !! "NODE_ENV"%string = Some "test"%string) then 10 else 100.

(** The delay before the value is sent on, [mergeMap] being skipped on an error;
    [random] is [Math.random()]. *)
Definition timing_delay {A} (e : env) (elapsed : Z) (random : number) (r : result A) : option (Z * number) :=
  match r with
  | Ok _ => Some (Z.max 0 (MIN_RESPONSE_TIME e - elapsed), nmul random (num 20))
  | Throw _ => None
  end.

(** ** tee-exception.filter.ts *)

Definition exception_status (e : exn) : Z := match e with HttpException s _ => s | JsError _ _ => 500 end.

Definition catch (e : exn) : Z * string :=
  (exception_status e,
   if exception_status e =? 500 then "Internal server error"%string
   else match e with HttpException _ m => m | JsError _ _ => "Internal server error"%string end).

(** ** A request through all of them *)

(** The middleware, the guard, then the handler inside the interceptors, and the filter
    on what any of them throws. [h] are the headers set so far; the handler gives its
    result with the time it took and the headers it leaves. *)
Definition respond {A} (e : env) (passes : string -> headers -> headers * bool) (now : Z) (random : number)
  (handler : Request -> headers -> result A * Z * headers) (req : Request) (h : headers) : Response A :=
  let req := use req in
  let '(h, admitted) := canActivate passes now req h in
  match admitted with
  | Throw ex => {| status := (catch ex).1; res_headers := h; body := inr (catch ex).2; delay := None |}
  | Ok _ =>
      let '(r, elapsed, h) := handler req h in
      {| status := match r with Ok _ => 200 | Throw ex => (catch ex).1 end;
         res_headers := sanitize_metadata r h;
         body := match r with Ok a => inl a | Throw ex => inr (catch ex).2 end;
         delay := timing_delay e elapsed random r |}
  end.
End Layers.

(** ** health.controller.ts *)

(** A status with its timestamp. *)
Definition check (now : Z) : string * Z := ("ok"%string, now).
Definition live (now : Z) : string * Z := ("alive"%string, now).

Definition ready (e : env) (now : Z) (s : BlockchainService) : result (string * Z) :=
  let* prod := isProd e in
  if prod && negb (Blockchain.isAvailable s) then Throw (ServiceUnavailableException "LongjingCredits does not answer yet")
  else Ok ("ready"%string, now).

(** ** sanitized-logger.ts: the lines written *)

Definition SAFE_PREFIXES : list string :=
  ["NestFactory"; "InstanceLoader"; "RoutesResolver"; "RouterExplorer"; "NestApplication"]%string.

Definition isSafe (context : option string) : bool :=
  match context with Some c => existsb (startsWith c) SAFE_PREFIXES | None => false end.

Definition log_line (tag message : string) (context : option string) : list string :=
  if isSafe context then ["[" +:+ tag +:+ "] " +:+ default "undefined" context +:+ ": " +:+ message]%string else [].

Definition log (message : string) (context : option string) : list string := log_line "LOG" message context.

(** [message?.split('\n')[0]]; the trace is not read. *)
Definition log_error (message trace : string) (context : option string) : list string :=
  log_line "ERR" (default EmptyString (head (split "010"%char message))) context.

Definition log_warn (message : string) (context : option string) : list string := log_line "WARN" message context.
Definition log_debug : list string := [].
Definition log_verbose : list string := [].

(** ** Properties *)

Ltac by_computation :=
  match goal with |- ?P => refine (bool_decide_unpack P _); vm_compute; exact I end.

Definition same_name (a b : string) : Prop := toLowerCase a = toLowerCase b.

#[export] Instance same_name_dec a b : Decision (same_name a b).
Proof. unfold same_name. apply _. Defined.

Lemma In_removeHeader n h kv : In kv (removeHeader n h) ↔ In kv h ∧ ¬ same_name kv.1 n.
Proof. unfold removeHeader, same_name. by rewrite filter_In, negb_true_iff, bool_decide_eq_false. Qed.

Lemma In_remove_all names h kv : In kv (remove_all names h) ↔ In kv h ∧ Forall (λ n, ¬ same_name kv.1 n) names.
Proof.
  unfold remove_all. revert h. induction names as [|n names IH]; intros h; simpl.
  - split; [by intros ?; split|tauto].
  - rewrite IH, In_removeHeader, Forall_cons. tauto.
Qed.

Lemma In_setHeader n v h kv : In kv (setHeader n v h) ↔ (In kv h ∧ ¬ same_name kv.1 n) ∨ kv = (n, v).
Proof. unfold setHeader. rewrite in_app_iff, In_removeHeader. simpl. naive_solver. Qed.

Lemma In_sanitized {A} (a : A) h kv : In kv (sanitize_metadata (Ok a) h) →
  Forall (λ n, ¬ same_name kv.1 n) REVEALING_HEADERS ∧ ¬ same_name kv.1 "Vary"
  ∧ (same_name kv.1 "Cache-Control" → kv.2 = "no-store, no-cache, must-revalidate, private"%string).
Proof.
  unfold sanitize_metadata. rewrite In_removeHeader, !In_setHeader, In_remove_all.
  intros [[[[[[[[_ Hr] Hc]|E] _]|E] _]|E] Hv]; [by split_and!|subst..];
    (split_and!; [by_computation|assumption|]);
    [done|intros Hname; vm_compute in Hname; discriminate..].
Qed.

Lemma sanitized_sets {A} (a : A) h :
  In ("Cache-Control", "no-store, no-cache, must-revalidate, private")%string (sanitize_metadata (Ok a) h).
Proof.
  unfold sanitize_metadata. rewrite In_removeHeader, !In_setHeader.
  split; [|by_computation].
  left. split; [|by_computation].
  left. split; [by right|by_computation].
Qed.

(** What leaves the server when a handler succeeds: no header that reveals the stack or
    correlates requests, caching forbidden, and no answer sooner than the least time;
    when it fails with anything but an HTTP exception, only the generic message. *)
Theorem responses_reveal_nothing {A} sha256 e passes now random (handler : Request → headers → result A * Z * headers) req h :
  let r := respond sha256 e passes now random handler req h in
  (∀ a, body r = inl a →
     status r = 200 ∧ Forall (λ kv, Forall (λ n, ¬ same_name kv.1 n) REVEALING_HEADERS) (res_headers r)
     ∧ In ("Cache-Control", "no-store, no-cache, must-revalidate, private")%string (res_headers r)
     ∧ ∃ elapsed wait jitter, delay r = Some (wait, jitter) ∧ MIN_RESPONSE_TIME e <= elapsed + wait ∧ 0 <= wait
         ∧ snd (fst (handler (use req) (fst (canActivate sha256 passes now (use req) h)))) = elapsed)
  ∧ (status r = 500 → body r = inr "Internal server error"%string).
Proof.
  unfold respond. destruct (canActivate _ _ _ _ _) as [h' [[]|ex]]; cbn [status body res_headers delay fst snd].
  - destruct (handler (use req) h') as [[[a|ex] elapsed] h''] eqn:Eh; cbn [status body res_headers delay fst snd].
    + split; [|done]. intros a' [= <-]. split_and!; [done| |apply sanitized_sets|].
      * apply Forall_forall. intros kv Hin. apply list_elem_of_In in Hin. by apply In_sanitized in Hin as [? _].
      * eexists elapsed, _, _. split_and!; [reflexivity|generalize (MIN_RESPONSE_TIME e); lia|apply Z.le_max_l|done].
    + split; [done|]. unfold catch. cbn [fst snd]. intros ->. by rewrite Z.eqb_refl.
  - split; [done|]. unfold catch. cbn [fst snd]. intros ->. by rewrite Z.eqb_refl.
Qed.

(** The interceptors act on values only: a refusal keeps the headers as they are and is
    sent at once, so its time tells which check failed. *)
Theorem refusals_are_not_protected {A} sha256 e passes now random (handler : Request → headers → result A * Z * headers) req h :
  let r := respond sha256 e passes now random handler req h in
  (∀ m, body r = inr m → delay r = None)
  ∧ ∀ h1 ex elapsed h2, canActivate sha256 passes now (use req) h = (h1, Ok tt) →
      handler (use req) h1 = (Throw ex, elapsed, h2) → res_headers r = h2.
Proof.
  unfold respond. destruct (canActivate _ _ _ _ _) as [h' [[]|ex]]; cbn [status body res_headers delay fst snd].
  - destruct (handler (use req) h') as [[[a|ex] elapsed] h''] eqn:Eh; cbn [status body res_headers delay fst snd].
    + split; [done|]. intros h1 ex elapsed' h2 [= <-] E. by rewrite E in Eh.
    + split; [done|]. intros h1 ex' elapsed' h2 [= <-] E. rewrite E in Eh. by injection Eh.
  - split; [done|]. congruence.
Qed.

(** Requests without a body, such as every GET, share one tracker whoever sends them:
    they are throttled together. *)
Theorem bodyless_requests_share_a_tracker sha256 now now' req req' :
  req_body req = None → req_body req' = None → now / 60000 = now' / 60000 →
  getTracker sha256 now req = getTracker sha256 now' req'.
Proof. unfold getTracker. by intros -> -> ->. Qed.

(** The request a handler sees carries nothing of its sender but the body and headers
    that are not identifying. *)
Theorem use_anonymises req :
  ip (use req) = "0.0.0.0"%string ∧ ips (use req) = [] ∧ req_body (use req) = req_body req
  ∧ (∀ kv, In kv (req_headers (use req)) ↔ In kv (req_headers req) ∧ kv.1 ∉ IDENTIFYING_HEADERS)
  ∧ (∀ s, socket req = Some s → configurable s = true → socket (use req) = Some anonymous_socket)
  ∧ use (use req) = use req.
Proof.
  split_and!; try done.
  - intros kv. simpl. by rewrite filter_In, negb_true_iff, bool_decide_eq_false.
  - intros s E Hc. simpl. by rewrite E; simpl; rewrite Hc.
  - unfold use. simpl. f_equal.
    + induction (req_headers req) as [|kv l IH]; simpl; [done|].
      destruct (negb _) eqn:E; simpl; [by rewrite E, IH|done].
    + destruct (socket req) as [s|]; simpl; [|done]. by destruct (configurable s) eqn:E; simpl; rewrite ?E.
Qed.

(** In production the readiness probe fails exactly while the contract is not connected. *)
Theorem ready_iff e now s : isProd e = Ok true → is_ok (ready e now s) = Blockchain.isAvailable s.
Proof. unfold ready. intros ->. simpl. by destruct (Blockchain.isAvailable s). Qed.

(** The production logger writes nothing outside the framework's own contexts. *)
Theorem logger_is_silent context message trace : isSafe context = false →
  log message context = [] ∧ log_error message trace context = [] ∧ log_warn message context = [].
Proof. unfold log, log_error, log_warn, log_line. by intros ->. Qed.
