(* ===== verification/Startup.v ===== *)
(** * Starting the process

    [tls/tls-context.ts] and [tls/tee-tls.ts]: where the TLS key comes from and which leaf
    certificate the attestation binds; [config/secrets.service.ts]; and the bootstrap of
    [main.ts]. The X.509 parser, the file system, the dstack client, the KMS and the NestJS
    factory are parameters. *)

From Stdlib Require Import Ascii String.
From S2P Require Import Prelude JsText Json Profile Limiter ProofVerifier.
Open Scope Z_scope.

(** ** tls-context.ts *)

(** The module variable: the DER of the leaf this process serves, [null] at first. *)
Definition tls_context : Type := option (list byte).

Definition setTlsLeafCertificate (der : list byte) (ctx : tls_context) : tls_context := Some der.
Definition getTlsLeafCertificate (ctx : tls_context) : option (list byte) := ctx.
Definition clearTlsLeafCertificate (ctx : tls_context) : tls_context := None.

(** ** tee-tls.ts *)

Inductive TlsSource : Type := dev_file | file | dstack | external_proxy.

(** PEM text, as a string or as the bytes of a file. *)
Record HttpsOptions : Type := { https_key : string; https_cert : string }.

(** [httpsOptions] undefined is plain HTTP. *)
Record TlsMaterial : Type := { httpsOptions : option HttpsOptions; source : TlsSource }.

(** What [client.getTlsKey] resolves to. *)
Record TlsKeyResponse : Type := { tk_key : string; tk_certificate_chain : list string }.

Definition new_line : string := String (ascii_of_nat 10) EmptyString.

Definition env_is (e : env) (name value : string) : bool := bool_decide (e !! name = Some value).

(** A variable's text when it is set and not empty. *)
Definition env_text (e : env) (name : string) : option string :=
  if is_set e name then e !! name else None.

Section Tls.
(** [new X509Certificate(pem).raw]: the first certificate of the text. *)
Variable x509_raw : string -> result (list byte).
Variable readFileSync : string -> result string.
(** [new DstackClient()] throws without its socket; its [getTlsKey] takes the subject and
    the alternative names. *)
Variable DstackClient : result (string -> option (list string) -> result TlsKeyResponse).
Variable e : env.

Definition registerLeafCertificate (certPem : string) (ctx : tls_context) : tls_context * result (list byte) :=
  match x509_raw certPem with
  | Throw x => (ctx, Throw x)
  | Ok raw => (setTlsLeafCertificate raw ctx, Ok raw)
  end.

(** What is asked of dstack. *)
Definition tls_subject : string := default "longjing"%string (env_text e "TLS_CERT_SUBJECT").
Definition tls_alt_names : option (list string) :=
  (fun names => map trim (split ","%char names)) <$> env_text e "TLS_CERT_ALT_NAMES".

Definition loadFromDstack (ctx : tls_context) : tls_context * option TlsMaterial :=
  match DstackClient with
  | Throw _ => (ctx, None)
  | Ok getTlsKey =>
      match getTlsKey tls_subject tls_alt_names with
      | Throw _ => (ctx, None)
      | Ok r =>
          match str_len (tk_key r) =? 0, tk_certificate_chain r with
          | false, leaf :: rest =>
              match registerLeafCertificate leaf ctx with
              | (ctx, Throw _) => (ctx, None)
              | (ctx, Ok _) =>
                  (ctx, Some {| httpsOptions := Some {| https_key := tk_key r; https_cert := join new_line (leaf :: rest) |};
                                source := dstack |})
              end
          | _, _ => (ctx, None)
          end
      end
  end.

Definition loadFromFiles (keyPath certPath : string) (ctx : tls_context) : tls_context * result TlsMaterial :=
  match readFileSync keyPath, readFileSync certPath with
  | Throw x, _ => (ctx, Throw x)
  | Ok _, Throw x => (ctx, Throw x)
  | Ok key, Ok cert =>
      let '(ctx, registered) := registerLeafCertificate cert ctx in
      (ctx, let* _ := registered in
            Ok {| httpsOptions := Some {| https_key := key; https_cert := cert |}; source := file |})
  end.

Definition loadTlsMaterial (isProd : bool) (ctx : tls_context) : tls_context * result TlsMaterial :=
  if negb isProd then
    let '(ctx, r) := loadFromFiles "./secrets/tls.key" "./secrets/tls.cert" ctx in
    (ctx, rmap (fun m => {| httpsOptions := httpsOptions m; source := dev_file |}) r)
  else
    match env_text e "TLS_KEY_PATH", env_text e "TLS_CERT_PATH" with
    | Some keyPath, Some certPath => loadFromFiles keyPath certPath ctx
    | _, _ =>
        let '(ctx, dstackMaterial) := loadFromDstack ctx in
        match dstackMaterial with
        | Some m => (ctx, Ok m)
        | None =>
            if env_is e "ALLOW_EXTERNAL_TLS_TERMINATION" "true"
            then (ctx, Ok {| httpsOptions := None; source := external_proxy |})
            else (ctx, Throw (Error "FATAL: Cannot start in production without in-enclave TLS termination."))
        end
    end.

(** ** main.ts *)

(** What [NestFactory.create] is given and what [app.get] finds in it. *)
Record AppOptions : Type := { app_https : option HttpsOptions; sanitized : bool }.

(** A process that listens. *)
Record Server : Type := {
  sv_options : AppOptions;
  sv_corsOrigin : option string;
  sv_port : Z;
  sv_source : TlsSource;
  sv_verifier : ProofVerifierService;
}.

(** [NestFactory.create(AppModule, options)]: the services it constructs. *)
Variable create : AppOptions -> result ProofVerifierService.
(** What the other services' [onModuleInit] and the socket do in [app.listen]. *)
Variable other_hooks : result unit.
Variable files : artifacts.

(** [app.listen] runs the init hooks, the proof service's among them. *)
Definition listen (v : ProofVerifierService) : result ProofVerifierService :=
  let '(s, r) := onModuleInit e files (snark v) in
  let* _ := r in
  let* _ := other_hooks in
  Ok (with_snark s v).

Definition require_proof_verification (production : bool) (v : ProofVerifierService) : result unit :=
  if production && negb (isProductionReady v)
  then Throw (Error "FATAL: Cannot start in production mode without real proof verification.")
  else Ok tt.

Definition bootstrap (ctx : tls_context) : tls_context * result Server :=
  match isProd e with
  | Throw x => (ctx, Throw x)
  | Ok production =>
      match assertNoKeyMaterialInEnv e with
      | Throw x => (ctx, Throw x)
      | Ok _ =>
          let '(ctx, material) := loadTlsMaterial production ctx in
          (ctx, let* m := material in
                let options := {| app_https := httpsOptions m; sanitized := production |} in
                let* app := create options in
                let* _ := require_proof_verification production app in
                let* app := listen app in
                Ok {| sv_options := options; sv_corsOrigin := if production then None else Some "*"%string;
                      sv_port := 3000; sv_source := source m; sv_verifier := app |})
      end
  end.

(** ** Facts *)

(** The TLS text of a material holds this leaf. *)
Definition serves (m : TlsMaterial) (ctx : tls_context) : Prop :=
  exists options leaf, httpsOptions m = Some options /\ x509_raw (https_cert options) = Ok leaf
    /\ getTlsLeafCertificate ctx = Some leaf.

(** A text of several certificates is read at its first. *)
Definition reads_first : Prop := forall first rest raw, x509_raw first = Ok raw ->
  x509_raw (join new_line (first :: rest)) = Ok raw.

Lemma loadFromFiles_serves keyPath certPath ctx ctx' m :
  loadFromFiles keyPath certPath ctx = (ctx', Ok m) -> serves m ctx' /\ source m = file.
Proof.
  unfold loadFromFiles, registerLeafCertificate. intros H.
  destruct (readFileSync keyPath) as [key|]; [|discriminate].
  destruct (readFileSync certPath) as [cert|]; [|discriminate].
  destruct (x509_raw cert) as [raw|] eqn:E; [|discriminate].
  injection H as <- <-. split; [|done]. eexists _, _. split; [done|]. by split.
Qed.

(** dstack either gives a certificate that is then the registered one, or leaves the
    context alone. *)
Lemma loadFromDstack_serves ctx ctx' o : reads_first -> loadFromDstack ctx = (ctx', o) ->
  match o with Some m => serves m ctx' /\ source m = dstack | None => ctx' = ctx end.
Proof.
  unfold loadFromDstack, registerLeafCertificate. intros Hr H.
  destruct DstackClient as [get|]; [|by injection H as <- <-].
  destruct (get _ _) as [r|]; [|by injection H as <- <-].
  destruct (str_len (tk_key r) =? 0); [by injection H as <- <-|].
  destruct (tk_certificate_chain r) as [|leaf rest]; [by injection H as <- <-|].
  destruct (x509_raw leaf) as [raw|] eqn:E; [|by injection H as <- <-].
  injection H as <- <-. split; [|done].
  eexists _, _. split; [done|]. split; [by apply Hr|done].
Qed.

Lemma loadTlsMaterial_serves p ctx ctx' m : reads_first -> loadTlsMaterial p ctx = (ctx', Ok m) ->
  serves m ctx' \/ m = {| httpsOptions := None; source := external_proxy |} /\ ctx' = ctx /\ p = true
    /\ env_is e "ALLOW_EXTERNAL_TLS_TERMINATION" "true" = true.
Proof.
  intros Hr H. unfold loadTlsMaterial in H. destruct p; cbn [negb] in H.
  - assert (Hd : (let '(ctx, o) := loadFromDstack ctx in
                  match o with
                  | Some m => (ctx, Ok m)
                  | None => if env_is e "ALLOW_EXTERNAL_TLS_TERMINATION" "true"
                            then (ctx, Ok {| httpsOptions := None; source := external_proxy |})
                            else (ctx, Throw (Error "FATAL: Cannot start in production without in-enclave TLS termination."))
                  end) = (ctx', Ok m) ->
                 serves m ctx' \/ m = {| httpsOptions := None; source := external_proxy |} /\ ctx' = ctx /\ true = true
                   /\ env_is e "ALLOW_EXTERNAL_TLS_TERMINATION" "true" = true).
    { destruct (loadFromDstack ctx) as [ctx1 o] eqn:El. apply (loadFromDstack_serves _ _ _ Hr) in El.
      destruct o as [m'|].
      - intros Hm. injection Hm as <- <-. left. apply El.
      - destruct (env_is _ _ _) eqn:Ea; intros Hm; [|discriminate]. injection Hm as <- <-. by right. }
    destruct (env_text e "TLS_KEY_PATH") as [kp|], (env_text e "TLS_CERT_PATH") as [cp|]; auto.
    apply loadFromFiles_serves in H. left. apply H.
  - destruct (loadFromFiles _ _ ctx) as [ctx1 r] eqn:El.
    destruct r as [m'|]; [|discriminate]. injection H as <- <-.
    apply loadFromFiles_serves in El as ((o & leaf & H1 & H2 & H3) & _). left. by exists o, leaf.
Qed.

(** ** Properties *)

(** C39: the leaf certificate of the TLS options a started process serves is the one its
    attestation binds, or, only in production and only with
    ALLOW_EXTERNAL_TLS_TERMINATION=true, it serves plain HTTP and binds what the context
    held before: fresh, nothing. *)
Theorem served_certificate_is_bound ctx ctx' sv : reads_first -> bootstrap ctx = (ctx', Ok sv) ->
  (exists options leaf, app_https (sv_options sv) = Some options
    /\ x509_raw (https_cert options) = Ok leaf /\ getTlsLeafCertificate ctx' = Some leaf)
  \/ app_https (sv_options sv) = None /\ getTlsLeafCertificate ctx' = getTlsLeafCertificate ctx
    /\ isProd e = Ok true /\ env_is e "ALLOW_EXTERNAL_TLS_TERMINATION" "true" = true.
Proof.
  intros Hr H. unfold bootstrap in H. destruct (isProd e) as [p|] eqn:Ep; [|discriminate].
  destruct (assertNoKeyMaterialInEnv e); [|discriminate].
  destruct (loadTlsMaterial p ctx) as [ctx1 r] eqn:El. injection H as Hc H. subst ctx1.
  apply rbind_ok in H as (m & -> & H). apply rbind_ok in H as (app & _ & H).
  apply rbind_ok in H as ([] & _ & H). apply rbind_ok in H as (app' & _ & H).
  injection H as <-. cbn [sv_options app_https].
  apply (loadTlsMaterial_serves _ _ _ _ Hr) in El as [(o & leaf & Hs)|(-> & -> & -> & Ha)].
  - left. by exists o, leaf.
  - by right.
Qed.

(** NestJS documents that its lifecycle hooks run in [app.init] or [app.listen], so the
    services [create] returns are as constructed, without a verification key. main.ts
    asks whether proofs can be verified between the two, and so refuses every start in
    production, whatever the artifacts. *)
Theorem production_never_starts ctx :
  (forall options v, create options = Ok v -> snark v = new_snark) ->
  isProd e = Ok true -> exists x, (bootstrap ctx).2 = Throw x.
Proof.
  intros Hc Hp. unfold bootstrap. rewrite Hp.
  destruct (assertNoKeyMaterialInEnv e) as [|x]; [|by exists x].
  destruct (loadTlsMaterial true ctx) as [ctx' [m|x]]; [|by exists x]. cbn [rbind snd].
  destruct (create _) as [v|x] eqn:Ev; [|by exists x]. cbn [rbind].
  apply Hc in Ev. unfold require_proof_verification, isProductionReady, isAvailable.
  rewrite Ev. cbn [new_snark isSetup andb negb rbind]. by eexists.
Qed.

(** Asked after the hooks, the question has the answer the check wants: the proof service
    itself refuses production without its key. *)
Lemma listen_requires_key v v' : isProd e = Ok true -> listen v = Ok v' -> isProductionReady v' = true.
Proof.
  unfold listen. intros Hp H.
  assert (Hk : forall s' r, onModuleInit e files (snark v) = (s', r) -> r = Ok tt -> isSetup s' = true).
  { unfold onModuleInit, initialize. intros s' r. rewrite Hp. cbn [rbind].
    destruct (isSetup (snark v)) eqn:Es; [by intros [= <- <-]|].
    destruct (snarkjs_loads files); cbn [negb]; [|by intros [= <- <-]].
    destruct (vkey_content files) as [c|]; [|by intros [= <- <-]].
    destruct (JSON_parse c) as [w|]; [|by intros [= <- <-]].
    by intros [= <- <-]. }
  destruct (onModuleInit e files (snark v)) as [s r] eqn:Eo.
  apply rbind_ok in H as ([] & -> & H). apply rbind_ok in H as ([] & _ & H). injection H as <-.
  cbn [isProductionReady snark with_snark isAvailable]. by apply (Hk s (Ok tt)).
Qed.
End Tls.

(** ** config/secrets.service.ts *)

(** The secrets by name; a value of the KMS may be any JSON. *)
Definition secrets : Type := list (list Z * json).

(** [Object.entries] of what the KMS answered. *)
Definition entries_of (data : json) : result (list (list Z * json)) :=
  match data with
  | JNull => Throw (TypeError "Cannot convert undefined or null to object")
  | JObj fields => Ok fields
  | JArr l => Ok (imap (fun i v => (code_units (toString (Z.of_nat i)), v)) l)
  | JStr s => Ok (imap (fun i u => (code_units (toString (Z.of_nat i)), JStr [u])) s)
  | _ => Ok []
  end.

Definition set_secrets (l : list (list Z * json)) (s : secrets) : secrets :=
  fold_left (fun s kv => set_field kv.1 kv.2 s) l s.

(** What the KMS answers to the attestation: [ok] and the body. *)
Record KmsResponse : Type := { kms_ok : bool; kms_json : result json }.

Section Secrets.
(** The attestation service's quote, [fetch(url, {body: {attestation}})] and the
    variables of [process.env] in their order. *)
Variable getAttestationReport : result string.
Variable fetch_kms : string -> string -> result KmsResponse.
Variable env_entries : list (list Z * json).
Variable e : env.

Definition loadFromKms (s : secrets) : result secrets :=
  match env_text e "KMS_URL" with
  | None => Throw (Error "KMS_URL environment variable is required in production")
  | Some kmsUrl =>
      let* report := getAttestationReport in
      let* response := fetch_kms kmsUrl report in
      if negb (kms_ok response)
      then Throw (Error "KMS refused to release secrets")
      else
        let* secretsData := kms_json response in
        let* l := entries_of secretsData in
        Ok (set_secrets l s)
  end.

Definition secrets_onModuleInit (s : secrets) : result secrets :=
  let* production := isProd e in
  if production && is_set e "KMS_URL" && negb (is_set e "ADMIN_MLKEM_PUBLIC_KEY")
  then loadFromKms s
  else Ok (set_secrets env_entries s).

Definition secret_missing (key : string) : string :=
  let quote := String (ascii_of_nat 34) EmptyString in ("Secret " +:+ quote +:+ key +:+ quote +:+ " not found")%string.

Definition get_secret (key : string) (s : secrets) : result json :=
  match field key s with
  | Some v => if js_truthy (Some v) then Ok v else Throw (Error (secret_missing key))
  | None => Throw (Error (secret_missing key))
  end.

(** ** Facts *)

Lemma set_secrets_field key l s v : field key (set_secrets l s) = Some v ->
  (exists k, (k, v) ∈ l /\ k = code_units key) \/ field key s = Some v.
Proof.
  revert s. induction l as [|[k w] l IH]; intros s H; [by right|].
  cbn [set_secrets fold_left fst snd] in H. apply IH in H as [(k' & Hin & ->)|H].
  - left. eexists. split; [by right|done].
  - destruct (decide (k = code_units key)) as [->|Hk].
    + rewrite field_set, bool_decide_true in H by done. injection H as <-. left. eexists. by split; [left|].
    + right. by rewrite field_set_other in H.
Qed.

(** In production with a KMS, a secret that [get] returns is in the answer the KMS gave to
    this enclave's report: never one of the host's variables. *)
Theorem kms_secrets_are_released s' key v :
  isProd e = Ok true -> is_set e "KMS_URL" = true -> is_set e "ADMIN_MLKEM_PUBLIC_KEY" = false ->
  secrets_onModuleInit [] = Ok s' -> get_secret key s' = Ok v ->
  exists url report response data l,
    e !! "KMS_URL"%string = Some url /\ getAttestationReport = Ok report
    /\ fetch_kms url report = Ok response /\ kms_ok response = true /\ kms_json response = Ok data
    /\ entries_of data = Ok l /\ (code_units key, v) ∈ l.
Proof.
  unfold secrets_onModuleInit. intros -> Hk Ha H Hg. rewrite Hk, Ha in H. cbn [rbind andb negb] in H.
  unfold loadFromKms, env_text in H. rewrite Hk in H.
  destruct (e !! "KMS_URL"%string) as [url|] eqn:Hu; [|discriminate].
  apply rbind_ok in H as (report & Hr & H). apply rbind_ok in H as (response & Hf & H).
  destruct (kms_ok response) eqn:Ho; [|discriminate]. cbn [negb] in H.
  apply rbind_ok in H as (data & Hj & H). apply rbind_ok in H as (l & Hl & H). injection H as <-.
  exists url, report, response, data, l. do 6 (split; [done|]).
  unfold get_secret in Hg. destruct (field key _) as [w|] eqn:Ef; [|discriminate].
  destruct (js_truthy (Some w)); [|discriminate]. injection Hg as <-.
  by apply set_secrets_field in Ef as [(k & Hin & ->)|?].
Qed.
End Secrets.

(** ** Concrete starts *)

(** A parser that takes the text before the first line break for the certificate. *)
Fixpoint first_line (l : list ascii) : list byte :=
  match l with
  | [] => []
  | c :: l => if bool_decide (c = ascii_of_nat 10) then [] else byte_of_ascii c :: first_line l
  end.

Definition toy_x509 (pem : string) : result (list byte) :=
  match first_line (chars pem) with
  | [] => Throw (Error "bad certificate")
  | leaf => Ok leaf
  end.

Definition toy_files (path : string) : result string := Ok path.
Definition fresh_verifier : ProofVerifierService := with_snark new_snark sample_verifier.
Definition local_env : env := {["NODE_ENV"%string := "development"%string]}.
Definition no_dstack : result (string -> option (list string) -> result TlsKeyResponse) :=
  Throw (Error "Unix socket file /var/run/dstack.sock does not exist").

Lemma first_line_break l r : first_line (l ++ ascii_of_nat 10 :: r) = first_line l.
Proof. induction l as [|c l IH]; [done|]. cbn. by rewrite IH. Qed.

Lemma toy_reads_first : reads_first toy_x509.
Proof.
  intros first [|second rest] raw H; [exact H|].
  unfold toy_x509. change (join new_line (first :: second :: rest)) with (first +:+ (new_line +:+ join new_line (second :: rest))).
  rewrite !chars_app. change (chars new_line) with [ascii_of_nat 10]. cbn [app].
  by rewrite first_line_break.
Qed.

Lemma served_certificate_is_bound_witness :
  exists ctx' sv, bootstrap toy_x509 toy_files no_dstack local_env (fun _ => Ok fresh_verifier) (Ok tt) no_artifacts None
                  = (ctx', Ok sv)
  /\ ((exists options leaf, app_https (sv_options sv) = Some options
       /\ toy_x509 (https_cert options) = Ok leaf /\ getTlsLeafCertificate ctx' = Some leaf)
      \/ app_https (sv_options sv) = None /\ getTlsLeafCertificate ctx' = getTlsLeafCertificate None
         /\ isProd local_env = Ok true /\ env_is local_env "ALLOW_EXTERNAL_TLS_TERMINATION" "true" = true).
Proof.
  eexists _, _.
  assert (H : bootstrap toy_x509 toy_files no_dstack local_env (fun _ => Ok fresh_verifier) (Ok tt) no_artifacts None
              = (Some (first_line (chars "./secrets/tls.cert")),
                 Ok {| sv_options := {| app_https := Some {| https_key := "./secrets/tls.key"; https_cert := "./secrets/tls.cert" |};
                                        sanitized := false |};
                       sv_corsOrigin := Some "*"%string; sv_port := 3000; sv_source := dev_file;
                       sv_verifier := fresh_verifier |})) by (vm_compute; reflexivity).
  split; [exact H|].
  exact (served_certificate_is_bound toy_x509 toy_files no_dstack local_env (fun _ => Ok fresh_verifier) (Ok tt) no_artifacts
           None _ _ toy_reads_first H).
Defined.

Lemma production_never_starts_witness :
  exists x, (bootstrap toy_x509 toy_files no_dstack
               (<["ALLOW_EXTERNAL_TLS_TERMINATION"%string := "true"%string]> sample_env)
               (fun _ => Ok fresh_verifier) (Ok tt)
               {| snarkjs_loads := true; vkey_content := Some (code_units "{}"); wasm_exists := true; zkey_exists := true |}
               None).2 = Throw x.
Proof.
  apply production_never_starts.
  - intros options v [= <-]. reflexivity.
  - vm_compute. reflexivity.
Defined.
