(* ===== verification/Api.v ===== *)
(** * The served API

    The routes of [longjing.controller.ts], [attestation.controller.ts] and
    [health.controller.ts] over the services they forward to, behind the layers of [Http]
    and the guard of [contract-ready.guard.ts], the way [app.module.ts] and
    [longjing.module.ts] put them together. A route is dispatched in one step; what other
    requests do meanwhile is [Interleaving]'s. *)

From Stdlib Require Import String.
From S2P Require Import Prelude JsText HexText JsNumber Utf8 Accumulator FieldElement NoteClient NoteProtocol ClientCommands Json NullifierStore EthRate Limiter Profile ExitWatcher Interleaving RefundSigner Keys Platforms Attestation Blockchain Providers CostEstimation Http ClaudePricing JsonText Wire Gateway GatewayWorld.
Open Scope Z_scope.

(** ** Exceptions of the handler *)

(** The BadGatewayException: its body holds the refund and the accumulator, its message this. *)
Definition BadGatewayException (f : Failure) : exn :=
  HttpException 502 "The provider call failed. The whole of C_MAX is refunded.".

Definition thrown (o : outcome) : result LongjingResponseDto :=
  match o with
  | Served r => Ok r
  | Failed f => Throw (BadGatewayException f)
  | Rejected e => Throw e
  end.

(** ** Routes *)

(** A posted request is read from the body; the estimate's is given as the record it holds. *)
Inductive route : Type :=
| PostRequest
| GetServerPubkey
| PostEstimate (request : CostEstimateRequestDto)
| GetAttestation (nonce : option string)
| GetManifest
| GetHealth
| GetLive
| GetReady
| NoRoute (path : string).

Inductive answer : Type :=
| Reply (r : LongjingResponseDto)
| ServerKey (x y : string)
| Estimate (r : CostEstimateResponseDto)
| Attested (a : BoundAttestation) (instructions : list Z)
| SignedManifest (r : KeyManifestResponse)
| Health (status : string) (timestamp : Z).

(** What a client is told to do with the quote of each platform. *)
Definition getVerificationInstructions (p : TeePlatform) : list Z :=
  source_text match p with
  | phala =>
      "Verify this quote using Phala verification service (https://verifier.phala.network/verify). "
      +:+ "Replay RTMR0–3 from eventLog and compare them against published values. "
      +:+ "Rebuild report_data from keys and your nonce (docs/ATTESTATION.md). "
      +:+ "Docs: https://docs.phala.com/phala-cloud/attestation/verify-your-application"
  | intel_tdx =>
      "Verify this TDX quote using Intel DCAP verification. "
      +:+ "Compare MRTD measurement against published value. "
      +:+ "Rebuild report_data from keys and your nonce (docs/ATTESTATION.md). "
      +:+ "Verification service: https://api.trustedservices.intel.com/tdx/certification/v4/qe/identity"
  | amd_sev_snp =>
      "Verify this SEV-SNP report using AMD verification tools. "
      +:+ "Compare MEASUREMENT against published value. "
      +:+ "Rebuild report_data from keys and your nonce (docs/ATTESTATION.md). "
      +:+ "Verification service: https://kdsintf.amd.com/vcek/v1/{product}/cert_chain"
  | aws_nitro =>
      "Verify this Nitro attestation document using AWS verification. "
      +:+ "Compare PCR0 against published value. "
      +:+ "Rebuild user_data from keys and your nonce (docs/ATTESTATION.md). "
      +:+ "Use aws-nitro-enclaves-cose library for verification"
  | mock =>
      "WARNING: This is a MOCK attestation for development only. "
      +:+ "DO NOT use in production. No TEE environment detected. "
      +:+ "The application is running in standard mode without hardware security guarantees."
  end%string.

(** The services the routes use. The rate oracle is one service: it is the one of [world]. *)
Record App : Type := {
  world : World;
  chain : BlockchainService;
  estimates : EstimationState;
  signer : RefundSignerService;
  keyDerivation : KeyDerivationService;
  keyManager : TeeKeyManagerService;
  platform : option ITeePlatform;
  servedCertificate : option (list byte);
}.

Definition with_world (w : World) (a : App) : App :=
  {| world := w; chain := chain a; estimates := estimates a; signer := signer a; keyDerivation := keyDerivation a;
     keyManager := keyManager a; platform := platform a; servedCertificate := servedCertificate a |}.

Definition with_signer (s : RefundSignerService) (a : App) : App :=
  {| world := world a; chain := chain a; estimates := estimates a; signer := s; keyDerivation := keyDerivation a;
     keyManager := keyManager a; platform := platform a; servedCertificate := servedCertificate a |}.

Definition with_keys_service (k : KeyDerivationService) (a : App) : App :=
  {| world := world a; chain := chain a; estimates := estimates a; signer := signer a; keyDerivation := k;
     keyManager := keyManager a; platform := platform a; servedCertificate := servedCertificate a |}.

(** The estimation service and the world share the rate oracle. *)
Definition with_estimates (s : EstimationState) (a : App) : App :=
  {| world := GatewayWorld.with_rates (ethRateOracle s) (world a); chain := chain a; estimates := s;
     signer := signer a; keyDerivation := keyDerivation a;
     keyManager := keyManager a; platform := platform a; servedCertificate := servedCertificate a |}.

(** What the gateway's services are given, with C_MAX as the connection has it. *)
Definition outside_of (chain : BlockchainService) (out : GatewayWorld.Outside) : GatewayWorld.Outside :=
  {| o_kraken := o_kraken out; o_chainlink := o_chainlink out; o_feed_delay := o_feed_delay out;
     o_surroundings := o_surroundings out; o_groth16_verify := o_groth16_verify out; o_artifacts := o_artifacts out;
     o_getCMax := fun _ => Blockchain.getCMax chain; o_createMessage := o_createMessage out;
     o_random := o_random out; o_sign := o_sign out; o_slasher := o_slasher out |}.

(** [@IsString() @IsNotEmpty()] provider and [@IsNumber() @Min(1)] units, the types given. *)
Definition CostEstimateRequestDto_valid (r : CostEstimateRequestDto) : bool :=
  negb (str_len (er_provider r) =? 0) && nge (estimatedUnits r) (num 1) && nlt (estimatedUnits r) Infinity.

(** ** The body parser

    [NestFactory.create] puts the JSON parser of Express, with its default limit of 100 kB,
    before the middleware of the modules. It is a parameter: of a JSON object in UTF-8
    within the limit it gives what [JSON.parse] does, and it refuses more bytes with an
    error of its own, which the exception filter answers. *)

Definition BODY_LIMIT : Z := 100 * 1024.

Record express_json (parse_body : list byte -> result jsv) : Prop := {
  ej_reads bytes fields : Z.of_nat (length bytes) <= BODY_LIMIT -> JSON_parse (from_utf8 bytes) = Ok (JObj fields) ->
    parse_body bytes = Ok (Some (JObj fields));
  ej_refuses bytes : BODY_LIMIT < Z.of_nat (length bytes) -> exists ex, parse_body bytes = Throw ex;
}.

Definition with_body (body : jsv) (req : Request) : Request :=
  {| req_headers := req_headers req; ip := ip req; ips := ips req; socket := socket req; req_body := body |}.

Section Api.
Context (sha256 : list byte -> list byte) (gens : Generators) (circom : Circomlib) (crypto : Crypto) (h : host).
Context (e : env) (derived : option (list byte)) (builds : result unit) (apiKey : bool).
Context (text_length : list Z -> Z) (parse_body : list byte -> result jsv) (out : GatewayWorld.Outside) (t : moments).

Definition run_request (dto : LongjingRequestDto) (a : App) : World * outcome * list (event gw) :=
  request sha256 (poseidon circom) gens apiKey (outside_of (chain a) out) dto (world a).

(** [ContractReadyGuard], on every route of the controller. *)
Definition guarded (a : App) (r : App * result answer) : App * result answer :=
  match Limiter.canActivate e (Blockchain.isAvailable (chain a)) with
  | Ok _ => r
  | Throw ex => (a, Throw ex)
  end.

Definition post_request (body : jsv) (a : App) : App * result answer :=
  match validate_request text_length body with
  | Throw ex => (a, Throw ex)
  | Ok dto => let '(w, o, _) := run_request dto a in (with_world w a, rmap Reply (thrown o))
  end.

Definition get_server_pubkey (a : App) : App * result answer :=
  let '(s, r) := getPublicKey circom sha256 e derived builds (signer a) in
  (with_signer s a, rmap (fun key => ServerKey key.1 key.2) r).

Definition post_estimate (request : CostEstimateRequestDto) (a : App) : App * result answer :=
  if negb (CostEstimateRequestDto_valid request) then (a, Throw invalid_body)
  else
    let '(s, r) := estimateCost t request (CostEstimation.with_rates (rates (world a)) (estimates a)) in
    (with_estimates s a, rmap Estimate r).

Definition get_attestation (nonce : option string) (a : App) : App * result answer :=
  (a, rmap (fun x => Attested x.1 (getVerificationInstructions x.2))
        (get_attestation_handler sha256 h (platform a) (keyManager a) (keyDerivation a) (servedCertificate a) nonce)).

Definition get_manifest (a : App) : App * result answer :=
  let '(k, r) := get_manifest_handler sha256 h crypto (servedCertificate a) (keyDerivation a) in
  (with_keys_service k a, rmap SignedManifest r).

Definition dispatch (r : route) (body : jsv) (now : Z) (a : App) : App * result answer :=
  match r with
  | PostRequest => guarded a (post_request body a)
  | GetServerPubkey => guarded a (get_server_pubkey a)
  | PostEstimate request => guarded a (post_estimate request a)
  | GetAttestation nonce => get_attestation nonce a
  | GetManifest => get_manifest a
  | GetHealth => let '(s, ts) := Http.check now in (a, Ok (Health s ts))
  | GetLive => let '(s, ts) := Http.live now in (a, Ok (Health s ts))
  | GetReady => (a, rmap (fun x => Health x.1 x.2) (Http.ready e now (chain a)))
  | NoRoute path => (a, Throw (NotFoundException ("Cannot find " +:+ path)))
  end.

(** What the parser leaves in [req.body]; a request without a body has none. *)
Definition received (bytes : option (list byte)) : result jsv :=
  match bytes with Some b => parse_body b | None => Ok None end.

(** An error before the guards and interceptors, as the filter sends it. *)
Definition refused (ex : exn) : Http.Response answer :=
  {| Http.status := (Http.catch ex).1; Http.res_headers := []; Http.body := inr (Http.catch ex).2; Http.delay := None |}.

(** A request through the body parser, the middleware, the throttler, the route, the
    interceptors and the filter; a request the parser or the throttler refuses reaches no route. *)
Definition serve (passes : string -> headers -> headers * bool) (now elapsed : Z) (random : number)
  (req : Request) (bytes : option (list byte)) (r : route) (a : App) : App * Http.Response answer :=
  match received bytes with
  | Throw ex => (a, refused ex)
  | Ok body =>
      let req := with_body body req in
      let '(a', v) := match (Http.canActivate sha256 passes now (use req) []).2 with
                      | Ok _ => dispatch r body now a
                      | Throw ex => (a, Throw ex)
                      end in
      (a', respond sha256 e passes now random (fun _ hs => (v, elapsed, hs)) req [])
  end.

(** ** The body a client gets *)

Context (date_text : Z -> list Z).

(** [None] for the answers no client of a note reads. *)
Definition answer_body (r : Http.Response answer) : option json :=
  match Http.body r with
  | inl (Reply d) => Some (response_json date_text d)
  | inl _ => None
  | inr m => Some (error_json (Http.status r) m)
  end.

(** The answer to a request whose handler ended with [o], when the throttler let it in. *)
Definition answer_of_outcome (passes : string -> headers -> headers * bool) (now elapsed : Z) (random : number)
  (req : Request) (o : outcome) : Http.Response answer :=
  respond sha256 e passes now random (fun _ hs => (rmap Reply (thrown o), elapsed, hs)) req [].

Lemma serve_request passes now elapsed random req bytes body dto a :
  received bytes = Ok body ->
  (Http.canActivate sha256 passes now (use (with_body body req)) []).2 = Ok tt ->
  Limiter.canActivate e (Blockchain.isAvailable (chain a)) = Ok true ->
  validate_request text_length body = Ok dto ->
  serve passes now elapsed random req bytes PostRequest a
  = (with_world (run_request dto a).1.1 a,
     answer_of_outcome passes now elapsed random (with_body body req) (run_request dto a).1.2).
Proof.
  intros H0 H1 H2 H3. unfold serve, dispatch, guarded, post_request, answer_of_outcome. rewrite H0, H1, H2, H3.
  by destruct (run_request dto a) as [[w o] log].
Qed.

(** The body of an answer holds a reply exactly when the handler served the request. *)
Lemma reply_iff_served passes now elapsed random req o :
  (exists d reply, answer_body (answer_of_outcome passes now elapsed random req o) = Some d /\ read_reply d = Ok reply)
  -> exists r, o = Served r.
Proof.
  intros (d & reply & Hd & Hr). unfold answer_body, answer_of_outcome, respond in Hd.
  destruct (Http.canActivate _ _ _ _ _) as [hs [[]|ex]]; cbn [Http.body Http.status] in Hd.
  - destruct o as [r|f|ex]; cbn [thrown rmap rbind Http.body Http.status] in Hd; [by exists r|..];
      injection Hd as <-; rewrite error_is_not_read in Hr; discriminate.
  - injection Hd as <-. rewrite error_is_not_read in Hr. discriminate.
Qed.

Lemma served_is_read passes now elapsed random req r : (Http.canActivate sha256 passes now (use req) []).2 = Ok tt ->
  exists d, answer_body (answer_of_outcome passes now elapsed random req (Served r)) = Some d
    /\ read_reply d = Ok {| rr_refund := refund r; rr_accumulator := accumulator r |}.
Proof.
  intros H. unfold answer_body, answer_of_outcome, respond. destruct (Http.canActivate _ _ _ _ _) as [hs v].
  cbn [snd] in H. subst v. cbn [thrown rmap rbind Http.body]. eexists. split; [reflexivity|]. apply response_is_read.
Qed.
End Api.

(** ** A failed provider call, from the gateway to the note file *)

Section Client.
Context (sha256 : list byte -> list byte) (gens : Generators) (lib : Libraries).
Context (inherited : string -> list string -> option (result string)).

(** A reply that cannot be read leaves the note files as they are. *)
Lemma unreadable_reply_is_refused client s path n file ex : s !! path = Some n -> (str_len file =? 0) = false ->
  ClientCommands.read_reply client file = Throw ex ->
  prove sha256 gens lib inherited client s ["receive"; path; file]%string = (ClientCommands.Failed ex, s).
Proof.
  intros Hs Hf Hr. unfold prove. do 2 (rewrite bool_decide_eq_false_2 by discriminate).
  rewrite bool_decide_eq_true_2 by reflexivity. unfold receive_command. rewrite Hf. unfold readNote. rewrite Hs.
  cbn [rbind]. by rewrite Hr.
Qed.

Lemma pending_request_is_reprinted client s path n p payload : s !! path = Some n -> NoteClient.pending n = Some p ->
  writable client path = Ok tt ->
  prove sha256 gens lib inherited client s ["request"; path; payload]%string
  = (Printed (Body (NoteClient.body p)), <[path := n]> s).
Proof.
  intros Hs Hp Hw. unfold prove. rewrite bool_decide_eq_false_2 by discriminate.
  rewrite bool_decide_eq_true_2 by reflexivity. unfold request_command, readNote. rewrite Hs. cbn [rbind].
  unfold proveRequest. rewrite Hp. unfold writeNote. by rewrite Hw.
Qed.

Context (e : env) (apiKey : bool) (out : GatewayWorld.Outside) (date_text : Z -> list Z).

(** The outcomes a request can have once its provider call failed. *)
Lemma outcomes_after_failure req w w1 f log1 sources moves w3 o3 log3 :
  request sha256 (poseidon (circom lib)) gens apiKey out req w = (w1, Failed f, log1) -> ~ silent log1 ->
  request sha256 (poseidon (circom lib)) gens apiKey out req
    (meanwhile sha256 (poseidon (circom lib)) gens apiKey out sources moves w1) = (w3, o3, log3) ->
  o3 = Failed f \/ exists ex, o3 = Rejected ex.
Proof.
  intros H1 Hs H3.
  destruct (request_served _ _ _ _ _ _ _ _ _ _ H1 Hs) as (n & sg & Hn & Hsg & _ & _ & Hsp & Hk).
  destruct (meanwhile_replies sha256 (poseidon (circom lib)) gens apiKey out sources moves w1 _ _ _ Hsp Hk) as [Hsp' Hk'].
  destruct (request_again _ _ _ _ _ _ _ _ _ _ _ _ Hn Hsg Hsp' H3) as [_ [[_ He]|Ho]]; [by right|].
  destruct Hk' as [Hk'|Hk']; rewrite Hk' in Ho; cbn [kept_of c_expiresAt c_signal c_response] in Ho.
  - destruct (_ <=? _); [right; by eexists|]. destruct (bool_decide _); [by left|right; by eexists].
  - right. by eexists.
Qed.

(** C18: the refund of a failed provider call never reaches the client. When the handler
    answers the pending request of a note with the 502 of a failed provider - its refund
    and the signed accumulator in the exception's body - the exception filter sends the
    status and the message only. So whatever the client is sent for this request, then or
    at any later retry, whatever else the gateway serves meanwhile, [receive] refuses it
    and the note file stays as it is, and [request] prints the same body again: the note
    makes no other request. *)
Theorem failed_provider_refund_is_lost req w w1 f log1 sources moves w3 o3 log3 o
  passes now elapsed random http d client s path n p file payload :
  request sha256 (poseidon (circom lib)) gens apiKey out req w = (w1, Failed f, log1) -> ~ silent log1 ->
  request sha256 (poseidon (circom lib)) gens apiKey out req
    (meanwhile sha256 (poseidon (circom lib)) gens apiKey out sources moves w1) = (w3, o3, log3) ->
  o = Failed f \/ o = o3 ->
  answer_body date_text (answer_of_outcome sha256 e passes now elapsed random http o) = Some d ->
  s !! path = Some n -> NoteClient.pending n = Some p -> NoteClient.body p = req ->
  ClientCommands.read_reply client file = read_reply d -> (str_len file =? 0) = false -> writable client path = Ok tt ->
  (exists ex, prove sha256 gens lib inherited client s ["receive"; path; file]%string = (ClientCommands.Failed ex, s))
  /\ prove sha256 gens lib inherited client s ["request"; path; payload]%string = (Printed (Body req), s).
Proof.
  intros H1 Hs H3 Ho Hd Hnote Hp Hbody Hread Hfile Hw.
  assert (Hns : forall r, o <> Served r).
  { intros r ->. destruct Ho as [|Ho]; [discriminate|].
    by destruct (outcomes_after_failure _ _ _ _ _ _ _ _ _ _ H1 Hs H3) as [->|[ex ->]]. }
  split.
  - destruct (read_reply d) as [reply|ex] eqn:Hr; [|exists ex; by apply (unreadable_reply_is_refused client s path n)].
    exfalso. destruct (reply_iff_served sha256 e date_text passes now elapsed random http o) as [r Hr']; [by exists d, reply|].
    by apply (Hns r).
  - rewrite (pending_request_is_reprinted client s path n p payload Hnote Hp Hw), Hbody. by rewrite insert_id.
Qed.
End Client.

(** ** What reaches a handler *)

Section Gate.
Context (sha256 : list byte -> list byte) (gens : Generators) (circom : Circomlib) (crypto : Crypto) (h : host).
Context (e : env) (derived : option (list byte)) (builds : result unit) (apiKey : bool).
Context (text_length : list Z -> Z) (parse_body : list byte -> result jsv) (out : GatewayWorld.Outside) (t : moments).

Abbreviation serve_api := (serve sha256 gens circom crypto h e derived builds apiKey text_length parse_body out t).

(** The routes of the controller that needs the contract. *)
Definition needs_contract (r : route) : bool :=
  match r with PostRequest | GetServerPubkey | PostEstimate _ => true | _ => false end.

Lemma serve_unchanged passes now elapsed random req bytes body r a a' resp ex :
  serve_api passes now elapsed random req bytes r a = (a', resp) -> received parse_body bytes = Ok body ->
  (Http.canActivate sha256 passes now (use (with_body body req)) []).2 = Throw ex
  \/ (Http.canActivate sha256 passes now (use (with_body body req)) []).2 = Ok tt
     /\ dispatch sha256 gens circom crypto h e derived builds apiKey text_length out t r body now a = (a, Throw ex) ->
  a' = a /\ Http.status resp = (Http.catch ex).1 /\ Http.body resp = inr (Http.catch ex).2.
Proof.
  intros H Hb Hc. unfold serve, respond in H. rewrite Hb in H. destruct (Http.canActivate _ _ _ _ _) as [hs v]. cbn [snd] in *.
  destruct Hc as [->|[-> Hd]]; [|rewrite Hd in H]; by injection H as <- <-.
Qed.

(** In production, until LongjingCredits answers, no route of the gateway reaches its service:
    it is answered 503 and nothing changes. The attestation, its manifest and the liveness
    probe are served. *)
Theorem unready_production_serves_attestation_only passes now elapsed random req bytes body r a a' resp :
  isProd e = Ok true -> Blockchain.isAvailable (chain a) = false -> received parse_body bytes = Ok body ->
  (Http.canActivate sha256 passes now (use (with_body body req)) []).2 = Ok tt ->
  serve_api passes now elapsed random req bytes r a = (a', resp) ->
  (needs_contract r = true \/ r = GetReady -> a' = a /\ Http.status resp = 503)
  /\ (r = GetLive -> Http.status resp = 200)
  /\ (forall nonce att p, r = GetAttestation nonce ->
        get_attestation_handler sha256 h (platform a) (keyManager a) (keyDerivation a) (servedCertificate a) nonce
          = Ok (att, p) ->
        Http.status resp = 200 /\ Http.body resp = inl (Attested att (getVerificationInstructions p))).
Proof.
  intros Hprod Hun Hb Hadm H.
  assert (Hguard : forall v, guarded e a v = (a, Throw (ServiceUnavailableException "LongjingCredits does not answer yet"))).
  { intros v. unfold guarded, Limiter.canActivate. by rewrite Hprod, Hun. }
  split; [|split].
  - intros Hr. assert (Hd : dispatch sha256 gens circom crypto h e derived builds apiKey text_length out t r body now a
                            = (a, Throw (ServiceUnavailableException "LongjingCredits does not answer yet"))).
    { destruct Hr as [Hr| ->]; [|unfold dispatch, Http.ready; by rewrite Hprod, Hun].
      destruct r; try discriminate Hr; apply Hguard. }
    destruct (serve_unchanged _ _ _ _ _ _ _ _ _ _ _ _ H Hb (or_intror (conj Hadm Hd))) as (-> & -> & _). by split.
  - intros ->. unfold serve, respond in H. rewrite Hb in H. destruct (Http.canActivate _ _ _ _ _) as [hs v]. cbn [snd] in Hadm. subst v.
    cbn [dispatch Http.live] in H. apply (f_equal (fun x => Http.status x.2)) in H. cbn [snd Http.status] in H. by rewrite <- H.
  - intros nonce att p -> Ha. unfold serve, respond, dispatch, get_attestation in H. rewrite Hb, Ha in H.
    destruct (Http.canActivate _ _ _ _ _) as [hs v]. cbn [snd] in Hadm. subst v.
    cbn [rmap rbind fst snd] in H.
    pose proof (f_equal (fun x => Http.status x.2) H) as H1. pose proof (f_equal (fun x => Http.body x.2) H) as H2.
    cbn [snd Http.status Http.body] in H1, H2. by rewrite <- H1, <- H2.
Qed.

(** A body that is not a valid request, field by field and with nothing else in it, is answered
    400 before any service is asked. *)
Theorem invalid_body_changes_nothing passes now elapsed random req bytes body a a' resp :
  received parse_body bytes = Ok body -> validate_request text_length body = Throw invalid_body ->
  Limiter.canActivate e (Blockchain.isAvailable (chain a)) = Ok true ->
  (Http.canActivate sha256 passes now (use (with_body body req)) []).2 = Ok tt ->
  serve_api passes now elapsed random req bytes PostRequest a = (a', resp) -> a' = a /\ Http.status resp = 400.
Proof.
  intros Hb Hv Hg Hadm H.
  assert (Hd : dispatch sha256 gens circom crypto h e derived builds apiKey text_length out t PostRequest body now a
               = (a, Throw invalid_body)).
  { unfold dispatch, guarded, post_request. by rewrite Hg, Hv. }
  by destruct (serve_unchanged _ _ _ _ _ _ _ _ _ _ _ _ H Hb (or_intror (conj Hadm Hd))) as (-> & -> & _).
Qed.

(** C27: the body a client prints reaches the handler as it was built, and the reply the
    handler gives reaches the client - when its JSON text fits the 100 kB of the body
    parser, and never otherwise. The text of a valid body, sent in UTF-8, is parsed,
    validated and handed to [handleRequest] as that very body when it has at most 102400
    bytes; when the handler serves it, the client reads in the answer the refund and the
    signed accumulator of the handler. A longer text, which a valid payload of 100,000
    characters may have, is refused before any layer of the application: nothing changes
    and the client reads no reply. *)
Theorem printed_body_reaches_the_handler passes now elapsed random req b text a date_text :
  express_json parse_body -> Forall is_unit (req_payload b) -> Forall is_unit (req_proof b) ->
  LongjingRequestDto_valid text_length CLAUDE_MODELS b = true ->
  JSON_stringify (request_json b) = Some text ->
  Limiter.canActivate e (Blockchain.isAvailable (chain a)) = Ok true ->
  (Http.canActivate sha256 passes now (use (with_body (Some (request_json b)) req)) []).2 = Ok tt ->
  let run := run_request sha256 gens circom apiKey out b a in
  let served := serve_api passes now elapsed random req (Some (utf8 text)) PostRequest a in
  if Z.of_nat (length (utf8 text)) <=? 102400
  then served.1 = with_world run.1.1 a
       /\ forall r, run.1.2 = Served r ->
            exists d, answer_body date_text served.2 = Some d
              /\ read_reply d = Ok {| rr_refund := refund r; rr_accumulator := accumulator r |}
  else served.1 = a
       /\ exists d ex, answer_body date_text served.2 = Some d /\ read_reply d = Throw ex.
Proof.
  intros Hj Hp Hpr Hv Ht Hg Hadm run served.
  destruct (Z.leb_spec (Z.of_nat (length (utf8 text))) 102400) as [Hl|Hl].
  - assert (Hrec : received parse_body (Some (utf8 text)) = Ok (Some (request_json b))).
    { apply (ej_reads _ Hj); [exact Hl|]. rewrite (stringify_utf8 _ _ (request_json_printable b Hp Hpr) Ht).
      exact (stringify_parse _ text (request_json_printable b Hp Hpr) Ht). }
    assert (Hval : validate_request text_length (Some (request_json b)) = Ok b).
    { unfold validate_request. by rewrite request_json_read, Hv. }
    pose proof (serve_request sha256 gens circom crypto h e derived builds apiKey text_length parse_body out t
                  passes now elapsed random req _ _ b a Hrec Hadm Hg Hval) as Hs.
    subst served. rewrite Hs. fold run. split; [done|]. intros r Hr. cbn [snd]. rewrite Hr. by apply served_is_read.
  - destruct (ej_refuses _ Hj (utf8 text) Hl) as [ex Hex]. subst served. unfold serve, received. rewrite Hex.
    split; [done|]. eexists _, _. split; [reflexivity|]. apply error_is_not_read.
Qed.

End Gate.

(** ** Bodies that validate and do not fit *)

Lemma object_text k s fields text : JSON_stringify (JObj ((k, JStr s) :: fields)) = Some text ->
  exists post, text = ([123] ++ quote k ++ [58; 34]) ++ quote_units s ++ post.
Proof.
  cbn [JSON_stringify]. intros H. apply bind_Some in H as (items & Hi & H). injection H as <-.
  apply bind_Some in Hi as (t & Ht & Hi). apply bind_Some in Hi as (ts & _ & Hi). assert (t = quote s) as -> by congruence.
  assert (items = (quote k ++ 58 :: quote s) :: ts) as -> by congruence. clear Ht Hi.
  assert (Hj : exists r, join_text ((quote k ++ 58 :: quote s) :: ts) = (quote k ++ 58 :: quote s) ++ r).
  { destruct ts as [|t' ts]; [exists []; by rewrite app_nil_r|by eexists]. }
  destruct Hj as [r ->]. exists (34 :: r ++ [125]). unfold quote. rewrite <- ?app_assoc. cbn [app]. rewrite <- ?app_assoc.
  cbn [app]. by rewrite <- ?app_assoc.
Qed.

Lemma three_bytes s : Forall (fun u => 2048 <= u < 55296) s ->
  quote_units s = s /\ length (utf8 s) = (3 * length s)%nat.
Proof.
  induction 1 as [|u s Hu _ [IH1 IH2]]; [done|]. cbn [quote_units utf8 length].
  assert (is_high u = false) as -> by (apply not_true_iff_false; rewrite is_high_true; lia).
  assert (is_low u = false) as -> by (apply not_true_iff_false; rewrite is_low_true; lia).
  rewrite IH1, length_app, IH2. unfold quote_unit, utf8_point.
  repeat match goal with |- context [u =? ?n] => destruct (Z.eqb_spec u n); [lia|] end.
  repeat match goal with |- context [u <? ?n] => destruct (Z.ltb_spec u n); [lia|] end.
  destruct (Z.ltb_spec u 65536); [|lia]. split; [done|]. cbn [length]. lia.
Qed.

(** The limit of the body parser is in bytes and that of the payload in characters: a
    payload of 34,134 characters of three bytes, a third of the 100,000 the DTO admits,
    makes a body the parser refuses. *)
Theorem payload_over_the_body_limit b text : Forall (fun u => 2048 <= u < 55296) (req_payload b) ->
  34134 <= Z.of_nat (length (req_payload b)) -> JSON_stringify (request_json b) = Some text ->
  BODY_LIMIT < Z.of_nat (length (utf8 text)).
Proof.
  intros Hp Hl Ht. unfold request_json in Ht. apply object_text in Ht as (post & ->).
  destruct (three_bytes _ Hp) as [Hq Hu]. rewrite Hq.
  assert (Hpair : paired (req_payload b)) by (apply paired_plain; eapply Forall_impl; [exact Hp|]; cbn; lia).
  rewrite (utf8_app_paired ([123] ++ quote (code_units "payload") ++ [58; 34])) by (apply paired_plain, (bool_decide_unpack _); vm_compute; exact I).
  rewrite (utf8_app_paired (req_payload b)) by done. rewrite !length_app, Hu. unfold BODY_LIMIT. lia.
Qed.

Lemma payload_over_the_body_limit_witness n : 34134 <= Z.of_nat n ->
  let b := {| req_payload := repeat 8364 n; req_nonce := "5"; req_nullifier := "7";
              req_signal := {| signal_x := "13"; signal_y := "72" |}; req_proof := code_units "{}"; req_merkleRoot := "12";
              req_accumulator := {| acc_x := "0"; acc_y := "1" |}; req_model := None |} in
  exists text, JSON_stringify (request_json b) = Some text /\ BODY_LIMIT < Z.of_nat (length (utf8 text)).
Proof.
  intros Hn b. eexists. split; [reflexivity|].
  apply (payload_over_the_body_limit b); subst b; cbn [req_payload]; [|by rewrite repeat_length|reflexivity].
  apply List.Forall_forall. intros u Hu%repeat_spec. subst. lia.
Qed.

(** ** A concrete failure *)

(** [GatewayWorld]'s world with a provider that is down. *)
Definition down : GatewayWorld.Outside :=
  let out := toy_out true in
  {| o_kraken := o_kraken out; o_chainlink := o_chainlink out; o_feed_delay := o_feed_delay out;
     o_surroundings := o_surroundings out; o_groth16_verify := o_groth16_verify out; o_artifacts := o_artifacts out;
     o_getCMax := o_getCMax out; o_createMessage := fun _ _ _ _ => Throw (Error "overloaded");
     o_random := o_random out; o_sign := o_sign out; o_slasher := o_slasher out |}.

Definition toy_hash_circomlib : Circomlib :=
  {| poseidon := toy_poseidon; prv2pub := prv2pub toy_circomlib; signPoseidon := signPoseidon toy_circomlib;
     verifyPoseidon := verifyPoseidon toy_circomlib; F_e := F_e toy_circomlib; F_toString16 := F_toString16 toy_circomlib |}.

Definition hash_libraries : Libraries :=
  {| circom := toy_hash_circomlib; proveRequestCircuit := toy_prover;
     proveSettlementCircuit := fun _ => Throw (Error "unused");
     soliditySplit := fun _ _ => Throw (Error "unused");
     toBeHex32 := fun z => Ok (hex64 z); NoteClient.getAddress := fun a => Ok a |}.

Definition waiting_note : NoteFile :=
  {| secretKey := "5"; rpcUrl := "rpc"; NoteClient.contract := "0xc";
     opening := {| t_refunds := "0"; t_index := "0"; t_blinding := "0" |};
     signature := None; signedBy := None;
     NoteClient.pending := Some {| rerandomizer := "3"; NoteClient.body := toy_request |} |}.

Abbreviation down_run w :=
  (request toy_sha256 (poseidon (circom hash_libraries)) toy_gens true down toy_request w).

Definition admits (tracker : string) (hs : headers) : headers * bool := (hs, true).

Definition toy_http : Request := {| req_headers := []; ip := "1.2.3.4"; ips := []; socket := None; req_body := None |}.

Definition failed_answer (o : outcome) : Http.Response answer :=
  answer_of_outcome toy_sha256 ∅ admits 0 5 (num 0) toy_http o.

(** A client that saved the answer it got to a file. *)
Definition saves (d : json) : ClientCommands.Outside :=
  {| chain_of := fun _ _ => toy_chain; randomBytes1 := be_bytes 48 77; randomBytes2 := be_bytes 48 6;
     writable := fun _ => Ok tt; exists_other := fun _ => false;
     other_note := fun _ => Throw (Error "ENOENT"); ClientCommands.read_reply := fun _ => read_reply d;
     read_signals := fun _ => Throw (Error "ENOENT") |}.

Lemma down_run_fails : exists f, (down_run (toy_world ∅)).1.2 = Failed f.
Proof. vm_compute. by eexists. Qed.

Lemma failed_provider_refund_is_lost_witness : exists f d ex, (down_run (toy_world ∅)).1.2 = Failed f
  /\ answer_body (fun _ => []) (failed_answer (Failed f)) = Some d
  /\ prove toy_sha256 toy_gens hash_libraries (fun _ _ => None) (saves d) {["n.json"%string := waiting_note]}
       ["receive"; "n.json"; "answer.json"]%string = (ClientCommands.Failed ex, {["n.json"%string := waiting_note]}).
Proof.
  assert (Hs : existsb provider_event (down_run (toy_world ∅)).2 = true) by (vm_compute; reflexivity).
  destruct down_run_fails as [f Hf]. destruct (down_run (toy_world ∅)) as [[w1 o1] log1] eqn:H1. cbn [fst snd] in *. subst o1.
  destruct (down_run (meanwhile toy_sha256 (poseidon (circom hash_libraries)) toy_gens true down [] later w1)) as [[w3 o3] log3] eqn:H3.
  set (d := error_json 502 "The provider call failed. The whole of C_MAX is refunded.").
  assert (Hd : answer_body (fun _ => []) (failed_answer (Failed f)) = Some d) by reflexivity.
  destruct (failed_provider_refund_is_lost toy_sha256 toy_gens hash_libraries (fun _ _ => None) ∅ true down (fun _ => [])
    toy_request (toy_world ∅) w1 f log1 [] later w3 o3 log3 (Failed f) admits 0 5 (num 0) toy_http d (saves d)
    {["n.json"%string := waiting_note]} "n.json" waiting_note {| rerandomizer := "3"; NoteClient.body := toy_request |}
    "answer.json" "again" H1 (not_silent _ Hs) H3 (or_introl eq_refl) Hd) as [[ex Hex] _].
  - apply lookup_singleton_eq.
  - reflexivity.
  - reflexivity.
  - reflexivity.
  - reflexivity.
  - reflexivity.
  - exists f, d, ex. by split_and!.
Defined.

(** ** A concrete exchange *)

(** A development server whose contract answers with a C_MAX of one wei. *)
Definition toy_app : App :=
  {| world := toy_world ∅; chain := with_cMax (Some 1) (Blockchain.build None 31337 new_blockchain);
     estimates := CostEstimation.boot 0 (Throw (Error "no key")); signer := new_signer;
     keyDerivation := new_key_derivation; keyManager := new_key_manager; platform := Some (MockPlatform toy_host);
     servedCertificate := None |}.

Definition dev_env : env := {["NODE_ENV"%string := "development"%string]}.

Definition toy_text_length (l : list Z) : Z := Z.of_nat (length l).

(** A parser that reads every text within the limit as JSON. *)
Definition toy_parser (bytes : list byte) : result jsv :=
  if BODY_LIMIT <? Z.of_nat (length bytes) then Throw (HttpException 413 "request entity too large")
  else rmap Some (JSON_parse (from_utf8 bytes)).

Lemma toy_parser_ok : express_json toy_parser.
Proof.
  split; unfold toy_parser; intros bytes.
  - intros fields Hl ->. by destruct (Z.ltb_spec BODY_LIMIT (Z.of_nat (length bytes))); [lia|].
  - intros Hl. destruct (Z.ltb_spec BODY_LIMIT (Z.of_nat (length bytes))); [by eexists|lia].
Qed.

Abbreviation toy_serve req bytes r :=
  (serve toy_sha256 toy_gens toy_hash_circomlib toy_crypto toy_host dev_env None (Ok tt) true toy_text_length toy_parser
     (toy_out true) (moments_at 0) admits 0 5 (num 0) req bytes r toy_app).

Lemma toy_exchange_served : exists r,
  (run_request toy_sha256 toy_gens toy_hash_circomlib true (toy_out true) toy_request toy_app).1.2 = Served r.
Proof. vm_compute. by eexists. Qed.

Lemma printed_body_reaches_the_handler_witness : exists text r d,
  JSON_stringify (request_json toy_request) = Some text
  /\ answer_body (fun _ => []) (toy_serve toy_http (Some (utf8 text)) PostRequest).2 = Some d
  /\ read_reply d = Ok {| rr_refund := refund r; rr_accumulator := accumulator r |}.
Proof.
  destruct (JSON_stringify (request_json toy_request)) as [text|] eqn:Ht; [|vm_compute in Ht; discriminate].
  assert (Hok : match JSON_stringify (request_json toy_request) with
                | Some t => Z.of_nat (length (utf8 t)) <=? 102400 | None => false end = true) by (vm_compute; reflexivity).
  rewrite Ht in Hok. destruct toy_exchange_served as [r Hr]. exists text, r.
  pose proof (printed_body_reaches_the_handler toy_sha256 toy_gens toy_hash_circomlib toy_crypto toy_host dev_env None
    (Ok tt) true toy_text_length toy_parser (toy_out true) (moments_at 0) admits 0 5 (num 0) toy_http toy_request text toy_app
    (fun _ => []) toy_parser_ok) as H.
  rewrite Hok in H. destruct H as [_ Hd].
  - apply code_units_are_units.
  - unfold is_unit. apply (bool_decide_unpack _). vm_compute. exact I.
  - vm_compute. reflexivity.
  - exact Ht.
  - vm_compute. reflexivity.
  - vm_compute. reflexivity.
  - destruct (Hd r Hr) as (d & H1 & H2). exists d. by split_and!.
Defined.
