(* ===== verification/Script.v ===== *)
(** * Command-line scripts

    A script prints lines, may throw and may end the process; the commands under
    [scripts/] are programs of this monad. Two runs are compared by how they end. *)

From Stdlib Require Import String.
From S2P Require Import Prelude JsText.
Open Scope Z_scope.

(** [Exit] is [process.exit(1)], [Thrown] an exception; [OutOfFuel] is for the model's
    reading of the chain alone. *)
Inductive stop : Type := Exit | Thrown (e : exn) | OutOfFuel.

Section Scripts.
Context {L : Type}.

Definition script (A : Type) : Type := (list L * (A + stop))%type.

Definition ret {A} (a : A) : script A := ([], inl a).
Definition print (l : list L) : script unit := (l, inl tt).
Definition exit {A} (l : list L) : script A := (l, inr Exit).
Definition throw {A} (e : exn) : script A := ([], inr (Thrown e)).
Definition lift {A} (r : result A) : script A := match r with Ok a => ret a | Throw e => throw e end.

Definition then_ {A B} (m : script A) (f : A -> script B) : script B :=
  match m with
  | (l, inl a) => let '(l', b) := f a in (l ++ l', b)
  | (l, inr s) => (l, inr s)
  end.

(** An exception that [main] or its [try] reports with one line ends the process. *)
Definition catch_exit {A} (report : L) (m : script A) : script A :=
  match m with
  | (l, inr (Thrown _)) => (l ++ [report], inr Exit)
  | _ => m
  end.
End Scripts.
Arguments script L A : clear implicits.

Declare Scope script_scope.
Notation "'let!' x ':=' c 'in' k" := (then_ c (fun x => k))
  (at level 10, x name, c at level 200, k at level 200) : script_scope.
Notation "c ';!' k" := (then_ c (fun _ => k)) (at level 199, right associativity) : script_scope.
Open Scope script_scope.

Section Facts.
Context {L : Type}.

(** A run that went through. *)
Definition passes {A} (m : script L A) : Prop := exists a, m.2 = inl a.

Lemma then_inl {A B} (m : script L A) (f : A -> script L B) b :
  (then_ m f).2 = inl b <-> exists a, m.2 = inl a /\ (f a).2 = inl b.
Proof.
  destruct m as [l [a|s]]; cbn [then_ snd].
  - destruct (f a) as [l' r] eqn:E. cbn [snd]. split.
    + intros ->. exists a. by rewrite E.
    + intros (a' & Ha & Hf). injection Ha as <-. by rewrite E in Hf.
  - split; [done|]. by intros (? & ? & _).
Qed.

Lemma then_passes {A B} (m : script L A) (f : A -> script L B) :
  passes (then_ m f) <-> exists a, m.2 = inl a /\ passes (f a).
Proof.
  unfold passes. split.
  - intros (b & (a & Ha & Hb)%then_inl). exists a. split; [done|]. by exists b.
  - intros (a & Ha & b & Hb). exists b. apply then_inl. by exists a.
Qed.

Lemma exit_stops {A} l : ~ passes (@exit L A l).
Proof. by intros (? & ?). Qed.

(** Two runs with the same end, whatever they print. *)
Definition same_verdict {A} (m m' : script L A) : Prop := m.2 = m'.2.

#[export] Instance same_verdict_equivalence {A} : Equivalence (@same_verdict A).
Proof. split; unfold same_verdict; [intros m|intros m m'|intros m m' m'']; congruence. Qed.

#[export] Instance then_verdict {A B} :
  Proper (same_verdict ==> pointwise_relation A same_verdict ==> same_verdict) (@then_ L A B).
Proof.
  intros [l r] [l' r'] H f f' Hf. unfold same_verdict in *. cbn [snd] in H. subst r'. destruct r as [a|s]; [|done].
  specialize (Hf a). unfold same_verdict in Hf. cbn [then_]. destruct (f a), (f' a). exact Hf.
Qed.

#[export] Instance verdict_passes {A} : Proper (same_verdict ==> iff) (@passes A).
Proof. intros m m' H. unfold passes, same_verdict in *. by rewrite H. Qed.

Lemma print_verdict l l' : same_verdict (@print L l) (print l').
Proof. done. Qed.

Lemma lift_inl {A} (r : result A) a : (@lift L A r).2 = inl a <-> r = Ok a.
Proof. destruct r; cbn; split; congruence. Qed.

(** A step that always answers and whose answer is dropped leaves the verdict alone. *)
Lemma dropped_answer {A B} (m : script L A) (k : script L B) : (exists a, m.2 = inl a) -> same_verdict (then_ m (fun _ => k)) k.
Proof. intros [a Ha]. destruct m as [l r]. cbn [snd] in Ha. subst r. unfold same_verdict. cbn. by destruct k. Qed.

(** A line every passing continuation prints is printed by the run. *)
Lemma then_prints {A B} (m : script L A) (f : A -> script L B) x : passes (then_ m f) ->
  (forall a, passes (f a) -> List.In x (f a).1) -> List.In x (then_ m f).1.
Proof.
  intros (a & Ha & H)%then_passes Hf. apply Hf in H. destruct m as [l r]. cbn [snd] in Ha. subst r. cbn [then_].
  destruct (f a) as [l' r']. cbn [fst] in *. apply in_or_app. by right.
Qed.

Lemma catch_exit_passes {A} report (m : script L A) : passes (catch_exit report m) <-> passes m.
Proof.
  unfold passes. destruct m as [l [a|[| |]]]; cbn [catch_exit snd]; [done|done| |done].
  split; intros (b & H); discriminate.
Qed.

End Facts.

(** ** Arguments *)

(** [flag]: the first argument of that name is taken out with the one after it. *)
Fixpoint flag (name : string) (args : list string) : option string * list string :=
  match args with
  | [] => (None, [])
  | a :: rest =>
      if bool_decide (a = name) then match rest with [] => (None, []) | v :: rest' => (Some v, rest') end
      else let '(v, rest') := flag name rest in (v, a :: rest')
  end.

(** A text that is set and not empty. *)
Definition given_text (v : option string) : option string :=
  match v with Some s => if str_len s =? 0 then None else Some s | None => None end.
