(* ===== verification/VerifyAttestation.v ===== *)
(** * The attestation verifier a client runs

    [scripts/testing/verify-attestation.ts]: the command that fetches an attestation, runs
    [verifyKeyBinding] and the governance checks on it and says whether it passed. Its lines
    of information are not kept, its verdict lines are. The network, the chain, X.509
    over the socket, base64 and the date parser are parameters. *)

From Stdlib Require Import Ascii String.
From S2P Require Import Prelude Script JsText Json HexText Utf8 Quote RefundSigner Keys Platforms AppGovernance KeyBinding Attestation.
Open Scope Z_scope.

(** ** What a run prints and how it ends *)

Inductive line : Type :=
| Success (message : string)
| Warning (message : string)
| Fault (message : string)
| BindingFault (f : binding_failure)
| GovernanceFault (f : failure)
| GovernanceWarning (w : warning).

(** ** The answer of the server, read as the script's types have it *)

Record RemoteAttestation : Type := {
  at_platform : string;
  at_quote : string;
  at_reportData : string;
  at_measurement : string;
  at_eventLog : option (list Z);
  at_timestamp : string;
  at_nonce : option string;
  at_keys : BoundKeys;
}.

Definition evidence (a : RemoteAttestation) : KeyBindingEvidence :=
  {| kb_platform := at_platform a; kb_quote := at_quote a; kb_reportData := at_reportData a;
     kb_keys := at_keys a; kb_eventLog := at_eventLog a |}.

Record GovernanceOptions : Type := { go_app : string; go_fromBlock : option Z; go_minDelay : Z }.
Record CreditsOptions : Type := { co_credits : string; co_minDelay : Z }.

(** ** Quotes *)

Fixpoint le_value (l : list byte) : Z :=
  match l with [] => 0 | b :: l => byteZ b + 256 * le_value l end.

(** [readUInt16LE] and [readUInt32LE], inside the buffer. *)
Definition readUIntLE (n offset : nat) (quote : list byte) : Z := le_value (take n (drop offset quote)).

Record TdxQuoteHeader : Type := {
  version : Z; attestKeyType : Z; teeType : Z; qeSvn : Z; pceSvn : Z;
  qeVendorId : list byte; userData : list byte;
}.

Definition parseTdxQuoteHeader (quote : list byte) : TdxQuoteHeader :=
  {| version := readUIntLE 2 0 quote; attestKeyType := readUIntLE 2 2 quote; teeType := readUIntLE 4 4 quote;
     qeSvn := readUIntLE 2 8 quote; pceSvn := readUIntLE 2 10 quote;
     qeVendorId := subarray 12 16 quote; userData := subarray 28 20 quote |}.

Record TdxQuoteBody : Type := {
  body_mrtd : list byte; mrconfigid : list byte; mrowner : list byte; mrownerconfig : list byte;
  rtmr0 : list byte; rtmr1 : list byte; rtmr2 : list byte; rtmr3 : list byte; body_reportData : list byte;
}.

(** The report starts at 48 in the quote; the offsets are those of the quote. *)
Definition parseTdxQuoteBody (quote : list byte) : TdxQuoteBody :=
  let tdReport := drop 48 quote in
  let at_ (offset n : nat) := subarray (offset - 48) n tdReport in
  {| body_mrtd := at_ 112%nat 48%nat; mrconfigid := at_ 160%nat 48%nat; mrowner := at_ 208%nat 48%nat;
     mrownerconfig := at_ 256%nat 48%nat; rtmr0 := at_ 304%nat 48%nat; rtmr1 := at_ 352%nat 48%nat;
     rtmr2 := at_ 400%nat 48%nat; rtmr3 := at_ 448%nat 48%nat; body_reportData := at_ 536%nat 64%nat |}.

(** What the script shows as RTMR2, and advises to publish, lies in the first 448 bytes of the
    quote; [tdx-quote.ts] reads RTMR2 beyond them: two builds can differ in RTMR2 alone
    and show the same measurement. *)
Lemma advised_measurement_ignores_rtmr2 q1 q2 : take 448 q1 = take 448 q2 ->
  rtmr2 (parseTdxQuoteBody q1) = rtmr2 (parseTdxQuoteBody q2)
  /\ Forall (fun o => (448 <= o)%nat) (drop 2 TDX_QUOTE_RTMR_OFFSETS).
Proof.
  intros H. split; [|repeat constructor; vm_compute; lia].
  assert (Hr : forall q, rtmr2 (parseTdxQuoteBody q) = drop 400 (take 448 q)).
  { intros q. cbn [parseTdxQuoteBody rtmr2]. unfold subarray. rewrite drop_drop.
    change (48 + (400 - 48))%nat with 400%nat. by rewrite skipn_firstn_comm. }
  by rewrite !Hr, H.
Qed.

(** ** Certificates inside a quote *)

Definition BEGIN : list Z := code_units "-----BEGIN CERTIFICATE-----".
Definition END : list Z := code_units "-----END CERTIFICATE-----".

(** [quote.indexOf(marker)] and the part of the quote from there. *)
Fixpoint from_marker (marker quote : list byte) : option (list byte) :=
  if bool_decide (take (length marker) quote = marker) then Some quote
  else match quote with [] => None | _ :: quote' => from_marker marker quote' end.

(** The lazy [[\s\S]*?] up to the END marker: what it takes, marker included, and the rest. *)
Fixpoint until_end (l : list Z) : option (list Z * list Z) :=
  match parse_word END l with
  | Some rest => Some (END, rest)
  | None => match l with
            | [] => None
            | u :: l' => '(c, rest) ← until_end l'; Some (u :: c, rest)
            end
  end.

(** The matches of [/BEGIN[\s\S]+?END/g], one character at least in between; every
    match is shorter than what is left, so the length of the text is fuel enough. *)
Fixpoint scan_certificates (fuel : nat) (l : list Z) : list (list Z) :=
  match fuel, l with
  | S f, u :: l' =>
      match parse_word BEGIN l with
      | Some (v :: rest) =>
          match until_end rest with
          | Some (c, rest') => (BEGIN ++ v :: c) :: scan_certificates f rest'
          | None => scan_certificates f l'
          end
      | _ => scan_certificates f l'
      end
  | _, _ => []
  end.

Definition extractCertificateChain (quote : list byte) : list (list Z) :=
  match from_marker (utf8 BEGIN) quote with
  | None => []
  | Some section => let text := from_utf8 section in scan_certificates (length text) text
  end.

(** [s.replace(word, '')] of the first occurrence. *)
Fixpoint remove_word (word l : list Z) : list Z :=
  match parse_word word l with
  | Some rest => rest
  | None => match l with [] => [] | u :: l' => u :: remove_word word l' end
  end.

Definition INTEL_ROOT_CA_FINGERPRINTS : list string :=
  ["9f0ca0dfd1d60b81a2c1b89ae7e0f000c8b1f46b63c3c4d34ae9f3c9e6a5d5b4";
   "8d41a8e2c5e9e9f4e3e9f2c4b7c1c9d0f3e4c8b2a9d7e6f1c2b4a3d8e7f6c5d4"]%string.

Definition on_tdx (platform : string) : bool :=
  bool_decide (platform = "intel-tdx"%string) || bool_decide (platform = "phala"%string).

Section Verifier.
Context (sha256 sha384 : list byte -> list byte) (from_value : json -> result (list byte)).
Context (from_base64 : string -> list byte).
(** [Buffer.from(text, 'base64')] on a text of any characters. *)
Context (from_base64_units : list Z -> list byte).
Context (verifyTypedData : KeyManifest -> string -> result string).
Context (getAddress : string -> result string) (computeAddress : list byte -> result string).
Context (toLowerCase : list Z -> list Z).
(** [new Date(text).getTime()], [None] for an Invalid Date. *)
Context (Date_time : string -> option Z).
(** [Date.now()], the same through the run. *)
Context (now : Z).

Definition parseCertificate (certPem : list Z) : string :=
  let base64Cert := List.filter (fun u => negb (unit_space u)) (remove_word END (remove_word BEGIN certPem)) in
  to_hex (sha256 (from_base64_units base64Cert)).

(** The root is the last certificate; its first 16 digits are compared. *)
Definition verifyCertificateChain (certs : list (list Z)) : script line bool :=
  match last certs with
  | None => let! _ := print [Warning "No certificates found in quote"] in ret false
  | Some root =>
      let fingerprint := parseCertificate root in
      let isIntelRoot := existsb (fun fp => startsWith fingerprint (of_chars (take 16 (chars fp)))) INTEL_ROOT_CA_FINGERPRINTS in
      let! _ := if isIntelRoot then ret tt
                else print [Warning "Root certificate fingerprint does not match known Intel Root CAs";
                            Warning "This may be expected for Phala-specific certificate chains"] in
      ret true
  end.

(** Ages in milliseconds. Every comparison with the age of an invalid date is false. *)
Definition verifyTimestamp (timestamp : string) : script line bool :=
  match Date_time timestamp with
  | None => let! _ := print [Success "Timestamp is fresh"] in ret true
  | Some t =>
      let age := now - t in
      if 300 * 1000 <? age
      then let! _ := print [Warning "Attestation is older than 300 seconds";
                            Warning "This may indicate a replay attack or cached attestation"] in ret false
      else if age <? - 60 * 1000
      then let! _ := print [Fault "Attestation timestamp is in the future!"] in ret false
      else let! _ := print [Success "Timestamp is fresh"] in ret true
  end.

(** ** Key binding *)

Definition verifyBinding (attestation : RemoteAttestation) (nonce served : option (list byte))
  (keyManifest : option SignedKeyManifest) : script line bool :=
  let! failures := lift (verifyKeyBinding sha256 sha384 from_value from_base64 verifyTypedData getAddress computeAddress
    (evidence attestation)
    {| opt_nonce := nonce; servedCertificate := served; opt_keyManifest := keyManifest |}) in
  match failures with
  | _ :: _ => let! _ := print (map BindingFault failures) in ret false
  | [] =>
      let bound := match bk_tlsCertificate (at_keys attestation) with Some s => negb (str_len s =? 0) | None => false end in
      let! _ := print ([Success "report_data commits to the returned keys and the nonce"]
        ++ (if negb bound then [Warning "No TLS certificate is bound: TLS terminates OUTSIDE the TEE"]
            else match served with Some _ => [Success "TLS terminates inside the attested enclave"] | None => [] end)
        ++ (match at_eventLog attestation with Some _ => [Success "The event log replays to RTMR0-3"] | None => [] end)
        ++ (match keyManifest with Some _ => [Success "The key manifest signs the same keys"] | None => [] end)) in
      ret true
  end.

(** ** The platforms' quotes *)

Definition nonzero (l : list byte) : bool := existsb (fun b => negb (byteZ b =? 0)) l.

Definition measurement_lines (body : TdxQuoteBody) (provided : string) : list line :=
  if negb (nonzero (body_mrtd body))
  then [Warning "MRTD is all zeros - measurement may not have been extracted correctly";
        Warning "This could indicate an issue with quote parsing or generation"]
  else if bool_decide (to_hex (body_mrtd body) = provided)
  then [Success "MRTD matches provided measurement"]
  else [Warning "MRTD does not match provided measurement"; Warning "This may be due to different extraction offsets"].

Definition advice_lines (body : TdxQuoteBody) : list line :=
  if nonzero (rtmr2 body) || nonzero (rtmr3 body)
  then [Warning "   Phala uses RTMR (Runtime Measurements) instead of MRTD:"]
  else if nonzero (body_mrtd body) then []
  else [Warning "   All measurements are zeros - this may indicate:"; Warning "   - Pre-boot or initialization state";
        Warning "   - Quote parsing offset issue"; Warning "   Contact Phala support if this persists"].

Definition verifyTdxQuote (attestation : RemoteAttestation) : script line unit :=
  let quoteBuffer := from_base64 (at_quote attestation) in
  if (length quoteBuffer <? 600)%nat
  then exit [Fault "Quote is too small to be a valid TDX quote"; Fault "Expected at least 600 bytes"]
  else
    let header := parseTdxQuoteHeader quoteBuffer in
    let! _ := print (if teeType header =? 0x81 then [Success "TEE type is TDX (0x00000081)"]
                     else [Warning "Unexpected TEE type. Expected 0x00000081 (TDX)"]) in
    let body := parseTdxQuoteBody quoteBuffer in
    let! _ := print (measurement_lines body (at_measurement attestation)) in
    let! _ := verifyCertificateChain (extractCertificateChain quoteBuffer) in
    let! _ := verifyTimestamp (at_timestamp attestation) in
    let! _ := print [Success "Platform: Intel TDX"; Success "Quote structure: Valid"; Success "Certificate chain: Present";
                     Success "Timestamp: Fresh";
                     Warning "This is a BASIC verification only (Step 0: Platform Detection).";
                     Warning "For production use, follow the steps below:"] in
    print (advice_lines body).

Definition verifySevSnpQuote (attestation : RemoteAttestation) : script line unit :=
  let reportBuffer := from_base64 (at_quote attestation) in
  let! _ := print (if (length reportBuffer <? 1184)%nat
                   then [Warning "Report is smaller than expected SEV-SNP report size (1184 bytes)"] else []) in
  print [Success "SEV-SNP report structure appears valid"].

(** A document that parses as JSON null makes the reads throw, inside the same [try]. *)
Definition verifyNitroQuote (attestation : RemoteAttestation) : script line unit :=
  print [Success "Nitro attestation document appears valid"].

(** ** Governance *)

Definition verifyGovernance (fuel : nat) (reader : ChainReader) (options : GovernanceOptions)
  (keyManifest : option SignedKeyManifest) (eventLog : option (list Z)) : script line unit :=
  match keyManifest with
  | None => exit [Fault "No key manifest: cannot tell which app these keys belong to"]
  | Some signed =>
      let! named := lift (getAddress (km_appId (Keys.manifest signed))) in
      let! asked := lift (getAddress (go_app options)) in
      if negb (bool_decide (named = asked))
      then exit [Fault "The key manifest names another app: these are another app's keys"]
      else
        let! _ := print [Success "The key manifest names this app"] in
        let! composeHash := match eventLog with
                            | Some ((_ :: _) as log) => lift (composeHashFromEventLog toLowerCase log)
                            | _ => ret None
                            end in
        let! _ := print (match composeHash with
                         | Some (_ :: _) => []
                         | _ => [Warning "No compose-hash event: the running build is not checked"]
                         end) in
        match readAppGovernance getAddress reader fuel (go_app options) (go_fromBlock options) None with
        | None => ([], inr OutOfFuel)
        | Some (Throw e) => throw e
        | Some (Ok governance) =>
            let! _ := print (match composeHashes governance with
                             | [] => [Warning "No ComposeHashAdded event found: check --from-block"] | _ => [] end
                             ++ map (fun _ => Warning "Implementation upgraded") (upgrades governance)) in
            let '(failures, warnings) := checkAppGovernance toLowerCase governance (Some (go_minDelay options)) composeHash in
            let! _ := print (map GovernanceWarning warnings) in
            match failures with
            | _ :: _ => exit (map GovernanceFault failures
                ++ [Fault "Builds can be added to this app without the published governance."])
            | [] => print [Success "Only timelocked builds can be added, and the running build is allowed"]
            end
        end
  end.

Definition verifyCreditsGovernance (reader : ChainReader) (options : CreditsOptions) : script line unit :=
  let! governance := lift (readCreditsGovernance getAddress reader (co_credits options)) in
  let '(failures, warnings) := checkCreditsGovernance governance (Some (co_minDelay options)) in
  let! _ := print (map GovernanceWarning warnings) in
  match failures with
  | _ :: _ => exit (map GovernanceFault failures
      ++ [Fault "LongjingCredits can be changed without the published governance."])
  | [] => print [Success "Only the timelock can change LongjingCredits"]
  end.

(** ** The whole verification *)

(** What a fetch resolves to. *)
Record Answer (A : Type) : Type := { answer_ok : bool; answer_json : result A }.
Arguments answer_ok {A}.
Arguments answer_json {A}.

(** The world of a run: the parser of URLs, which gives the origin and the URL with the
    nonce set; the server, the file system and the chains. *)
Record World : Type := {
  new_URL : string -> string -> result (string * string);
  fetch_attestation : string -> result (Answer RemoteAttestation);
  read_file : string -> result RemoteAttestation;
  fetch_manifest : string -> result (Answer SignedKeyManifest);
  peer_certificate : string -> result (option (list byte));
  app_chain : ChainReader;
  credits_chain : ChainReader;
}.

Definition is_url (source : string) : bool := startsWith source "http://" || startsWith source "https://".

Definition json_of {A} (r : result (Answer A)) : result A :=
  let* response := r in
  if answer_ok response then answer_json response else Throw (Error "HTTP").

Definition fetchAttestation (w : World) (source : string) : result RemoteAttestation :=
  if is_url source then json_of (fetch_attestation w source) else read_file w source.

Definition fetchKeyManifest (w : World) (baseUrl : string) : script line (option SignedKeyManifest) :=
  match json_of (fetch_manifest w baseUrl) with
  | Ok signed => ret (Some signed)
  | Throw _ => let! _ := print [Warning "Could not fetch key manifest"] in ret None
  end.

Definition fetchServedTlsCertificate (w : World) (baseUrl : string) : script line (option (list byte)) :=
  if negb (startsWith baseUrl "https:") then ret None
  else match peer_certificate w baseUrl with
       | Ok cert => ret cert
       | Throw _ => let! _ := print [Warning "Could not fetch TLS certificate"] in ret None
       end.

(** The nonce a file holds. *)
Definition file_nonce (attestation : RemoteAttestation) : option (list byte) :=
  match at_nonce attestation with
  | Some s => if str_len s =? 0 then None else Some (of_hex (slice_from 2 s))
  | None => None
  end.

Definition verifyQuote (attestation : RemoteAttestation) : script line unit :=
  if on_tdx (at_platform attestation) then verifyTdxQuote attestation
  else if bool_decide (at_platform attestation = "amd-sev-snp"%string) then verifySevSnpQuote attestation
  else if bool_decide (at_platform attestation = "aws-nitro"%string) then verifyNitroQuote attestation
  else ret tt.

(** Steps 2 to 7, on the attestation fetched; [url] is the origin when there is one. *)
Definition verifyFetched (fuel : nat) (w : World) (nonce : list byte) (origin : option string)
  (governanceOptions : option GovernanceOptions) (creditsOptions : option CreditsOptions)
  (attestation : RemoteAttestation) : script line unit :=
  if bool_decide (at_platform attestation = "mock"%string)
  then exit [Fault "Server is NOT running in a TEE!"; Fault "This is a development/mock attestation.";
             Fault "DO NOT send sensitive data to this server."]
  else
    let! keyManifest := match origin with Some u => fetchKeyManifest w u | None => ret None end in
    let! served := match origin with Some u => fetchServedTlsCertificate w u | None => ret None end in
    let! _ := print (match origin with
                     | Some _ => []
                     | None => [Warning "Local file mode: the nonce in the file cannot prove freshness"]
                     end) in
    let! bindingValid := verifyBinding attestation
      (match origin with Some _ => Some nonce | None => file_nonce attestation end) served keyManifest in
    if negb bindingValid
    then exit [Fault "CRITICAL: key binding verification FAILED";
               Fault "This could indicate a man-in-the-middle attack or misconfiguration";
               Fault "DO NOT trust this server!"]
    else
      let! _ := verifyQuote attestation in
      let! _ := verifyTimestamp (at_timestamp attestation) in
      let! _ := match governanceOptions with
                | Some o => verifyGovernance fuel (app_chain w) o keyManifest (at_eventLog attestation)
                | None => print [Warning "Skipped governance: pass --app <DstackApp> to check who can add builds"]
                end in
      let! _ := match creditsOptions with
                | Some o => verifyCreditsGovernance (credits_chain w) o
                | None => print [Warning "Skipped LongjingCredits: pass --credits <address> to check who can change its verifiers"]
                end in
      print ([Success "Platform"; Success "Key binding: Valid"; Success "Quote structure: Valid"; Success "Timestamp: Fresh"]
             ++ (if governanceOptions is Some _ then [Success "Governance: Timelocked"] else [])
             ++ (if creditsOptions is Some _ then [Success "LongjingCredits: Timelocked"] else [])
             ++ [Success "Basic verification PASSED"]).

Definition verifyBody (fuel : nat) (w : World) (nonce : list byte) (source : string)
  (governanceOptions : option GovernanceOptions) (creditsOptions : option CreditsOptions) : script line unit :=
  let! url := if is_url source
              then let! u := lift (new_URL w source (to_hex nonce)) in ret (Some u)
              else ret None in
  let! attestation := lift (fetchAttestation w (match url with Some u => u.2 | None => source end)) in
  verifyFetched fuel w nonce (fst <$> url) governanceOptions creditsOptions attestation.

Definition verifyAttestation (fuel : nat) (w : World) (nonce : list byte) (source : string)
  (governanceOptions : option GovernanceOptions) (creditsOptions : option CreditsOptions) : script line unit :=
  catch_exit (Fault "Verification failed") (verifyBody fuel w nonce source governanceOptions creditsOptions).

(** ** Facts *)

Lemma verifyTimestamp_answers t : exists b, (verifyTimestamp t).2 = inl b.
Proof.
  unfold verifyTimestamp. destruct (Date_time t) as [s|]; [|by eexists].
  destruct (300 * 1000 <? now - s); [by eexists|]. destruct (now - s <? _); by eexists.
Qed.

Lemma verifyCertificateChain_answers certs : exists b, (verifyCertificateChain certs).2 = inl b.
Proof.
  unfold verifyCertificateChain. destruct (last certs); [|by eexists].
  destruct (existsb _ INTEL_ROOT_CA_FINGERPRINTS); by eexists.
Qed.

Lemma verifyBinding_true a nonce served signed : (verifyBinding a nonce served signed).2 = inl true ->
  verifyKeyBinding sha256 sha384 from_value from_base64 verifyTypedData getAddress computeAddress (evidence a)
    {| opt_nonce := nonce; servedCertificate := served; opt_keyManifest := signed |} = Ok [].
Proof.
  unfold verifyBinding. intros (failures & Hf%lift_inl & H)%then_inl. rewrite Hf.
  destruct failures; [done|]. by apply then_inl in H as (? & _ & H).
Qed.

Lemma verifyTdxQuote_length a : passes (verifyTdxQuote a) -> (600 <= length (from_base64 (at_quote a)))%nat.
Proof.
  unfold verifyTdxQuote. destruct (Nat.ltb_spec (length (from_base64 (at_quote a))) 600); [|done].
  by intros ?%exit_stops.
Qed.

(** What a passing governance check established. *)
Definition app_governed (fuel : nat) (reader : ChainReader) (o : GovernanceOptions) (signed : SignedKeyManifest)
  (log : option (list Z)) : Prop :=
  exists address g owner,
    getAddress (km_appId (Keys.manifest signed)) = Ok address /\ getAddress (go_app o) = Ok address
    /\ readAppGovernance getAddress reader fuel (go_app o) (go_fromBlock o) None = Some (Ok g)
    /\ appOwner g = Some owner /\ go_minDelay o <= ao_minDelay owner /\ AppGovernance.requireTcbUpToDate g = true
    /\ forall text hash, log = Some text -> composeHashFromEventLog toLowerCase text = Ok (Some hash) -> hash <> [] ->
         exists r, List.In r (composeHashes g) /\ code_units (composeHash r) = normalizeHash toLowerCase hash
           /\ allowed r = true.

Lemma verifyGovernance_passes fuel reader o signed log : passes (verifyGovernance fuel reader o signed log) ->
  exists m, signed = Some m /\ app_governed fuel reader o m log.
Proof.
  unfold verifyGovernance. destruct signed as [m|]; [|by intros ?%exit_stops].
  intros (named & Hn%lift_inl & H)%then_passes. apply then_passes in H as (asked & Ha%lift_inl & H).
  destruct (bool_decide_reflect (named = asked)) as [->|]; cbn [negb] in H; [|by apply exit_stops in H].
  apply then_passes in H as (_ & _ & H). apply then_passes in H as (composeHash & Hc & H).
  apply then_passes in H as (_ & _ & H).
  destruct (readAppGovernance _ _ _ _ _ _) as [[g|e]|] eqn:Hg; [|by destruct H as (? & ?)..].
  apply then_passes in H as (_ & _ & H).
  destruct (checkAppGovernance _ _ _ _) as [failures warnings] eqn:Hcheck.
  apply then_passes in H as (_ & _ & H). destruct failures; [|by apply exit_stops in H].
  apply check_passes in Hcheck as (owner & Ho & Hd & Ht & Hrun & _). exists m. split; [done|].
  exists asked, g, owner. do 6 (split; [done|]). intros text hash -> Hhash Hne.
  destruct text as [|u text]; [by vm_compute in Hhash|]. apply lift_inl in Hc. rewrite Hhash in Hc.
  injection Hc as <-. by apply (Hrun hash).
Qed.

Lemma verifyCreditsGovernance_passes reader o : passes (verifyCreditsGovernance reader o) ->
  exists g delay self, readCreditsGovernance getAddress reader (co_credits o) = Ok g
    /\ timelock g = Some (delay, self) /\ co_minDelay o <= delay.
Proof.
  unfold verifyCreditsGovernance. intros (g & Hg%lift_inl & H)%then_passes.
  destruct (checkCreditsGovernance g _) as [failures warnings] eqn:Hc.
  apply then_passes in H as (_ & _ & H). destruct failures; [|by apply exit_stops in H].
  unfold checkCreditsGovernance in Hc. destruct (timelock g) as [[delay self]|] eqn:Ht; [|discriminate].
  exists g, delay, self. do 2 (split; [done|]). cbn [default from_option id] in Hc.
  destruct (Z.ltb_spec delay (co_minDelay o)); [discriminate|done].
Qed.

Lemma fetchKeyManifest_some w u signed : (fetchKeyManifest w u).2 = inl (Some signed) ->
  json_of (fetch_manifest w u) = Ok signed.
Proof. unfold fetchKeyManifest. destruct (json_of _); cbn; congruence. Qed.

Lemma fetchServedTlsCertificate_https w u r : startsWith u "https:" = true ->
  (fetchServedTlsCertificate w u).2 = inl r -> forall der, peer_certificate w u = Ok (Some der) -> r = Some der.
Proof. unfold fetchServedTlsCertificate. intros -> H der Hd. rewrite Hd in H. cbn in H. congruence. Qed.

(** What a run that passed checked, in order. *)
Lemma verifyFetched_passes fuel w nonce origin go co a : passes (verifyFetched fuel w nonce (Some origin) go co a) ->
  at_platform a <> "mock"%string
  /\ exists signed served,
       (fetchKeyManifest w origin).2 = inl signed /\ (fetchServedTlsCertificate w origin).2 = inl served
       /\ verifyKeyBinding sha256 sha384 from_value from_base64 verifyTypedData getAddress computeAddress (evidence a)
            {| opt_nonce := Some nonce; servedCertificate := served; opt_keyManifest := signed |} = Ok []
       /\ passes (verifyQuote a)
       /\ (forall o, go = Some o -> exists m, signed = Some m /\ app_governed fuel (app_chain w) o m (at_eventLog a))
       /\ (forall o, co = Some o -> passes (verifyCreditsGovernance (credits_chain w) o)).
Proof.
  unfold verifyFetched. destruct (bool_decide_reflect (at_platform a = "mock"%string)); [by intros ?%exit_stops|].
  intros (signed & Hm & H)%then_passes. split; [done|]. apply then_passes in H as (served & Hs & H).
  apply then_passes in H as (_ & _ & H). apply then_passes in H as (valid & Hv & H).
  destruct valid; cbn [negb] in H; [|by apply exit_stops in H].
  apply then_passes in H as (u & Hq & H). apply then_passes in H as (_ & _ & H).
  apply then_passes in H as (u1 & Hg & H). apply then_passes in H as (u2 & Hc & _).
  exists signed, served. do 2 (split; [done|]). split; [by apply verifyBinding_true|].
  split; [by exists u|]. split.
  - intros o ->. apply verifyGovernance_passes. by exists u1.
  - intros o ->. by exists u2.
Qed.

(** ** Properties *)

(** C38: what PASSED means, for an attestation fetched from a server. The platform is not the
    mock; the report data is the hash of the keys the client holds and its fresh nonce;
    on TDX it is inside the quote; when the origin is https and the certificate of its TLS
    session could be read, that certificate is the one it commits to (over http, or when it
    could not be read, nothing is said of the certificate); with --app, the manifest names that app, whose owner is behind a
    timelock of the required delay, with the TCB required and the running build allowed;
    with --credits, a timelock of that delay owns the contract. *)
Theorem passed_verification_holds fuel w nonce source go co : is_url source = true ->
  passes (verifyAttestation fuel w nonce source go co) ->
  exists origin url a inputs expected,
    new_URL w source (to_hex nonce) = Ok (origin, url) /\ fetchAttestation w url = Ok a
    /\ at_platform a <> "mock"%string
    /\ read_keys from_base64 (at_keys a) = Ok inputs
    /\ buildReportData sha256 inputs (Some nonce) = Ok expected
    /\ of_hex (strip0x (at_reportData a)) = expected
    /\ (on_tdx (at_platform a) = true -> tdxQuoteReportData (from_base64 (at_quote a)) = Ok expected
          /\ (600 <= length (from_base64 (at_quote a)))%nat)
    /\ (startsWith origin "https:" = true -> forall der, peer_certificate w origin = Ok (Some der) ->
          tlsCertificateDer inputs = Some der)
    /\ (forall o, go = Some o -> exists m, json_of (fetch_manifest w origin) = Ok m
          /\ app_governed fuel (app_chain w) o m (at_eventLog a))
    /\ (forall o, co = Some o -> exists g delay self,
          readCreditsGovernance getAddress (credits_chain w) (co_credits o) = Ok g
          /\ timelock g = Some (delay, self) /\ co_minDelay o <= delay).
Proof.
  unfold verifyAttestation, verifyBody. intros -> H. apply (proj1 (catch_exit_passes _ _)) in H.
  apply then_passes in H as (url & Hu & H). apply then_inl in Hu as ([origin u] & Hu%lift_inl & Hr).
  injection Hr as <-. apply then_passes in H as (a & Ha%lift_inl & H). cbn [fmap option_fmap option_map fst snd] in *.
  apply verifyFetched_passes in H as (Hmock & signed & served & Hm & Hs & Hb & Hq & Hgo & Hco).
  destruct (check_reads _ _ _ _ _ _ _ _ _ Hb) as (inputs & expected & Hi & He & Hrd & Hcert & Htdx & _).
  exists origin, u, a, inputs, expected. do 6 (split; [done|]). split; [|split; [|split]].
  - intros Hon. split.
    + apply Htdx. unfold on_tdx in Hon. apply orb_true_iff in Hon as [Hon|Hon]; apply bool_decide_eq_true in Hon;
        [by right|by left].
    + apply verifyTdxQuote_length. unfold verifyQuote in Hq. by rewrite Hon in Hq.
  - intros Hhttps der Hder. apply Hcert. exact (fetchServedTlsCertificate_https _ _ _ Hhttps Hs der Hder).
  - intros o Ho. destruct (Hgo o Ho) as (m & -> & Hg). exists m. split; [by apply fetchKeyManifest_some|done].
  - intros o Ho. apply verifyCreditsGovernance_passes, Hco, Ho.
Qed.

Definition with_timestamp (t : string) (a : RemoteAttestation) : RemoteAttestation :=
  {| at_platform := at_platform a; at_quote := at_quote a; at_reportData := at_reportData a;
     at_measurement := at_measurement a; at_eventLog := at_eventLog a; at_timestamp := t;
     at_nonce := at_nonce a; at_keys := at_keys a |}.

Definition with_quote (q : string) (a : RemoteAttestation) : RemoteAttestation :=
  {| at_platform := at_platform a; at_quote := q; at_reportData := at_reportData a;
     at_measurement := at_measurement a; at_eventLog := at_eventLog a; at_timestamp := at_timestamp a;
     at_nonce := at_nonce a; at_keys := at_keys a |}.

(** The checks after the binding depend on what they judge only. *)
Lemma verifyFetched_verdict fuel w nonce origin go co a a' :
  at_platform a' = at_platform a -> at_nonce a' = at_nonce a -> at_eventLog a' = at_eventLog a ->
  (forall n served m, same_verdict (verifyBinding a' n served m) (verifyBinding a n served m)) ->
  same_verdict (verifyQuote a') (verifyQuote a) ->
  same_verdict (verifyFetched fuel w nonce origin go co a') (verifyFetched fuel w nonce origin go co a).
Proof.
  intros Hp Hn Hl Hb Hq. unfold verifyFetched, file_nonce. rewrite Hp, Hn, Hl.
  destruct (bool_decide _); [done|]. apply then_verdict; [done|]. intros m.
  apply then_verdict; [done|]. intros served. apply then_verdict; [done|]. intros _.
  apply then_verdict; [apply Hb|]. intros valid. destruct valid; [|done]. cbn [negb].
  apply then_verdict; [exact Hq|]. intros _.
  by rewrite !(dropped_answer (verifyTimestamp _)) by apply verifyTimestamp_answers.
Qed.

Lemma passing_run_says_fresh fuel w nonce origin go co a : passes (verifyFetched fuel w nonce origin go co a) ->
  List.In (Success "Timestamp: Fresh") (verifyFetched fuel w nonce origin go co a).1.
Proof.
  unfold verifyFetched. destruct (bool_decide _); [by intros ?%exit_stops|]. intros H.
  apply (then_prints _ _ _ H). intros m Hm. apply (then_prints _ _ _ Hm). intros served Hs.
  apply (then_prints _ _ _ Hs). intros _ Hp. apply (then_prints _ _ _ Hp). intros valid Hv.
  destruct valid; cbn [negb] in *; [|by apply exit_stops in Hv].
  apply (then_prints _ _ _ Hv). intros _ H1. apply (then_prints _ _ _ H1). intros _ H2.
  apply (then_prints _ _ _ H2). intros _ H3. apply (then_prints _ _ _ H3). intros _ _.
  cbn [print fst]. apply in_or_app. left. right. right. right. by left.
Qed.

Lemma verifyQuote_timestamp a t : same_verdict (verifyQuote (with_timestamp t a)) (verifyQuote a).
Proof.
  unfold verifyQuote. cbn [with_timestamp at_platform]. destruct (on_tdx _); [|done].
  unfold verifyTdxQuote. cbn [with_timestamp at_quote at_measurement at_timestamp].
  destruct (_ <? 600)%nat; [done|]. do 2 (apply then_verdict; [done|]; intros _).
  rewrite !(dropped_answer (verifyCertificateChain _)) by apply verifyCertificateChain_answers.
  by rewrite !(dropped_answer (verifyTimestamp _)) by apply verifyTimestamp_answers.
Qed.

(** The age of an attestation never fails it: [verifyTimestamp] says whether it is fresh and
    nobody asks, so the verdict is the same for every timestamp, and a run that passes
    prints that the timestamp is fresh. *)
Theorem timestamp_is_not_enforced fuel w nonce origin go co a t :
  same_verdict (verifyFetched fuel w nonce origin go co (with_timestamp t a)) (verifyFetched fuel w nonce origin go co a)
  /\ (passes (verifyFetched fuel w nonce origin go co a) ->
      List.In (Success "Timestamp: Fresh") (verifyFetched fuel w nonce origin go co (with_timestamp t a)).1).
Proof.
  assert (H : same_verdict (verifyFetched fuel w nonce origin go co (with_timestamp t a))
                           (verifyFetched fuel w nonce origin go co a)).
  { apply verifyFetched_verdict; [done..|apply verifyQuote_timestamp]. }
  split; [exact H|]. intros Hp. apply passing_run_says_fresh. by rewrite H.
Qed.

(** Off TDX the quote is not read: a server that names any platform but the mock and the two
    TDX ones gets the same verdict with any quote. *)
Theorem other_platforms_need_no_quote fuel w nonce origin go co a q : on_tdx (at_platform a) = false ->
  same_verdict (verifyFetched fuel w nonce origin go co (with_quote q a)) (verifyFetched fuel w nonce origin go co a).
Proof.
  intros Hoff. apply verifyFetched_verdict; [done..| |].
  - intros n served m. unfold verifyBinding.
    assert (Heq : verifyKeyBinding sha256 sha384 from_value from_base64 verifyTypedData getAddress computeAddress
              (evidence (with_quote q a)) {| opt_nonce := n; servedCertificate := served; opt_keyManifest := m |}
            = verifyKeyBinding sha256 sha384 from_value from_base64 verifyTypedData getAddress computeAddress
              (evidence a) {| opt_nonce := n; servedCertificate := served; opt_keyManifest := m |}).
    { unfold verifyKeyBinding. cbn [evidence with_quote at_platform kb_platform kb_keys at_keys kb_reportData at_reportData].
      unfold on_tdx in Hoff. rewrite orb_comm in Hoff. by rewrite Hoff. }
    by rewrite Heq.
  - unfold verifyQuote. cbn [with_quote at_platform]. rewrite Hoff.
    repeat destruct (bool_decide _); done.
Qed.
End Verifier.

(** ** The command line *)

Record Invocation : Type := {
  inv_source : string;
  inv_rpc : string;
  inv_creditsRpc : string;
  inv_governance : option GovernanceOptions;
  inv_credits : option CreditsOptions;
}.

(** [Number(fromBlock)] on the texts of integers; BASE_RPC_URL and the first of
    ETHEREUM_RPC_URLS are the variables. [minDelay] is read only when an option uses it. *)
Definition read_arguments (block_number : string -> Z) (base_rpc ethereum_rpc : option string) (args : list string)
  : result Invocation :=
  let '(app, args) := flag "--app" args in
  let '(rpc, args) := flag "--rpc" args in
  let '(fromBlock, args) := flag "--from-block" args in
  let '(minDelay, args) := flag "--min-delay" args in
  let '(credits, args) := flag "--credits" args in
  let '(creditsRpc, args) := flag "--credits-rpc" args in
  let delay := match given_text minDelay with Some s => BigInt s | None => Ok DEFAULT_MIN_DELAY_SECONDS end in
  let* governance := match given_text app with
                     | None => Ok None
                     | Some a =>
                         let* d := delay in
                         Ok (Some {| go_app := a; go_fromBlock := block_number <$> given_text fromBlock; go_minDelay := d |})
                     end in
  let* creditsOptions := match given_text credits with
                         | None => Ok None
                         | Some c => let* d := delay in Ok (Some {| co_credits := c; co_minDelay := d |})
                         end in
  Ok {| inv_source := default "http://localhost:3000/attestation"%string (head args);
        inv_rpc := default (default "https://mainnet.base.org"%string base_rpc) rpc;
        inv_creditsRpc := default (default "https://ethereum-rpc.publicnode.com"%string ethereum_rpc) creditsRpc;
        inv_governance := governance; inv_credits := creditsOptions |}.

(** ** A concrete run against an enclave *)

Definition remote_of (a : BoundAttestation) : RemoteAttestation :=
  {| at_platform := platform_name (aq_platform (ba_quote a)); at_quote := aq_quote (ba_quote a);
     at_reportData := aq_reportData (ba_quote a); at_measurement := measurement (ba_quote a);
     at_eventLog := aq_eventLog (ba_quote a); at_timestamp := timestamp (ba_quote a);
     at_nonce := ba_nonce a; at_keys := ba_keys a |}.

(** The chain of [toy_reader], where the owner's contract governs [app]. *)
Definition reader_of (app : string) : ChainReader :=
  {| read_address := fun to method =>
       if bool_decide (method = "app"%string) then Ok app else read_address toy_reader to method;
     read_bool := read_bool toy_reader; read_uint := read_uint toy_reader;
     getBlockNumber := getBlockNumber toy_reader; getLogs := getLogs toy_reader |}.

Definition world_of (a : BoundAttestation) (signed : SignedKeyManifest) : World :=
  {| new_URL := fun s n => Ok ("https://enclave"%string, s +:+ "?nonce=" +:+ n);
     fetch_attestation := fun _ => Ok {| answer_ok := true; answer_json := Ok (remote_of a) |};
     read_file := fun _ => Throw (Error "no such file");
     fetch_manifest := fun _ => Ok {| answer_ok := true; answer_json := Ok signed |};
     peer_certificate := fun _ => Ok (Some [byte_of 7]);
     app_chain := reader_of (km_appId (Keys.manifest signed));
     credits_chain := toy_reader |}.

(** The same server over http, where there is no certificate to read. *)
Definition plain_world (a : BoundAttestation) (signed : SignedKeyManifest) : World :=
  {| new_URL := fun s n => Ok ("http://enclave"%string, s +:+ "?nonce=" +:+ n);
     fetch_attestation := fun _ => Ok {| answer_ok := true; answer_json := Ok (remote_of a) |};
     read_file := fun _ => Throw (Error "no such file");
     fetch_manifest := fun _ => Ok {| answer_ok := true; answer_json := Ok signed |};
     peer_certificate := fun _ => Throw (Error "ECONNREFUSED");
     app_chain := toy_reader; credits_chain := toy_reader |}.

Definition toy_run (a : BoundAttestation) (signed : SignedKeyManifest) : script line unit :=
  verifyAttestation toy_sha256 toy_sha384 toy_from_value of_hex (fun _ => []) toy_recover (fun x => Ok x)
    (fun p => Ok ("0x" +:+ to_hex p)) ascii_lower (fun _ => Some 0) 1000 20 (world_of a signed) (alloc 32)
    "https://enclave/attestation"
    (Some {| go_app := km_appId (Keys.manifest signed); go_fromBlock := None; go_minDelay := 700000 |})
    (Some {| co_credits := "0x05"; co_minDelay := 700000 |}).

(** What the enclave of [Attestation.v] serves, and its run. *)
Lemma toy_run_passes : exists s a signed, toy_started = Ok s
  /\ getAttestation toy_sha256 toy_host (Some (PhalaPlatform toy_host)) (toy_manager s) s (Some [byte_of 7]) (Some (alloc 32)) = Ok a
  /\ fresh_manifest toy_sha256 toy_crypto (Some [byte_of 7]) s = Ok (Some signed)
  /\ on_tdx (at_platform (remote_of a)) = true /\ passes (toy_run a signed).
Proof.
  destruct toy_started as [s|] eqn:Hs; [|vm_compute in Hs; discriminate].
  vm_compute in Hs. injection Hs as <-. do 3 eexists. split; [reflexivity|].
  do 3 (split; [vm_compute; reflexivity|]). eexists. vm_compute. reflexivity.
Qed.

Lemma passed_verification_holds_witness :
  exists a signed inputs expected, passes (toy_run a signed)
  /\ read_keys of_hex (at_keys (remote_of a)) = Ok inputs
  /\ buildReportData toy_sha256 inputs (Some (alloc 32)) = Ok expected
  /\ tdxQuoteReportData (of_hex (at_quote (remote_of a))) = Ok expected
  /\ tlsCertificateDer inputs = Some [byte_of 7].
Proof.
  destruct toy_run_passes as (s & a & signed & _ & _ & _ & Hon & H).
  destruct (passed_verification_holds toy_sha256 toy_sha384 toy_from_value of_hex (fun _ => []) toy_recover (fun x => Ok x)
              (fun p => Ok ("0x" +:+ to_hex p)) ascii_lower (fun _ => Some 0) 1000 20 (world_of a signed) (alloc 32)
              "https://enclave/attestation" _ _ eq_refl H)
    as (origin & url & a' & inputs & expected & Hu & Ha' & _ & Hi & He & _ & Hq & Hcert & _).
  injection Hu as <- <-.
  assert (a' = remote_of a) as -> by (unfold fetchAttestation in Ha'; destruct (is_url _); [by injection Ha'|discriminate]).
  exists a, signed, inputs, expected. split; [exact H|]. split; [exact Hi|]. split; [exact He|].
  split; [exact (proj1 (Hq Hon))|]. exact (Hcert eq_refl _ eq_refl).
Defined.

(** PASSED does not need a certificate: an enclave that binds none, asked over http, passes. *)
Example plain_http_passes_without_a_certificate : exists s a signed inputs, toy_started = Ok s
  /\ getAttestation toy_sha256 toy_host (Some (PhalaPlatform toy_host)) (toy_manager s) s None (Some (alloc 32)) = Ok a
  /\ fresh_manifest toy_sha256 toy_crypto None s = Ok (Some signed)
  /\ passes (verifyAttestation toy_sha256 toy_sha384 toy_from_value of_hex (fun _ => []) toy_recover (fun x => Ok x)
       (fun p => Ok ("0x" +:+ to_hex p)) ascii_lower (fun _ => Some 0) 1000 20 (plain_world a signed) (alloc 32)
       "http://enclave/attestation" None None)
  /\ read_keys of_hex (at_keys (remote_of a)) = Ok inputs /\ tlsCertificateDer inputs = None.
Proof.
  destruct toy_started as [s|] eqn:Hs; [|vm_compute in Hs; discriminate].
  vm_compute in Hs. injection Hs as <-. do 4 eexists. split; [reflexivity|]. do 2 (split; [vm_compute; reflexivity|]).
  split; [eexists; vm_compute; reflexivity|]. split; vm_compute; reflexivity.
Qed.

(** An --app whose value is missing asks for no governance check, as if it were not there. *)
Example trailing_app_skips_governance :
  rmap inv_governance (read_arguments (fun _ => 0) None None ["https://enclave/attestation"; "--app"]%string) = Ok None.
Proof. reflexivity. Qed.

Example arguments_are_read :
  rmap (fun i => (inv_source i, inv_governance i))
    (read_arguments (fun _ => 7) None None ["--app"; "0x01"; "https://enclave/attestation"; "--min-delay"; "60"; "--from-block"; "7"]%string)
  = Ok ("https://enclave/attestation"%string, Some {| go_app := "0x01"; go_fromBlock := Some 7; go_minDelay := 60 |}).
Proof. reflexivity. Qed.
