(* ===== verification/Checks.v ===== *)
(** * The checks of the build

    [scripts/testing/check-verifier-keys.ts], which compares the verification keys pinned in
    the repository with the proving keys and the Solidity verifiers;
    [scripts/testing/check-static-analysis.ts], which compares the findings of the analysers
    with their baselines; [scripts/setup/fetch-circuits.ts], which downloads the circuits
    and checks their hashes. snarkjs, Slither, circomspect, SHA-256, the network and the
    files are parameters. *)

From Stdlib Require Import Ascii String.
From S2P Require Import Prelude JsText Json Script.
Open Scope Z_scope.

(** ** check-verifier-keys.ts *)

Record Circuit : Type := { zkey : string; vkey : string; verifier : option string }.

Definition CIRCUITS : list (string * Circuit) :=
  [("request", {| zkey := "request.zkey"; vkey := "request_verification_key.json"; verifier := None |});
   ("settlement", {| zkey := "settlement.zkey"; vkey := "settlement_verification_key.json";
                     verifier := Some "SettlementVerifier.sol" |})]%string.

Abbreviation G1 := (list string).
Abbreviation G2 := (list (list string)).

Record VerificationKey : Type := {
  nPublic : Z;
  vk_alpha_1 : G1;
  vk_beta_2 : G2;
  vk_gamma_2 : G2;
  vk_delta_2 : G2;
  IC : list G1;
}.

(** [p[i][j]]: a missing pair throws, a missing coordinate is [undefined]. *)
Definition limb (p : G2) (i j : nat) : result (option string) :=
  let* l := of_option (TypeError "Cannot read properties of undefined") (p !! i) in Ok (l !! j).

Definition entry : Type := string * option string.

(** The four constants of a point of G2, its limbs swapped. *)
Definition g2_constants (name : string) (p : G2) : result (list entry) :=
  let* x1 := limb p 0 1 in
  let* x2 := limb p 0 0 in
  let* y1 := limb p 1 1 in
  let* y2 := limb p 1 0 in
  Ok [(name +:+ "x1", x1); (name +:+ "x2", x2); (name +:+ "y1", y1); (name +:+ "y2", y2)]%string.

Definition ic_constants (i : nat) (p : G1) : list entry :=
  [("IC" +:+ toString (Z.of_nat i) +:+ "x", p !! 0%nat); ("IC" +:+ toString (Z.of_nat i) +:+ "y", p !! 1%nat)]%string.

(** The names are distinct, so the Map holds every entry, in this order. *)
Definition expectedConstants (vk : VerificationKey) : result (list entry) :=
  let* beta := g2_constants "beta" (vk_beta_2 vk) in
  let* gamma := g2_constants "gamma" (vk_gamma_2 vk) in
  let* delta := g2_constants "delta" (vk_delta_2 vk) in
  Ok ([("alphax", vk_alpha_1 vk !! 0%nat); ("alphay", vk_alpha_1 vk !! 1%nat)]%string
      ++ beta ++ gamma ++ delta ++ concat (imap ic_constants (IC vk))).

(** [\w] and [\d]. *)
Definition word_char (c : ascii) : bool := is_alpha c || is_digit c || (code c =? 95).

Fixpoint take_chars (f : ascii -> bool) (l : list ascii) : list ascii :=
  match l with c :: l' => if f c then c :: take_chars f l' else [] | [] => [] end.

Fixpoint drop_chars (f : ascii -> bool) (l : list ascii) : list ascii :=
  match l with c :: l' => if f c then drop_chars f l' else l | [] => [] end.

Definition literal (w : string) (l : list ascii) : option (list ascii) :=
  if chars_prefix (chars w) l then Some (drop (String.length w) l) else None.

(** [uint256 constant (\w+) = (\d+);] at the head of a text: the captures and the rest. *)
Definition constant_at (l : list ascii) : option (string * string * list ascii) :=
  l1 ← literal "uint256 constant " l;
  let name := take_chars word_char l1 in
  l2 ← literal " = " (drop_chars word_char l1);
  let value := take_chars is_digit l2 in
  l3 ← literal ";" (drop_chars is_digit l2);
  if nonempty name && nonempty value then Some (of_chars name, of_chars value, l3) else None.

(** The matches of the regular expression; each is shorter than what is left, so the
    length of the text is fuel enough. A name set twice keeps its last value. *)
Fixpoint scan_constants (fuel : nat) (l : list ascii) (c : gmap string string) : gmap string string :=
  match fuel, l with
  | S f, _ :: l' =>
      match constant_at l with
      | Some (name, value, rest) => scan_constants f rest (<[name := value]> c)
      | None => scan_constants f l' c
      end
  | _, _ => c
  end.

Definition solidityConstants (source : string) : gmap string string :=
  scan_constants (String.length source) (chars source) ∅.

(** [/^IC\d+x$/]. *)
Definition ic_name (k : string) : bool :=
  match literal "IC" (chars k) with
  | Some l => nonempty (take_chars is_digit l) && bool_decide (drop_chars is_digit l = ["x"%char])
  | None => false
  end.

Inductive key_error : Type :=
| Trapdoor (file : string)
| OtherNPublic (file : string)
| OtherKey (file : string)
| OtherICCount (file : string) (count : nat)
| OtherConstant (file key : string).

(** Their JSON texts are equal exactly when the points are. *)
Definition trapdoorErrors (file : string) (vk : VerificationKey) : list key_error :=
  if bool_decide (vk_delta_2 vk = vk_gamma_2 vk) then [Trapdoor file] else [].

Section Keys.
(** [JSON.stringify] of a key without [vk_alphabeta_12]. *)
Context (canonical : VerificationKey -> list Z).
(** The keys pinned in the repository, those snarkjs exports, the Solidity sources. *)
Context (pinned_key exported_key : string -> result VerificationKey) (read_source : string -> result string).

Definition verifier_errors (file : string) (fromZkey : VerificationKey) (source : string) : result (list key_error) :=
  let sol := solidityConstants source in
  let icCount := size (filter (fun kv : string * string => ic_name kv.1 = true) sol) in
  let* expected := expectedConstants fromZkey in
  Ok ((if Z.of_nat icCount =? nPublic fromZkey + 1 then [] else [OtherICCount file icCount])
      ++ map (fun kv => OtherConstant file kv.1)
           (List.filter (fun kv => negb (bool_decide (sol !! kv.1 = kv.2))) expected)).

Definition check_circuit (circuit : Circuit) : result (list key_error) :=
  let* pinned := pinned_key (vkey circuit) in
  let* fromZkey := exported_key (zkey circuit) in
  let e1 := trapdoorErrors (vkey circuit) pinned in
  let e2 := if negb (nPublic pinned =? nPublic fromZkey) then [OtherNPublic (vkey circuit)]
            else if negb (bool_decide (canonical pinned = canonical fromZkey)) then [OtherKey (vkey circuit)] else [] in
  let* e3 := match verifier circuit with
             | None => Ok []
             | Some file => let* source := read_source file in verifier_errors file fromZkey source
             end in
  Ok (e1 ++ e2 ++ e3).

Fixpoint check_all (l : list (string * Circuit)) : result (list key_error) :=
  match l with
  | [] => Ok []
  | (_, circuit) :: l' =>
      let* errors := check_circuit circuit in
      let* rest := check_all l' in
      Ok (errors ++ rest)
  end.

(** [process.exit(errors.length ? 1 : 0)]; an exception exits with 1. *)
Definition check_verifier_keys : script key_error unit :=
  match check_all CIRCUITS with
  | Ok [] => ret tt
  | Ok errors => exit errors
  | Throw _ => exit []
  end.
End Keys.

(** ** What the checks of the keys show *)

(** The Solidity verifier holds exactly this key, its limbs of G2 swapped. *)
Record embeds (sol : gmap string string) (vk : VerificationKey) : Prop := {
  em_alpha : sol !! "alphax"%string = vk_alpha_1 vk !! 0%nat /\ sol !! "alphay"%string = vk_alpha_1 vk !! 1%nat;
  em_g2 : forall name p,
    (name, p) ∈ [("beta", vk_beta_2 vk); ("gamma", vk_gamma_2 vk); ("delta", vk_delta_2 vk)]%string ->
    exists px py, p !! 0%nat = Some px /\ p !! 1%nat = Some py
      /\ sol !! (name +:+ "x1")%string = px !! 1%nat /\ sol !! (name +:+ "x2")%string = px !! 0%nat
      /\ sol !! (name +:+ "y1")%string = py !! 1%nat /\ sol !! (name +:+ "y2")%string = py !! 0%nat;
  em_ic : forall i p, IC vk !! i = Some p ->
    sol !! ("IC" +:+ toString (Z.of_nat i) +:+ "x")%string = p !! 0%nat
    /\ sol !! ("IC" +:+ toString (Z.of_nat i) +:+ "y")%string = p !! 1%nat;
}.

Lemma filter_nil {A} (f : A -> bool) l x : List.filter f l = [] -> List.In x l -> f x = false.
Proof.
  intros H Hin. destruct (f x) eqn:E; [|done]. assert (Hf : List.In x (List.filter f l)) by (by apply filter_In).
  by rewrite H in Hf.
Qed.

Lemma g2_constants_ok name p l (sol : gmap string string) : g2_constants name p = Ok l ->
  (forall kv, List.In kv l -> sol !! kv.1 = kv.2) ->
  exists px py, p !! 0%nat = Some px /\ p !! 1%nat = Some py
    /\ sol !! (name +:+ "x1")%string = px !! 1%nat /\ sol !! (name +:+ "x2")%string = px !! 0%nat
    /\ sol !! (name +:+ "y1")%string = py !! 1%nat /\ sol !! (name +:+ "y2")%string = py !! 0%nat.
Proof.
  unfold g2_constants, limb. destruct (p !! 0%nat) as [px|], (p !! 1%nat) as [py|]; cbn [of_option rbind]; try discriminate.
  intros H Hs. injection H as <-. exists px, py. do 2 (split; [done|]).
  split; [apply (Hs (_, _)); by left|]. split; [apply (Hs (_, _)); right; by left|].
  split; [apply (Hs (_, _)); right; right; by left|]. apply (Hs (_, _)). right. right. right. by left.
Qed.

Lemma ic_in l i p kv : l !! i = Some p -> List.In kv (ic_constants i p) -> List.In kv (concat (imap ic_constants l)).
Proof.
  intros Hl Hin. apply in_concat. exists (ic_constants i p). split; [|done].
  apply list_elem_of_In. apply elem_of_lookup_imap. by exists i, p.
Qed.

Lemma expected_embeds vk l (sol : gmap string string) : expectedConstants vk = Ok l ->
  (forall kv, List.In kv l -> sol !! kv.1 = kv.2) -> embeds sol vk.
Proof.
  unfold expectedConstants. intros H Hs. apply rbind_ok in H as (beta & Hb & H).
  apply rbind_ok in H as (gamma & Hg & H). apply rbind_ok in H as (delta & Hd & H). injection H as <-.
  split.
  - split; [apply (Hs ("alphax"%string, _)); by left|]. apply (Hs ("alphay"%string, _)). right. by left.
  - intros name p Hin. rewrite !elem_of_cons in Hin. destruct Hin as [[= -> ->]|[[= -> ->]|[[= -> ->]|Hin]]].
    + apply (g2_constants_ok _ _ _ _ Hb). intros kv Hk. apply Hs. cbn [app]. right. right. rewrite !in_app_iff. tauto.
    + apply (g2_constants_ok _ _ _ _ Hg). intros kv Hk. apply Hs. cbn [app]. right. right. rewrite !in_app_iff. tauto.
    + apply (g2_constants_ok _ _ _ _ Hd). intros kv Hk. apply Hs. cbn [app]. right. right. rewrite !in_app_iff. tauto.
    + by apply elem_of_nil in Hin.
  - intros i p Hi. assert (Hic : forall kv, List.In kv (ic_constants i p) -> sol !! kv.1 = kv.2).
    { intros kv Hk. apply Hs. cbn [app]. right. right. rewrite !in_app_iff. do 3 right. by apply (ic_in _ i p). }
    split; apply (Hic (_, _)); [by left|right; by left].
Qed.

(** When the check of a circuit reports nothing, its pinned key is the one of its proving key,
    its delta is not its gamma, and its Solidity verifier, if it has one, embeds the key
    with one IC point more than there are public signals. *)
Theorem check_circuit_sound canonical pinned_key exported_key read_source circuit :
  check_circuit canonical pinned_key exported_key read_source circuit = Ok [] ->
  exists pinned vk, pinned_key (vkey circuit) = Ok pinned /\ exported_key (zkey circuit) = Ok vk
    /\ vk_delta_2 pinned <> vk_gamma_2 pinned /\ canonical pinned = canonical vk
    /\ forall file, verifier circuit = Some file -> exists source, read_source file = Ok source
         /\ embeds (solidityConstants source) vk
         /\ Z.of_nat (size (filter (fun kv : string * string => ic_name kv.1 = true) (solidityConstants source)))
            = nPublic vk + 1.
Proof.
  unfold check_circuit. intros H. apply rbind_ok in H as (pinned & Hp & H). apply rbind_ok in H as (vk & Hv & H).
  apply rbind_ok in H as (e3 & H3 & H). exists pinned, vk. do 2 (split; [done|]).
  assert (E : trapdoorErrors (vkey circuit) pinned = []
              /\ (if negb (nPublic pinned =? nPublic vk) then [OtherNPublic (vkey circuit)]
                  else if negb (bool_decide (canonical pinned = canonical vk)) then [OtherKey (vkey circuit)] else []) = []
              /\ e3 = []).
  { assert (Hnil : forall a b c : list key_error, Ok (a ++ b ++ c) = Ok [] -> a = [] /\ b = [] /\ c = []).
    { clear. intros a b c H. assert (E : a ++ b ++ c = []) by congruence.
      apply app_eq_nil in E as [-> E]. by apply app_eq_nil in E as [-> ->]. }
    exact (Hnil _ _ _ H). }
  destruct E as (E1 & E2 & ->). split; [|split].
  - unfold trapdoorErrors in E1. destruct (bool_decide_reflect (vk_delta_2 pinned = vk_gamma_2 pinned)) as [|Hne]; [discriminate|exact Hne].
  - destruct (nPublic pinned =? nPublic vk); [|discriminate]. cbn [negb] in E2. destruct (bool_decide_reflect (canonical pinned = canonical vk)) as [Hc|]; [exact Hc|discriminate].
  - intros file Hf. rewrite Hf in H3. apply rbind_ok in H3 as (source & Hs & H3). exists source. split; [done|].
    unfold verifier_errors in H3. apply rbind_ok in H3 as (expected & He & H3).
    assert (Hnil : forall a b : list key_error, Ok (a ++ b) = Ok [] -> a = [] /\ b = []).
    { clear. intros a b H. apply app_eq_nil. congruence. }
    apply Hnil in H3 as [H1 H2]. split.
    + apply (expected_embeds _ _ _ He). intros kv Hin. apply map_eq_nil in H2.
      apply (filter_nil _ _ kv H2), negb_false_iff, bool_decide_eq_true in Hin. exact Hin.
    + destruct (Z.eqb_spec (Z.of_nat (size (filter (fun kv : string * string => ic_name kv.1 = true) (solidityConstants source))))
                  (nPublic vk + 1)); done.
Qed.

Definition tiny_verifier : string :=
  "contract V { uint256 constant alphax = 1; uint256 constant alphay = 2; uint256  constant IC9x = 3;
   uint256 constant IC0x = 44;uint256 constant IC0y = 5; uint256 constant alphax = 7; }".

Example constants_are_read :
  map_to_list (solidityConstants tiny_verifier) ≡ₚ [("alphax", "7"); ("alphay", "2"); ("IC0x", "44"); ("IC0y", "5")]%string.
Proof.
  assert (H : solidityConstants tiny_verifier
    = list_to_map [("alphax", "7"); ("alphay", "2"); ("IC0x", "44"); ("IC0y", "5")]%string) by (vm_compute; reflexivity).
  rewrite H. apply map_to_list_to_map. rewrite <- (bool_decide_spec (NoDup _)). reflexivity.
Qed.

(** ** check-static-analysis.ts *)

Record Finding : Type := { fi_check : string; fi_file : string; fi_location : string; fi_description : string }.
Record BaselineEntry : Type := { ba_check : string; ba_file : string; ba_location : string; ba_reason : option string }.

Record SlitherElement : Type := {
  el_name : string; filename_relative : string; el_signature : option string; el_parent : option string;
}.
Record SlitherDetector : Type := { de_check : string; de_description : string; elements : list SlitherElement }.
Record SlitherOutput : Type := { so_success : bool; detectors : option (list SlitherDetector) }.

Fixpoint map_results {A B} (f : A -> result B) (l : list A) : result (list B) :=
  match l with
  | [] => Ok []
  | a :: l' => let* b := f a in let* rest := map_results f l' in Ok (b :: rest)
  end.

Definition newline : ascii := "010"%char.

(** A detector's finding, located by its first element. *)
Definition slither_finding (d : SlitherDetector) : result Finding :=
  let* e := of_option (TypeError "Cannot read properties of undefined") (head (elements d)) in
  let name := default (el_name e) (el_signature e) in
  Ok {| fi_check := de_check d;
        fi_file := "contracts/" +:+ filename_relative e;
        fi_location := match el_parent e with
                       | Some parent => if str_len parent =? 0 then name else (parent +:+ "." +:+ name)%string
                       | None => name
                       end;
        fi_description := default EmptyString (head (split newline (trim (de_description d)))) |}.

Definition slither (run : result SlitherOutput) : result (list Finding) :=
  let* out := run in
  if negb (so_success out) then Throw (Error "slither failed")
  else map_results slither_finding (default [] (detectors out)).

Record SarifResult : Type := { ruleId : string; text : string; uri : string; startLine : Z }.

(** The flagged line's own text locates a finding of circomspect; [pathname] and
    [relative] are of the URL and path modules. *)
Definition circomspect_finding (pathname : string -> result string) (relative : string -> string)
  (read : string -> result string) (r : SarifResult) : result Finding :=
  let* path := pathname (uri r) in
  let* source := read path in
  let* line := of_option (TypeError "Cannot read properties of undefined")
    (if startLine r - 1 <? 0 then None else split newline source !! Z.to_nat (startLine r - 1)) in
  Ok {| fi_check := ruleId r; fi_file := relative path; fi_location := trim line;
        fi_description := (text r +:+ " (line " +:+ toString (startLine r) +:+ ")")%string |}.

Definition matches (f : Finding) (b : BaselineEntry) : bool :=
  bool_decide (fi_check f = ba_check b) && bool_decide (fi_file f = ba_file b)
  && bool_decide (fi_location f = ba_location b).

Inductive baseline_error : Type :=
| NoReason (b : BaselineEntry)
| NewFinding (f : Finding)
| StaleEntry (b : BaselineEntry).

Definition has_reason (b : BaselineEntry) : bool :=
  match ba_reason b with Some r => negb (str_len (trim r) =? 0) | None => false end.

Definition baseline_errors (findings : list Finding) (baseline : list BaselineEntry) : list baseline_error :=
  map NoReason (List.filter (fun b => negb (has_reason b)) baseline)
  ++ map NewFinding (List.filter (fun f => negb (existsb (matches f) baseline)) findings)
  ++ map StaleEntry (List.filter (fun b => negb (existsb (fun f => matches f b) findings)) baseline).

(** [tools] gives a tool's findings and its baseline. *)
Definition check_static_analysis (tools : string -> option (result (list Finding) * result (list BaselineEntry)))
  (name : string) : script baseline_error unit :=
  match tools name with
  | None => exit []
  | Some (run, read) =>
      let! findings := lift run in
      let! baseline := lift read in
      match baseline_errors findings baseline with
      | [] => ret tt
      | errors => exit errors
      end
  end.

(** The check passes exactly when the findings and the baseline answer each other and every
    accepted finding says why. *)
Theorem static_analysis_passes_iff tools name findings baseline :
  tools name = Some (Ok findings, Ok baseline) ->
  passes (check_static_analysis tools name) <->
  (forall b, List.In b baseline -> has_reason b = true /\ exists f, List.In f findings /\ matches f b = true)
  /\ (forall f, List.In f findings -> exists b, List.In b baseline /\ matches f b = true).
Proof.
  intros Ht. unfold check_static_analysis. rewrite Ht.
  assert (Hp : passes (let! findings := lift (Ok findings) in let! baseline := lift (Ok baseline) in
                       match baseline_errors findings baseline with [] => ret tt | errors => exit errors end)
               <-> baseline_errors findings baseline = []).
  { unfold passes. cbn. destruct (baseline_errors findings baseline); cbn; split; (done || by eexists || by intros (? & ?)). }
  rewrite Hp. unfold baseline_errors. split.
  - intros H. apply app_eq_nil in H as [H1 H]. apply app_eq_nil in H as [H2 H3].
    apply map_eq_nil in H1, H2, H3. split.
    + intros b Hb. split; [by apply (filter_nil _ _ b H1), negb_false_iff in Hb|].
      apply (filter_nil _ _ b H3), negb_false_iff, existsb_exists in Hb. exact Hb.
    + intros f Hf. by apply (filter_nil _ _ f H2), negb_false_iff, existsb_exists in Hf.
  - intros [Hb Hf].
    assert (Hnone : forall (A : Type) (p : A -> bool) l, (forall x, List.In x l -> p x = true) ->
              List.filter (fun x => negb (p x)) l = []).
    { clear. intros A p l H. induction l as [|x l IH]; [done|]. cbn. rewrite (H x) by (by left). cbn [negb].
      apply IH. intros y Hy. apply H. by right. }
    rewrite !Hnone; [done|..].
    + intros b Hin. apply existsb_exists. apply (Hb b Hin).
    + intros f Hin. apply existsb_exists. apply (Hf f Hin).
    + intros b Hin. apply (Hb b Hin).
Qed.

(** ** fetch-circuits.ts *)

Record FetchAnswer : Type := { fa_ok : bool; fa_status : Z; fa_data : list byte }.

Record Manifest : Type := { release : string; files : list (string * string) }.

Inductive artifact_line : Type := Present (path : string) | Downloaded (path : string) | Refused (e : exn).

Section Artifacts.
(** The hexadecimal SHA-256, [join(BUILD_DIR, path)], [basename], the network, and whether
    a target can be written. *)
Context (sha256 : list byte -> string) (target basename : string -> string) (fetch : string -> result FetchAnswer)
  (writable : string -> result unit).

Abbreviation disk := (gmap string (list byte)).

Definition fetchArtifact (manifest : Manifest) (path hash : string) (d : disk) : disk * result artifact_line :=
  if match d !! target path with Some data => bool_decide (sha256 data = hash) | None => false end
  then (d, Ok (Present path))
  else
    let url := (release manifest +:+ "/" +:+ basename path)%string in
    match (let* response := fetch url in
           if negb (fa_ok response) then Throw (Error (url +:+ ": HTTP " +:+ toString (fa_status response)))
           else
             let actual := sha256 (fa_data response) in
             if negb (bool_decide (actual = hash))
             then Throw (Error (path +:+ ": expected sha256 " +:+ hash +:+ ", got " +:+ actual))
             else let* _ := writable (target path) in Ok (fa_data response)) with
    | Throw e => (d, Throw e)
    | Ok data => (<[target path := data]> d, Ok (Downloaded path))
    end.

(** [Object.entries] of the manifest, in order. *)
Fixpoint fetch_entries (manifest : Manifest) (l : list (string * string)) (d : disk) : disk * script artifact_line unit :=
  match l with
  | [] => (d, ret tt)
  | (path, hash) :: l' =>
      match fetchArtifact manifest path hash d with
      | (d', Throw e) => (d', exit [Refused e])
      | (d', Ok line) => let '(d'', m) := fetch_entries manifest l' d' in (d'', let! _ := print [line] in m)
      end
  end.

Definition fetch_circuits (manifest : Manifest) (d : disk) : disk * script artifact_line unit :=
  fetch_entries manifest (files manifest) d.

Definition holds (d : disk) (entry : string * string) : Prop :=
  exists data, d !! target entry.1 = Some data /\ sha256 data = entry.2.

Lemma fetchArtifact_ok manifest path hash d d' r : fetchArtifact manifest path hash d = (d', r) ->
  (d' = d /\ (is_ok r = true -> holds d (path, hash)))
  \/ exists data, d' = <[target path := data]> d /\ sha256 data = hash.
Proof.
  unfold fetchArtifact. intros H. destruct (d !! target path) as [data|] eqn:E.
  - destruct (bool_decide (sha256 data = hash)) eqn:Eh.
    + injection H as <- <-. left. split; [done|]. intros _. exists data. by apply bool_decide_eq_true in Eh.
    + destruct (let* response := _ in _) as [got|] eqn:Eg; injection H as <- <-; [|by left].
      right. exists got. split; [done|]. inv_ok. repeat case_match; inv_ok.
      by match goal with H : negb (bool_decide _) = false |- _ => apply negb_false_iff, bool_decide_eq_true in H end.
  - destruct (let* response := _ in _) as [got|] eqn:Eg; injection H as <- <-; [|by left].
    right. exists got. split; [done|]. inv_ok. repeat case_match; inv_ok.
    by match goal with H : negb (bool_decide _) = false |- _ => apply negb_false_iff, bool_decide_eq_true in H end.
Qed.

Lemma present_is_kept manifest path hash d : holds d (path, hash) -> fetchArtifact manifest path hash d = (d, Ok (Present path)).
Proof. intros (data & E & Eh). unfold fetchArtifact. cbn [fst snd] in *. by rewrite E, bool_decide_true. Qed.

Lemma fetch_entries_elsewhere manifest t l d d' m : t ∉ map (fun e => target e.1) l ->
  fetch_entries manifest l d = (d', m) -> d' !! t = d !! t.
Proof.
  revert d d' m. induction l as [|[p h] l IH]; intros d d' m Hn H; cbn [fetch_entries] in H; [by injection H as <- _|].
  cbn [map fst] in Hn. apply not_elem_of_cons in Hn as [Hne Hn].
  destruct (fetchArtifact manifest p h d) as [d1 r] eqn:E.
  assert (Hd1 : d1 !! t = d !! t).
  { apply fetchArtifact_ok in E as [[-> _]|(got & -> & _)]; [done|]. by rewrite lookup_insert_ne. }
  destruct r; [|by injection H as <- _]. destruct (fetch_entries manifest l d1) as [d2 m2] eqn:E2.
  injection H as <- _. by rewrite (IH d1 d2 m2 Hn E2).
Qed.

(** A file on disk is one that was there, or has the hash pinned for its path; when the
    command passes, every file of the manifest is there with its hash, and running it
    again asks the network for nothing. *)
Theorem fetched_files_are_pinned manifest d d' m : NoDup (map (fun e => target e.1) (files manifest)) ->
  fetch_circuits manifest d = (d', m) ->
  (forall t data, d' !! t = Some data -> d !! t = Some data
     \/ exists e, e ∈ files manifest /\ target e.1 = t /\ sha256 data = e.2)
  /\ (passes m -> Forall (holds d') (files manifest)).
Proof.
  unfold fetch_circuits. generalize (files manifest) as l. intros l. revert d m.
  induction l as [|[path hash] l IH]; intros d m Hd H; cbn [fetch_entries] in H.
  { injection H as <- <-. split; [intros t data Ht; by left|intros _; apply Forall_nil_2]. }
  apply NoDup_cons in Hd as [Hnin Hd]. cbn [fst] in Hnin.
  destruct (fetchArtifact manifest path hash d) as [d1 r] eqn:E1.
  assert (Hone : forall t data, d1 !! t = Some data -> d !! t = Some data \/ (target path = t /\ sha256 data = hash)).
  { intros t data Ht. apply fetchArtifact_ok in E1 as [[-> _]|(got & -> & Hh)]; [by left|].
    destruct (decide (target path = t)) as [<-|Hne]; [|left; by rewrite lookup_insert_ne in Ht].
    rewrite lookup_insert_eq in Ht. injection Ht as <-. by right. }
  destruct r as [line|e].
  2:{ injection H as <- <-. split; [|intros Hp; by apply exit_stops in Hp]. intros t data Ht.
      destruct (Hone t data Ht) as [|[? ?]]; [by left|right]. exists (path, hash). split; [apply list_elem_of_here|done]. }
  destruct (fetch_entries manifest l d1) as [d2 m2] eqn:E2. injection H as <- <-.
  destruct (IH d1 m2 Hd E2) as [Hold Hnew]. split.
  - intros t data Ht. destruct (Hold t data Ht) as [H1|(e & He & Hr)].
    + destruct (Hone t data H1) as [|[? ?]]; [by left|right]. exists (path, hash). split; [apply list_elem_of_here|done].
    + right. exists e. split; [by apply list_elem_of_further|done].
  - intros Hp. assert (Hp2 : passes m2) by (by destruct m2). specialize (Hnew Hp2). apply Forall_cons_2; [|exact Hnew].
    assert (Hheld : holds d1 (path, hash)).
    { apply fetchArtifact_ok in E1 as [[-> H]|(got & -> & Hh)]; [by apply H|].
      exists got. cbn [fst snd]. by rewrite lookup_insert_eq. }
    destruct Hheld as (data & Ht & Hh). exists data. split; [|exact Hh]. cbn [fst] in *.
    by rewrite (fetch_entries_elsewhere manifest (target path) l d1 d2 m2 Hnin E2).
Qed.

Lemma fetched_twice manifest d : Forall (holds d) (files manifest) ->
  fetch_circuits manifest d = (d, (map (fun e => Present e.1) (files manifest), inl tt)).
Proof.
  unfold fetch_circuits. induction 1 as [|[path hash] l H _ IH]; [done|]. cbn [fetch_entries map fst].
  rewrite present_is_kept by done. by rewrite IH.
Qed.
End Artifacts.
