(* ===== verification/Release.v ===== *)
(** * The command that proposes a release

    [scripts/governance/propose-release.ts] with [safeTransactionBuilderFile] of
    [src/governance/release-batch.ts]: it checks an app-compose.json, reads the governance
    of the app and writes the two files the Safe schedules and executes. The files, the
    chain, ethers and SHA-256 are parameters. *)

From Stdlib Require Import Ascii String.
From S2P Require Import Prelude Script JsText Json Utf8 JsCoerce Quote AppGovernance.
Open Scope Z_scope.

(** ** safeTransactionBuilderFile *)

Record BuilderTransaction : Type := { bt_to : string; bt_value : string; bt_data : string }.

Record BuilderFile : Type := {
  bf_chainId : string;
  bf_createdAt : Z;
  bf_name : string;
  bf_description : list Z;
  bf_transactions : list BuilderTransaction;
}.

(** [now] is [Date.now()]. *)
Definition safeTransactionBuilderFile (now chainId : Z) (name : string) (description : list Z)
  (transaction : string * string) : BuilderFile :=
  {| bf_chainId := toString chainId; bf_createdAt := now; bf_name := name; bf_description := description;
     bf_transactions := [{| bt_to := transaction.1; bt_value := "0"; bt_data := transaction.2 |}] |}.

(** ** The command *)

Inductive release_line : Type :=
| Failed (message : string)
| ComposeFault (f : compose_failure)
| ComposeHashIs (h : string)
| AlreadyAllowed
| Wrote (path : string) (content : BuilderFile)
| OperationIs (id : string)
| AddsHash (h : string)
| RemovesHash (h : list Z)
| ExecuteAfter (delay : Z).

(** What the command takes from outside: the files, the provider of an RPC with its
    [getNetwork], ethers, SHA-256, [Number] on a text ([None] is NaN), [path.join]
    and the clock. *)
Record ReleaseWorld : Type := {
  readFile : string -> result (list byte);
  docker_compose : result (list byte);
  mkdir : string -> result unit;
  writeFile : string -> result unit;
  provider : string -> ChainReader;
  getNetwork : string -> result Z;
  rw_getAddress : string -> result string;
  rw_toLowerCase : list Z -> list Z;
  rw_sha256 : list byte -> list byte;
  rw_abi : AbiCoder;
  rw_Number : string -> option Z;
  path_join : string -> string -> string;
  rw_now : Z;
}.

Section Command.
Context (w : ReleaseWorld).

(** [fromBlock ? Number(fromBlock) : undefined]: from a block that is NaN no range is
    read, as from one above the latest. *)
Definition first_block (reader : ChainReader) (fromBlock : option string) : option Z :=
  match given_text fromBlock with
  | None => None
  | Some text =>
      Some (match rw_Number w text with
            | Some n => n
            | None => match getBlockNumber reader with Ok latest => latest + 1 | Throw _ => 0 end
            end)
  end.

Definition allowed_hashes (g : AppGovernance) : list string :=
  map composeHash (List.filter allowed (composeHashes g)).

Definition release_batch (g : AppGovernance) (o : AppOwner) (hash : string) : ReleaseBatch :=
  buildReleaseBatch (rw_toLowerCase w) (rw_abi w) (ao_address o) (ao_timelock o) (ao_minDelay o)
    (code_units hash) (map code_units (allowed_hashes g)).

(** [composeHash.slice(2, 10)]. *)
Definition short_hash (hash : string) : string := of_chars (take 8 (drop 2 (chars hash))).

Definition description (hash : string) (b : ReleaseBatch) : list Z :=
  join_units (code_units ", ")
    (code_units ("Allow compose hash " +:+ hash) :: map (fun h => code_units "remove " ++ h) (retired b)).

Definition step_file (chainId : Z) (hash step : string) (b : ReleaseBatch) (transaction : string * string) : BuilderFile :=
  safeTransactionBuilderFile (rw_now w) chainId ("Longjing release " +:+ short_hash hash +:+ ": " +:+ step)
    (description hash b) transaction.

Definition step_path (out hash step : string) : string :=
  path_join w out ("release-" +:+ short_hash hash +:+ "-" +:+ step +:+ ".json")%string.

Definition write_step (out : string) (chainId : Z) (hash step : string) (b : ReleaseBatch) (transaction : string * string)
  : script release_line unit :=
  let path := step_path out hash step in
  let! _ := lift (writeFile w path) in
  print [Wrote path (step_file chainId hash step b transaction)].

Definition write_release (rpc out hash : string) (g : AppGovernance) (o : AppOwner) : script release_line unit :=
  let b := release_batch g o hash in
  let! chainId := lift (getNetwork w rpc) in
  let! _ := lift (mkdir w out) in
  let! _ := write_step out chainId hash "schedule" b (schedule b) in
  let! _ := write_step out chainId hash "execute" b (execute b) in
  print (OperationIs (operationId b) :: AddsHash hash :: map RemovesHash (retired b) ++ [ExecuteAfter (ao_minDelay o)]).

Definition governance_of (fuel : nat) (rpc app : string) (fromBlock : option string) : script release_line AppGovernance :=
  let reader := provider w rpc in
  match readAppGovernance (rw_getAddress w) reader fuel app (first_block reader fromBlock) None with
  | Some r => lift r
  | None => ([], inr OutOfFuel)
  end.

(** [main] once the arguments are read. *)
Definition propose (fuel : nat) (app rpc : string) (fromBlock : option string) (out appComposePath : string)
  : script release_line unit :=
  let! appCompose := lift (readFile w appComposePath) in
  let! dockerCompose := lift (docker_compose w) in
  let! failures := lift (checkAppCompose (from_utf8 appCompose) (from_utf8 dockerCompose)) in
  match failures with
  | _ :: _ => exit (map ComposeFault failures)
  | [] =>
      let hash := composeHashOf (rw_sha256 w) appCompose in
      let! _ := print [ComposeHashIs hash] in
      let! governance := governance_of fuel rpc app fromBlock in
      match appOwner governance with
      | None => exit [Failed "owned by another account, not a LongjingAppOwner"]
      | Some o =>
          let! _ := print (if bool_decide (hash ∈ allowed_hashes governance) then [AlreadyAllowed] else []) in
          write_release rpc out hash governance o
      end
  end.

(** The flags are taken out in this order, what is left starts with the path. *)
Definition propose_release (base_rpc : option string) (fuel : nat) (args : list string) : script release_line unit :=
  let '(app, args) := flag "--app" args in
  let '(rpc, args) := flag "--rpc" args in
  let '(fromBlock, args) := flag "--from-block" args in
  let '(out, args) := flag "--out" args in
  catch_exit (Failed "thrown")
    match given_text (head args), given_text app with
    | Some appComposePath, Some app =>
        propose fuel app (default (default "https://mainnet.base.org" base_rpc) rpc)%string fromBlock
          (default "." out)%string appComposePath
    | _, _ => exit [Failed "Usage"]
    end.
End Command.

(** ** What a release that was written does *)

Lemma lift_then_passes {L A B} (r : result A) (f : A -> script L B) :
  passes (then_ (lift r) f) <-> exists a, r = Ok a /\ passes (f a).
Proof.
  rewrite then_passes. split; intros (a & Ha & H); exists a; (split; [by apply (@lift_inl L)|exact H]).
Qed.

Lemma write_release_passes w rpc out hash g o : passes (write_release w rpc out hash g o) ->
  let b := release_batch w g o hash in
  exists chainId, getNetwork w rpc = Ok chainId
    /\ List.In (Wrote (step_path w out hash "schedule") (step_file w chainId hash "schedule" b (schedule b)))
         (write_release w rpc out hash g o).1
    /\ List.In (Wrote (step_path w out hash "execute") (step_file w chainId hash "execute" b (execute b)))
         (write_release w rpc out hash g o).1.
Proof.
  unfold write_release, write_step. set (b := release_batch w g o hash).
  intros (chainId & Hn & H)%lift_then_passes. exists chainId. split; [exact Hn|].
  rewrite Hn. cbn [lift ret then_] in *. apply lift_then_passes in H as ([] & Hm & H). rewrite Hm.
  destruct (writeFile w (step_path w out hash "schedule")) as [[]|]; [|by destruct H].
  destruct (writeFile w (step_path w out hash "execute")) as [[]|]; [|by destruct H].
  cbn. split; [by left|right; by left].
Qed.

(** When the command writes its two files, the app-compose.json deploys the repository's own
    compose file with pinned images, the chain says the app is governed by a timelock, both
    files go to that timelock, the first asking for its minimum delay, and the calls
    both encode leave, on an app that allows what its history says, exactly the build whose
    app-compose.json was given. *)
Theorem written_release_is_exact w fuel app rpc from out path :
  passes (propose w fuel app rpc from out path) ->
  exists appCompose dockerCompose g o chainId,
    readFile w path = Ok appCompose /\ docker_compose w = Ok dockerCompose
    /\ checkAppCompose (from_utf8 appCompose) (from_utf8 dockerCompose) = Ok []
    /\ (governance_of w fuel rpc app from).2 = inl g /\ appOwner g = Some o
    /\ let hash := composeHashOf (rw_sha256 w) appCompose in
       let b := release_batch w g o hash in
       (forall step, List.In step [("schedule"%string, schedule b); ("execute"%string, execute b)] ->
          step.2.1 = ao_timelock o
          /\ List.In (Wrote (step_path w out hash step.1) (step_file w chainId hash step.1 b step.2))
               (propose w fuel app rpc from out path).1)
       /\ (exists payloads, payloads = map (encode_execute (rw_abi w)) (release_calls (rb_composeHash b) (retired b))
            /\ (schedule b).2 = encode_schedule (rw_abi w) (map (fun _ => ao_address o) payloads)
                 (map (fun _ => 0) payloads) payloads (rb_composeHash b) (ao_minDelay o)
            /\ (execute b).2 = encode_executeBatch (rw_abi w) (map (fun _ => ao_address o) payloads)
                 (map (fun _ => 0) payloads) payloads (rb_composeHash b))
       /\ fold_left apply_call (release_calls (rb_composeHash b) (retired b))
            (list_to_set (map (rw_toLowerCase w) (map code_units (allowed_hashes g))))
          = {[ rw_toLowerCase w (code_units hash) ]}.
Proof.
  intros H. assert (Hrun := H). unfold propose in H.
  apply lift_then_passes in H as (appCompose & Hf & H). apply lift_then_passes in H as (dockerCompose & Hd & H).
  apply lift_then_passes in H as (failures & Hc & H). destruct failures; [|by apply exit_stops in H].
  apply then_passes in H as ([] & _ & H). apply then_passes in H as (g & Hg & H).
  destruct (appOwner g) as [o|] eqn:Ho; [|by apply exit_stops in H].
  apply then_passes in H as ([] & _ & H). apply write_release_passes in H as (chainId & _ & Hs & He).
  exists appCompose, dockerCompose, g, o, chainId. do 5 (split; [assumption|]). cbn zeta.
  split; [|split; [|exact (proj1 (release_leaves_one_build (rw_toLowerCase w) (rw_abi w) _ _ _ _ _))]].
  - assert (Hin : forall x, List.In x (write_release w rpc out (composeHashOf (rw_sha256 w) appCompose) g o).1 ->
                            List.In x (propose w fuel app rpc from out path).1).
    { intros x Hx. clear Hs He Hrun. unfold propose. rewrite Hf, Hd. cbn [lift ret then_]. rewrite Hc. cbn [then_].
      destruct (governance_of w fuel rpc app from) as [l r]. cbn [snd] in Hg. subst r. cbn [print then_]. rewrite Ho.
      destruct (write_release w rpc out (composeHashOf (rw_sha256 w) appCompose) g o) as [lw rw]. cbn [fst] in Hx.
      cbn. rewrite !in_app_iff. right. rewrite ?in_app_iff. tauto. }
    intros step [<-|[<-|[]]]; (split; [reflexivity|]); apply Hin; assumption.
  - eexists. split; [reflexivity|]. unfold release_batch, buildReleaseBatch; cbn [schedule execute snd rb_composeHash retired].
    rewrite !map_map. split; reflexivity.
Qed.

(** A --from-block that is not a number reads no history: the batch then retires no build,
    whatever is allowed on chain. *)
Lemma unreadable_block_retires_nothing w fuel rpc app text g o hash :
  given_text (Some text) = Some text -> rw_Number w text = None ->
  (governance_of w fuel rpc app (Some text)).2 = inl g -> retired (release_batch w g o hash) = [].
Proof.
  intros Ht Hn Hg. unfold governance_of, first_block in Hg. rewrite Ht, Hn in Hg. unfold readAppGovernance in Hg.
  destruct (rw_getAddress w app) as [a|]; cbn [rbind] in Hg; [|discriminate].
  destruct (read_address _ a "owner") as [ow|]; cbn [rbind] in Hg; [|discriminate].
  destruct (read_address _ a "pendingOwner") as [po|]; cbn [rbind] in Hg; [|discriminate].
  destruct (read_bool _ a "requireTcbUpToDate" []) as [tcb|]; cbn [rbind] in Hg; [|discriminate].
  destruct (readAppOwner _ a ow) as [ao|]; cbn [rbind] in Hg; [|discriminate].
  unfold readHistory in Hg. destruct (getBlockNumber (provider w rpc)) as [latest|]; [|discriminate].
  assert (Hscan : forall k, scan (provider w rpc) k a (default 10000 None) latest (default 0 (Some (latest + 1))) ([], [])
                            = Some (Ok ([], []))).
  { assert (Hl : (latest + 1 <=? latest) = false) by lia.
    intros k. destruct k; cbn [scan default from_option id]; by rewrite Hl. }
  rewrite Hscan in Hg. cbn in Hg. injection Hg as <-. reflexivity.
Qed.

(** ** A concrete release *)

Definition plain_coder : AbiCoder :=
  {| encode_execute := fun c => match c with AddComposeHash _ => "add" | RemoveComposeHash _ => "remove" end;
     encode_schedule := fun _ _ payloads _ delay => String.concat "," payloads +:+ "@" +:+ toString delay;
     encode_executeBatch := fun _ _ payloads _ => String.concat "," payloads;
     operation_id := fun _ _ _ _ => "op" |}%string.

Definition ascii_bytes (s : string) : list byte := utf8 (code_units s).

Definition pinned_compose : string :=
  "image: longjing@sha256:0123456789abcdef0123456789abcdef0123456789abcdef0123456789abcdef".

Definition toy_release : ReleaseWorld :=
  {| readFile := fun path =>
       Ok (utf8 (json_text ("{'docker_compose_file':'" +:+ pinned_compose +:+ "'}")));
     docker_compose := Ok (ascii_bytes pinned_compose);
     mkdir := fun _ => Ok tt; writeFile := fun _ => Ok tt;
     provider := fun _ => toy_reader; getNetwork := fun _ => Ok 8453; rw_getAddress := fun a => Ok a;
     rw_toLowerCase := ascii_lower; rw_sha256 := fun _ => map byte_of [1; 2; 3; 4; 5; 6];
     rw_abi := plain_coder; rw_Number := fun s => if bool_decide (s = "3"%string) then Some 3 else None; path_join := fun _ file => file; rw_now := 7 |}.

Definition written (m : script release_line unit) : list (string * list (string * string)) :=
  flat_map (fun l => match l with
                     | Wrote path f => [(path, map (fun t => (bt_to t, bt_data t)) (bf_transactions f))]
                     | _ => []
                     end) m.1.

Example a_release_is_written :
  written (propose_release toy_release None 20 ["--from-block"; "3"; "app-compose.json"; "--app"; "0x01"]%string)
  = [("release-01020304-schedule.json", [("0x33", "add,remove@700000")]);
     ("release-01020304-execute.json", [("0x33", "add,remove")])]%string.
Proof. vm_compute. reflexivity. Qed.

Example a_mistyped_block_keeps_the_old_build :
  written (propose_release toy_release None 20 ["--from-block"; "3b"; "app-compose.json"; "--app"; "0x01"]%string)
  = [("release-01020304-schedule.json", [("0x33", "add@700000")]);
     ("release-01020304-execute.json", [("0x33", "add")])]%string.
Proof. vm_compute. reflexivity. Qed.
