(* ===== verification/Demo.v ===== *)
(** * The demo

    [scripts/demo/demo.ts]: four actors play a deposit, requests, a double-spend, an
    understated exit and a withdrawal, and every goal of the project gets the status its
    checks give it. The script is a program over a store with one cell for every goal and
    every variable its closures share: an exception keeps what was written before it. The
    chain, forge, Nest and [fetch] are operations on a world. *)

From Stdlib Require Import Ascii String.
From S2P Require Import Prelude JsText HexText Utf8 JsNumber FieldElement Accumulator Slashing Json JsonText JsCoerce Gateway RefundSigner NoteClient Wire.
Open Scope Z_scope.

(** ** The goals *)

Inductive GoalStatus : Type := Verified | NotMet | NotCheckedYet.

#[export] Instance GoalStatus_eq_dec : EqDecision GoalStatus.
Proof. solve_decision. Defined.

Record Goal : Type := {
  label : list Z;
  expected : GoalStatus;
  issues : list Z;
  status : option GoalStatus;
  detail : option (list Z);
}.

Inductive goal_id : Type :=
| g_deposit | g_root | g_nullifier | g_refund | g_requestToDeposit | g_requestToRequest | g_refundOnchain
| g_withdrawalRecipient | g_solvency | g_slashing | g_understatedExit | g_closedNote | g_secretKey
| g_attestation | g_provider | g_withdrawal | g_walkaway.

#[export] Instance goal_id_eq_dec : EqDecision goal_id.
Proof. solve_decision. Defined.

Abbreviation text := source_text.

Definition goal (label : string) (expected : GoalStatus) (issues : list Z) (detail : option string) : Goal :=
  {| label := text label; expected := expected; issues := issues; status := None; detail := text <$> detail |}.

(** [Object.values(goals)], in this order. *)
Definition goals : list goal_id :=
  [g_deposit; g_root; g_nullifier; g_refund; g_requestToDeposit; g_requestToRequest; g_refundOnchain;
   g_withdrawalRecipient; g_solvency; g_slashing; g_understatedExit; g_closedNote; g_secretKey;
   g_attestation; g_provider; g_withdrawal; g_walkaway].

Definition goal_of (g : goal_id) : Goal :=
  match g with
  | g_deposit => goal "A deposit is recorded onchain, bound into its leaf" Verified [] None
  | g_root => goal "A request proof is against a recent onchain root" Verified [] None
  | g_nullifier => goal "A retry returns the same accumulator, a reused index is refused" Verified [] None
  | g_refund => goal "The accumulator grows by C_max − C_actual, signed by the key registered onchain" Verified [] None
  | g_requestToDeposit => goal "A request can't be linked to the deposit" Verified [] None
  | g_requestToRequest => goal "Two requests can't be linked to each other" Verified [] None
  | g_refundOnchain => goal "A request's refund never appears onchain" Verified [] None
  | g_withdrawalRecipient => goal "A withdrawal pays only the recipient in its proof" Verified [] None
  | g_solvency => goal "Solvency is enforced: an exit pays D + R − n · C_max" Verified [] None
  | g_slashing => goal "Anyone holding k slashes, and the caller gets the bounty, not the stake" Verified [] None
  | g_understatedExit => goal "An exit that understates usage is slashed during the window" Verified [] None
  | g_closedNote => goal "A closed note can't make requests" Verified [] None
  | g_secretKey => goal "The client sends nothing that contains the secret key" Verified [] None
  | g_attestation => goal "The client verifies the attestation before sending anything" NotCheckedYet [99] None
  | g_provider => goal "Protocol, pricing and refunds work with any provider" NotCheckedYet [] None
  | g_withdrawal => goal "A depositor can withdraw without the server" Verified [] None
  | g_walkaway => goal "Every depositor can exit if the operator and every host disappear" NotMet [157; 135]
                    (Some "no withdrawal page yet"%string)
  end.

(** ** The store *)

(** A line of the console: one that [check] prints, or any other. *)
Inductive line : Type :=
| Line (l : list Z)
| Checked (target : goal_id) (label : list Z) (ok : bool) (detail : list Z).

Inductive slot : Type :=
| GoalOf (g : goal_id)
| Console | Sent | Secrets | Note | FirstBody | FirstResponse | SecondBody | ExitArgs | Running | Env | World.

#[export] Instance slot_eq_dec : EqDecision slot.
Proof. solve_decision. Defined.

Section Store.
Context {App W : Type}.

Definition cell (x : slot) : Type :=
  match x with
  | GoalOf _ => Goal
  | Console => list line
  | Sent => list (list Z)
  | Secrets => list Z
  | Note => option NoteFile
  | FirstBody | SecondBody => option RequestBody
  | FirstResponse => option json
  | ExitArgs => option WithdrawalArgs
  | Running => option App
  | Env => gmap string string
  | World => W
  end.

Definition heap : Type := forall x, cell x.

Definition assign (x : slot) (v : cell x) (s : heap) : heap :=
  fun y => match decide (x = y) with
           | left H => eq_rect x cell v y H
           | right _ => s y
           end.

(** A step: an exception keeps the store as it was when it was thrown. *)
Definition M (A : Type) : Type := heap -> heap * result A.

#[global] Instance M_ret : MRet M := fun _ a s => (s, Ok a).
#[global] Instance M_bind : MBind M := fun _ _ f m s =>
  match m s with
  | (s', Ok a) => f a s'
  | (s', Throw e) => (s', Throw e)
  end.

Definition lift {A} (r : result A) : M A := fun s => (s, r).
Definition throw {A} (e : exn) : M A := lift (Throw e).
Definition read (x : slot) : M (cell x) := fun s => (s, Ok (s x)).
Definition write (x : slot) (v : cell x) : M unit := fun s => (assign x v s, Ok tt).
Definition out {A} (f : W -> W * result A) : M A := fun s => let '(w, r) := f (s World) in (assign World w s, r).

(** What a step does with an exception. *)
Definition catching {A} (m : M A) (handler : exn -> M A) : M A := fun s =>
  match m s with
  | (s', Throw e) => handler e s'
  | r => r
  end.

Definition log (l : list Z) : M unit := lines ← read Console; write Console (lines ++ [Line l]).
Definition step (title : string) : M unit := log (10 :: text title).

(** What a check makes of its goal: [??=] keeps a status, a failure does not. *)
Definition checked_goal (label : list Z) (ok : bool) (detail : list Z) (g : Goal) : Goal :=
  if ok then
    {| Demo.label := Demo.label g; expected := expected g; issues := issues g;
       status := Some (default Verified (status g)); Demo.detail := Demo.detail g |}
  else
    {| Demo.label := Demo.label g; expected := expected g; issues := issues g; status := Some NotMet;
       Demo.detail := Some (if bool_decide (detail = []) then label else label ++ text ": " ++ detail) |}.

Definition check (target : goal_id) (label : list Z) (ok : bool) (detail : list Z) : M unit :=
  lines ← read Console;
  _ ← write Console (lines ++ [Checked target label ok detail]);
  g ← read (GoalOf target);
  write (GoalOf target) (checked_goal label ok detail g).

Definition message (e : exn) : list Z :=
  code_units (match e with HttpException _ m | JsError _ m => m end).

Definition verify (target : goal_id) (checks : M unit) : M unit :=
  catching checks (fun e => check target (message e) false []).

Definition required {A} (value : option A) (what : string) : M A :=
  lift (of_option (Error ("no " +:+ what +:+ ", an earlier goal failed")) value).

(** How a call on the contract ends: another error than a revert is thrown. *)
Inductive call : Type := Succeeds | Reverts (name : string) (args : list (list Z)).

Definition revertOf (c : M call) : M (list Z) :=
  c ← c;
  mret (match c with
        | Succeeds => []
        | Reverts name args =>
            if bool_decide (name = "Error"%string) then default (text "undefined") (head args) else code_units name
        end).

(** ** The report *)

Definition status_text (st : GoalStatus) : string :=
  match st with Verified => "verified" | NotMet => "not met" | NotCheckedYet => "not checked yet" end.

Definition MARKS (st : GoalStatus) : string :=
  match st with Verified => "✓" | NotMet => "✗" | NotCheckedYet => "–" end.

Definition ISSUES : string := "https://github.com/w3hc/longjing/issues".

(** [padEnd] to the longest status. *)
Definition width : nat :=
  fold_right (fun st n => Nat.max (String.length (status_text st)) n) 0%nat [Verified; NotMet; NotCheckedYet].
Definition padded (s : string) : list Z := code_units s ++ repeat 32 (width - String.length s).

Definition shown (g : Goal) : GoalStatus :=
  default (match expected g with Verified => NotMet | st => st end) (status g).

Definition regressed (g : Goal) : bool :=
  bool_decide (expected g = Verified) && negb (bool_decide (shown g = Verified)).

Definition row (g : Goal) : list Z :=
  let detail := default (match expected g, status g with Verified, None => text "not run" | _, _ => [] end) (detail g) in
  let issues := join " " (map (fun n => ISSUES +:+ "/" +:+ toString n)%string (issues g)) in
  text "  " ++ text (MARKS (shown g)) ++ [32] ++ padded (status_text (shown g)) ++ text "  " ++ label g
  ++ (if bool_decide (detail = []) then [] else text " (" ++ detail ++ text ")")
  ++ (if bool_decide (issues = EmptyString) then [] else text "  " ++ code_units issues).

Fixpoint rows (gs : list goal_id) : M bool :=
  match gs with
  | [] => mret false
  | x :: gs =>
      g ← read (GoalOf x);
      _ ← log (row g);
      _ ← (if negb (bool_decide (expected g = Verified)) && bool_decide (shown g = Verified)
           then log (text "    now verified: update its expected status in demo.ts") else mret tt);
      rest ← rows gs;
      mret (regressed g || rest)
  end.

Definition report : M bool := _ ← log (10 :: text "Goals"); rows goals.
End Store.
Arguments heap : clear implicits.
Arguments M : clear implicits.
Arguments cell : clear implicits.

(** ** What a request shows *)

Section Fields.

Definition put (k v : list Z) (l : list (list Z * list Z)) : list (list Z * list Z) :=
  if existsb (fun kv => bool_decide (kv.1 = k)) l
  then map (fun kv => if bool_decide (kv.1 = k) then (k, v) else kv) l
  else l ++ [(k, v)].

Definition map_get (k : list Z) (l : list (list Z * list Z)) : option (list Z) :=
  snd <$> List.find (fun kv => bool_decide (kv.1 = k)) l.

(** [BigInt(text).toString()], or the text. *)
Definition normalized (t : list Z) : list Z :=
  match BigInt (of_chars (map narrow t)) with Ok z => code_units (toString z) | Throw _ => t end.

(** [path ? `${path}.${key}` : key]. *)
Definition under (path key : list Z) : list Z :=
  match path with [] => key | _ => path ++ 46 :: key end.

(** A text, a number, a boolean or null is a leaf. *)
Fixpoint walk (v : json) (path : list Z) (fields : list (list Z * list Z)) : list (list Z * list Z) :=
  match v with
  | JObj entries =>
      (fix go l fields := match l with
                          | [] => fields
                          | (key, child) :: l => go l (walk child (under path key) fields)
                          end) entries fields
  | JArr items =>
      (fix go i l fields := match l with
                            | [] => fields
                            | child :: l => go (i + 1) l (walk child (under path (code_units (toString i))) fields)
                            end) 0 items fields
  | v =>
      if bool_decide (path = code_units "proof") || bool_decide (path = code_units "payload") then fields
      else match js_string v with Ok t => put path (normalized t) fields | Throw _ => fields end
  end.

Definition publicFields (body : RequestBody) : list (list Z * list Z) := walk (request_json body) [] [].

Definition SHARED_BY_DESIGN : list (list Z) := [code_units "merkleRoot"].

(** The names both requests give the same value. *)
Definition shared_fields (first second : list (list Z * list Z)) : list (list Z) :=
  map fst (List.filter (fun kv => negb (bool_decide (kv.1 ∈ SHARED_BY_DESIGN))
                                  && bool_decide (map_get kv.1 second = Some kv.2)) first).

(** The names whose value is a commitment, a leaf or the deposit. *)
Definition linked_fields (known leaves : list (list Z)) (deposit : Z) (fields : list (list Z * list Z)) : list (list Z) :=
  map fst (List.filter (fun kv => bool_decide (kv.2 ∈ known)
                                  || negb (bool_decide (kv.2 = code_units "0")) && bool_decide (kv.2 ∈ leaves)
                                  || bool_decide (kv.2 = code_units (toString deposit))) fields).

(** [String.prototype.includes]. *)
Fixpoint units_prefix (p l : list Z) : bool :=
  match p, l with
  | [], _ => true
  | a :: p', b :: l' => (a =? b) && units_prefix p' l'
  | _ :: _, [] => false
  end.

Fixpoint units_include (p l : list Z) : bool :=
  units_prefix p l || match l with [] => false | _ :: l' => units_include p l' end.

Definition units_lower (l : list Z) : list Z := map (fun u => if (65 <=? u) && (u <=? 90) then u + 32 else u) l.

(** [k.toString()] and [k.toString(16)]. *)
Definition key_forms (secrets : list Z) : list (list Z) :=
  flat_map (fun k => [code_units (toString k); code_units (toString16 k)]) secrets.

Definition leaked (forms sent : list (list Z)) : list (list Z) :=
  List.filter (fun json => existsb (fun form => units_include form (units_lower json)) forms) sent.
End Fields.

(** ** The options *)

Record Options : Type := {
  gateway : option string;
  o_contract : option string;
  o_rpcUrl : string;
  aliceKey : string;
  slasherKey : string;
  deposit : Z;
}.

Definition invalid_option : exn := TypeError "ERR_PARSE_ARGS_INVALID_OPTION_VALUE".
Definition unknown_option : exn := TypeError "ERR_PARSE_ARGS_UNKNOWN_OPTION".
Definition unexpected_positional : exn := TypeError "ERR_PARSE_ARGS_UNEXPECTED_POSITIONAL".

(** The name and the value of [--name=value]; [None] without an equals sign. *)
Fixpoint equals_sign (l acc : list ascii) : option (string * string) :=
  match l with
  | [] => None
  | c :: l' => if (code c =? 61) && nonempty acc then Some (of_chars (rev acc), of_chars l') else equals_sign l' (c :: acc)
  end.

(** Node's [parseArgs] in its strict mode, for options that take a text. *)
Fixpoint parseArgs (names : list string) (args : list string) (values : gmap string string)
  : result (gmap string string) :=
  match args with
  | [] => Ok values
  | a :: rest =>
      if bool_decide (a = "--"%string) then
        match rest with [] => Ok values | _ => Throw unexpected_positional end
      else if startsWith a "--" then
        match equals_sign (drop 2 (chars a)) [] with
        | Some (name, v) =>
            if bool_decide (name ∈ names) then parseArgs names rest (<[name := v]> values) else Throw unknown_option
        | None =>
            if negb (bool_decide (slice_from 2 a ∈ names)) then Throw unknown_option
            else match rest with
                 | [] => Throw invalid_option
                 | v :: rest' =>
                     if (1 <? str_len v) && startsWith v "-" then Throw invalid_option
                     else parseArgs names rest' (<[slice_from 2 a := v]> values)
                 end
        end
      else if (1 <? str_len a) && startsWith a "-" then Throw unknown_option
      else Throw unexpected_positional
  end.

(** [replace(/\/$/, '')]. *)
Definition without_slash (s : string) : string :=
  match rev (chars s) with
  | c :: l => if code c =? 47 then of_chars (rev l) else s
  | [] => s
  end.

Definition truthy (v : option string) : option string :=
  match v with Some s => if str_len s =? 0 then None else Some s | None => None end.

Definition RPC_URL : string := "http://127.0.0.1:8545".

Section Parse.
(** The private key of the account Anvil derives at an index, and ethers' [parseEther]. *)
Context (anvilKey : Z -> string) (parseEther : string -> result Z).

Definition ALICE_KEY : string := anvilKey 1.
Definition SLASHER_KEY : string := anvilKey 2.

Definition parseOptions (env : gmap string string) (argv : list string) : result Options :=
  let* values := parseArgs ["gateway"; "contract"; "rpc"; "deposit"]%string argv ∅ in
  let* deposit := parseEther (default "0.01"%string (values !! "deposit"%string)) in
  match truthy (values !! "gateway"%string), truthy (values !! "contract"%string), truthy (values !! "rpc"%string) with
  | None, None, None =>
      Ok {| gateway := None; o_contract := None; o_rpcUrl := RPC_URL; aliceKey := ALICE_KEY;
            slasherKey := SLASHER_KEY; deposit := deposit |}
  | Some gateway, Some contract, Some rpc =>
      let* aliceKey := of_option (Error "Set DEMO_PRIVATE_KEY to the wallet that pays the deposits")
                         (truthy (env !! "DEMO_PRIVATE_KEY"%string)) in
      Ok {| gateway := Some (without_slash gateway); o_contract := Some contract; o_rpcUrl := rpc;
            aliceKey := aliceKey; slasherKey := default aliceKey (env !! "DEMO_SLASHER_PRIVATE_KEY"%string);
            deposit := deposit |}
  | _, _, _ => Throw (Error "--gateway, --contract and --rpc go together")
  end.
End Parse.

(** ** Deployment *)

Definition DEPLOYED : list ascii := chars "LongjingCredits deployed at: 0x".

(** The first match of the address in forge's output. *)
Fixpoint deployed_address (l : list ascii) : option string :=
  match l with
  | [] => None
  | _ :: l' =>
      let digits := take 40 (drop (length DEPLOYED) l) in
      if chars_prefix DEPLOYED l && (length digits =? 40)%nat && forallb is_hex_digit digits
      then Some (of_chars ("0"%char :: "x"%char :: digits))
      else deployed_address l'
  end.

(** The base64 of [Buffer.alloc(n)]. *)
Definition zeros_base64 (n : nat) : string :=
  of_chars (repeat "A"%char (4 * (n / 3)) ++ match (n mod 3)%nat with
                                             | 0%nat => []
                                             | 1%nat => ["A"; "A"; "="; "="]%char
                                             | _ => ["A"; "A"; "A"; "="]%char
                                             end).

Definition server_env (workDir contract : string) (env : gmap string string) : gmap string string :=
  foldr delete
    (foldr (fun kv m => <[kv.1 := kv.2]> m) env
       [("NODE_ENV", "development"); ("ANVIL_RPC_URL", RPC_URL); ("ZK_CONTRACT_ADDRESS", contract);
        ("DATA_DIR", workDir); ("KMS_URL", "http://localhost:3001");
        ("ADMIN_MLKEM_PUBLIC_KEY", zeros_base64 1568); ("ADMIN_MLKEM_PRIVATE_KEY", zeros_base64 3168)]%string)
    ["ANTHROPIC_API_KEY"; "SERVER_TX_PRIVATE_KEY"; "ETHEREUM_RPC_URLS"; "DSTACK_SIMULATOR_ENDPOINT"]%string.

(** ** The actors' world *)

(** What the chain answers at one moment: the reads [scripts/client/note.ts] makes and the
    others of the demo. [Deposited] is the first argument of each event of that name,
    [logs_from] the number of logs of the contract from a block on, [static_initiate] the
    call that is not sent. *)
Record Ledger : Type := {
  for_note : NoteClient.Contract;
  blockNumber : result Z;
  leaf_at : Z -> result string;
  getLeaves : result (list string);
  Deposited : result (list string);
  logs_from : Z -> result Z;
  serverAddress : result string;
  SLASH_BOUNTY : result Z;
  getBalance : string -> result Z;
  static_initiate : string -> WithdrawalArgs -> result call;
}.

(** Each transaction is sent and waited for. [ledger] and the transactions take the RPC
    and the address of the contract, a transaction the key of its wallet. [send_slash]
    answers the gas used and its price, [stored] the columns of a row. *)
Record Actors (App W : Type) : Type := {
  forge : W -> W * result string;
  boot : gmap string string -> W -> W * result App;
  getUrl : App -> W -> W * result string;
  close : App -> W -> W * result unit;
  stored : App -> string -> W -> option (list (string * string));
  fetch : string -> list Z -> W -> W * result (Z * list Z);
  randomBytes : W -> W * result (list byte);
  randomAddress : W -> W * result string;
  wallet_address : string -> result string;
  ledger : string -> string -> W -> Ledger;
  send_deposit : string -> string -> string -> string -> Z -> W -> W * result unit;
  send_slash : string -> string -> string -> Z -> W -> W * result (Z * Z);
  send_initiate : string -> string -> string -> WithdrawalArgs -> W -> W * result unit;
  send_finalize : string -> string -> string -> string -> W -> W * result unit;
  send : string -> string -> list Z -> W -> W * result unit;
}.
Arguments forge {App W}. Arguments boot {App W}. Arguments getUrl {App W}. Arguments close {App W}.
Arguments stored {App W}. Arguments fetch {App W}. Arguments randomBytes {App W}. Arguments randomAddress {App W}.
Arguments wallet_address {App W}. Arguments ledger {App W}. Arguments send_deposit {App W}.
Arguments send_slash {App W}. Arguments send_initiate {App W}. Arguments send_finalize {App W}. Arguments send {App W}.

Section Script.
Context {App W : Type} (actors : Actors App W).
Context (sha256 : list byte -> list byte) (gens : Generators) (lib : Libraries).
Context (anvilKey : Z -> string) (parseEther : string -> result Z) (workDir : string).

Abbreviation P := (M App W).

(** ** Deployment and server *)

Definition deploy : P string :=
  stdout ← out (forge actors);
  lift (of_option (Error "Deployment failed") (deployed_address (chars stdout))).

Definition startServer (contract : string) : P App :=
  env ← read Env;
  _ ← write Env (server_env workDir contract env);
  out (boot actors (server_env workDir contract env)).

Definition getStored (app : App) (nullifier : string) : P (option (list (string * string))) :=
  w ← read World;
  mret (stored actors app nullifier w).

(** [await app?.close()]. *)
Definition close_app : P unit :=
  app ← read Running;
  match app with Some a => out (close actors a) | None => mret tt end.

(** ** What the steps share *)

(** The constants of [main]: the options, the contract, the URL of the gateway, C_MAX. *)
Context (options : Options) (address url : string) (cMax : Z).

Abbreviation chain := (ledger actors (o_rpcUrl options) address).

Definition look {A} (f : Ledger -> result A) : P A := w ← read World; lift (f (chain w)).
Definition note_view : P NoteClient.Contract := w ← read World; mret (for_note (chain w)).

Definition bigint (s : string) : P Z := lift (BigInt s).

(** The status and the JSON of an answer. *)
Definition post (body : RequestBody) : P (Z * json) :=
  let text := JSON_text (request_json body) in
  sent ← read Sent;
  _ ← write Sent (sent ++ [text]);
  answer ← out (fetch actors (url +:+ "/longjing/request")%string text);
  json ← lift (JSON_parse answer.2);
  mret (answer.1, json).

Definition open : P NoteFile :=
  bytes ← out (randomBytes actors);
  note ← lift (newNote (o_rpcUrl options) address bytes);
  k ← bigint (secretKey note);
  secrets ← read Secrets;
  _ ← write Secrets (secrets ++ [k]);
  commitment ← lift (commitmentOf lib note);
  _ ← out (send_deposit actors (o_rpcUrl options) address (aliceKey options) commitment (deposit options));
  mret note.

Definition statusOf (note : NoteFile) : P Z :=
  commitment ← lift (commitmentOf lib note);
  n ← look (fun l => NoteClient.getNote (for_note l) commitment);
  let '(_, _, _, status) := n in mret status.

Fixpoint each {A B} (f : A -> P B) (l : list A) : P (list B) :=
  match l with
  | [] => mret []
  | x :: l => y ← f x; ys ← each f l; mret (y :: ys)
  end.

Definition commitments : P (list (list Z)) :=
  events ← look Deposited;
  each (fun a => z ← bigint a; mret (code_units (toString z))) events.

(** A pending request is given back without random bytes. *)
Definition prove_request (note : NoteFile) (payload : string) : P (RequestBody * NoteFile) :=
  view ← note_view;
  match pending note with
  | Some _ => lift (proveRequest sha256 lib note view [] [] (text payload) None)
  | None =>
      nonce ← out (randomBytes actors);
      rerandomizer ← out (randomBytes actors);
      lift (proveRequest sha256 lib note view nonce rerandomizer (text payload) None)
  end.

(** [receive] reads the properties of the answer once it knows a request is pending. *)
Definition receive_reply (note : NoteFile) (answer : json) : P NoteFile :=
  view ← note_view;
  match pending note with
  | None => throw (Error "No request is pending for this note")
  | Some _ => reply ← lift (read_reply answer); lift (receive gens lib note view reply)
  end.

Definition prove_withdrawal (note : NoteFile) (recipient : string) (claimed : option Z) : P WithdrawalArgs :=
  view ← note_view;
  lift (proveWithdrawal lib note view recipient claimed).

Definition initiate (args : WithdrawalArgs) : P unit :=
  out (send_initiate actors (o_rpcUrl options) address (aliceKey options) args).

Definition note_ : P NoteFile := v ← read Note; required v "note".
Definition firstBody : P RequestBody := v ← read FirstBody; required v "request".
Definition secondBody : P RequestBody := v ← read SecondBody; required v "request".
Definition firstResponse : P json := v ← read FirstResponse; required v "response".
Definition exitArgs : P WithdrawalArgs := v ← read ExitArgs; required v "withdrawal proof".

Definition http (st : Z) : list Z := text "HTTP " ++ code_units (toString st).

(** [`${v}`]. *)
Definition js_text (v : jsv) : result (list Z) :=
  match v with None => Ok (text "undefined") | Some v => js_string v end.

(** ** 3. Alice deposits and sends a request *)

Definition deposit_checks : P unit :=
  note ← open;
  _ ← write Note (Some note);
  commitment ← lift (commitmentOf lib note);
  n ← look (fun l => NoteClient.getNote (for_note l) commitment);
  let '(amount, _, leafIndex, _) := n in
  _ ← check g_deposit (text "the note holds the whole deposit") (amount =? deposit options) [];
  poseidonLeaf ← look (fun l => leaf_at l leafIndex);
  leaf ← bigint poseidonLeaf;
  c ← bigint commitment;
  check g_deposit (text "its leaf is computed onchain from the deposit") (negb (leaf =? 0) && negb (leaf =? c)) [].

Definition root_checks : P unit :=
  note ← note_;
  proved ← prove_request note "What does 苟全性命於亂世，不求聞達於諸侯。mean?";
  let '(body, note) := proved in
  _ ← write Note (Some note);
  _ ← write FirstBody (Some body);
  root ← bigint (req_merkleRoot body);
  latest ← look (fun l => NoteClient.merkleRoot (for_note l));
  latest ← bigint latest;
  _ ← check g_root (text "the proof's root is the contract's latest") (root =? latest) [];
  res ← post body;
  _ ← check g_root (text "the server accepts it") (res.1 =? 200) (http res.1 ++ [32] ++ JSON_text res.2);
  write FirstResponse (Some res.2).

Definition refund_checks : P unit :=
  response ← firstResponse;
  refund ← lift (bigint_text "refund" (Some response));
  refund ← bigint refund;
  _ ← check g_refund (text "the refund is C_max − C_actual, between 0 and C_max")
        ((0 <? refund) && (refund <=? cMax)) (code_units (toString refund) ++ text " wei");
  note ← note_;
  note ← receive_reply note response;
  _ ← write Note (Some note);
  check g_refund (text "the signed accumulator adds up") (bool_decide (t_index (opening note) = "1"%string)) [].

(** ** 4. Alice retries, then sends a second request *)

Definition accumulator_text (v : jsv) : option (list Z) := JSON_text <$> v.

Definition retry_checks : P unit :=
  body ← firstBody;
  retry ← post body;
  same ← (if retry.1 =? 200 then
            first ← lift (get_prop "accumulator" (Some retry.2));
            response ← firstResponse;
            second ← lift (get_prop "accumulator" (Some response));
            mret (bool_decide (accumulator_text first = accumulator_text second))
          else mret false);
  check g_nullifier (text "a retry gets the same accumulator back") same (http retry.1).

(** The body of the answer is left out of the message. *)
Definition second_request : P unit :=
  note ← note_;
  proved ← prove_request note "Who wrote 出師表?";
  let '(body, note) := proved in
  _ ← write SecondBody (Some body);
  res ← post body;
  if negb (res.1 =? 200) then throw (Error ("the second request failed: HTTP " +:+ toString res.1))
  else note ← receive_reply note res.2; write Note (Some note).

(** ** 5. Linking the requests *)

Definition request_to_request_checks : P unit :=
  first ← firstBody;
  second ← secondBody;
  let shared := shared_fields (publicFields first) (publicFields second) in
  check g_requestToRequest (text "the two requests share no value") (bool_decide (shared = []))
    (text "both carry the same " ++ JsCoerce.join_units (text ", ") shared).

(** The columns that are neither x nor y. *)
Definition extra_columns (row : option (list (string * string))) : list string :=
  List.filter (fun k => negb (bool_decide (k ∈ ["x"; "y"]%string))) (map fst (default [] row)).

Definition request_to_deposit_checks : P unit :=
  known ← commitments;
  leaves ← look getLeaves;
  leaves ← each (fun a => z ← bigint a; mret (code_units (toString z))) leaves;
  first ← firstBody;
  second ← secondBody;
  let linked := linked_fields known leaves (deposit options) (publicFields first ++ publicFields second) in
  _ ← check g_requestToDeposit (text "no request carries a commitment, a leaf or the deposit")
        (bool_decide (linked = [])) (JsCoerce.join_units (text ", ") linked ++ text " match a deposit");
  app ← read Running;
  match app with
  | None => mret tt
  | Some app =>
      first ← firstBody;
      nullifier ← bigint (req_nullifier first);
      row ← getStored app (toString nullifier);
      let extra := extra_columns row in
      check g_requestToDeposit (text "the operator's database stores only (x, y) under the nullifier")
        (bool_decide (is_Some row) && bool_decide (extra = []))
        (match row with Some _ => text "it stores " ++ JsCoerce.join_units (text ", ") (map code_units extra)
         | None => text "nothing stored" end)
  end.

Definition refund_onchain_checks (firstBlock : Z) : P unit :=
  logs ← look (fun l => logs_from l (firstBlock + 2));
  check g_refundOnchain (text "the contract logged nothing while Alice's requests were served") (logs =? 0)
    (code_units (toString logs) ++ text " events").

(** ** 6. The double-spend *)

Definition signal_of (x y : string) : P (Z * Z) := x ← bigint x; y ← bigint y; mret (x, y).

Definition recovered (s1 s2 : Z * Z) : P Z := lift (recoverSecretKey s1 s2).

Definition slasher : P string := lift (wallet_address actors (slasherKey options)).

Definition units_start (l p : list Z) : bool := units_prefix p l.

Definition double_spend : P (NoteFile * RequestBody * RequestBody) :=
  attacker ← open;
  a ← prove_request attacker "What does 鞠躬盡瘁 mean?";
  b ← prove_request attacker "What does 死而後已 mean?";
  res ← post a.1;
  if negb (res.1 =? 200) then throw (Error "the attacker's first request failed")
  else
    res ← post b.1;
    message ← lift (get_prop "message" (Some res.2));
    message ← lift (js_text message);
    let refused := (res.1 =? 403) && units_start message (text "Double-spend detected") in
    let detail := http res.1 ++ [32] ++ message in
    _ ← check g_nullifier (text "a second signal at a used index is refused") refused detail;
    _ ← check g_slashing (text "the server treats it as a double-spend") refused detail;
    mret (attacker, a.1, b.1).

Definition slashing_checks : P unit :=
  spent ← double_spend;
  let '(attacker, a, b) := spent in
  s1 ← signal_of (signal_x (req_signal a)) (signal_y (req_signal a));
  s2 ← signal_of (signal_x (req_signal b)) (signal_y (req_signal b));
  k ← recovered s1 s2;
  key ← bigint (secretKey attacker);
  _ ← check g_slashing (text "the two signals reveal the attacker's secret key") (k =? key) [];
  wallet ← slasher;
  server ← look serverAddress;
  _ ← check g_slashing (text "the slashing wallet is not serverAddress") (negb (bool_decide (wallet = server))) [];
  before ← look (fun l => getBalance l wallet);
  receipt ← out (send_slash actors (o_rpcUrl options) address (slasherKey options) k);
  after ← look (fun l => getBalance l wallet);
  let reward := after - before + receipt.1 * receipt.2 in
  bounty ← look SLASH_BOUNTY;
  _ ← check g_slashing (text "the slashing wallet gets the bounty, not the deposit")
        (reward =? (if bounty <? deposit options then bounty else deposit options))
        (code_units (toString reward) ++ text " wei");
  st ← statusOf attacker;
  check g_slashing (text "the attacker's note is slashed") (st =? 4) [].

(** ** 7. The understated exit *)

Definition column (k : string) (row : option (list (string * string))) : P string :=
  lift (of_option (TypeError "Cannot read properties of undefined")
    (cols ← row; snd <$> List.find (fun c => bool_decide (c.1 = k)) cols)).

Definition understated_exit_checks (app : App) : P unit :=
  attacker ← open;
  served ← prove_request attacker "What does 鞠躬盡瘁 mean?";
  res ← post served.1;
  attacker ← receive_reply served.2 res.2;
  unanswered ← prove_request attacker "What does 死而後已 mean?";
  _ ← post unanswered.1;
  recipient ← out (randomAddress actors);
  args ← prove_withdrawal attacker recipient (Some 1);
  _ ← initiate args;
  nullifier ← bigint (req_nullifier unanswered.1);
  row ← getStored app (toString nullifier);
  exitSignalX ← look (fun l => NoteClient.withdrawalSignalX (for_note l) (wa_recipient args));
  reuses ← (if bool_decide (is_Some row) then n ← bigint (wa_nullifier args); mret (n =? nullifier) else mret false);
  _ ← check g_understatedExit (text "the exit reuses the nullifier of a served request") reuses [];
  x ← column "x" row;
  y ← column "y" row;
  s1 ← signal_of x y;
  y2 ← bigint (wa_signalY args);
  k ← recovered s1 (exitSignalX, y2);
  _ ← slasher;
  _ ← out (send_slash actors (o_rpcUrl options) address (slasherKey options) k);
  st ← statusOf attacker;
  check g_understatedExit (text "the operator slashes it within the window") (st =? 4) [].

Definition understated_exit : P unit :=
  app ← read Running;
  match app with
  | None =>
      g ← read (GoalOf g_understatedExit);
      write (GoalOf g_understatedExit)
        {| label := label g; expected := expected g; issues := issues g; status := Some NotCheckedYet;
           detail := Some (text "needs the operator's database") |}
  | Some app => verify g_understatedExit (understated_exit_checks app)
  end.

(** ** 8. Alice exits *)

Definition recipient_checks : P unit :=
  recipient ← out (randomAddress actors);
  note ← note_;
  args ← prove_withdrawal note recipient None;
  _ ← write ExitArgs (Some args);
  thief ← out (randomAddress actors);
  swapped ← revertOf (look (fun l => static_initiate l (aliceKey options)
    {| wa_commitment := wa_commitment args; wa_recipient := thief; wa_refundKey := wa_refundKey args;
       wa_proof := wa_proof args; wa_nullifier := wa_nullifier args; wa_signalY := wa_signalY args;
       wa_payout := wa_payout args |}));
  check g_withdrawalRecipient (text "the attacker can't redirect Alice's payout to themselves")
    (bool_decide (swapped = code_units "InvalidProof"))
    (if bool_decide (swapped = []) then text "it succeeded" else swapped).

Definition CHALLENGE_WINDOW : Z := 3 * 24 * 60 * 60.

(** [onAnvil] is that no gateway was given. *)
Definition onAnvil : bool := match truthy (gateway options) with Some _ => false | None => true end.

Definition withdrawal_checks : P unit :=
  args ← exitArgs;
  _ ← close_app;
  _ ← write Running None;
  _ ← initiate args;
  note ← note_;
  st ← statusOf note;
  _ ← check g_withdrawal (text "the exit starts with the chain and a client-side proof alone") (st =? 2) [];
  if negb onAnvil then log (text "  – finalizeWithdrawal pays out after the challenge window")
  else
    _ ← out (send actors (o_rpcUrl options) "evm_increaseTime" [CHALLENGE_WINDOW]);
    _ ← out (send actors (o_rpcUrl options) "evm_mine" []);
    _ ← out (send_finalize actors (o_rpcUrl options) address (aliceKey options) (wa_commitment args));
    balance ← look (fun l => getBalance l (wa_recipient args));
    payout ← bigint (wa_payout args);
    check g_withdrawal (text "it pays out after the window") (balance =? payout) [].

Definition solvency_checks : P unit :=
  args ← exitArgs;
  note ← note_;
  refunds ← bigint (t_refunds (opening note));
  let expected := deposit options + refunds - 2 * cMax in
  payout ← bigint (wa_payout args);
  check g_solvency (text "the payout is D + R − n · C_max for her two requests") (payout =? expected)
    (code_units (wa_payout args) ++ text " wei, expected " ++ code_units (toString expected)).

(** ** 9. The closed note and the bodies *)

(** [.then(() => '').catch((error) => error.message)]. *)
Definition refusal (m : P (RequestBody * NoteFile)) : P (list Z) :=
  catching (_ ← m; mret []) (fun e => mret (message e)).

Definition closed_note_checks : P unit :=
  note ← note_;
  refused ← refusal (prove_request note "One more?");
  check g_closedNote (text "no request can be proved against the closed note")
    (units_include (text "not active") refused)
    (if bool_decide (refused = []) then text "a proof was made" else refused).

Definition secret_key_checks : P unit :=
  secrets ← read Secrets;
  sent ← read Sent;
  let leaks := leaked (key_forms secrets) sent in
  check g_secretKey
    (text "none of the " ++ code_units (toString (Z.of_nat (length sent)))
     ++ text " request bodies contains a secret key")
    ((0 <? length sent)%nat && bool_decide (leaks = []))
    (code_units (toString (Z.of_nat (length leaks))) ++ text " do").

(** ** The steps, in order *)

Definition requests (firstBlock : Z) : P unit :=
  _ ← verify g_deposit deposit_checks;
  _ ← verify g_root root_checks;
  _ ← verify g_refund refund_checks;
  _ ← step "4. Alice retries her request, then sends a second one";
  _ ← verify g_nullifier retry_checks;
  _ ← verify g_requestToRequest second_request;
  _ ← step "5. The operator and the observer try to link Alice's requests";
  _ ← verify g_requestToRequest request_to_request_checks;
  _ ← verify g_requestToDeposit request_to_deposit_checks;
  verify g_refundOnchain (refund_onchain_checks firstBlock).

Definition attacks : P unit :=
  _ ← step "6. The attacker double-spends, a wallet that is not serverAddress slashes them";
  _ ← verify g_slashing slashing_checks;
  _ ← step "7. The attacker exits claiming fewer requests than they made";
  understated_exit.

Definition withdrawal : P unit :=
  _ ← step "8. Alice exits, with a withdrawal she proves herself";
  _ ← verify g_withdrawalRecipient recipient_checks;
  verify g_withdrawal withdrawal_checks.

Definition closing : P unit :=
  _ ← step "9. Alice's note is closed, and no body carried a secret key";
  _ ← verify g_closedNote closed_note_checks;
  verify g_secretKey secret_key_checks.

Definition steps : P unit :=
  _ ← step "3. Alice deposits and sends a request, proved on her machine";
  firstBlock ← look blockNumber;
  _ ← requests firstBlock;
  _ ← attacks;
  _ ← withdrawal;
  _ ← verify g_solvency solvency_checks;
  closing.

(** [try { .. } finally { await app?.close(); }]. *)
Definition finally_closed (m : P unit) : P unit := fun s =>
  match m s with
  | (s', Ok _) => close_app s'
  | (s', Throw e) => match close_app s' with (s'', Ok _) => (s'', Throw e) | r => r end
  end.

Definition played : P bool := _ ← finally_closed steps; report.
End Script.

(** ** [main] *)

Section Main.
Context {App W : Type} (actors : Actors App W).
Context (sha256 : list byte -> list byte) (gens : Generators) (lib : Libraries).
Context (anvilKey : Z -> string) (parseEther : string -> result Z) (workDir : string).

Definition reachable (options : Options) : M App W unit :=
  w ← read World;
  match blockNumber (ledger actors (o_rpcUrl options) EmptyString w) with
  | Ok _ => mret tt
  | Throw _ =>
      throw (Error (match truthy (gateway options) with
                    | Some _ => "Can't reach " +:+ o_rpcUrl options
                    | None => "Anvil is not running on " +:+ RPC_URL +:+ ". Start it with: anvil"
                    end)%string)
  end.

(** The contract and the gateway: those given, or those started here. *)
Definition prepare (options : Options) : M App W (string * string) :=
  match truthy (gateway options), truthy (o_contract options) with
  | Some url, Some address =>
      _ ← step "1. Use the deployed contract";
      _ ← log (text "  LongjingCredits at " ++ code_units address ++ text " on " ++ code_units (o_rpcUrl options));
      _ ← step "2. Use the gateway";
      _ ← log (text "  " ++ code_units url);
      mret (address, url)
  | _, _ =>
      _ ← step "1. Deploy the contract with NODE_ENV=development";
      address ← deploy actors;
      _ ← log (text "  LongjingCredits at " ++ code_units address);
      _ ← step "2. Start the server pointed at it";
      app ← startServer actors workDir address;
      _ ← write Running (Some app);
      url ← out (getUrl actors app);
      _ ← log (text "  Listening on " ++ code_units url);
      mret (address, url)
  end.

Definition main (argv : list string) : M App W bool :=
  env ← read Env;
  options ← lift (parseOptions anvilKey parseEther env argv);
  _ ← reachable options;
  where_ ← prepare options;
  let '(address, url) := where_ in
  _ ← lift (wallet_address actors (aliceKey options));
  cMax ← look actors options address (fun l => NoteClient.C_MAX (for_note l));
  played actors sha256 gens lib options address url cMax.

(** [process.exit(regressed ? 1 : 0)], and 1 for an exception. *)
Definition exit_code (r : result bool) : Z := match r with Ok false => 0 | _ => 1 end.

(** A store at the start: the goals of the file, the environment and the world. *)
Definition start (env : gmap string string) (w : W) : heap App W := fun x =>
  match x with
  | GoalOf g => goal_of g
  | Console => []
  | Sent => []
  | Secrets => []
  | Note | FirstBody | FirstResponse | SecondBody | ExitArgs | Running => None
  | Env => env
  | World => w
  end.

Definition demo (argv : list string) (env : gmap string string) (w : W) : heap App W * Z :=
  let '(s, r) := main argv (start env w) in (s, exit_code r).
End Main.
