(* ===== verification/DemoVerdict.v ===== *)
(** * What the demo's verdict means

    Which cells of the store a step of [Demo] writes, and the invariant that ties the
    status of a goal to the checks printed for it. *)

From Stdlib Require Import String.
From S2P Require Import Prelude JsText JsNumber FieldElement Accumulator Slashing Json JsonText JsCoerce Gateway RefundSigner NoteClient Wire Demo.
Open Scope Z_scope.

Section Logic.
Context {App W : Type}.

Abbreviation heap := (Demo.heap App W).
Abbreviation M := (Demo.M App W).

Lemma assign_same x (v : cell App W x) (s : heap) : assign x v s x = v.
Proof.
  unfold assign. destruct (decide (x = x)) as [H|H]; [|done].
  by rewrite (Eqdep_dec.UIP_dec (fun a b => decide (a = b)) H eq_refl).
Qed.

Lemma assign_other x y (v : cell App W x) (s : heap) : x <> y -> assign x v s y = s y.
Proof. intros H. unfold assign. by destruct (decide (x = y)). Qed.

(** ** What a step writes *)

Definition modifies {A} (X : list slot) (m : M A) : Prop := forall s x, x ∉ X -> (m s).1 x = s x.

Lemma modifies_ret {A} X (a : A) : modifies X (mret a : M A).
Proof. by intros s x _. Qed.

Lemma modifies_bind {A B} X (m : M A) (f : A -> M B) : modifies X m -> (forall a, modifies X (f a)) -> modifies X (m ≫= f).
Proof.
  intros Hm Hf s x Hx. pose proof (Hm s x Hx) as H. unfold mbind, M_bind.
  destruct (m s) as [s' [a|e]]; cbn [fst] in *; [|exact H]. by rewrite (Hf a s' x Hx), H.
Qed.

Lemma modifies_lift {A} X (r : result A) : modifies X (lift r : M A).
Proof. by intros s x _. Qed.

Lemma modifies_read X x : modifies X (read x : M _).
Proof. by intros s y _. Qed.

Lemma modifies_write X x v : x ∈ X -> modifies X (write x v : M _).
Proof. intros Hx s y Hy. cbn. apply assign_other. by intros ->. Qed.

Lemma modifies_out {A} X (f : W -> W * result A) : World ∈ X -> modifies X (out f : M A).
Proof.
  intros Hx s y Hy. unfold out. destruct (f (s World)) as [w r]. cbn [fst]. apply assign_other. by intros <-.
Qed.

Lemma modifies_catching {A} X (m : M A) h : modifies X m -> (forall e, modifies X (h e)) -> modifies X (catching m h).
Proof.
  intros Hm Hh s x Hx. pose proof (Hm s x Hx) as H. unfold catching.
  destruct (m s) as [s' [a|e]]; cbn [fst] in *; [exact H|]. by rewrite (Hh e s' x Hx), H.
Qed.

Lemma modifies_check X g l ok d : Console ∈ X -> GoalOf g ∈ X -> modifies X (check g l ok d : M _).
Proof.
  intros Hc Hg. unfold check. apply modifies_bind; [exact (modifies_read X Console)|]. intros ls.
  apply modifies_bind; [by apply (modifies_write X Console)|]. intros _.
  apply modifies_bind; [exact (modifies_read X (GoalOf g))|]. intros G. by apply (modifies_write X (GoalOf g)).
Qed.

Lemma modifies_log X l : Console ∈ X -> modifies X (log l : M _).
Proof.
  intros Hc. unfold log. apply modifies_bind; [exact (modifies_read X Console)|]. intros ls.
  by apply (modifies_write X Console).
Qed.

Lemma modifies_verify X g m : Console ∈ X -> GoalOf g ∈ X -> modifies X m -> modifies X (verify g m : M _).
Proof. intros Hc Hg Hm. unfold verify. apply modifies_catching; [done|]. intros e. by apply modifies_check. Qed.

Lemma modifies_each {A B} X (f : A -> M B) l : (forall a, modifies X (f a)) -> modifies X (each f l).
Proof.
  intros Hf. induction l as [|a l IH]; cbn [each]; [apply modifies_ret|].
  apply modifies_bind; [apply Hf|]. intros b. apply modifies_bind; [exact IH|]. intros bs. apply modifies_ret.
Qed.

Lemma modifies_weaken {A} X Y (m : M A) : modifies X m -> (forall x, x ∈ X -> x ∈ Y) -> modifies Y m.
Proof. intros Hm HXY s x Hx. apply Hm. intros H. apply Hx. by apply HXY. Qed.

Lemma bind_ok {A B} (m : M A) (f : A -> M B) s s' b :
  (m ≫= f) s = (s', Ok b) -> exists s1 a, m s = (s1, Ok a) /\ f a s1 = (s', Ok b).
Proof. unfold mbind, M_bind. destruct (m s) as [s1 [a|e]]; [|discriminate]. intros H. by exists s1, a. Qed.

(** ** What a step keeps *)

Definition keeps {A} (I : heap -> Prop) (m : M A) : Prop := forall s, I s -> I (m s).1.

Lemma keeps_ret {A} I (a : A) : keeps I (mret a : M A).
Proof. by intros s H. Qed.

Lemma keeps_bind {A B} I (m : M A) (f : A -> M B) : keeps I m -> (forall a, keeps I (f a)) -> keeps I (m ≫= f).
Proof.
  intros Hm Hf s H. apply Hm in H. unfold mbind, M_bind.
  destruct (m s) as [s' [a|e]]; cbn [fst] in *; [|exact H]. by apply Hf.
Qed.

Lemma keeps_catching {A} I (m : M A) h : keeps I m -> (forall e, keeps I (h e)) -> keeps I (catching m h).
Proof.
  intros Hm Hh s H. apply Hm in H. unfold catching. destruct (m s) as [s' [a|e]]; cbn [fst] in *; [exact H|]. by apply Hh.
Qed.

Lemma keeps_lift {A} I (r : result A) : keeps I (lift r : M A).
Proof. by intros s H. Qed.

Lemma keeps_read I x : keeps I (read x : M _).
Proof. by intros s H. Qed.

Lemma keeps_each {A B} I (f : A -> M B) l : (forall a, keeps I (f a)) -> keeps I (each f l).
Proof.
  intros Hf. induction l as [|a l IH]; cbn [each]; [apply keeps_ret|].
  apply keeps_bind; [apply Hf|]. intros b. apply keeps_bind; [exact IH|]. intros bs. apply keeps_ret.
Qed.

Lemma keeps_and {A} I J (m : M A) : keeps I m -> keeps J m -> keeps (fun s => I s /\ J s) m.
Proof. intros HI HJ s [H1 H2]. split; [by apply HI|by apply HJ]. Qed.

Lemma keeps_untouched {A} X x (Q : cell App W x -> Prop) (m : M A) : modifies X m -> x ∉ X -> keeps (fun s => Q (s x)) m.
Proof. intros Hm Hx s H. by rewrite (Hm s x Hx). Qed.

(** A step that leads from one invariant to another. *)
Definition moves {A} (I J : heap -> Prop) (m : M A) : Prop := forall s, I s -> J (m s).1.

Lemma moves_then {A B} (I J : heap -> Prop) (m : M A) (f : A -> M B) :
  (forall s, I s -> J s) -> keeps I m -> (forall a, moves I J (f a)) -> moves I J (m ≫= f).
Proof.
  intros HIJ Hm Hf s H. apply Hm in H. unfold mbind, M_bind.
  destruct (m s) as [s' [a|e]]; cbn [fst] in *; [by apply Hf|by apply HIJ].
Qed.

Lemma then_moves {A B} (I J : heap -> Prop) (m : M A) (f : A -> M B) :
  moves I J m -> (forall a, keeps J (f a)) -> moves I J (m ≫= f).
Proof.
  intros Hm Hf s H. apply Hm in H. unfold mbind, M_bind.
  destruct (m s) as [s' [a|e]]; cbn [fst] in *; [by apply Hf|done].
Qed.

(** ** Checks and statuses *)

Definition checks_in (g : goal_id) (lines : list line) : list bool :=
  omap (fun l => match l with
                 | Checked g' _ ok _ => if decide (g' = g) then Some ok else None
                 | Line _ => None
                 end) lines.

Definition checks (g : goal_id) (s : heap) : list bool := checks_in g (s Console).

(** The status checks give: the first failure is for good. *)
Definition status_of_checks (l : list bool) : option GoalStatus :=
  match l with [] => None | _ => Some (if forallb id l then Verified else NotMet) end.

(** [skipped] is whether the goal of step 7 may have been left unchecked. *)
Definition faithful (skipped : bool) (s : heap) : Prop := forall g,
  expected (s (GoalOf g)) = expected (goal_of g)
  /\ (status (s (GoalOf g)) = status_of_checks (checks g s)
      \/ skipped = true /\ g = g_understatedExit /\ status (s (GoalOf g)) = Some NotCheckedYet /\ checks g s = []).

Lemma checks_in_app g l l' : checks_in g (l ++ l') = checks_in g l ++ checks_in g l'.
Proof. apply omap_app. Qed.

Lemma status_of_checks_snoc l b : status_of_checks (l ++ [b])
  = Some (if b then default Verified (status_of_checks l) else NotMet).
Proof.
  destruct l as [|a l]; [by destruct b|]. cbn [app status_of_checks default].
  assert (Hf : forallb id ((a :: l) ++ [b]) = forallb id (a :: l) && b).
  { rewrite forallb_app. cbn [forallb]. by rewrite andb_true_r. }
  change (a :: l ++ [b]) with ((a :: l) ++ [b]). rewrite Hf. destruct b; [by rewrite andb_true_r|by rewrite andb_false_r].
Qed.

Lemma keeps_faithful_check k g l ok d : k = false \/ g <> g_understatedExit -> keeps (faithful k) (check g l ok d : M _).
Proof.
  intros Hk s H g'. unfold check, read, write, mbind, M_bind, checks. cbn [fst].
  rewrite (assign_other (GoalOf g) Console), (assign_same Console), checks_in_app by discriminate.
  rewrite !(assign_other Console) by discriminate. cbn [checks_in omap list_omap]. destruct (decide (g = g')) as [<-|Hne].
  - rewrite assign_same. destruct (H g) as [He Hs]. destruct Hs as [Hs|(-> & -> & _)]; [|by destruct Hk].
    split; [by destruct ok|]. left. rewrite status_of_checks_snoc. unfold checks in Hs. rewrite <- Hs. by destruct ok.
  - rewrite assign_other, (assign_other Console) by congruence. rewrite app_nil_r. apply H.
Qed.

Lemma keeps_faithful_verify k g (m : M unit) : k = false \/ g <> g_understatedExit -> keeps (faithful k) m ->
  keeps (faithful k) (verify g m).
Proof. intros Hk Hm. unfold verify. apply keeps_catching; [exact Hm|]. intros e. by apply keeps_faithful_check. Qed.

(** A cell that is neither a goal nor the console does not matter. *)
Lemma keeps_faithful_modifies {A} k X (m : M A) : modifies X m -> Console ∉ X -> (forall g, GoalOf g ∉ X) -> keeps (faithful k) m.
Proof.
  intros Hm Hc Hg s H g. unfold checks. rewrite (Hm s Console Hc), (Hm s (GoalOf g) (Hg g)). apply H.
Qed.

Lemma keeps_faithful_log k l : keeps (faithful k) (log l : M _).
Proof.
  intros s H g. unfold log, read, write, mbind, M_bind. cbn [fst]. unfold checks. rewrite assign_same, assign_other by discriminate.
  rewrite checks_in_app. cbn [checks_in omap list_omap]. rewrite app_nil_r. apply H.
Qed.
End Logic.

(** Proves that a closed list of slots holds, or does not hold, a slot. *)
Ltac in_slots := solve [apply (bool_decide_unpack _); vm_compute; exact I].

(** Unfolds the definition a step starts with. *)
Ltac head_of m := lazymatch m with ?f _ => head_of f | _ => m end.
Ltac open_step m := let h := head_of m in unfold h.

(** What a step writes, call by call. *)
Ltac footprint_step :=
  lazymatch goal with
  | |- modifies _ (mret _) => apply modifies_ret
  | |- modifies _ (_ ≫= _) => apply modifies_bind; [|intros ?]
  | |- modifies _ (lift _) => apply modifies_lift
  | |- modifies _ (throw _) => apply modifies_lift
  | |- modifies ?X (read ?x) => exact (modifies_read X x)
  | |- modifies ?X (write ?x ?v) => apply (modifies_write X x v); in_slots
  | |- modifies _ (out _) => apply modifies_out; in_slots
  | |- modifies _ (check _ _ _ _) => apply modifies_check; in_slots
  | |- modifies _ (log _) => apply modifies_log; in_slots
  | |- modifies _ (verify _ _) => apply modifies_verify; [in_slots|in_slots|]
  | |- modifies _ (catching _ _) => apply modifies_catching; [|intros ?]
  | |- modifies _ (each _ _) => apply modifies_each; intros ?
  | |- modifies _ (match ?x with _ => _ end) => destruct x
  | |- modifies _ (let _ := _ in _) => cbv zeta
  | |- modifies _ ?m => open_step m
  end.
Ltac footprint := repeat footprint_step.

(** The same for the statuses: a check tells its goal apart from the skipped one. *)
Ltac keeping_step :=
  lazymatch goal with
  | |- keeps _ (mret _) => apply keeps_ret
  | |- keeps _ (_ ≫= _) => apply keeps_bind; [|intros ?]
  | |- keeps _ (lift _) => apply keeps_lift
  | |- keeps _ (throw _) => apply keeps_lift
  | |- keeps ?I (read ?x) => exact (keeps_read I x)
  | |- keeps _ (write ?x ?v) => apply (keeps_faithful_modifies _ [x] (write x v)); [footprint|in_slots|by intros g; destruct g; in_slots]
  | |- keeps _ (out _) => apply (keeps_faithful_modifies _ [World]); [footprint|in_slots|by intros g; destruct g; in_slots]
  | |- keeps _ (check _ _ _ _) => apply keeps_faithful_check; first [by left|by right]
  | |- keeps _ (log _) => apply keeps_faithful_log
  | |- keeps _ (catching _ _) => apply keeps_catching; [|intros ?]
  | |- keeps _ (each _ _) => apply keeps_each; intros ?
  | |- keeps _ (match ?x with _ => _ end) => destruct x
  | |- keeps _ (let _ := _ in _) => cbv zeta
  | |- keeps _ ?m => open_step m
  end.
Ltac keeping := repeat keeping_step.

Section Verdict.
Context {App W : Type} (actors : Actors App W).
Context (sha256 : list byte -> list byte) (gens : Generators) (lib : Libraries).
Context (anvilKey : Z -> string) (parseEther : string -> result Z) (workDir : string).

Abbreviation heap := (Demo.heap App W).

Section Steps.
Context (options : Options) (address url : string) (cMax : Z).

Abbreviation steps := (steps actors sha256 gens lib options address url cMax).
Abbreviation played := (played actors sha256 gens lib options address url cMax).
Abbreviation close_app := (close_app actors).

Lemma faithful_skipped (s : heap) : faithful false s -> faithful true s.
Proof. intros H g. destruct (H g) as [He [Hs|(Hf & _)]]; [by split; [|left]|discriminate]. Qed.

(** Before step 7. *)
Definition unskipped (s : heap) : Prop := faithful false s /\ status (s (GoalOf g_understatedExit)) = None.

(** The slots that are not the goal of step 7. *)
Definition other_slots : list slot :=
  [Console; Sent; Secrets; Note; FirstBody; FirstResponse; SecondBody; ExitArgs; Running; Env; World]
  ++ map GoalOf (List.filter (fun g => negb (bool_decide (g = g_understatedExit))) goals).

Lemma keeps_unskipped {A} (m : Demo.M App W A) : modifies other_slots m -> keeps (faithful false) m -> keeps unskipped m.
Proof.
  intros Hm Hk. apply keeps_and; [exact Hk|].
  apply (keeps_untouched other_slots (GoalOf g_understatedExit) (fun g => status g = None)); [exact Hm|in_slots].
Qed.

(** Only this step leaves a goal without a check. *)
Lemma understated_exit_faithful :
  moves unskipped (faithful true) (understated_exit actors sha256 gens lib options address url).
Proof.
  intros s [H Hn]. unfold understated_exit, read, mbind, M_bind. destruct (s Running) as [app|] eqn:HR.
  - apply faithful_skipped. apply (keeps_faithful_verify false g_understatedExit _ (or_introl eq_refl)); [keeping|exact H].
  - unfold write. cbn [fst]. intros g. unfold checks. rewrite (assign_other (GoalOf g_understatedExit) Console) by discriminate.
    destruct (decide (g = g_understatedExit)) as [-> |Hne].
    + rewrite assign_same. destruct (H g_understatedExit) as [He Hs].
      split; [exact He|]. right. split_and!; [done|done|done|].
      destruct Hs as [Hs|(Hf & _)]; [|discriminate]. rewrite Hn in Hs. unfold checks in Hs.
      by destruct (checks_in _ _).
    + rewrite assign_other by congruence. by apply faithful_skipped.
Qed.

Lemma steps_faithful : moves unskipped (faithful true) steps.
Proof.
  assert (Hw : forall s, unskipped s -> faithful true s) by (intros s [H _]; by apply faithful_skipped).
  unfold Demo.steps. apply moves_then; [exact Hw|apply keeps_unskipped; [footprint|keeping]|]. intros _.
  apply moves_then; [exact Hw|apply keeps_unskipped; [footprint|keeping]|]. intros firstBlock.
  apply moves_then; [exact Hw|apply keeps_unskipped; [footprint|keeping]|]. intros _.
  apply then_moves; [|intros _; keeping].
  unfold attacks. apply moves_then; [exact Hw|apply keeps_unskipped; [footprint|keeping]|]. intros _.
  apply moves_then; [exact Hw|apply keeps_unskipped; [footprint|keeping]|]. intros _.
  apply moves_then; [exact Hw|apply keeps_unskipped; [footprint|keeping]|]. intros _.
  apply understated_exit_faithful.
Qed.
Lemma finally_closed_faithful : moves unskipped (faithful true) (finally_closed actors steps).
Proof.
  assert (Hc : keeps (faithful true) close_app) by keeping.
  intros s H. apply steps_faithful in H. unfold finally_closed. destruct (steps s) as [s1 [[]|e]]; cbn [fst] in *.
  - by apply Hc.
  - apply Hc in H. by destruct (close_app s1) as [s2 [[]|e']].
Qed.
End Steps.

(** ** The report and the exit code *)

Lemma log_goals l (s : heap) : exists s1, log l s = (s1, Ok tt) /\ forall g, s1 (GoalOf g) = s (GoalOf g).
Proof. eexists. split; [reflexivity|]. intros g. by apply assign_other. Qed.

Lemma same_regressions (s s' : heap) gs : (forall g, s' (GoalOf g) = s (GoalOf g)) ->
  existsb (fun g => regressed (s' (GoalOf g))) gs = existsb (fun g => regressed (s (GoalOf g))) gs.
Proof. intros H. induction gs as [|g gs IH]; cbn [existsb]; [done|]. by rewrite H, IH. Qed.

(** The report answers whether a goal regressed, and leaves the goals alone. *)
Lemma rows_result (gs : list goal_id) (s : heap) : exists s',
  rows gs s = (s', Ok (existsb (fun g => regressed (s (GoalOf g))) gs)) /\ forall g, s' (GoalOf g) = s (GoalOf g).
Proof.
  revert s. induction gs as [|x gs IH]; intros s; [by exists s|]. cbn [rows]. unfold mbind, M_bind, read.
  destruct (log_goals (row (s (GoalOf x))) s) as (s1 & -> & H1).
  assert (H2 : exists s2, (if negb (bool_decide (expected (s (GoalOf x)) = Verified)) && bool_decide (shown (s (GoalOf x)) = Verified)
      then log (text "    now verified: update its expected status in demo.ts") else mret tt) s1 = (s2, Ok tt)
      /\ forall g, s2 (GoalOf g) = s (GoalOf g)).
  { destruct (_ && _); [|by exists s1]. destruct (log_goals (text "    now verified: update its expected status in demo.ts") s1) as (s2 & Hl & H2).
    exists s2. split; [exact Hl|]. intros g. by rewrite H2. }
  destruct H2 as (s2 & -> & H2). destruct (IH s2) as (s3 & -> & H3). exists s3. split.
  - unfold mret, M_ret. cbn [existsb]. by rewrite (same_regressions s s2).
  - intros g. by rewrite H3, H2.
Qed.

Lemma report_result (s s' : heap) b : report s = (s', Ok b) ->
  b = existsb (fun g => regressed (s' (GoalOf g))) goals.
Proof.
  unfold report. intros (s1 & [] & Hl & H)%bind_ok. destruct (rows_result goals s1) as (s2 & Hr & Hg).
  rewrite Hr in H. injection H as <- <-. by rewrite (same_regressions s1 s2).
Qed.

Abbreviation main := (main actors sha256 gens lib anvilKey parseEther workDir).
Abbreviation demo := (demo actors sha256 gens lib anvilKey parseEther workDir).

Lemma main_reports argv s s' b : main argv s = (s', Ok b) -> b = existsb (fun g => regressed (s' (GoalOf g))) goals.
Proof.
  unfold Demo.main. intros (s1 & env & _ & H)%bind_ok. apply bind_ok in H as (s2 & options & _ & H).
  apply bind_ok in H as (s3 & [] & _ & H). apply bind_ok in H as (s4 & [address url] & _ & H).
  apply bind_ok in H as (s5 & wallet & _ & H). apply bind_ok in H as (s6 & cMax & _ & H).
  unfold played in H. apply bind_ok in H as (s7 & [] & _ & H). by apply report_result in H.
Qed.

Lemma main_faithful argv : moves unskipped (faithful true) (main argv).
Proof.
  assert (Hw : forall s : heap, unskipped s -> faithful true s) by (intros s [H _]; by apply faithful_skipped).
  unfold Demo.main. do 6 (apply moves_then; [exact Hw|apply keeps_unskipped; [footprint|keeping]|]; intros ?;
    lazymatch goal with a : (string * string)%type |- _ => destruct a | _ => idtac end).
  unfold played. apply then_moves; [apply finally_closed_faithful|]. intros _. 
  unfold report. apply keeps_bind; [apply keeps_faithful_log|]. intros _. generalize goals. intros gs.
  induction gs as [|g gs IH]; cbn [rows]; [apply keeps_ret|]. repeat first [exact IH|keeping_step].
Qed.

Lemma start_unskipped env w : unskipped (start env w : heap).
Proof. split; [|done]. intros g. split; [done|]. left. by destruct g. Qed.

(** What the exit code of the demo says. It is 0 exactly when [main] ends without an
    exception and every goal that is expected to be verified was checked at least once and
    passed each of its checks: a passed check never hides a failed one, a goal no
    check reached counts as not met, and nothing outside the checks makes a goal verified. *)
Theorem demo_exit_zero_iff argv env w :
  let '(s, r) := main argv (start env w) in
  (demo argv env w).2 = 0 <->
  is_ok r = true /\ forall g, expected (goal_of g) = Verified -> checks g s <> [] /\ forallb id (checks g s) = true.
Proof.
  destruct (main argv (start env w)) as [s r] eqn:Hm.
  assert (Hf : faithful true s).
  { pose proof (main_faithful argv _ (start_unskipped env w)) as H. by rewrite Hm in H. }
  unfold Demo.demo. rewrite Hm. cbn [snd].
  assert (Hg : forall g, regressed (s (GoalOf g)) = false <->
    (expected (goal_of g) = Verified -> checks g s <> [] /\ forallb id (checks g s) = true)).
  { intros g. destruct (Hf g) as [He Hs]. unfold regressed, shown. rewrite He.
    destruct (decide (expected (goal_of g) = Verified)) as [Hv|Hv]; [|rewrite bool_decide_false by done; cbn; tauto].
    rewrite Hv, bool_decide_true by done. cbn [andb]. rewrite negb_false_iff, bool_decide_eq_true.
    destruct Hs as [-> |(_ & -> & -> & ->)].
    - destruct (checks g s) as [|c l]; cbn [status_of_checks default from_option id];
        [split; [done|intros H; by destruct (proj1 (H eq_refl))]|].
      destruct (forallb id (c :: l)); [by split|]. split; [done|]. intros H. by destruct (H eq_refl).
    - split; [done|]. intros H. by destruct (proj1 (H eq_refl)). }
  destruct r as [b|e]; cbn [exit_code is_ok].
  - pose proof (main_reports argv _ _ _ Hm) as ->. split.
    + intros H. split; [done|]. intros g. apply Hg. destruct (existsb _ _) eqn:E; [discriminate|].
      destruct (regressed (s (GoalOf g))) eqn:Er; [|done]. rewrite <- E. symmetry. apply existsb_exists.
      exists g. split; [|exact Er]. destruct g; cbn; tauto.
    + intros [_ H]. destruct (existsb _ _) eqn:E; [|done]. apply existsb_exists in E as (g & _ & Er).
      by rewrite (proj2 (Hg g) (H g)) in Er.
  - split; [discriminate|]. by intros [? _].
Qed.

(** ** Against a deployment *)

Lemma truthy_idem v s : truthy v = Some s -> truthy (Some s) = Some s.
Proof. unfold truthy. destruct v as [v|]; [|done]. destruct (str_len v =? 0) eqn:E; [done|]. intros [= <-]. by rewrite E. Qed.

Lemma parsed_gateway_has_contract env argv o u : parseOptions anvilKey parseEther env argv = Ok o ->
  truthy (gateway o) = Some u -> exists a, truthy (o_contract o) = Some a.
Proof.
  unfold parseOptions. intros H Hu. apply rbind_ok in H as (values & _ & H). apply rbind_ok in H as (d & _ & H).
  destruct (truthy (values !! "gateway"%string)) as [g|] eqn:Hg, (truthy (values !! "contract"%string)) as [c|] eqn:Hc,
    (truthy (values !! "rpc"%string)) as [r|] eqn:Hr; try discriminate.
  - apply rbind_ok in H as (k & _ & [= <-]). exists c. by apply (truthy_idem _ _ Hc).
  - injection H as <-. discriminate Hu.
Qed.

(** No server of the demo's own, and the goal of step 7 not verified. *)
Definition unmet (g : Goal) : Prop := expected g = Verified /\ status g <> Some Verified.

Definition served_elsewhere (s : heap) : Prop := s Running = None /\ unmet (s (GoalOf g_understatedExit)).

Lemma unmet_regressed g : unmet g -> regressed g = true.
Proof.
  intros [He Hs]. unfold regressed, shown. rewrite He, bool_decide_true by done. cbn [andb]. apply negb_true_iff.
  apply bool_decide_eq_false. by destruct (status g) as [[]|].
Qed.

(** The slots that are neither. *)
Definition elsewhere_slots : list slot := List.filter (fun x => negb (bool_decide (x = Running))) other_slots.

Lemma keeps_elsewhere {A} (m : Demo.M App W A) : modifies elsewhere_slots m -> keeps served_elsewhere m.
Proof.
  intros Hm. apply keeps_and.
  - apply (keeps_untouched elsewhere_slots Running (fun r => r = None)); [exact Hm|in_slots].
  - apply (keeps_untouched elsewhere_slots (GoalOf g_understatedExit) unmet); [exact Hm|in_slots].
Qed.

Section Elsewhere.
Context (options : Options) (address url : string) (cMax : Z).

Abbreviation steps := (steps actors sha256 gens lib options address url cMax).

Lemma understated_exit_elsewhere : keeps served_elsewhere (understated_exit actors sha256 gens lib options address url).
Proof.
  intros s [Hr [He Hs]]. unfold understated_exit, read, mbind, M_bind. rewrite Hr. cbn [fst]. unfold write. cbn [fst]. split.
  - by rewrite assign_other.
  - rewrite assign_same. by split.
Qed.

Lemma stopping_elsewhere : keeps served_elsewhere (write Running None : Demo.M App W unit).
Proof. intros s [Hr Hs]. cbn [write fst]. split; [apply assign_same|by rewrite assign_other]. Qed.

(** Goes through the calls of a step. *)
Ltac elsewhere := first
  [exact stopping_elsewhere
  |apply understated_exit_elsewhere
  |apply keeps_elsewhere; solve [footprint]
  |lazymatch goal with
   | |- keeps _ (_ ≫= _) => apply keeps_bind; [elsewhere|intros ?; elsewhere]
   | |- keeps _ (catching _ _) => apply keeps_catching; [elsewhere|intros ?; elsewhere]
   | |- keeps _ (match ?x with _ => _ end) => destruct x; elsewhere
   | |- keeps _ ?m => open_step m; elsewhere
   end].

Lemma steps_elsewhere : keeps served_elsewhere steps.
Proof. elsewhere. Qed.

Lemma finally_closed_elsewhere : keeps served_elsewhere (finally_closed actors steps).
Proof.
  assert (Hc : keeps served_elsewhere (close_app actors)) by elsewhere.
  intros s H. apply steps_elsewhere in H. unfold finally_closed. destruct (steps s) as [s1 [[]|e]]; cbn [fst] in *.
  - by apply Hc.
  - apply Hc in H. by destruct (close_app actors s1) as [s2 [[]|e']].
Qed.
End Elsewhere.

Lemma report_elsewhere : keeps served_elsewhere (report : Demo.M App W bool).
Proof.
  unfold report. apply keeps_bind; [apply keeps_elsewhere; footprint|]. intros _. generalize goals as gs.
  induction gs as [|g gs IH]; cbn [rows]; [apply keeps_ret|]. apply keeps_bind; [exact (keeps_read _ (GoalOf g))|]. intros G.
  apply keeps_bind; [apply keeps_elsewhere; footprint|]. intros _.
  apply keeps_bind; [apply keeps_elsewhere; footprint|]. intros _.
  apply keeps_bind; [exact IH|]. intros b. apply keeps_ret.
Qed.

(** [main] once its options are read. *)
Definition main_with (options : Options) : Demo.M App W bool :=
  _ ← reachable actors options;
  where_ ← prepare actors workDir options;
  let '(address, url) := where_ in
  _ ← lift (wallet_address actors (aliceKey options));
  cMax ← look actors options address (fun l => NoteClient.C_MAX (for_note l));
  played actors sha256 gens lib options address url cMax.

Lemma main_with_elsewhere o u a : truthy (gateway o) = Some u -> truthy (o_contract o) = Some a ->
  keeps served_elsewhere (main_with o).
Proof.
  intros Hu Ha. unfold main_with. apply keeps_bind; [apply keeps_elsewhere; footprint|]. intros _.
  apply keeps_bind.
  - unfold prepare. rewrite Hu, Ha. apply keeps_elsewhere. footprint.
  - intros [address url]. apply keeps_bind; [apply keeps_lift|]. intros _.
    apply keeps_bind; [apply keeps_elsewhere; footprint|]. intros cMax.
    unfold played. apply keeps_bind; [apply finally_closed_elsewhere|]. intros _. apply report_elsewhere.
Qed.

(** The demo against a deployment always exits with 1. The goal of the understated exit
    is expected to be verified, but it is checked only with the server the demo starts: with
    --gateway it is set to not checked yet, which the report counts as a regression. So the
    exit code of such a run says nothing, whatever the deployment does and even when every
    check passes. *)
Theorem demo_against_deployment_exits_1 argv env w o u :
  parseOptions anvilKey parseEther env argv = Ok o -> truthy (gateway o) = Some u ->
  (demo argv env w).2 = 1.
Proof.
  intros Hp Hu. destruct (parsed_gateway_has_contract env argv o u Hp Hu) as [a Ha]. unfold Demo.demo.
  assert (Hk : served_elsewhere (main argv (start env w)).1).
  { assert (Hm : main argv (start env w) = main_with o (start env w)).
    { unfold Demo.main. change (start env w Env) with env. unfold mbind at 1 2, M_bind at 1 2, read, lift at 1. cbn [start].
      by rewrite Hp. }
    rewrite Hm. by apply (main_with_elsewhere o u a Hu Ha). }
  destruct (main argv (start env w)) as [s [b|e]] eqn:Hm; [|done]. cbn [fst snd exit_code] in *.
  destruct b; [done|]. exfalso. apply main_reports in Hm. enough (H : false = true) by done. rewrite Hm. apply existsb_exists.
  exists g_understatedExit.
  split; [do 10 right; by left|apply unmet_regressed; apply Hk].
Qed.

(** ** What a run that exits with 0 showed *)

Lemma catching_eq {A} (m : Demo.M App W A) h s : catching m h s = match m s with (s1, Throw e) => h e s1 | r => r end.
Proof. done. Qed.

Lemma check_status g l ok d (s : heap) : status ((check g l ok d s).1 (GoalOf g))
  = Some (if ok then default Verified (status (s (GoalOf g))) else NotMet).
Proof.
  unfold check, read, write, mbind, M_bind. cbn [fst]. rewrite assign_same, assign_other by discriminate. by destruct ok.
Qed.

Lemma lift_ok {A} (r : result A) (s s' : heap) a : lift r s = (s', Ok a) -> s' = s /\ r = Ok a.
Proof. unfold lift. intros H. by injection H as <- <-. Qed.

Lemma required_ok {A} (x : heap -> option A) what (s s' : heap) a :
  (v ← (fun s => (s, Ok (x s)) : Demo.heap App W * result (option A)); required v what : Demo.M App W A) s = (s', Ok a) ->
  s' = s /\ x s = Some a.
Proof.
  unfold mbind, M_bind, required. intros [-> H]%lift_ok. split; [done|]. by destruct (x s); [injection H as ->|].
Qed.

Lemma exitArgs_ok (s s' : heap) args : exitArgs s = (s', Ok args) -> s' = s /\ s ExitArgs = Some args.
Proof. exact (required_ok (fun s => s ExitArgs) _ s s' args). Qed.

Lemma note_ok (s s' : heap) note : note_ s = (s', Ok note) -> s' = s /\ s Note = Some note.
Proof. exact (required_ok (fun s => s Note) _ s s' note). Qed.

Lemma firstBody_ok (s s' : heap) body : firstBody s = (s', Ok body) -> s' = s /\ s FirstBody = Some body.
Proof. exact (required_ok (fun s => s FirstBody) _ s s' body). Qed.

Lemma secondBody_ok (s s' : heap) body : secondBody s = (s', Ok body) -> s' = s /\ s SecondBody = Some body.
Proof. exact (required_ok (fun s => s SecondBody) _ s s' body). Qed.

Lemma check_verified g l ok d (s s' : heap) : check g l ok d s = (s', Ok tt) ->
  status (s' (GoalOf g)) = Some Verified -> ok = true.
Proof. intros H Hs. pose proof (check_status g l ok d s) as Hc. rewrite H in Hc. cbn [fst] in Hc. destruct ok; congruence. Qed.

(** When a goal is verified after its [verify], the checks went through. *)
Lemma verify_verified g (m : Demo.M App W unit) (s s' : heap) :
  verify g m s = (s', Ok tt) -> status (s' (GoalOf g)) = Some Verified -> m s = (s', Ok tt).
Proof.
  unfold verify. rewrite catching_eq. destruct (m s) as [s1 [[]|e]]; [congruence|].
  intros H Hs. apply (check_verified g (message e) false []) in H; [discriminate|exact Hs].
Qed.

Lemma verify_runs g (m : Demo.M App W unit) s : exists s', verify g m s = (s', Ok tt).
Proof. unfold verify. rewrite catching_eq. destruct (m s) as [s1 [[]|e]]; by eexists. Qed.

(** Every slot but these. *)
Definition all_but (xs : list slot) : list slot :=
  List.filter (fun x => negb (bool_decide (x ∈ xs))) (GoalOf g_understatedExit :: other_slots).

Lemma untouched {A} (xs : list slot) (m : Demo.M App W A) s s' r :
  m s = (s', r) -> modifies (all_but xs) m -> forall x, x ∈ xs -> s' x = s x.
Proof.
  intros H Hm x Hx. pose proof (Hm s x) as H'. rewrite H in H'. apply H'. intros Hin.
  apply list_elem_of_In, filter_In in Hin as [_ Hin]. by rewrite bool_decide_true in Hin.
Qed.

Section Shown.
Context (options : Options) (address url : string) (cMax : Z).

Abbreviation steps := (steps actors sha256 gens lib options address url cMax).

(** What the final cells hold once these goals are verified. *)
Definition unlinkable (s : heap) : Prop := exists first second, s FirstBody = Some first /\ s SecondBody = Some second
  /\ shared_fields (publicFields first) (publicFields second) = [].

Definition solvent (s : heap) : Prop := exists args note R, s ExitArgs = Some args /\ s Note = Some note
  /\ BigInt (t_refunds (opening note)) = Ok R /\ BigInt (wa_payout args) = Ok (deposit options + R - 2 * cMax).

Definition secret (s : heap) : Prop := s Sent <> [] /\ leaked (key_forms (s Secrets)) (s Sent) = [].

Definition link_cells : list slot := [FirstBody; SecondBody].
Definition exit_cells : list slot := [ExitArgs; Note].
Definition secret_cells : list slot := [Secrets; Sent].

Lemma unlinkable_carried (s s' : heap) : (forall x, x ∈ link_cells -> s' x = s x) -> unlinkable s -> unlinkable s'.
Proof.
  intros H (first & second & H1 & H2 & H3). exists first, second.
  by rewrite (H FirstBody), (H SecondBody) by in_slots.
Qed.

Lemma solvent_carried (s s' : heap) : (forall x, x ∈ exit_cells -> s' x = s x) -> solvent s -> solvent s'.
Proof.
  intros H (args & note & R & H1 & H2 & H3). exists args, note, R. by rewrite (H ExitArgs), (H Note) by in_slots.
Qed.

Lemma secret_carried (s s' : heap) : (forall x, x ∈ secret_cells -> s' x = s x) -> secret s -> secret s'.
Proof. intros H. unfold secret. by rewrite (H Sent), (H Secrets) by in_slots. Qed.

(** Each of the three, from the state its [verify] ends in. *)
Lemma unlinkable_shown (s s' : heap) : verify g_requestToRequest request_to_request_checks s = (s', Ok tt) ->
  status (s' (GoalOf g_requestToRequest)) = Some Verified -> unlinkable s'.
Proof.
  intros Hv Hs. pose proof Hv as H. apply verify_verified in H; [|exact Hs]. unfold request_to_request_checks in H.
  apply bind_ok in H as (s1 & first & H1 & H). apply firstBody_ok in H1 as [-> H1].
  apply bind_ok in H as (s1 & second & H2 & H). apply secondBody_ok in H2 as [-> H2].
  apply check_verified in H; [|exact Hs]. apply bool_decide_eq_true in H.
  apply (unlinkable_carried s); [apply (untouched _ _ _ _ _ Hv); footprint|by exists first, second].
Qed.

Lemma solvent_shown (s s' : heap) : verify g_solvency (solvency_checks options cMax) s = (s', Ok tt) ->
  status (s' (GoalOf g_solvency)) = Some Verified -> solvent s'.
Proof.
  intros Hv Hs. pose proof Hv as H. apply verify_verified in H; [|exact Hs]. unfold solvency_checks in H.
  apply bind_ok in H as (s1 & args & H1 & H). apply exitArgs_ok in H1 as [-> Hargs].
  apply bind_ok in H as (s1 & note & H1 & H). apply note_ok in H1 as [-> Hnote].
  apply bind_ok in H as (s1 & R & H1 & H). apply lift_ok in H1 as [-> HR].
  apply bind_ok in H as (s1 & payout & H1 & H). apply lift_ok in H1 as [-> Hp].
  apply check_verified in H; [|exact Hs]. apply Z.eqb_eq in H. subst payout.
  apply (solvent_carried s); [apply (untouched _ _ _ _ _ Hv); footprint|by exists args, note, R].
Qed.

Lemma secret_shown (s s' : heap) : verify g_secretKey secret_key_checks s = (s', Ok tt) ->
  status (s' (GoalOf g_secretKey)) = Some Verified -> secret s'.
Proof.
  intros Hv Hs. pose proof Hv as H. apply verify_verified in H; [|exact Hs]. unfold secret_key_checks in H.
  apply check_verified in H; [|exact Hs]. apply andb_true_iff in H as [Hl H]. apply bool_decide_eq_true in H.
  apply (secret_carried s); [apply (untouched _ _ _ _ _ Hv); footprint|]. split; [|exact H]. by destruct (s Sent).
Qed.

Lemma requests_shown firstBlock (s s' : heap) :
  requests actors sha256 gens lib options address url cMax firstBlock s = (s', Ok tt) ->
  status (s' (GoalOf g_requestToRequest)) = Some Verified -> unlinkable s'.
Proof.
  intros H Hs. unfold requests in H. do 7 (apply bind_ok in H as (? & [] & _ & H)).
  apply bind_ok in H as (s1 & [] & H1 & H).
  apply (unlinkable_carried s1); [apply (untouched _ _ _ _ _ H); footprint|].
  apply (unlinkable_shown _ s1 H1).
  rewrite <- (untouched [GoalOf g_requestToRequest] _ _ _ _ H); [exact Hs|footprint|in_slots].
Qed.

Lemma steps_shown (s s' : heap) : steps s = (s', Ok tt) ->
  (forall g, expected (goal_of g) = Verified -> status (s' (GoalOf g)) = Some Verified) ->
  unlinkable s' /\ solvent s' /\ secret s'.
Proof.
  intros H Hs. unfold Demo.steps in H. apply bind_ok in H as (? & [] & _ & H). apply bind_ok in H as (? & firstBlock & _ & H).
  apply bind_ok in H as (s1 & [] & H1 & H). split; [|split].
  - apply (unlinkable_carried s1); [apply (untouched _ _ _ _ _ H); footprint|]. apply (requests_shown _ _ s1 H1).
    rewrite <- (untouched [GoalOf g_requestToRequest] _ _ _ _ H); [by apply Hs|footprint|in_slots].
  - do 2 (apply bind_ok in H as (? & [] & _ & H)). apply bind_ok in H as (s2 & [] & H2 & H).
    apply (solvent_carried s2); [apply (untouched _ _ _ _ _ H); footprint|]. apply (solvent_shown _ s2 H2).
    rewrite <- (untouched [GoalOf g_solvency] _ _ _ _ H); [by apply Hs|footprint|in_slots].
  - do 3 (apply bind_ok in H as (? & [] & _ & H)). unfold closing in H. do 2 (apply bind_ok in H as (? & [] & _ & H)).
    apply (secret_shown _ s' H). by apply Hs.
Qed.
End Shown.

Lemma modifies_report : modifies [Console] (report : Demo.M App W bool).
Proof.
  unfold report. apply modifies_bind; [footprint|]. intros _. generalize goals as gs.
  induction gs as [|g gs IH]; cbn [rows]; [apply modifies_ret|].
  repeat (apply modifies_bind; [first [exact IH|footprint]|]; intros ?). apply modifies_ret.
Qed.

(** The steps of a run of [main] that ended. *)
Lemma main_plays argv s s' b : main argv s = (s', Ok b) ->
  exists options address url cMax w s1 s2, parseOptions anvilKey parseEther (s Env) argv = Ok options
    /\ NoteClient.C_MAX (for_note (ledger actors (o_rpcUrl options) address w)) = Ok cMax
    /\ Demo.steps actors sha256 gens lib options address url cMax s1 = (s2, Ok tt)
    /\ forall x, x <> Console -> x <> World -> s' x = s2 x.
Proof.
  unfold Demo.main. intros (s0 & env & He & H)%bind_ok. injection He as <- <-.
  apply bind_ok in H as (s0 & options & [-> Ho]%lift_ok & H).
  apply bind_ok in H as (s3 & [] & _ & H). apply bind_ok in H as (s4 & [address url] & _ & H).
  apply bind_ok in H as (s5 & wallet & _ & H). apply bind_ok in H as (s6 & cMax & Hc & H).
  unfold look in Hc. apply bind_ok in Hc as (s0 & w & Hw & [-> Hc]%lift_ok). injection Hw as <- <-.
  unfold played in H. apply bind_ok in H as (s7 & [] & Hf & H). unfold finally_closed in Hf.
  destruct (Demo.steps actors sha256 gens lib options address url cMax s5) as [s8 [[]|e]] eqn:Hs;
    [|destruct (close_app actors s8) as [s9 [[]|]]; discriminate].
  exists options, address, url, cMax, (s5 World), s5, s8. split_and!; [done|done|exact Hs|].
  intros x Hx Hy. pose proof (modifies_report s7 x) as H1. rewrite H in H1. cbn [fst] in H1.
  assert (Hm : modifies [World] (close_app actors : Demo.M App W unit)) by footprint.
  pose proof (Hm s8 x) as H2. rewrite Hf in H2. cbn [fst] in H2.
  rewrite H1, H2; [done|by intros [?|?%not_elem_of_nil]%elem_of_cons|by intros [?|?%not_elem_of_nil]%elem_of_cons].
Qed.

(** C20: what a run that exits with 0 has shown, on the values it ran with. Alice's two
    requests have no public field in common but the root everyone shares; the payout of her
    withdrawal is her deposit and the refunds of her note less twice C_MAX; and none of the
    bodies that were sent - there was at least one - holds the secret key of any note it opened,
    in decimal or in hexadecimal. *)
Theorem demo_exit_zero_shows argv env w : (demo argv env w).2 = 0 ->
  let s := (demo argv env w).1 in
  exists options address cMax w', parseOptions anvilKey parseEther env argv = Ok options
    /\ NoteClient.C_MAX (for_note (ledger actors (o_rpcUrl options) address w')) = Ok cMax
    /\ unlinkable s /\ solvent options cMax s /\ secret s.
Proof.
  unfold Demo.demo. destruct (main argv (start env w)) as [s r] eqn:Hm. cbn [fst snd]. intros H0.
  destruct r as [[|]|]; [discriminate| |discriminate].
  assert (Hs : forall g, expected (goal_of g) = Verified -> status (s (GoalOf g)) = Some Verified).
  { intros g Hg. pose proof (main_faithful argv _ (start_unskipped env w) g) as [He _]. rewrite Hm in He. cbn [fst] in He.
    apply main_reports in Hm. destruct (decide (status (s (GoalOf g)) = Some Verified)) as [|Hn]; [done|]. exfalso.
    enough (H : false = true) by done. rewrite Hm. apply existsb_exists. exists g.
    split; [destruct g; cbn; tauto|]. apply unmet_regressed. split; [by rewrite He|done]. }
  apply main_plays in Hm as (options & address & url & cMax & w' & s1 & s2 & Ho & Hc & H & Hk).
  destruct (steps_shown options address url cMax s1 s2 H) as (Hu & Hso & Hse).
  { intros g Hg. rewrite <- Hk by discriminate. by apply Hs. }
  exists options, address, cMax, w'. split_and!; [done|done| | |].
  - apply (unlinkable_carried s2); [|done]. intros x Hx. apply Hk; intros ->; revert Hx; in_slots.
  - apply (solvent_carried options cMax s2); [|done]. intros x Hx. apply Hk; intros ->; revert Hx; in_slots.
  - apply (secret_carried s2); [|done]. intros x Hx. apply Hk; intros ->; revert Hx; in_slots.
Qed.
End Verdict.
