(* ===== verification/DemoFixture.v ===== *)
(** * A deployment in which the demo passes

    A small chain, gateway and provers for [Demo], and the runs of the demo against them. *)

From Stdlib Require Import Ascii String.
From S2P Require Import Prelude Field JsText HexText JsNumber FieldElement Accumulator Slashing Json JsonText JsCoerce Gateway RefundSigner NoteClient Wire Demo DemoVerdict.
Open Scope Z_scope.

(** ** Libraries *)

Definition small_hash (l : list Z) : Z :=
  match l with
  | [a] => if a <? 100000000 then a mod 10 else a
  | [a; b] => mod_p (3 * a + b + 17)
  | _ => 0
  end.

Definition small_circomlib : Circomlib :=
  {| poseidon := small_hash; prv2pub := fun _ => (2, 3);
     signPoseidon := fun _ m => ((4, mod_p m), 6);
     verifyPoseidon := fun m sg pk => (sg.1.2 =? m) && (pk.1 =? 2) && (pk.2 =? 3);
     F_e := mod_p; F_toString16 := toString16 |}.

(** Every accumulator the client computes is the identity. *)
Definition small_gens : Generators :=
  {| gen_G := IDENTITY; gen_J := IDENTITY; gen_K := IDENTITY; gen_H := IDENTITY |}.

Definition number_of (s : string) : Z := match BigInt s with Ok z => z | Throw _ => 0 end.

Definition blank_proof (g : list string) : Groth16Proof := {| g_a := g; g_b := [["1"; "2"]; ["3"; "4"]]%string; g_c := g |}.

Definition request_prover (i : RequestInputs) : result (Groth16Proof * list string) :=
  let k := number_of (ri_secretKey i) in
  let a1 := small_hash [k; number_of (ai_index (ri_accumulator i))] in
  let s := number_of (ri_rerandomizer i) in
  Ok (blank_proof ["7"]%string,
      [toString (small_hash [a1]); toString (k + a1 * number_of (ri_signalX i));
       toString (1000 * s + 7); toString (1000 * s + 8)]).

(** The proof names the recipient it is for. *)
Definition settlement_prover (i : WithdrawalInputs) : result (Groth16Proof * list string) :=
  let k := number_of (wi_secretKey i) in
  let n := number_of (wi_claimedIndex i) in
  let a1 := small_hash [k; n] in
  Ok (blank_proof [wi_recipient i],
      [toString (small_hash [a1]); toString (k + a1 * number_of (wi_signalX i));
       toString (number_of (wi_deposit i) + number_of (ai_refunds (wi_accumulator i)) - n * number_of (wi_maxCost i))]).

Definition small_libraries : Libraries :=
  {| circom := small_circomlib; proveRequestCircuit := request_prover; proveSettlementCircuit := settlement_prover;
     soliditySplit := fun proof _ => Ok (g_a proof, [], []);
     toBeHex32 := fun z => Ok (hex64 z); getAddress := fun a => Ok a |}.

(** ** The chain and the gateway *)

Record Sim : Type := {
  s_notes : gmap string (Z * Z * Z * Z);
  s_leaves : list string;
  s_events : list Z;
  s_block : Z;
  s_balances : gmap string Z;
  s_exits : gmap string (string * Z);
  s_served : gmap string (list (string * string) * json);
  s_random : list Z;
  s_addresses : Z;
}.

Definition REFUND : Z := 3.
Definition BOUNTY : Z := 10.

Definition balance_of (w : Sim) (a : string) : Z := default 0 (s_balances w !! a).

Definition with_status (c : string) (st : Z) (w : Sim) : gmap string (Z * Z * Z * Z) :=
  match s_notes w !! c with
  | Some (amount, e, i, _) => <[c := (amount, e, i, st)]> (s_notes w)
  | None => s_notes w
  end.

(** A transaction that changes the notes, pays an account and logs an event. *)
Definition mined (notes : gmap string (Z * Z * Z * Z)) (to : string) (amount : Z) (w : Sim) : Sim :=
  {| s_notes := notes; s_leaves := s_leaves w; s_events := s_events w ++ [s_block w + 1]; s_block := s_block w + 1;
     s_balances := <[to := balance_of w to + amount]> (s_balances w); s_exits := s_exits w; s_served := s_served w;
     s_random := s_random w; s_addresses := s_addresses w |}.

Definition sim_deposit (commitment : string) (value : Z) (w : Sim) : Sim :=
  let i := Z.of_nat (length (s_leaves w)) in
  let w := mined (<[commitment := (value, 0, i, 1)]> (s_notes w)) "0xcontract" value w in
  {| s_notes := s_notes w; s_leaves := s_leaves w ++ [hex64 (small_hash [number_of commitment; value])];
     s_events := s_events w; s_block := s_block w; s_balances := s_balances w; s_exits := s_exits w;
     s_served := s_served w; s_random := s_random w; s_addresses := s_addresses w |}.

Definition sim_slash (wallet : string) (k : Z) (w : Sim) : Sim :=
  mined (with_status (hex64 (small_hash [k])) 4 w) wallet BOUNTY w.

Definition sim_initiate (args : WithdrawalArgs) (w : Sim) : Sim :=
  let w := mined (with_status (wa_commitment args) 2 w) "0xcontract" 0 w in
  {| s_notes := s_notes w; s_leaves := s_leaves w; s_events := s_events w; s_block := s_block w;
     s_balances := s_balances w;
     s_exits := <[wa_commitment args := (wa_recipient args, number_of (wa_payout args))]> (s_exits w);
     s_served := s_served w; s_random := s_random w; s_addresses := s_addresses w |}.

Definition sim_finalize (commitment : string) (w : Sim) : Sim :=
  let '(recipient, payout) := default ("0x0"%string, 0) (s_exits w !! commitment) in
  mined (with_status commitment 3 w) recipient payout w.

Definition sim_ledger (w : Sim) : Ledger :=
  {| for_note :=
       {| NoteClient.getNote := fun c => Ok (default (0, 0, 0, 0) (s_notes w !! c));
          getMerkleProof := fun _ => Ok ([], []);
          NoteClient.merkleRoot := Ok "0x3"%string; NoteClient.C_MAX := Ok 50;
          serverPublicKey := Ok ("2", "3")%string;
          NoteClient.withdrawalSignalX := fun _ => Ok 7000318 |};
     blockNumber := Ok (s_block w);
     leaf_at := fun i => of_option (Error "no leaf") (s_leaves w !! Z.to_nat i);
     getLeaves := Ok (s_leaves w);
     Deposited := Ok (map fst (map_to_list (s_notes w)));
     logs_from := fun b => Ok (Z.of_nat (length (List.filter (fun n => b <=? n) (s_events w))));
     serverAddress := Ok "0xserver"%string;
     SLASH_BOUNTY := Ok BOUNTY;
     getBalance := fun a => Ok (balance_of w a);
     static_initiate := fun _ args =>
       Ok (if number_of (wa_recipient args) =? number_of (default "0"%string (head (wa_proof args)))
           then Succeeds else Reverts "InvalidProof" []) |}.

(** A nullifier is served once: the same signal gets its reply again, another one is refused. *)
Definition sim_serve (body : list Z) (w : Sim) : Sim * result (Z * list Z) :=
  match (let* v := JSON_parse body in
         of_option (SyntaxError "body") (LongjingRequestDto_of (Some v))) with
  | Throw e => (w, Throw e)
  | Ok dto =>
      let row := [("x", signal_x (req_signal dto)); ("y", signal_y (req_signal dto))]%string in
      match s_served w !! req_nullifier dto with
      | Some (row', reply) =>
          if bool_decide (row = row') then (w, Ok (200, JSON_text reply))
          else (w, Ok (403, JSON_text (error_json 403 "Double-spend detected: note slashed")))
      | None =>
          let m := mod_p (small_hash [IDENTITY.1; IDENTITY.2]) in
          let reply := JObj [(code_units "refund", text_json (toString REFUND));
            (code_units "accumulator", accumulator_json
               {| sa_x := toString IDENTITY.1; sa_y := toString IDENTITY.2;
                  sa_signature := {| R8x := "4"; R8y := toString m; S_ := "6" |} |})] in
          ({| s_notes := s_notes w; s_leaves := s_leaves w; s_events := s_events w; s_block := s_block w;
              s_balances := s_balances w; s_exits := s_exits w;
              s_served := <[req_nullifier dto := (row, reply)]> (s_served w);
              s_random := s_random w; s_addresses := s_addresses w |}, Ok (200, JSON_text reply))
      end
  end.

Definition sim_random (w : Sim) : Sim * result (list byte) :=
  ({| s_notes := s_notes w; s_leaves := s_leaves w; s_events := s_events w; s_block := s_block w;
      s_balances := s_balances w; s_exits := s_exits w; s_served := s_served w;
      s_random := drop 1 (s_random w); s_addresses := s_addresses w |},
   Ok (be_bytes 8 (default 0 (head (s_random w))))).

Definition sim_address (w : Sim) : Sim * result string :=
  ({| s_notes := s_notes w; s_leaves := s_leaves w; s_events := s_events w; s_block := s_block w;
      s_balances := s_balances w; s_exits := s_exits w; s_served := s_served w;
      s_random := s_random w; s_addresses := s_addresses w + 1 |},
   Ok (toString (s_addresses w + 1))).

Definition anvil_key (i : Z) : string := "key" +:+ toString i.

Definition sim_actors : Actors unit Sim :=
  {| forge := fun w => (w, Ok ("LongjingCredits deployed at: 0x" +:+ of_chars (repeat "a"%char 40))%string);
     boot := fun _ w => (w, Ok tt);
     getUrl := fun _ w => (w, Ok "http://127.0.0.1:4000"%string);
     close := fun _ w => (w, Ok tt);
     stored := fun _ n w => fst <$> s_served w !! n;
     fetch := fun _ body w => sim_serve body w;
     randomBytes := sim_random;
     randomAddress := sim_address;
     wallet_address := fun key => Ok ("0x" +:+ key)%string;
     ledger := fun _ _ w => sim_ledger w;
     send_deposit := fun _ _ _ c v w => (sim_deposit c v w, Ok tt);
     send_slash := fun _ _ key k w => (sim_slash ("0x" +:+ key)%string k w, Ok (0, 0));
     send_initiate := fun _ _ _ args w => (sim_initiate args w, Ok tt);
     send_finalize := fun _ _ _ c w => (sim_finalize c w, Ok tt);
     send := fun _ _ _ w => (w, Ok tt) |}.

(** Keys, nonces and rerandomizers in the order the demo draws them. *)
Definition draws : list Z :=
  [81234561; 6000100; 2; 6000200; 1;
   82345672; 6000300; 1; 6000301; 1;
   83456783; 6000400; 1; 7000300; 1].

Definition sim_start : Sim :=
  {| s_notes := ∅; s_leaves := []; s_events := []; s_block := 0; s_balances := ∅; s_exits := ∅; s_served := ∅;
     s_random := draws; s_addresses := 100 |}.

Definition zero_digest (_ : list byte) : list byte := [x00].

Abbreviation sim_demo := (demo sim_actors zero_digest small_gens small_libraries anvil_key (fun _ => Ok 1000) "/tmp/longjing-demo-1").

(** ** Runs *)

(** The demo on its own chain passes: every goal that is expected to be verified is. *)
Lemma sim_demo_passes : (sim_demo [] ∅ sim_start).2 = 0.
Proof. vm_compute. reflexivity. Qed.

Lemma demo_exit_zero_shows_witness : let s := (sim_demo [] ∅ sim_start).1 in
  exists options address cMax w', parseOptions anvil_key (fun _ => Ok 1000) ∅ [] = Ok options
    /\ NoteClient.C_MAX (for_note (ledger sim_actors (o_rpcUrl options) address w')) = Ok cMax
    /\ unlinkable s /\ solvent options cMax s /\ secret s.
Proof.
  exact (demo_exit_zero_shows sim_actors zero_digest small_gens small_libraries anvil_key (fun _ => Ok 1000)
    "/tmp/longjing-demo-1" [] ∅ sim_start sim_demo_passes).
Defined.

Definition deployment_args : list string :=
  ["--gateway"; "https://gateway.example/"; "--contract=0xc0ffee"; "--rpc"; "https://rpc.example"; "--deposit"; "0.02"].

Definition deployment_env : gmap string string := {["DEMO_PRIVATE_KEY"%string := "alice"%string]}.

Definition deployment_options : Options :=
  {| gateway := Some "https://gateway.example"%string; o_contract := Some "0xc0ffee"%string;
     o_rpcUrl := "https://rpc.example"; aliceKey := "alice"; slasherKey := "alice"; deposit := 1000 |}.

(** Every check of this run passes, and it exits with 1. *)
Lemma demo_against_deployment_exits_1_witness :
  forallb (fun l => match l with Checked _ _ ok _ => ok | Line _ => true end)
    ((sim_demo deployment_args deployment_env sim_start).1 Console) = true
  /\ (sim_demo deployment_args deployment_env sim_start).2 = 1.
Proof.
  split; [vm_compute; reflexivity|].
  assert (Hp : parseOptions anvil_key (fun _ => Ok 1000) deployment_env deployment_args = Ok deployment_options)
    by (vm_compute; reflexivity).
  exact (demo_against_deployment_exits_1 sim_actors zero_digest small_gens small_libraries anvil_key (fun _ => Ok 1000)
    "/tmp/longjing-demo-1" deployment_args deployment_env sim_start deployment_options "https://gateway.example" Hp eq_refl).
Defined.
