(* ===== verification/Credits.v ===== *)
(** * The contract

    [contracts/src/LongjingCredits.sol]: deposits, exits, slashing, expiry, the tree of
    leaves and the timelocked settings, as transactions that either return or revert.
    Poseidon, keccak256 and the verifier contracts are parameters, and so is what the
    recipient of a payment does with it: it may call the contract back. [Ownable],
    [Pausable] and [ReentrancyGuard] are OpenZeppelin's, as documented. *)

From S2P Require Import Prelude Modulus JsText.
Open Scope Z_scope.

(** ** Types *)

Inductive Status : Type := NoNote | Active | Exiting | Closed | Slashed | Expired.

#[export] Instance Status_eq_dec : EqDecision Status.
Proof. solve_decision. Defined.

Record Note : Type := { amount : Z; depositedAt : Z; leafIndex : Z; status : Status }.

(** What a mapping answers for a commitment never used. *)
Definition no_note : Note := {| amount := 0; depositedAt := 0; leafIndex := 0; status := NoNote |}.

Inductive Target : Type := SettlementVerifier | ServerAddress | RefundKey.

#[export] Instance Target_eq_dec : EqDecision Target.
Proof. solve_decision. Defined.

Record PendingChange : Type := { new_value : Z; keyX : Z; keyY : Z; eta : Z }.

Definition no_change : PendingChange := {| new_value := 0; keyX := 0; keyY := 0; eta := 0 |}.

Record Exit : Type := {
  nullifier : Z; signalX : Z; signalY : Z; payout : Z; recipient : Z; exitAt : Z
}.

Inductive Event : Type :=
| Deposited (commitment amount leafIndex : Z)
| WithdrawalInitiated (commitment nullifier signalX signalY payout recipient exitAt : Z)
| WithdrawalFinalized (commitment recipient payout : Z)
| NoteSlashed (commitment slasher bounty : Z)
| MerkleRootUpdated (newRoot leafCount : Z)
| NoteExpiredClaimed (commitment amount : Z)
| OperatorBalanceWithdrawn (to amount : Z)
| ServerAddressUpdated (oldAddress newAddress : Z)
| RefundKeyProposed (x y eta : Z)
| RefundKeyUpdated (x y : Z)
| ChangeProposed (target : Target) (value eta : Z)
| ChangeExecuted (target : Target) (value : Z)
| ChangeCancelled (target : Target) (value : Z)
| OwnershipTransferred (from to : Z)
| PausedBy (account : Z)
| UnpausedBy (account : Z).

(** Why a transaction reverts: the errors of the contract, those of OpenZeppelin, and
    Solidity's own checks. *)
Inductive Revert : Type :=
| InvalidDepositAmount | InvalidCommitment | InvalidSecretKey | NoteAlreadyExists | NoteNotActive
| NoteNotExiting | ChallengeWindowOpen | UnknownRefundKey | PayoutExceedsDeposit | InvalidProof
| Unauthorized | ZeroAddress | ZeroKey | UseProposeRefundKey | NoPendingChange | TimelockNotExpired
| NoteNotExpired | TreeFull | TransferFailed
| OwnableUnauthorizedAccount | OwnableInvalidOwner | EnforcedPause | ExpectedPause
| ReentrancyGuardReentrantCall | VerifierReverted | Panic | NotPayable | BadCalldata.

(** ** Constants *)

Definition TREE_DEPTH : nat := 20.
Definition ROOT_HISTORY_SIZE : Z := 30.
Definition ADMIN_DELAY : Z := 7 * 86400.
Definition NOTE_TTL : Z := 365 * 86400.
Definition CHALLENGE_WINDOW : Z := 3 * 86400.

(** ** State *)

(** The tree: the inner nodes by level and index, and the ring of recent roots. *)
Record Tree : Type := {
  leaves : list Z;
  treeNodes : gmap (nat * Z) Z;
  merkleRoot : Z;
  roots : list Z;
  currentRootIndex : Z;
}.

Record Book : Type := {
  notes : gmap Z Note;
  exits : gmap Z Exit;
  pausedTimeAtDeposit : gmap Z Z;
  operatorBalance : Z;
}.

Record Settings : Type := {
  owner : Z;
  serverAddress : Z;
  serverPublicKey : Z * Z;
  acceptedRefundKeys : gset Z;
  settlementVerifier : Z;
  pendingChanges : Target -> PendingChange;
  paused : bool;
  totalPausedTime : Z;
  pausedAt : Z;
}.

(** [entered] is the flag of ReentrancyGuard, [balance] the ether of the contract. *)
Record State : Type := {
  book : Book;
  tree : Tree;
  settings : Settings;
  entered : bool;
  balance : Z;
  events : list Event;
}.

Definition with_book (b : Book) (s : State) : State :=
  {| book := b; tree := tree s; settings := settings s; entered := entered s; balance := balance s; events := events s |}.
Definition with_tree (t : Tree) (s : State) : State :=
  {| book := book s; tree := t; settings := settings s; entered := entered s; balance := balance s; events := events s |}.
Definition with_settings (x : Settings) (s : State) : State :=
  {| book := book s; tree := tree s; settings := x; entered := entered s; balance := balance s; events := events s |}.
Definition with_entered (e : bool) (s : State) : State :=
  {| book := book s; tree := tree s; settings := settings s; entered := e; balance := balance s; events := events s |}.
Definition with_balance (v : Z) (s : State) : State :=
  {| book := book s; tree := tree s; settings := settings s; entered := entered s; balance := v; events := events s |}.
Definition logged (e : Event) (s : State) : State :=
  {| book := book s; tree := tree s; settings := settings s; entered := entered s; balance := balance s;
     events := events s ++ [e] |}.

Definition with_note (c : Z) (n : Note) (b : Book) : Book :=
  {| notes := <[c := n]> (notes b); exits := exits b; pausedTimeAtDeposit := pausedTimeAtDeposit b;
     operatorBalance := operatorBalance b |}.
Definition with_exit (c : Z) (x : Exit) (b : Book) : Book :=
  {| notes := notes b; exits := <[c := x]> (exits b); pausedTimeAtDeposit := pausedTimeAtDeposit b;
     operatorBalance := operatorBalance b |}.
Definition with_paused_time (c t : Z) (b : Book) : Book :=
  {| notes := notes b; exits := exits b; pausedTimeAtDeposit := <[c := t]> (pausedTimeAtDeposit b);
     operatorBalance := operatorBalance b |}.
Definition with_operator (v : Z) (b : Book) : Book :=
  {| notes := notes b; exits := exits b; pausedTimeAtDeposit := pausedTimeAtDeposit b; operatorBalance := v |}.

Definition marked (st : Status) (n : Note) : Note :=
  {| amount := amount n; depositedAt := depositedAt n; leafIndex := leafIndex n; status := st |}.

Definition note_at (c : Z) (s : State) : Note := default no_note (notes (book s) !! c).

(** ** Transactions *)

Inductive outcome (A : Type) : Type := Returns (a : A) | Reverts (r : Revert).
Arguments Returns {A} a.
Arguments Reverts {A} r.

(** A call that reverts changes nothing: it has no state. *)
Definition Tx (A : Type) : Type := State -> outcome (State * A).

#[export] Instance Tx_ret : MRet Tx := fun _ a s => Returns (s, a).
#[export] Instance Tx_bind : MBind Tx := fun _ _ f m s =>
  match m s with
  | Returns (s', a) => f a s'
  | Reverts r => Reverts r
  end.

Definition gets {A} (f : State -> A) : Tx A := fun s => Returns (s, f s).
Definition update (f : State -> State) : Tx unit := fun s => Returns (f s, tt).
Definition revert {A} (r : Revert) : Tx A := fun _ => Reverts r.

(** [if (b) revert r]. *)
Definition revert_if (b : bool) (r : Revert) : Tx unit := if b then revert r else mret tt.
Definition emit (e : Event) : Tx unit := update (logged e).

(** The result of an arithmetic operation of [uint256]. *)
Definition uint256 (z : Z) : Tx Z := if (0 <=? z) && (z <? 2 ^ 256) then mret z else revert Panic.

Record Msg : Type := { sender : Z; value : Z; timestamp : Z }.

Section Contract.
Context (poseidon : list Z -> Z) (keccak256 : list byte -> Z).
(** The verifier contract at an address, on a proof and the public signals: [None] when it reverts. *)
Context (verifies : Z -> list Z -> list Z -> option bool).
(** The chain, the contract's own address, and its immutables. *)
Context (chainid this C_MAX SLASH_BOUNTY : Z).

Definition hash (x : Z) : Z := poseidon [x].
Definition hash2 (left right : Z) : Z := poseidon [left; right].
Definition hash3 (a b c : Z) : Z := hash2 (hash2 a b) c.

(** ** The tree *)

Fixpoint zeros_from (n : nat) (currentZero : Z) : list Z :=
  match n with
  | O => []
  | S n => currentZero :: zeros_from n (hash2 currentZero currentZero)
  end.

Definition zeros : list Z := zeros_from TREE_DEPTH 0.

Definition empty_root : Z := Nat.iter TREE_DEPTH (fun z => hash2 z z) 0.

Definition _sibling (index : Z) : Z := if index mod 2 =? 0 then index + 1 else index - 1.

Definition _node (level : nat) (index : Z) (nodes : gmap (nat * Z) Z) : Z :=
  let node := default 0 (nodes !! (level, index)) in
  if node =? 0 then default 0 (zeros !! level) else node.

(** The loop of [_updateLeaf], with the levels left to go. *)
Fixpoint climb (levels level : nat) (index current : Z) (nodes : gmap (nat * Z) Z) : gmap (nat * Z) Z * Z :=
  match levels with
  | O => (nodes, current)
  | S levels =>
      let sibling := _node level (_sibling index) nodes in
      let current := if index mod 2 =? 0 then hash2 current sibling else hash2 sibling current in
      let index := index / 2 in
      climb levels (S level) index current (<[(S level, index) := current]> nodes)
  end.

Definition _pushRoot (root : Z) : Tx unit :=
  t ← gets tree;
  let i := (currentRootIndex t + 1) mod ROOT_HISTORY_SIZE in
  update (with_tree {| leaves := leaves t; treeNodes := treeNodes t; merkleRoot := root;
                       roots := <[Z.to_nat i := root]> (roots t); currentRootIndex := i |}) ;;
  emit (MerkleRootUpdated root (Z.of_nat (length (leaves t)))).

(** [array[i]] and [array[i] = v] of a storage array panic out of range. *)
Definition _updateLeaf (index : Z) : Tx unit :=
  t ← gets tree;
  match leaves t !! Z.to_nat index with
  | None => revert Panic
  | Some current =>
      let '(nodes, root) := climb TREE_DEPTH 0 index current (<[(0%nat, index) := current]> (treeNodes t)) in
      update (with_tree {| leaves := leaves t; treeNodes := nodes; merkleRoot := merkleRoot t; roots := roots t;
                           currentRootIndex := currentRootIndex t |}) ;;
      _pushRoot root
  end.

Definition with_leaves (l : list Z) (t : Tree) : Tree :=
  {| leaves := l; treeNodes := treeNodes t; merkleRoot := merkleRoot t; roots := roots t;
     currentRootIndex := currentRootIndex t |}.

Definition _removeLeaf (index : Z) : Tx unit :=
  t ← gets tree;
  match leaves t !! Z.to_nat index with
  | None => revert Panic
  | Some _ => update (with_tree (with_leaves (<[Z.to_nat index := 0]> (leaves t)) t)) ;; _updateLeaf index
  end.

(** ** Views *)

Definition _pausedTime (now : Z) : Tx Z :=
  x ← gets settings;
  if paused x then (sum ← uint256 (totalPausedTime x + now); uint256 (sum - pausedAt x))
  else mret (totalPausedTime x).

Definition noteExpiry (c now : Z) : Tx Z :=
  note ← gets (note_at c);
  revert_if (bool_decide (status note = NoNote)) NoteNotActive ;;
  t ← uint256 (depositedAt note + NOTE_TTL);
  elapsed ← _pausedTime now;
  t ← uint256 (t + elapsed);
  before ← gets (fun s => default 0 (pausedTimeAtDeposit (book s) !! c));
  uint256 (t - before).

Definition withdrawalSignalX (to : Z) : Z := hash3 to chainid this.

(** Reads the ring from its start, as the loop does. *)
Definition isKnownRoot (root : Z) (s : State) : bool :=
  negb (root =? 0) && existsb (Z.eqb root) (roots (tree s)).

(** The path of the loop of [getMerkleProof]: siblings and sides, from the leaf up. *)
Fixpoint merkle_path (levels level : nat) (index : Z) (nodes : gmap (nat * Z) Z) : list (Z * Z) :=
  match levels with
  | O => []
  | S levels => (_node level (_sibling index) nodes, index mod 2) :: merkle_path levels (S level) (index / 2) nodes
  end.

(** [None] for an index out of bounds. *)
Definition getMerkleProof (index : Z) (s : State) : option (list Z * list Z) :=
  if index <? Z.of_nat (length (leaves (tree s)))
  then Some (List.split (merkle_path TREE_DEPTH 0 index (treeNodes (tree s))))
  else None.

(** [keccak256(abi.encode(x, y))]. *)
Definition _refundKeyId (x y : Z) : Z := keccak256 (be_bytes 32 x ++ be_bytes 32 y).

(** ** Modifiers *)

Definition nonReentrant (body : Tx unit) : Tx unit :=
  locked ← gets entered;
  revert_if locked ReentrancyGuardReentrantCall ;;
  update (with_entered true) ;;
  body ;;
  update (with_entered false).

Definition whenNotPaused : Tx unit :=
  x ← gets settings; revert_if (paused x) EnforcedPause.

Definition onlyOwner (m : Msg) : Tx unit :=
  x ← gets settings; revert_if (negb (sender m =? owner x)) OwnableUnauthorizedAccount.

(** ** Administration *)

Inductive admin_call : Type :=
| ProposeChange (target : Target) (v : Z)
| ProposeRefundKey (x y : Z)
| ExecuteChange (target : Target)
| CancelChange (target : Target)
| Pause
| Unpause
| TransferOwnership (newOwner : Z)
| RenounceOwnership.

Definition set_change (t : Target) (c : PendingChange) (x : Settings) : Settings :=
  {| owner := owner x; serverAddress := serverAddress x; serverPublicKey := serverPublicKey x;
     acceptedRefundKeys := acceptedRefundKeys x; settlementVerifier := settlementVerifier x;
     pendingChanges := fun u => if decide (u = t) then c else pendingChanges x u;
     paused := paused x; totalPausedTime := totalPausedTime x; pausedAt := pausedAt x |}.

Definition set_pause (b : bool) (total at_ : Z) (x : Settings) : Settings :=
  {| owner := owner x; serverAddress := serverAddress x; serverPublicKey := serverPublicKey x;
     acceptedRefundKeys := acceptedRefundKeys x; settlementVerifier := settlementVerifier x;
     pendingChanges := pendingChanges x; paused := b; totalPausedTime := total; pausedAt := at_ |}.

Definition set_owner (o : Z) (x : Settings) : Settings :=
  {| owner := o; serverAddress := serverAddress x; serverPublicKey := serverPublicKey x;
     acceptedRefundKeys := acceptedRefundKeys x; settlementVerifier := settlementVerifier x;
     pendingChanges := pendingChanges x; paused := paused x; totalPausedTime := totalPausedTime x;
     pausedAt := pausedAt x |}.

(** The setting a change is for takes its value. *)
Definition set_target (t : Target) (c : PendingChange) (x : Settings) : Settings :=
  {| owner := owner x;
     serverAddress := match t with ServerAddress => new_value c | _ => serverAddress x end;
     serverPublicKey := match t with RefundKey => (keyX c, keyY c) | _ => serverPublicKey x end;
     acceptedRefundKeys := match t with
                           | RefundKey => {[_refundKeyId (keyX c) (keyY c)]} ∪ acceptedRefundKeys x
                           | _ => acceptedRefundKeys x
                           end;
     settlementVerifier := match t with SettlementVerifier => new_value c | _ => settlementVerifier x end;
     pendingChanges := pendingChanges x; paused := paused x; totalPausedTime := totalPausedTime x;
     pausedAt := pausedAt x |}.

Definition on_settings (f : Settings -> Settings) : Tx unit := update (fun s => with_settings (f (settings s)) s).

Definition proposeChange (m : Msg) (t : Target) (v : Z) : Tx unit :=
  onlyOwner m ;;
  revert_if (bool_decide (t = RefundKey)) UseProposeRefundKey ;;
  revert_if (v =? 0) ZeroAddress ;;
  at_ ← uint256 (timestamp m + ADMIN_DELAY);
  on_settings (set_change t {| new_value := v; keyX := 0; keyY := 0; eta := at_ |}) ;;
  emit (ChangeProposed t v at_).

Definition proposeRefundKey (m : Msg) (x y : Z) : Tx unit :=
  onlyOwner m ;;
  revert_if ((x =? 0) && (y =? 0)) ZeroKey ;;
  at_ ← uint256 (timestamp m + ADMIN_DELAY);
  on_settings (set_change RefundKey {| new_value := 0; keyX := x; keyY := y; eta := at_ |}) ;;
  emit (RefundKeyProposed x y at_).

Definition executeChange (m : Msg) (t : Target) : Tx unit :=
  onlyOwner m ;;
  change ← gets (fun s => pendingChanges (settings s) t);
  revert_if (eta change =? 0) NoPendingChange ;;
  revert_if (timestamp m <? eta change) TimelockNotExpired ;;
  on_settings (set_change t no_change) ;;
  old ← gets (fun s => serverAddress (settings s));
  match t with
  | SettlementVerifier => on_settings (set_target t change)
  | RefundKey => on_settings (set_target t change) ;; emit (RefundKeyUpdated (keyX change) (keyY change))
  | ServerAddress => emit (ServerAddressUpdated old (new_value change)) ;; on_settings (set_target t change)
  end ;;
  emit (ChangeExecuted t (new_value change)).

Definition cancelChange (m : Msg) (t : Target) : Tx unit :=
  onlyOwner m ;;
  change ← gets (fun s => pendingChanges (settings s) t);
  revert_if (eta change =? 0) NoPendingChange ;;
  on_settings (set_change t no_change) ;;
  emit (ChangeCancelled t (new_value change)).

Definition pause (m : Msg) : Tx unit :=
  onlyOwner m ;;
  whenNotPaused ;;
  x ← gets settings;
  on_settings (set_pause true (totalPausedTime x) (timestamp m)) ;;
  emit (PausedBy (sender m)).

Definition unpause (m : Msg) : Tx unit :=
  onlyOwner m ;;
  x ← gets settings;
  revert_if (negb (paused x)) ExpectedPause ;;
  emit (UnpausedBy (sender m)) ;;
  elapsed ← uint256 (timestamp m - pausedAt x);
  total ← uint256 (totalPausedTime x + elapsed);
  on_settings (set_pause false total 0).

Definition transferOwnership (m : Msg) (newOwner : Z) : Tx unit :=
  onlyOwner m ;;
  revert_if (newOwner =? 0) OwnableInvalidOwner ;;
  x ← gets settings;
  on_settings (set_owner newOwner) ;;
  emit (OwnershipTransferred (owner x) newOwner).

Definition renounceOwnership (m : Msg) : Tx unit :=
  onlyOwner m ;;
  x ← gets settings;
  on_settings (set_owner 0) ;;
  emit (OwnershipTransferred (owner x) 0).

Definition govern (m : Msg) (c : admin_call) : Tx unit :=
  match c with
  | ProposeChange t v => proposeChange m t v
  | ProposeRefundKey x y => proposeRefundKey m x y
  | ExecuteChange t => executeChange m t
  | CancelChange t => cancelChange m t
  | Pause => pause m
  | Unpause => unpause m
  | TransferOwnership a => transferOwnership m a
  | RenounceOwnership => renounceOwnership m
  end.

(** ** Payments *)

(** What the recipient of a payment does: calls of the contract, each of which may revert
    without failing the payment, and whether it accepts. Those that are [nonReentrant]
    revert, see [locked_reverts]. *)
Definition Callback : Type := list (Z * admin_call) * bool.

Definition reenter (now : Z) (cb : list (Z * admin_call)) (s : State) : State :=
  fold_left (fun s c => match govern {| sender := c.1; value := 0; timestamp := now |} c.2 s with
                        | Returns (s', _) => s'
                        | Reverts _ => s
                        end) cb s.

Definition _pay (m : Msg) (cb : Callback) (to amount : Z) : Tx unit :=
  funds ← gets balance;
  revert_if (funds <? amount) TransferFailed ;;
  update (with_balance (funds - amount)) ;;
  update (reenter (timestamp m) cb.1) ;;
  revert_if (negb cb.2) TransferFailed.

(** ** Notes *)

Inductive guarded_call : Type :=
| Deposit (commitment : Z)
| InitiateWithdrawal (commitment to : Z) (refundKey : Z * Z) (proof : list Z) (nullifier signalY payout : Z)
| FinalizeWithdrawal (commitment : Z)
| Slash (secretKey : Z)
| ClaimExpired (commitment : Z)
| WithdrawOperatorBalance.

Definition on_book (f : Book -> Book) : Tx unit := update (fun s => with_book (f (book s)) s).

Definition add_operator (v : Z) : Tx unit :=
  b ← gets book;
  total ← uint256 (operatorBalance b + v);
  on_book (with_operator total).

Definition deposit (m : Msg) (c : Z) : Tx unit :=
  whenNotPaused ;;
  revert_if ((value m <? C_MAX) || (2 ^ 128 <=? value m)) InvalidDepositAmount ;;
  revert_if (FIELD_MODULUS <=? c) InvalidCommitment ;;
  note ← gets (note_at c);
  revert_if (negb (bool_decide (status note = NoNote))) NoteAlreadyExists ;;
  t ← gets tree;
  revert_if (Z.of_nat (length (leaves t)) =? 2 ^ Z.of_nat TREE_DEPTH) TreeFull ;;
  let index := Z.of_nat (length (leaves t)) in
  on_book (with_note c {| amount := value m; depositedAt := timestamp m; leafIndex := index; status := Active |}) ;;
  elapsed ← _pausedTime (timestamp m);
  on_book (with_paused_time c elapsed) ;;
  update (with_tree (with_leaves (leaves t ++ [hash2 c (value m)]) t)) ;;
  _updateLeaf index ;;
  emit (Deposited c (value m) index).

(** The public signals of an exit, in the order of the circuit. *)
Definition settlement_signals (c to : Z) (refundKey : Z * Z) (nullifier signalY payout deposit signalX : Z) : list Z :=
  [nullifier; signalY; payout; c; deposit; C_MAX; refundKey.1; refundKey.2; to; signalX].

Definition initiateWithdrawal (m : Msg) (c to : Z) (refundKey : Z * Z) (proof : list Z) (nullifier signalY payout : Z) : Tx unit :=
  revert_if (to =? 0) ZeroAddress ;;
  note ← gets (note_at c);
  revert_if (negb (bool_decide (status note = Active))) NoteNotActive ;;
  x ← gets settings;
  revert_if (negb (bool_decide (_refundKeyId refundKey.1 refundKey.2 ∈ acceptedRefundKeys x))) UnknownRefundKey ;;
  revert_if (amount note <? payout) PayoutExceedsDeposit ;;
  let signalX := withdrawalSignalX to in
  match verifies (settlementVerifier x) proof
          (settlement_signals c to refundKey nullifier signalY payout (amount note) signalX) with
  | None => revert VerifierReverted
  | Some valid => revert_if (negb valid) InvalidProof
  end ;;
  exitAt ← uint256 (timestamp m + CHALLENGE_WINDOW);
  on_book (with_note c (marked Exiting note)) ;;
  on_book (with_exit c {| Credits.nullifier := nullifier; Credits.signalX := signalX; Credits.signalY := signalY;
                          Credits.payout := payout; recipient := to; Credits.exitAt := exitAt |}) ;;
  _removeLeaf (leafIndex note) ;;
  emit (WithdrawalInitiated c nullifier signalX signalY payout to exitAt).

Definition no_exit : Exit :=
  {| nullifier := 0; signalX := 0; signalY := 0; payout := 0; recipient := 0; exitAt := 0 |}.

Definition finalizeWithdrawal (m : Msg) (cb : Callback) (c : Z) : Tx unit :=
  note ← gets (note_at c);
  revert_if (negb (bool_decide (status note = Exiting))) NoteNotExiting ;;
  exit ← gets (fun s => default no_exit (exits (book s) !! c));
  revert_if (timestamp m <? exitAt exit) ChallengeWindowOpen ;;
  on_book (with_note c (marked Closed note)) ;;
  rest ← uint256 (amount note - payout exit);
  add_operator rest ;;
  _pay m cb (recipient exit) (payout exit) ;;
  emit (WithdrawalFinalized c (recipient exit) (payout exit)).

Definition slash (m : Msg) (cb : Callback) (secretKey : Z) : Tx unit :=
  revert_if (FIELD_MODULUS <=? secretKey) InvalidSecretKey ;;
  let c := hash secretKey in
  note ← gets (note_at c);
  (if bool_decide (status note = Active) then _removeLeaf (leafIndex note)
   else revert_if (negb (bool_decide (status note = Exiting))) NoteNotActive) ;;
  let bounty := if amount note <? SLASH_BOUNTY then amount note else SLASH_BOUNTY in
  on_book (with_note c (marked Slashed note)) ;;
  rest ← uint256 (amount note - bounty);
  add_operator rest ;;
  _pay m cb (sender m) bounty ;;
  emit (NoteSlashed c (sender m) bounty).

Definition claimExpired (m : Msg) (c : Z) : Tx unit :=
  whenNotPaused ;;
  x ← gets settings;
  revert_if (negb (sender m =? serverAddress x)) Unauthorized ;;
  note ← gets (note_at c);
  revert_if (negb (bool_decide (status note = Active))) NoteNotActive ;;
  expiry ← noteExpiry c (timestamp m);
  revert_if (timestamp m <? expiry) NoteNotExpired ;;
  on_book (with_note c (marked Expired note)) ;;
  _removeLeaf (leafIndex note) ;;
  add_operator (amount note) ;;
  emit (NoteExpiredClaimed c (amount note)).

Definition withdrawOperatorBalance (m : Msg) (cb : Callback) : Tx unit :=
  x ← gets settings;
  revert_if (negb (sender m =? serverAddress x)) Unauthorized ;;
  amount ← gets (fun s => operatorBalance (book s));
  on_book (with_operator 0) ;;
  _pay m cb (serverAddress x) amount ;;
  x ← gets settings;
  emit (OperatorBalanceWithdrawn (serverAddress x) amount).

Definition guarded (m : Msg) (cb : Callback) (c : guarded_call) : Tx unit :=
  match c with
  | Deposit c => deposit m c
  | InitiateWithdrawal c to key proof n y p => initiateWithdrawal m c to key proof n y p
  | FinalizeWithdrawal c => finalizeWithdrawal m cb c
  | Slash k => slash m cb k
  | ClaimExpired c => claimExpired m c
  | WithdrawOperatorBalance => withdrawOperatorBalance m cb
  end.

(** ** Transactions *)

Inductive call : Type := Guarded (g : guarded_call) | Admin (a : admin_call).

Definition is_uint (bits : Z) (z : Z) : bool := (0 <=? z) && (z <? 2 ^ bits).

(** What the ABI decoder accepts. *)
Definition decodes (c : call) : bool :=
  match c with
  | Guarded (Deposit c | FinalizeWithdrawal c | Slash c | ClaimExpired c) => is_uint 256 c
  | Guarded (InitiateWithdrawal c to key proof n y p) =>
      is_uint 256 c && is_uint 160 to && is_uint 256 key.1 && is_uint 256 key.2
      && forallb (is_uint 256) proof && (length proof =? 8)%nat && is_uint 256 n && is_uint 256 y && is_uint 256 p
  | Guarded WithdrawOperatorBalance => true
  | Admin (ProposeChange _ v) => is_uint 160 v
  | Admin (ProposeRefundKey x y) => is_uint 256 x && is_uint 256 y
  | Admin (TransferOwnership a) => is_uint 160 a
  | Admin _ => true
  end.

Definition payable (c : call) : bool := match c with Guarded (Deposit _) => true | _ => false end.

(** A transaction: the ether it carries arrives first, and goes back when it reverts. *)
Definition transact (m : Msg) (cb : Callback) (c : call) : Tx unit :=
  revert_if (negb (decodes c)) BadCalldata ;;
  revert_if (negb (payable c) && negb (value m =? 0)) NotPayable ;;
  funds ← gets balance;
  update (with_balance (funds + value m)) ;;
  match c with
  | Guarded g => nonReentrant (guarded m cb g)
  | Admin a => govern m a
  end.

Definition constructor (m : Msg) (server keyx keyy verifier : Z) : outcome State :=
  if server =? 0 then Reverts ZeroAddress
  else Returns
    {| book := {| notes := ∅; exits := ∅; pausedTimeAtDeposit := ∅; operatorBalance := 0 |};
       tree := {| leaves := []; treeNodes := ∅; merkleRoot := empty_root;
                  roots := <[1%nat := empty_root]> (replicate (Z.to_nat ROOT_HISTORY_SIZE) 0);
                  currentRootIndex := 1 |};
       settings := {| owner := sender m; serverAddress := server; serverPublicKey := (keyx, keyy);
                      acceptedRefundKeys := {[_refundKeyId keyx keyy]}; settlementVerifier := verifier;
                      pendingChanges := fun _ => no_change; paused := false; totalPausedTime := 0; pausedAt := 0 |};
       entered := false; balance := 0;
       events := [OwnershipTransferred 0 (sender m); MerkleRootUpdated empty_root 0] |}.

(** What happens to the contract: transactions, and ether that no function receives (the
    proceeds of a block or of a contract that is destroyed). *)
Inductive action : Type :=
| Transaction (m : Msg) (cb : Callback) (c : call)
| Forced (v : N).

Definition act (s : State) (a : action) : State :=
  match a with
  | Transaction m cb c => match transact m cb c s with Returns (s', _) => s' | Reverts _ => s end
  | Forced v => with_balance (balance s + Z.of_N v) s
  end.

Definition run (l : list action) (s : State) : State := fold_left act l s.

(** ** Effects of the operations on the tree *)

(** The tree after [_updateLeaf] has written the path of a leaf and pushed its root. *)
Definition rehashed (index leaf : Z) (t : Tree) : Tree :=
  let '(nodes, root) := climb TREE_DEPTH 0 index leaf (<[(0%nat, index) := leaf]> (treeNodes t)) in
  let i := (currentRootIndex t + 1) mod ROOT_HISTORY_SIZE in
  {| leaves := leaves t; treeNodes := nodes; merkleRoot := root; roots := <[Z.to_nat i := root]> (roots t);
     currentRootIndex := i |}.

Definition pushed (t : Tree) (s : State) : State :=
  logged (MerkleRootUpdated (merkleRoot t) (Z.of_nat (length (leaves t)))) (with_tree t s).

Definition removed (index : Z) (t : Tree) : Tree :=
  rehashed index 0 (with_leaves (<[Z.to_nat index := 0]> (leaves t)) t).

Definition appended (leaf : Z) (t : Tree) : Tree :=
  rehashed (Z.of_nat (length (leaves t))) leaf (with_leaves (leaves t ++ [leaf]) t).

Lemma rehashed_leaves index leaf t : leaves (rehashed index leaf t) = leaves t.
Proof. unfold rehashed. by destruct (climb _ _ _ _ _). Qed.

Lemma rehashed_ring index leaf t :
  let i := (currentRootIndex t + 1) mod ROOT_HISTORY_SIZE in
  currentRootIndex (rehashed index leaf t) = i
  /\ roots (rehashed index leaf t) = <[Z.to_nat i := merkleRoot (rehashed index leaf t)]> (roots t).
Proof. unfold rehashed. by destruct (climb _ _ _ _ _). Qed.

Lemma removed_leaves index t : leaves (removed index t) = <[Z.to_nat index := 0]> (leaves t).
Proof. unfold removed. by rewrite rehashed_leaves. Qed.

Lemma appended_leaves leaf t : leaves (appended leaf t) = leaves t ++ [leaf].
Proof. unfold appended. by rewrite rehashed_leaves. Qed.

Lemma pushed_over t u s : pushed t (with_tree u s) = pushed t s.
Proof. reflexivity. Qed.

Lemma updateLeaf_eq index leaf s : leaves (tree s) !! Z.to_nat index = Some leaf ->
  _updateLeaf index s = Returns (pushed (rehashed index leaf (tree s)) s, tt).
Proof.
  intros H. unfold _updateLeaf, mbind, Tx_bind, gets. rewrite H. unfold pushed, rehashed.
  destruct (climb _ _ _ _ _) as [nodes root]. reflexivity.
Qed.

Lemma removeLeaf_eq index leaf s : leaves (tree s) !! Z.to_nat index = Some leaf ->
  _removeLeaf index s = Returns (pushed (removed index (tree s)) s, tt).
Proof.
  intros H. unfold _removeLeaf. unfold mbind at 1, Tx_bind at 1, gets. rewrite H. unfold mbind, Tx_bind, update.
  rewrite (updateLeaf_eq index 0).
  - rewrite pushed_over. unfold removed. by cbn [tree with_tree].
  - cbn [tree with_tree with_leaves leaves]. apply list_lookup_insert_eq. by eapply lookup_lt_Some.
Qed.

Lemma removeLeaf_returns index s r : _removeLeaf index s = Returns r -> is_Some (leaves (tree s) !! Z.to_nat index).
Proof.
  unfold _removeLeaf, mbind, Tx_bind, gets. destruct (leaves (tree s) !! Z.to_nat index); [by eexists|discriminate].
Qed.
End Contract.

#[global] Opaque climb rehashed.

(** ** Running a transaction *)

Section Kit.
Context {A B : Type}.
Implicit Types (s : State).

Lemma gets_bind (f : State -> A) (k : A -> Tx B) s : (gets f ≫= k) s = k (f s) s.
Proof. reflexivity. Qed.

Lemma update_bind f (k : unit -> Tx B) s : (update f ≫= k) s = k tt (f s).
Proof. reflexivity. Qed.

Lemma ret_bind (a : A) (k : A -> Tx B) s : (mret a ≫= k) s = k a s.
Proof. reflexivity. Qed.

Lemma revert_if_bind b r (k : unit -> Tx B) s : (revert_if b r ≫= k) s = if b then Reverts r else k tt s.
Proof. by destruct b. Qed.

Lemma uint256_bind z (k : Z -> Tx B) s :
  (uint256 z ≫= k) s = if (0 <=? z) && (z <? 2 ^ 256) then k z s else Reverts Panic.
Proof. unfold uint256. by destruct (_ && _). Qed.

Lemma bind_assoc {C} (m : Tx A) (f : A -> Tx B) (g : B -> Tx C) s :
  ((m ≫= f) ≫= g) s = (m ≫= fun a => f a ≫= g) s.
Proof. unfold mbind, Tx_bind. by destruct (m s) as [[s' a]|r]. Qed.

Lemma bind_returns (m : Tx A) (f : A -> Tx B) s r :
  (m ≫= f) s = Returns r <-> exists s1 a, m s = Returns (s1, a) /\ f a s1 = Returns r.
Proof.
  unfold mbind, Tx_bind. split.
  - destruct (m s) as [[s1 a]|e]; [|discriminate]. intros H. by exists s1, a.
  - by intros (s1 & a & -> & H).
Qed.
End Kit.

(** Runs a transaction in [H] up to its next call, keeping its guards. *)
Ltac tx_step H :=
  first
    [ rewrite gets_bind in H; cbv beta in H
    | rewrite update_bind in H; cbv beta in H
    | rewrite ret_bind in H; cbv beta in H
    | rewrite bind_assoc in H; cbv beta in H
    | rewrite revert_if_bind in H; cbv beta in H;
      match type of H with (if ?b then _ else _) = Returns _ => destruct b eqn:?; [discriminate H|] end
    | rewrite uint256_bind in H; cbv beta in H;
      match type of H with (if ?b then _ else _) = Returns _ => destruct b eqn:?; [|discriminate H] end ].
Ltac tx_run H := repeat tx_step H.
