(* ===== verification/CreditsLedger.v ===== *)
(** * The money of the contract

    What each transaction of [Credits] does to the notes and to the ether, and what holds
    over any sequence of them. *)

From S2P Require Import Prelude Modulus Credits.
Open Scope Z_scope.

(** Reads the guards a transaction passed. *)
Ltac guards :=
  repeat match goal with
  | H : _ || _ = false |- _ => apply orb_false_iff in H as [? ?]
  | H : _ && _ = true |- _ => apply andb_true_iff in H as [? ?]
  | H : negb _ = false |- _ => apply negb_false_iff in H
  | H : negb _ = true |- _ => apply negb_true_iff in H
  | H : bool_decide _ = true |- _ => apply bool_decide_eq_true in H
  | H : bool_decide _ = false |- _ => apply bool_decide_eq_false in H
  | H : (_ <? _) = false |- _ => apply Z.ltb_ge in H
  | H : (_ <? _) = true |- _ => apply Z.ltb_lt in H
  | H : (_ <=? _) = false |- _ => apply Z.leb_gt in H
  | H : (_ <=? _) = true |- _ => apply Z.leb_le in H
  | H : (_ =? _) = true |- _ => apply Z.eqb_eq in H
  | H : (_ =? _) = false |- _ => apply Z.eqb_neq in H
  end.

Ltac into_call H s1 a H1 := apply bind_returns in H as (s1 & a & H1 & H); cbv beta in H.

Section Ledger.
Context (poseidon : list Z -> Z) (keccak256 : list byte -> Z).
Context (verifies : Z -> list Z -> list Z -> option bool).
Context (chainid this C_MAX SLASH_BOUNTY : Z).

Abbreviation hash2 := (hash2 poseidon).
Abbreviation appended := (appended poseidon).
Abbreviation removed := (removed poseidon).

(** ** What each call does *)

Lemma uint256_ok z s s' t : uint256 z s = Returns (s', t) -> s' = s.
Proof. unfold uint256. destruct (_ && _); [|discriminate]. intros H. by apply (f_equal (fun r => match r with Returns x => x.1 | _ => s end)) in H. Qed.

Lemma pausedTime_ok now s s' t : _pausedTime now s = Returns (s', t) -> s' = s.
Proof.
  unfold _pausedTime. intros H. tx_run H. destruct (paused (settings s)); [|by unfold mret, Tx_ret in H; injection H as <- _].
  tx_run H. by apply uint256_ok in H.
Qed.

Lemma noteExpiry_ok c now s s' t : noteExpiry c now s = Returns (s', t) -> s' = s.
Proof.
  unfold noteExpiry. intros H. tx_run H. into_call H s1 x H1. apply pausedTime_ok in H1 as ->.
  tx_run H. by apply uint256_ok in H.
Qed.

Lemma deposit_ok m c s s' : deposit poseidon C_MAX m c s = Returns (s', tt) ->
  paused (settings s) = false /\ C_MAX <= value m < 2 ^ 128 /\ c < FIELD_MODULUS /\ status (note_at c s) = NoNote
  /\ Z.of_nat (length (leaves (tree s))) <> 2 ^ Z.of_nat TREE_DEPTH
  /\ let index := Z.of_nat (length (leaves (tree s))) in
     let note := {| amount := value m; depositedAt := timestamp m; leafIndex := index; status := Active |} in
     exists elapsed, s' = logged (Deposited c (value m) index)
       (pushed (appended (hash2 c (value m)) (tree s))
         (with_book (with_paused_time c elapsed (with_note c note (book s))) s)).
Proof.
  unfold deposit, whenNotPaused, on_book. intros H. tx_run H. into_call H s1 elapsed H1. apply pausedTime_ok in H1 as ->.
  tx_run H. guards. split_and!; try done. exists elapsed.
  unfold mbind, Tx_bind, emit, update in H. erewrite updateLeaf_eq in H; [injection H as <-|].
  - rewrite pushed_over. by cbn [tree with_tree].
  - cbn [tree with_tree with_leaves leaves]. rewrite Nat2Z.id. by rewrite lookup_app_r, Nat.sub_diag by lia.
Qed.

Lemma remove_then {A} index (k : unit -> Tx A) s r : (_removeLeaf poseidon index ≫= k) s = Returns r ->
  is_Some (leaves (tree s) !! Z.to_nat index) /\ k tt (pushed (removed index (tree s)) s) = Returns r.
Proof.
  intros H. into_call H s1 x H1. destruct (removeLeaf_returns _ _ _ _ H1) as [leaf Hl].
  rewrite (removeLeaf_eq _ _ _ _ Hl) in H1. injection H1 as <- <-. split; [by eexists|exact H].
Qed.

(** An exit that starts. *)
Lemma initiate_ok m c to key proof n y p s s' :
  initiateWithdrawal poseidon keccak256 verifies chainid this C_MAX m c to key proof n y p s = Returns (s', tt) ->
  let note := note_at c s in
  let x := withdrawalSignalX poseidon chainid this to in
  to <> 0 /\ status note = Active /\ p <= amount note
  /\ verifies (settlementVerifier (settings s)) proof (settlement_signals C_MAX c to key n y p (amount note) x) = Some true
  /\ is_Some (leaves (tree s) !! Z.to_nat (leafIndex note))
  /\ let exit := {| nullifier := n; signalX := x; signalY := y; payout := p; recipient := to;
                    exitAt := timestamp m + CHALLENGE_WINDOW |} in
     s' = logged (WithdrawalInitiated c n x y p to (exitAt exit))
       (pushed (removed (leafIndex note) (tree s))
         (with_book (with_exit c exit (with_note c (marked Exiting note) (book s))) s)).
Proof.
  unfold initiateWithdrawal, on_book. intros H. tx_run H. into_call H s1 x H1.
  destruct (verifies _ _ _) as [[]|] eqn:Hv; [|discriminate..]. injection H1 as <- <-.
  tx_run H. apply remove_then in H as [Hl H]. injection H as <-. guards. split_and!; done.
Qed.

(** ** Payments *)

(** The note an event is about. *)
Definition note_of (e : Event) : option Z :=
  match e with
  | Deposited c _ _ | WithdrawalInitiated c _ _ _ _ _ _ | WithdrawalFinalized c _ _ | NoteSlashed c _ _
  | NoteExpiredClaimed c _ => Some c
  | _ => None
  end.

(** The events of administration. *)
Definition of_admin (e : Event) : bool :=
  match e with
  | ServerAddressUpdated _ _ | RefundKeyProposed _ _ _ | RefundKeyUpdated _ _ | ChangeProposed _ _ _ | ChangeExecuted _ _
  | ChangeCancelled _ _ | OwnershipTransferred _ _ | PausedBy _ | UnpausedBy _ => true
  | _ => false
  end.

(** More events, all of administration. *)
Definition quiet (l l' : list Event) : Prop := exists more, l' = l ++ more /\ Forall (fun e => of_admin e = true) more.

Lemma quiet_refl l : quiet l l.
Proof. exists []. by rewrite app_nil_r. Qed.

Lemma quiet_trans l1 l2 l3 : quiet l1 l2 -> quiet l2 l3 -> quiet l1 l3.
Proof. intros (a & -> & Ha) (b & -> & Hb). exists (a ++ b). rewrite app_assoc. split; [done|]. by apply Forall_app. Qed.

Lemma quiet_one l e : of_admin e = true -> quiet l (l ++ [e]).
Proof. intros H. exists [e]. by split; [|constructor]. Qed.

(** What administration leaves alone: the notes, the tree, the ether. *)
Definition admin_only (s s' : State) : Prop :=
  book s' = book s /\ tree s' = tree s /\ balance s' = balance s /\ entered s' = entered s
  /\ quiet (events s) (events s').

Lemma govern_ok m a s s' : govern keccak256 m a s = Returns (s', tt) -> admin_only s s'.
Proof.
  destruct a as [t v|x y|t|t| | |a|]; cbn [govern];
    [unfold proposeChange|unfold proposeRefundKey|unfold executeChange|unfold cancelChange|unfold pause, whenNotPaused
    |unfold unpause|unfold transferOwnership|unfold renounceOwnership]; unfold onlyOwner, on_settings, emit; intros H; tx_run H.
  all: try (injection H as <-; split_and!; try done; by apply quiet_one).
  destruct t; tx_run H; injection H as <-; split_and!; try done; cbn;
    first [by apply quiet_one|eapply quiet_trans; by apply quiet_one].
Qed.

Lemma reenter_ok now cb s : admin_only s (reenter keccak256 now cb s).
Proof.
  unfold reenter. revert s. induction cb as [|c cb IH]; intros s; cbn [fold_left];
    [split_and!; try done; apply quiet_refl|].
  destruct (govern _ _ _ s) as [[s1 []]|r] eqn:H; [|apply IH]. apply govern_ok in H as (H1 & H2 & H3 & H4 & H5).
  destruct (IH s1) as (I1 & I2 & I3 & I4 & I5). unfold admin_only. split_and!; try congruence. by eapply quiet_trans.
Qed.

(** What a payment leaves: less ether, and the settings the recipient could change. *)
Lemma pay_then {A} m cb to v (k : unit -> Tx A) s r : (_pay keccak256 m cb to v ≫= k) s = Returns r ->
  v <= balance s /\ cb.2 = true /\ exists s1, admin_only (with_balance (balance s - v) s) s1 /\ k tt s1 = Returns r.
Proof.
  unfold _pay. intros H. tx_run H. guards. split; [done|]. split; [done|].
  eexists. split; [apply reenter_ok|exact H].
Qed.

Lemma add_operator_then {A} v (k : unit -> Tx A) s r : (add_operator v ≫= k) s = Returns r ->
  0 <= operatorBalance (book s) + v < 2 ^ 256
  /\ k tt (with_book (with_operator (operatorBalance (book s) + v) (book s)) s) = Returns r.
Proof. unfold add_operator, on_book. intros H. tx_run H. guards. split; [done|]. exact H. Qed.

(** The book after a note has been closed, the operator being due what is left. *)
Definition closing (st : Status) (c due : Z) (s : State) : Book :=
  with_operator (operatorBalance (book s) + due) (with_note c (marked st (note_at c s)) (book s)).

Lemma finalize_ok m cb c s s' : finalizeWithdrawal keccak256 m cb c s = Returns (s', tt) ->
  let note := note_at c s in
  let exit := default no_exit (exits (book s) !! c) in
  status note = Exiting /\ exitAt exit <= timestamp m /\ payout exit <= amount note /\ payout exit <= balance s
  /\ exists s1, admin_only (with_balance (balance s - payout exit)
                             (with_book (closing Closed c (amount note - payout exit) s) s)) s1
       /\ s' = logged (WithdrawalFinalized c (recipient exit) (payout exit)) s1.
Proof.
  unfold finalizeWithdrawal, on_book. intros H. tx_run H. apply add_operator_then in H as [Ho H].
  apply pay_then in H as (Hb & _ & s1 & Ha & H). injection H as <-. guards. split_and!; try done; [lia|].
  exists s1. by split.
Qed.

Lemma slash_ok m cb k s s' : slash poseidon keccak256 SLASH_BOUNTY m cb k s = Returns (s', tt) ->
  let c := hash poseidon k in
  let note := note_at c s in
  let bounty := if amount note <? SLASH_BOUNTY then amount note else SLASH_BOUNTY in
  let t := if bool_decide (status note = Active) then removed (leafIndex note) (tree s) else tree s in
  (status note = Active \/ status note = Exiting) /\ bounty <= balance s
  /\ exists s0 s1, book s0 = closing Slashed c (amount note - bounty) s /\ tree s0 = t /\ settings s0 = settings s
       /\ entered s0 = entered s /\ balance s0 = balance s
       /\ events s0 = events s ++ (if bool_decide (status note = Active)
                                   then [MerkleRootUpdated (merkleRoot t) (Z.of_nat (length (leaves t)))] else [])
       /\ admin_only (with_balance (balance s - bounty) s0) s1 /\ s' = logged (NoteSlashed c (sender m) bounty) s1.
Proof.
  unfold slash, on_book. intros H. tx_run H.
  set (c := hash poseidon k) in *. set (note := note_at c s) in *. cbv zeta in H.
  destruct (bool_decide (status note = Active)) eqn:Hst.
  - apply remove_then in H as [_ H]. tx_run H. apply add_operator_then in H as [Ho H].
    apply pay_then in H as (Hb & _ & s1 & Ha & H). injection H as <-. guards. split; [by left|]. split; [done|].
    eexists _, s1. split; [|split; [|split; [|split; [|split; [|split; [|split; [exact Ha|done]]]]]]]; done.
  - tx_run H. apply add_operator_then in H as [Ho H].
    apply pay_then in H as (Hb & _ & s1 & Ha & H). injection H as <-. guards. split; [by right|]. split; [done|].
    eexists _, s1. split; [|split; [|split; [|split; [|split; [|split; [|split; [exact Ha|done]]]]]]]; try done.
    by rewrite app_nil_r.
Qed.

Lemma claim_ok m c s s' : claimExpired poseidon m c s = Returns (s', tt) ->
  let note := note_at c s in
  sender m = serverAddress (settings s) /\ status note = Active
  /\ s' = logged (NoteExpiredClaimed c (amount note))
       (with_book (closing Expired c (amount note) s) (pushed (removed (leafIndex note) (tree s)) s)).
Proof.
  unfold claimExpired, whenNotPaused, on_book. intros H. tx_run H. into_call H s1 e H1. apply noteExpiry_ok in H1 as ->.
  tx_run H. apply remove_then in H as [_ H]. apply add_operator_then in H as [_ H]. injection H as <-. guards. by split_and!.
Qed.

Lemma withdraw_ok m cb s s' : withdrawOperatorBalance keccak256 m cb s = Returns (s', tt) ->
  let v := operatorBalance (book s) in
  v <= balance s
  /\ exists s1, admin_only (with_balance (balance s - v) (with_book (with_operator 0 (book s)) s)) s1
       /\ s' = logged (OperatorBalanceWithdrawn (serverAddress (settings s1)) v) s1.
Proof.
  unfold withdrawOperatorBalance, on_book. intros H. tx_run H. apply pay_then in H as (Hb & _ & s1 & Ha & H).
  tx_run H. injection H as <-. split; [done|]. exists s1. by split.
Qed.

(** ** What the contract owes *)

Definition is_open (st : Status) : bool := match st with Active | Exiting => true | _ => false end.

(** The deposit of a note that is still open. *)
Definition held (n : Note) : Z := if is_open (status n) then amount n else 0.

Definition owed (m : gmap Z Note) : Z := map_fold (fun _ n total => held n + total) 0 m.

Lemma owed_new c n m : m !! c = None -> owed (<[c := n]> m) = held n + owed m.
Proof. intros H. unfold owed. rewrite map_fold_insert_L; [done| |exact H]. intros. lia. Qed.

Lemma owed_insert c n m : owed (<[c := n]> m) = owed m - held (default no_note (m !! c)) + held n.
Proof.
  destruct (m !! c) as [old|] eqn:H; cbn [default from_option id].
  - rewrite <- insert_delete_eq, owed_new by apply lookup_delete_eq.
    rewrite <- (insert_delete_id m c old H) at 2. rewrite owed_new by apply lookup_delete_eq. lia.
  - rewrite owed_new by done. change (held no_note) with 0. lia.
Qed.

Lemma owed_nonneg m : (forall c n, m !! c = Some n -> 0 <= amount n) -> 0 <= owed m.
Proof.
  induction m as [|c n m Hc IH] using map_ind; intros H; [done|]. rewrite owed_new by done.
  assert (0 <= amount n) by (apply (H c); apply lookup_insert_eq).
  assert (0 <= owed m). { apply IH. intros c' n' H'. apply (H c'). rewrite lookup_insert_ne; [done|]. by intros ->; rewrite Hc in H'. }
  unfold held. destruct (is_open _); lia.
Qed.

Lemma owed_covers c n m : (forall c n, m !! c = Some n -> 0 <= amount n) -> m !! c = Some n -> held n <= owed m.
Proof.
  intros H Hc. rewrite <- (insert_delete_id m c n Hc), owed_new by apply lookup_delete_eq.
  enough (0 <= owed (delete c m)) by lia. apply owed_nonneg. intros c' n' H'. apply (H c').
  by apply lookup_delete_Some in H' as [_ H'].
Qed.

(** ** The invariant *)

Record note_sound (b : Book) (t : Tree) (c : Z) (n : Note) : Prop := {
  ns_used : status n <> NoNote;
  ns_amount : 0 <= amount n < 2 ^ 128;
  ns_leaf : status n = Active -> leaves t !! Z.to_nat (leafIndex n) = Some (hash2 c (amount n)) /\ 0 <= leafIndex n;
  ns_exit : status n = Exiting -> exists x, exits b !! c = Some x /\ 0 <= payout x <= amount n;
}.

(** The ether is what the operator is due, the deposits of the open notes, and [extra]. *)
Record sound (extra : Z) (b : Book) (t : Tree) (funds : Z) : Prop := {
  sd_funds : funds = operatorBalance b + owed (notes b) + extra;
  sd_operator : 0 <= operatorBalance b;
  sd_notes : forall c n, notes b !! c = Some n -> note_sound b t c n;
  sd_distinct : forall c c' n n', notes b !! c = Some n -> notes b !! c' = Some n' ->
    status n = Active -> status n' = Active -> leafIndex n = leafIndex n' -> c = c';
  sd_leaves : forall i v, leaves t !! i = Some v -> v = 0 \/ exists c n, notes b !! c = Some n /\ status n = Active
    /\ Z.to_nat (leafIndex n) = i /\ v = hash2 c (amount n);
}.

Lemma note_at_some c s : status (note_at c s) <> NoNote -> notes (book s) !! c = Some (note_at c s).
Proof. unfold note_at. by destruct (notes (book s) !! c). Qed.

Lemma note_at_none c s x t : sound x (book s) t (balance s) -> status (note_at c s) = NoNote -> notes (book s) !! c = None.
Proof.
  unfold note_at. intros H Hn. destruct (notes (book s) !! c) eqn:E; [|done].
  by destruct (ns_used _ _ _ _ (sd_notes _ _ _ _ H c _ E)).
Qed.

(** A note opened on a new leaf. *)
Lemma sound_open x b t funds c v now elapsed : sound x b t funds -> notes b !! c = None -> 0 <= v < 2 ^ 128 ->
  let note := {| amount := v; depositedAt := now; leafIndex := Z.of_nat (length (leaves t)); status := Active |} in
  sound x (with_paused_time c elapsed (with_note c note b)) (appended (hash2 c v) t) (funds + v).
Proof.
  intros H Hc Hv note. destruct H as [Hf Ho Hn Hd Hlv]. split; cbn [notes with_note with_paused_time operatorBalance]; [|done| | |].
  - rewrite owed_new by done. unfold held. cbn. lia.
  - intros c' n' H'. apply lookup_insert_Some in H' as [[<- <-]|[Hne H']].
    + split; cbn; try done. intros _. rewrite appended_leaves, Nat2Z.id. split; [|lia].
      by rewrite lookup_app_r, Nat.sub_diag by lia.
    + destruct (Hn c' n' H') as [H1 H2 H3 H4]. split; try done. intros Hs. destruct (H3 Hs) as [Hl Hp]. split; [|done].
      rewrite appended_leaves. by apply lookup_app_l_Some.
  - intros c1 c2 n1 n2 H1 H2 Hs1 Hs2 Hl.
    assert (Hlt : forall c n, notes b !! c = Some n -> status n = Active -> leafIndex n < Z.of_nat (length (leaves t))).
    { intros c0 n0 H0 Hs0. destruct (ns_leaf _ _ _ _ (Hn c0 n0 H0) Hs0) as [Hi Hp]. apply lookup_lt_Some in Hi. lia. }
    apply lookup_insert_Some in H1 as [[<- <-]|[Hne1 H1]]; apply lookup_insert_Some in H2 as [[<- <-]|[Hne2 H2]]; try done.
    + pose proof (Hlt _ _ H2 Hs2). cbn in Hl. lia.
    + pose proof (Hlt _ _ H1 Hs1). cbn in Hl. lia.
    + by apply (Hd c1 c2 n1 n2).
  - intros i w Hw. rewrite appended_leaves in Hw. apply lookup_app_Some in Hw as [Hw|[Hi Hw]].
    + destruct (Hlv i w Hw) as [-> |(c' & n' & H1 & H2 & H3 & H4)]; [by left|right]. exists c', n'.
      rewrite lookup_insert_ne; [by split_and!|]. by intros <-; rewrite Hc in H1.
    + apply list_lookup_singleton_Some in Hw as [Hi' <-]. right. exists c, note. rewrite lookup_insert_eq. split_and!; try done.
      unfold note. cbn [leafIndex]. lia.
Qed.

(** A note that leaves the tree or was out of it: the leaves of the others stay. *)
Lemma sound_leaves x b t funds c n t' : sound x b t funds -> notes b !! c = Some n ->
  t' = t /\ status n <> Active \/ t' = removed (leafIndex n) t /\ status n = Active ->
  forall c' n', notes b !! c' = Some n' -> c' <> c -> status n' = Active ->
    leaves t' !! Z.to_nat (leafIndex n') = Some (hash2 c' (amount n')) /\ 0 <= leafIndex n'.
Proof.
  intros H Hc Ht c' n' H' Hne Hs'. destruct (ns_leaf _ _ _ _ (sd_notes _ _ _ _ H c' n' H') Hs') as [Hl Hp].
  destruct Ht as [[-> _]|[-> Hs]]; [by split|]. split; [|done]. rewrite removed_leaves, list_lookup_insert_ne; [done|].
  intros Hi. apply Hne. apply (sd_distinct _ _ _ _ H c' c n' n); [done..|].
  destruct (ns_leaf _ _ _ _ (sd_notes _ _ _ _ H c n Hc) Hs) as [_ Hp']. lia.
Qed.

(** A note whose status moves on: what it held is due to the operator or leaves. *)
Lemma sound_move x b t funds c n st t' b' due : sound x b t funds -> notes b !! c = Some n -> is_open (status n) = true ->
  st <> NoNote -> st <> Active ->
  t' = t /\ status n <> Active \/ t' = removed (leafIndex n) t /\ status n = Active ->
  notes b' = <[c := marked st n]> (notes b) -> operatorBalance b' = operatorBalance b + due -> 0 <= due ->
  (forall c', c' <> c -> exits b' !! c' = exits b !! c') ->
  (st = Exiting -> exists e, exits b' !! c = Some e /\ 0 <= payout e <= amount n) ->
  sound x b' t' (funds + due - (amount n - held (marked st n))).
Proof.
  intros H Hc Hopen Hst Hna Ht Hb Ho Hdue Hex Hexit. pose proof (sound_leaves _ _ _ _ _ _ _ H Hc Ht) as Hleaf.
  destruct H as [Hf Hop Hn Hd Hlv]. split.
  - rewrite Hb, owed_insert, Hc, Ho. cbn [default from_option id]. unfold held at 2. rewrite Hopen. lia.
  - rewrite Ho. lia.
  - intros c' n' H'. rewrite Hb in H'. apply lookup_insert_Some in H' as [[<- <-]|[Hne H']].
    + destruct (Hn c n Hc) as [_ Ha _ _]. split; cbn; try done.
    + destruct (Hn c' n' H') as [H1 H2 H3 H4]. split; try done; [by apply Hleaf|]. intros Hs. rewrite Hex by done. by apply H4.
  - intros c1 c2 n1 n2 H1 H2 Hs1 Hs2 Hl. rewrite Hb in H1, H2.
    apply lookup_insert_Some in H1 as [[<- <-]|[Hne1 H1]]; [by cbn in Hs1|].
    apply lookup_insert_Some in H2 as [[<- <-]|[Hne2 H2]]; [by cbn in Hs2|]. by apply (Hd c1 c2 n1 n2).
  - assert (Hother : forall i w, leaves t !! i = Some w -> (status n = Active -> i <> Z.to_nat (leafIndex n)) ->
      w = 0 \/ exists c n, notes b' !! c = Some n /\ status n = Active /\ Z.to_nat (leafIndex n) = i /\ w = hash2 c (amount n)).
    { intros i w Hw Hi. destruct (Hlv i w Hw) as [-> |(c' & n' & H1 & H2 & H3 & H4)]; [by left|right]. exists c', n'.
      rewrite Hb, lookup_insert_ne; [by split_and!|]. intros <-. rewrite Hc in H1. injection H1 as <-. by apply Hi. }
    intros i w Hw. destruct Ht as [[-> Hna']|[-> Hs']]; [by apply Hother|]. rewrite removed_leaves in Hw.
    destruct (decide (i = Z.to_nat (leafIndex n))) as [-> |Hne].
    + rewrite list_lookup_insert_eq in Hw; [injection Hw as <-; by left|].
      destruct (ns_leaf _ _ _ _ (Hn c n Hc) Hs') as [Hl _]. by eapply lookup_lt_Some.
    + rewrite list_lookup_insert_ne in Hw by done. by apply Hother.
Qed.

(** ** Every call keeps it *)

Context (Hmax : 0 <= C_MAX).

Abbreviation guarded := (guarded poseidon keccak256 verifies chainid this C_MAX SLASH_BOUNTY).
Abbreviation transact := (transact poseidon keccak256 verifies chainid this C_MAX SLASH_BOUNTY).
Abbreviation act := (act poseidon keccak256 verifies chainid this C_MAX SLASH_BOUNTY).
Abbreviation run := (run poseidon keccak256 verifies chainid this C_MAX SLASH_BOUNTY).

Lemma admin_only_sound x s s' : admin_only s s' -> sound x (book s) (tree s) (balance s) -> sound x (book s') (tree s') (balance s').
Proof. intros (-> & -> & -> & _). done. Qed.

Lemma deposit_sound x m c s s' : deposit poseidon C_MAX m c s = Returns (s', tt) ->
  sound x (book s) (tree s) (balance s - value m) -> sound x (book s') (tree s') (balance s').
Proof.
  intros H Hs. apply deposit_ok in H as (_ & Hv & _ & Hn & _ & elapsed & ->).
  cbn [book tree balance logged pushed with_tree with_book].
  replace (balance s) with (balance s - value m + value m) by lia. apply sound_open; [exact Hs| |lia].
  unfold note_at in Hn. destruct (notes (book s) !! c) eqn:E; [|done].
  by destruct (ns_used _ _ _ _ (sd_notes _ _ _ _ Hs c _ E)).
Qed.

Lemma initiate_sound x m c to key proof n y p s s' :
  initiateWithdrawal poseidon keccak256 verifies chainid this C_MAX m c to key proof n y p s = Returns (s', tt) ->
  0 <= p -> sound x (book s) (tree s) (balance s) -> sound x (book s') (tree s') (balance s').
Proof.
  intros H Hp Hs. apply initiate_ok in H as (_ & Ha & Hle & _ & _ & ->).
  cbn [book tree balance logged pushed with_tree with_book].
  assert (Hc : notes (book s) !! c = Some (note_at c s)) by (apply note_at_some; congruence).
  replace (balance s) with (balance s + 0 - (amount (note_at c s) - held (marked Exiting (note_at c s)))) by (unfold held; cbn; lia).
  apply (sound_move x (book s) (tree s) (balance s) c (note_at c s) Exiting); cbn; try done.
  - by rewrite Ha.
  - by right.
  - lia.
  - intros c' Hne. by rewrite lookup_insert_ne.
  - intros _. eexists. split; [apply lookup_insert_eq|]. cbn. lia.
Qed.

(** A note that closes, the operator being due a part of its deposit, and the rest paid. *)
Lemma closing_sound x st c due s t : sound x (book s) (tree s) (balance s) -> is_open (status (note_at c s)) = true ->
  is_open st = false -> st <> NoNote ->
  t = tree s /\ status (note_at c s) <> Active
    \/ t = removed (leafIndex (note_at c s)) (tree s) /\ status (note_at c s) = Active ->
  0 <= due -> sound x (closing st c due s) t (balance s - (amount (note_at c s) - due)).
Proof.
  intros Hs Hopen Hst Hne Ht Hdue.
  assert (Hc : notes (book s) !! c = Some (note_at c s)) by (apply note_at_some; by intros E; rewrite E in Hopen).
  replace (balance s - (amount (note_at c s) - due))
    with (balance s + due - (amount (note_at c s) - held (marked st (note_at c s)))) by (unfold held; cbn; rewrite Hst; lia).
  apply (sound_move x (book s) (tree s) (balance s) c (note_at c s) st); cbn; try done; by intros ->.
Qed.

Lemma guarded_sound x m cb g s s' : guarded m cb g s = Returns (s', tt) ->
  decodes (Guarded g) = true -> (payable (Guarded g) = false -> value m = 0) ->
  sound x (book s) (tree s) (balance s - value m) -> sound x (book s') (tree s') (balance s').
Proof.
  destruct g as [c|c to key proof n y p|c|k|c|]; cbn [Credits.guarded payable]; intros H Hd Hv Hs;
    [by eapply deposit_sound|rewrite (Hv eq_refl), Z.sub_0_r in Hs..].
  - eapply initiate_sound; [exact H| |exact Hs]. cbn [decodes] in Hd. apply andb_true_iff in Hd as [_ Hd].
    unfold is_uint in Hd. guards. done.
  - apply finalize_ok in H as (He & _ & Hp & _ & s1 & Ha & ->). cbn [book tree balance logged].
    apply (admin_only_sound x _ _ Ha). cbn [book tree balance with_book with_balance].
    set (e := default no_exit (exits (book s) !! c)) in *.
    replace (balance s - payout e) with (balance s - (amount (note_at c s) - (amount (note_at c s) - payout e))) by lia.
    apply closing_sound; try done; [by rewrite He|left; by rewrite He|lia].
  - apply slash_ok in H as (Ho & _ & s0 & s1 & Hb & Ht & _ & _ & Hf & _ & Ha & ->). cbn [book tree balance logged].
    apply (admin_only_sound x _ _ Ha). cbn [book tree balance with_balance]. rewrite Hb, Ht.
    set (n := note_at (hash poseidon k) s) in *. set (bounty := if amount n <? SLASH_BOUNTY then amount n else SLASH_BOUNTY) in *.
    assert (Hbn : bounty <= amount n) by (unfold bounty; destruct (Z.ltb_spec (amount n) SLASH_BOUNTY); lia).
    replace (balance s - bounty) with (balance s - (amount n - (amount n - bounty))) by lia.
    apply closing_sound; try done; [destruct Ho as [E|E]; unfold n in E; by rewrite E| |lia].
    unfold n in *. destruct Ho as [E|E]; rewrite E; [by right|by left].
  - apply claim_ok in H as (_ & Ha & ->). cbn [book tree balance logged pushed with_tree with_book].
    assert (Hc : notes (book s) !! c = Some (note_at c s)) by (apply note_at_some; congruence).
    replace (balance s) with (balance s - (amount (note_at c s) - amount (note_at c s))) by lia.
    apply closing_sound; try done; [by rewrite Ha|by right|].
    apply (ns_amount _ _ _ _ (sd_notes _ _ _ _ Hs c _ Hc)).
  - apply withdraw_ok in H as (Hv0 & s1 & Ha & ->). cbn [book tree balance logged].
    apply (admin_only_sound x _ _ Ha). cbn [book tree balance with_book with_balance].
    destruct Hs as [Hf Hop Hn Hdd Hlv]. split; cbn; [lia|lia| |exact Hdd|exact Hlv].
    intros c n Hc. destruct (Hn c n Hc). by split.
Qed.

Lemma transact_ok m cb c s s' : transact m cb c s = Returns (s', tt) ->
  decodes c = true /\ (payable c = false -> value m = 0)
  /\ match c with
     | Admin a => govern keccak256 m a (with_balance (balance s + value m) s) = Returns (s', tt)
     | Guarded g => entered s = false
         /\ exists s1, guarded m cb g (with_entered true (with_balance (balance s + value m) s)) = Returns (s1, tt)
              /\ s' = with_entered false s1
     end.
Proof.
  unfold Credits.transact. intros H. tx_run H. guards. split; [done|]. split.
  - intros Hp. destruct (value m =? 0) eqn:E; [by apply Z.eqb_eq|]. rewrite Hp in *. done.
  - destruct c as [g|a]; [|exact H]. unfold nonReentrant in H. tx_run H. split; [done|].
    into_call H s1 u H1. destruct u. exists s1. split; [exact H1|]. by injection H as <-.
Qed.

Lemma transact_runs m cb g s s1 : decodes (Guarded g) = true -> (payable (Guarded g) = false -> value m = 0) ->
  entered s = false -> guarded m cb g (with_entered true (with_balance (balance s + value m) s)) = Returns (s1, tt) ->
  transact m cb (Guarded g) s = Returns (with_entered false s1, tt).
Proof.
  intros Hd Hv He H. unfold Credits.transact. rewrite revert_if_bind, Hd, revert_if_bind. cbn [negb].
  replace (negb (payable (Guarded g)) && negb (value m =? 0)) with false
    by (destruct (payable (Guarded g)); [done|by rewrite Hv]).
  rewrite gets_bind, update_bind. unfold nonReentrant. rewrite gets_bind, revert_if_bind. cbn [entered with_balance]. rewrite He.
  rewrite update_bind. unfold mbind, Tx_bind. by rewrite H.
Qed.

(** A guarded call made while another runs reverts, as [reenter] has it. *)
Lemma locked_reverts m cb g s : entered s = true -> exists r, transact m cb (Guarded g) s = Reverts r.
Proof.
  intros He. destruct (transact m cb (Guarded g) s) as [[s' []]|r] eqn:H; [|by exists r].
  apply transact_ok in H as (_ & _ & H & _). congruence.
Qed.

Lemma transact_sound x m cb c s s' : transact m cb c s = Returns (s', tt) ->
  sound x (book s) (tree s) (balance s) -> entered s = false ->
  sound x (book s') (tree s') (balance s') /\ entered s' = false.
Proof.
  intros H Hs He. apply transact_ok in H as (Hd & Hv & H). destruct c as [g|a].
  - destruct H as (_ & s1 & H & ->). split; [|done].
    apply (guarded_sound x _ _ _ _ _ H Hd Hv). cbn [book tree balance with_entered with_balance].
    by replace (balance s + value m - value m) with (balance s) by lia.
  - rewrite (Hv eq_refl), Z.add_0_r in *. apply govern_ok in H as Ha. split.
    + apply (admin_only_sound x _ _ Ha). done.
    + destruct Ha as (_ & _ & _ & -> & _). done.
Qed.

(** ** Any sequence of transactions *)

Definition forced (l : list action) : Z := foldr (fun a v => match a with Forced w => Z.of_N w + v | _ => v end) 0 l.

Lemma act_sound x s a : sound x (book s) (tree s) (balance s) -> entered s = false ->
  sound (x + match a with Forced v => Z.of_N v | _ => 0 end) (book (act s a)) (tree (act s a)) (balance (act s a))
  /\ entered (act s a) = false.
Proof.
  intros Hs He. destruct a as [m cb c|v]; cbn [Credits.act].
  - rewrite Z.add_0_r. destruct (transact m cb c s) as [[s' []]|r] eqn:H; [|by split]. by eapply transact_sound.
  - cbn [book tree balance entered with_balance]. split; [|done]. destruct Hs as [Hf Hop Hn Hd Hlv]. split; try done. lia.
Qed.

Lemma run_sound x s l : sound x (book s) (tree s) (balance s) -> entered s = false ->
  sound (x + forced l) (book (run l s)) (tree (run l s)) (balance (run l s)) /\ entered (run l s) = false.
Proof.
  revert x s. induction l as [|a l IH]; intros x s Hs He; [by rewrite Z.add_0_r|].
  destruct (act_sound x s a Hs He) as [Hs' He']. destruct (IH _ _ Hs' He') as [H1 H2]. split; [|exact H2].
  cbn [forced foldr]. fold (forced l). by destruct a; cbn in H1 |- *;
    [rewrite Z.add_0_r in H1|replace (x + (Z.of_N v + forced l)) with (x + Z.of_N v + forced l) by lia].
Qed.

Lemma constructor_sound m server keyx keyy verifier s : constructor poseidon keccak256 m server keyx keyy verifier = Returns s ->
  sound 0 (book s) (tree s) (balance s) /\ entered s = false.
Proof.
  unfold constructor. destruct (server =? 0); [discriminate|]. intros H.
  assert (Hs : book s = {| notes := ∅; exits := ∅; pausedTimeAtDeposit := ∅; operatorBalance := 0 |}
               /\ balance s = 0 /\ entered s = false /\ leaves (tree s) = []) by (by injection H as <-).
  destruct Hs as (Hb & Hf & He & Hl). split; [|exact He]. rewrite Hb, Hf.
  split; cbn; [done|done|intros c n Hc|intros c c' n n' Hc|intros i v Hv; by rewrite Hl, lookup_nil in Hv]; by rewrite lookup_empty in Hc.
Qed.

(** A contract after any transactions since it was deployed. *)
Definition reachable (s : State) : Prop :=
  exists m server keyx keyy verifier s0 l, constructor poseidon keccak256 m server keyx keyy verifier = Returns s0 /\ s = run l s0.

Lemma run_app l1 l2 s : run (l1 ++ l2) s = run l2 (run l1 s).
Proof. unfold Credits.run. by rewrite fold_left_app. Qed.

Lemma reachable_run s l : reachable s -> reachable (run l s).
Proof.
  intros (m & server & kx & ky & v & s0 & l0 & H & ->). exists m, server, kx, ky, v, s0, (l0 ++ l).
  split; [exact H|]. by rewrite run_app.
Qed.

Lemma reachable_transact m cb c s s' : reachable s -> transact m cb c s = Returns (s', tt) -> reachable s'.
Proof.
  intros Hr H. replace s' with (run [Transaction m cb c] s); [by apply reachable_run|].
  unfold Credits.run. cbn [fold_left Credits.act]. by rewrite H.
Qed.

Lemma forced_nonneg l : 0 <= forced l.
Proof. induction l as [|a l IH]; [done|]. cbn [forced foldr]. fold (forced l). destruct a; lia. Qed.

Lemma reachable_sound s : reachable s ->
  exists x, 0 <= x /\ sound x (book s) (tree s) (balance s) /\ entered s = false.
Proof.
  intros (m & server & kx & ky & v & s0 & l & H & ->). apply constructor_sound in H as [Hs He].
  exists (0 + forced l). split; [pose proof (forced_nonneg l); lia|]. by apply run_sound.
Qed.

(** C14: every wei is accounted for. After any transactions in any order, callbacks of the
    recipients included, the ether of the contract is exactly what the operator is due,
    the deposits of the notes that are still open, and what was forced in: no withdrawal,
    slash or claim of one note is paid with another's deposit, and the lock is free. *)
Theorem every_wei_is_accounted m server keyx keyy verifier s0 l :
  constructor poseidon keccak256 m server keyx keyy verifier = Returns s0 ->
  let s := run l s0 in
  balance s = operatorBalance (book s) + owed (notes (book s)) + forced l
  /\ 0 <= operatorBalance (book s) /\ (forall c n, notes (book s) !! c = Some n -> held n <= owed (notes (book s)))
  /\ entered s = false.
Proof.
  intros H s. apply constructor_sound in H as [Hs He]. destruct (run_sound 0 s0 l Hs He) as [[Hf Ho Hn _ _] He'].
  rewrite Z.add_0_l in Hf. split_and!; try done. intros c n Hc. apply (owed_covers c); [|exact Hc].
  intros c' n' Hc'. apply (ns_amount _ _ _ _ (Hn c' n' Hc')).
Qed.
End Ledger.
