(* ===== verification/CreditsHistory.v ===== *)
(** * The life of a note

    Over any sequence of transactions of [Credits]: the events about a note follow its
    states, an exit that started cannot be stopped except by slashing, and no change of the
    settings lands sooner than its delay. *)

From S2P Require Import Prelude Modulus Credits CreditsLedger.
Open Scope Z_scope.

(** ** Events about a note *)

Definition about (c : Z) (l : list Event) : list Event := List.filter (fun e => bool_decide (note_of e = Some c)) l.

Lemma about_app c l1 l2 : about c (l1 ++ l2) = about c l1 ++ about c l2.
Proof. apply List.filter_app. Qed.

Lemma about_quiet c l l' : quiet l l' -> about c l' = about c l.
Proof.
  intros (more & -> & H). rewrite about_app. rewrite <- (app_nil_r (about c l)) at 2. f_equal.
  induction H as [|e more He _ IH]; [done|]. unfold about. cbn [List.filter].
  rewrite bool_decide_false; [done|]. by destruct e.
Qed.

Lemma about_this c l e : note_of e = Some c -> about c (l ++ [e]) = about c l ++ [e].
Proof. intros H. rewrite about_app. unfold about at 2. cbn [List.filter]. by rewrite H, bool_decide_true. Qed.

Lemma about_other c l e : note_of e <> Some c -> about c (l ++ [e]) = about c l.
Proof. intros H. rewrite about_app. unfold about at 2. cbn [List.filter]. rewrite bool_decide_false by done. apply app_nil_r. Qed.

Definition started (c : Z) (e : Exit) : Event :=
  WithdrawalInitiated c (nullifier e) (signalX e) (signalY e) (payout e) (recipient e) (exitAt e).

(** What an event pays out of the contract for a note. *)
Definition paid (l : list Event) : Z :=
  foldr (fun e v => match e with WithdrawalFinalized _ _ p => p + v | NoteSlashed _ _ b => b + v | _ => v end) 0 l.

Section History.
Context (poseidon : list Z -> Z) (keccak256 : list byte -> Z).
Context (verifies : Z -> list Z -> list Z -> option bool).
Context (chainid this C_MAX SLASH_BOUNTY : Z).
Context (Hmax : 0 <= C_MAX) (Hbounty : 0 <= SLASH_BOUNTY).

Abbreviation guarded := (guarded poseidon keccak256 verifies chainid this C_MAX SLASH_BOUNTY).
Abbreviation transact := (transact poseidon keccak256 verifies chainid this C_MAX SLASH_BOUNTY).
Abbreviation act := (act poseidon keccak256 verifies chainid this C_MAX SLASH_BOUNTY).
Abbreviation run := (run poseidon keccak256 verifies chainid this C_MAX SLASH_BOUNTY).
Abbreviation reachable := (reachable poseidon keccak256 verifies chainid this C_MAX SLASH_BOUNTY).
Abbreviation sound := (sound poseidon).

Definition bounty_of (D : Z) : Z := if D <? SLASH_BOUNTY then D else SLASH_BOUNTY.

(** The events of a note of deposit [D] in each state; [x] is its exit. *)
Inductive life (c : Z) (x : option Exit) (D : Z) : Status -> list Event -> Prop :=
| life_none : life c x D NoNote []
| life_active i : life c x D Active [Deposited c D i]
| life_exiting i e : x = Some e -> 0 <= payout e <= D -> life c x D Exiting [Deposited c D i; started c e]
| life_closed i e : x = Some e -> 0 <= payout e <= D ->
    life c x D Closed [Deposited c D i; started c e; WithdrawalFinalized c (recipient e) (payout e)]
| life_slashed i who : life c x D Slashed [Deposited c D i; NoteSlashed c who (bounty_of D)]
| life_slashed_exiting i e who : x = Some e ->
    life c x D Slashed [Deposited c D i; started c e; NoteSlashed c who (bounty_of D)]
| life_expired i : life c x D Expired [Deposited c D i; NoteExpiredClaimed c D].

Definition life_at (c : Z) (s : State) : Prop :=
  life c (exits (book s) !! c) (amount (note_at c s)) (status (note_at c s)) (about c (events s)).

Lemma life_paid c x D st l : 0 <= D -> life c x D st l -> 0 <= paid l <= D.
Proof.
  assert (forall D, 0 <= D -> 0 <= bounty_of D <= D) as Hb by (intros; unfold bounty_of; destruct (Z.ltb_spec D0 SLASH_BOUNTY); lia).
  intros HD H. destruct H; cbn; pose proof (Hb D HD); lia.
Qed.

(** The same note, exit and events. *)
Definition same_at (c : Z) (s s' : State) : Prop :=
  note_at c s' = note_at c s /\ exits (book s') !! c = exits (book s) !! c /\ about c (events s') = about c (events s).

Lemma same_life c s s' : same_at c s s' -> life_at c s -> life_at c s'.
Proof. unfold life_at. by intros (-> & -> & ->). Qed.

Lemma admin_only_same c s s' : admin_only s s' -> same_at c s s'.
Proof. intros (Hb & _ & _ & _ & He). unfold same_at, note_at. rewrite Hb. split_and!; try done. by apply about_quiet. Qed.

(** The note a call is about. *)
Definition subject (g : guarded_call) : option Z :=
  match g with
  | Deposit c | InitiateWithdrawal c _ _ _ _ _ _ | FinalizeWithdrawal c | ClaimExpired c => Some c
  | Slash k => Some (hash poseidon k)
  | WithdrawOperatorBalance => None
  end.

(** [about] after a call has logged its event and those of its callbacks. *)
Ltac logs := cbn [events logged pushed with_tree with_book];
  repeat first [rewrite about_this by reflexivity|rewrite about_other by (cbn; congruence)].

Lemma about_pushed c t s : about c (events (pushed t s)) = about c (events s).
Proof. by logs. Qed.

Lemma closing_notes st c due s c' :
  notes (closing st c due s) !! c' = if decide (c' = c) then Some (marked st (note_at c s)) else notes (book s) !! c'.
Proof.
  cbn. destruct (decide (c' = c)) as [-> |Hne]; [apply lookup_insert_eq|by apply lookup_insert_ne].
Qed.

(** A call leaves the notes it is not about as they are. *)
Lemma guarded_other m cb g s s' c : guarded m cb g s = Returns (s', tt) -> subject g <> Some c -> same_at c s s'.
Proof.
  intros H Hg. unfold same_at, note_at. destruct g as [c0|c0 to key proof n y p|c0|k|c0|]; cbn [Credits.guarded subject] in H, Hg;
    try assert (Hne : c0 <> c) by congruence.
  - apply deposit_ok in H as (_ & _ & _ & _ & _ & elapsed & ->). logs.
    cbn [book logged pushed with_tree with_book notes with_note with_paused_time exits]. by rewrite lookup_insert_ne.
  - apply initiate_ok in H as (_ & _ & _ & _ & _ & ->). logs.
    cbn [book logged pushed with_tree with_book notes with_note with_exit exits]. by rewrite !lookup_insert_ne.
  - apply finalize_ok in H as (_ & _ & _ & _ & s1 & (Hb & _ & _ & _ & Hq) & ->). logs. cbn [book logged with_book with_balance] in Hb |- *.
    rewrite Hb, (about_quiet _ _ _ Hq), closing_notes, decide_False by done. done.
  - apply slash_ok in H as (_ & _ & s0 & s1 & Hb0 & _ & _ & _ & _ & He0 & (Hb & _ & _ & _ & Hq) & ->).
    assert (Hne : hash poseidon k <> c) by congruence. logs. cbn [book logged with_balance events] in Hb, Hq |- *.
    rewrite Hb, (about_quiet _ _ _ Hq), Hb0, closing_notes, decide_False, He0 by done. split_and!; [done..|].
    destruct (bool_decide _); [by logs|by rewrite app_nil_r].
  - apply claim_ok in H as (_ & _ & ->). logs. cbn [book logged with_book]. by rewrite closing_notes, decide_False by done.
  - apply withdraw_ok in H as (_ & s1 & (Hb & _ & _ & _ & Hq) & ->). logs. cbn [book logged].
    by rewrite Hb, (about_quiet _ _ _ Hq).
Qed.

(** A note that closed: its state, and one event more. *)
Lemma closed_at st c due s s0 e : note_of e = Some c -> book s0 = closing st c due s -> about c (events s0) = about c (events s) ->
  note_at c (logged e s0) = marked st (note_at c s) /\ exits (book (logged e s0)) !! c = exits (book s) !! c
  /\ about c (events (logged e s0)) = about c (events s) ++ [e].
Proof.
  intros He Hb Ha. unfold note_at at 1. cbn [book logged]. rewrite Hb, closing_notes, decide_True by done. split_and!; [done|done|].
  cbn [events logged]. by rewrite about_this, Ha.
Qed.

Lemma finalize_at m cb c s s' e : finalizeWithdrawal keccak256 m cb c s = Returns (s', tt) -> exits (book s) !! c = Some e ->
  note_at c s' = marked Closed (note_at c s) /\ exits (book s') !! c = Some e
  /\ about c (events s') = about c (events s) ++ [WithdrawalFinalized c (recipient e) (payout e)].
Proof.
  intros H Hx. apply finalize_ok in H as (_ & _ & _ & _ & s1 & (Hb & _ & _ & _ & Hq) & ->).
  rewrite Hx in *. cbn [default from_option id] in *. rewrite <- Hx. eapply closed_at; [done|exact Hb|by apply (about_quiet _ _ _ Hq)].
Qed.

Lemma life_none_inv c x D l : life c x D NoNote l -> l = [].
Proof. by inversion 1. Qed.

Lemma life_active_inv c x D l : life c x D Active l -> exists i, l = [Deposited c D i].
Proof. inversion 1. by eexists. Qed.

Lemma life_exiting_inv c x D l : life c x D Exiting l ->
  exists i e, x = Some e /\ 0 <= payout e <= D /\ l = [Deposited c D i; started c e].
Proof. inversion 1. by eexists _, _. Qed.

Lemma life_status c s st : life_at c s -> status (note_at c s) = st ->
  life c (exits (book s) !! c) (amount (note_at c s)) st (about c (events s)).
Proof. by intros H <-. Qed.

(** What a call does to the note it is about. *)
Lemma deposit_life m c s s' : deposit poseidon C_MAX m c s = Returns (s', tt) -> life_at c s -> life_at c s'.
Proof.
  intros H Hl. apply deposit_ok in H as (_ & _ & _ & Hn & _ & elapsed & ->).
  apply (life_status _ _ _ Hl), life_none_inv in Hn. unfold life_at, note_at. logs.
  cbn [book logged pushed with_tree with_book notes with_note with_paused_time exits]. rewrite lookup_insert_eq, Hn. constructor.
Qed.

Lemma initiate_life m c to key proof n y p s s' :
  initiateWithdrawal poseidon keccak256 verifies chainid this C_MAX m c to key proof n y p s = Returns (s', tt) ->
  0 <= p -> life_at c s -> life_at c s'.
Proof.
  intros H Hp Hl. apply initiate_ok in H as (_ & Ha & Hle & _ & _ & ->).
  apply (life_status _ _ _ Hl), life_active_inv in Ha as [i Hi]. unfold life_at, note_at. logs.
  cbn [book logged pushed with_tree with_book notes with_note with_exit exits]. rewrite !lookup_insert_eq, Hi.
  cbn [default from_option id marked status amount].
  match goal with |- life _ (Some ?e) _ _ _ => exact (life_exiting c (Some e) _ i e eq_refl (conj Hp Hle)) end.
Qed.

Lemma finalize_life m cb c s s' : finalizeWithdrawal keccak256 m cb c s = Returns (s', tt) -> life_at c s -> life_at c s'.
Proof.
  intros H Hl. pose proof H as (He & _)%finalize_ok.
  apply (life_status _ _ _ Hl), life_exiting_inv in He as (i & e & Hx & Hp & Hi).
  destruct (finalize_at _ _ _ _ _ _ H Hx) as (H1 & H2 & H3). unfold life_at. rewrite H1, H2, H3, Hi.
  by apply (life_closed _ _ _ _ _ eq_refl).
Qed.

Lemma slash_life m cb k s s' : slash poseidon keccak256 SLASH_BOUNTY m cb k s = Returns (s', tt) ->
  life_at (hash poseidon k) s -> life_at (hash poseidon k) s'.
Proof.
  intros H Hl. apply slash_ok in H. cbv zeta in H. fold (bounty_of (amount (note_at (hash poseidon k) s))) in H.
  destruct H as (Ho & _ & s0 & s1 & Hb0 & _ & _ & _ & _ & He0 & (Hb & _ & _ & _ & Hq) & ->).
  cbn [book with_balance events] in Hb, Hq. rewrite Hb0 in Hb.
  destruct (closed_at _ _ _ _ _ (NoteSlashed (hash poseidon k) (sender m) (bounty_of (amount (note_at (hash poseidon k) s))))
    eq_refl Hb) as (H1 & H2 & H3).
  { rewrite (about_quiet _ _ _ Hq), He0. destruct (bool_decide _); [by logs|by rewrite app_nil_r]. }
  unfold life_at. rewrite H1, H2, H3. cbn [marked status amount].
  destruct Ho as [Ho|Ho]; apply (life_status _ _ _ Hl) in Ho.
  - apply life_active_inv in Ho as [i ->]. constructor.
  - apply life_exiting_inv in Ho as (i & e & Hx & Hp & ->). rewrite Hx. by constructor.
Qed.

Lemma claim_life m c s s' : claimExpired poseidon m c s = Returns (s', tt) -> life_at c s -> life_at c s'.
Proof.
  intros H Hl. apply claim_ok in H as (_ & Ha & ->).
  set (s1 := with_book _ _). destruct (closed_at Expired c (amount (note_at c s)) s s1 (NoteExpiredClaimed c (amount (note_at c s)))
    eq_refl eq_refl) as (H1 & H2 & H3); [by apply (about_pushed c (removed poseidon (leafIndex (note_at c s)) (tree s)) s)|].
  unfold life_at. rewrite H1, H2, H3. cbn [marked status amount].
  apply (life_status _ _ _ Hl), life_active_inv in Ha as [i ->]. constructor.
Qed.

Lemma guarded_life m cb g s s' c : guarded m cb g s = Returns (s', tt) -> decodes (Guarded g) = true ->
  life_at c s -> life_at c s'.
Proof.
  intros H Hd Hl. destruct (decide (subject g = Some c)) as [Hg|Hg].
  2: { eapply same_life; [by eapply guarded_other|done]. }
  destruct g as [c0|c0 to key proof n y p|c0|k|c0|]; cbn [Credits.guarded subject] in H, Hg; injection Hg as <- || discriminate Hg.
  - by eapply deposit_life.
  - eapply initiate_life; [exact H| |exact Hl]. cbn [decodes] in Hd. apply andb_true_iff in Hd as [_ Hd].
    unfold is_uint in Hd. guards. done.
  - by eapply finalize_life.
  - by eapply slash_life.
  - by eapply claim_life.
Qed.

Lemma transact_life m cb c s s' c' : transact m cb c s = Returns (s', tt) -> life_at c' s -> life_at c' s'.
Proof.
  intros H Hl. apply transact_ok in H as (Hd & _ & H). destruct c as [g|a].
  - destruct H as (_ & s1 & H & ->). enough (life_at c' s1) by done. by eapply guarded_life.
  - apply govern_ok in H. by eapply same_life; [apply (admin_only_same c' _ _ H)|].
Qed.

Lemma run_life c s l : life_at c s -> life_at c (run l s).
Proof.
  revert s. induction l as [|a l IH]; intros s H; [done|]. apply (IH (act s a)). destruct a as [m cb x|v]; cbn [Credits.act]; [|done].
  destruct (transact m cb x s) as [[s' []]|r] eqn:E; [by eapply transact_life|done].
Qed.

(** C15: the life of a note. After any transactions, what the contract has logged about a
    note is one of the six paths its state says: opened once, then closed once at most - by
    an exit that was started, by a slash before or during it, or by expiry - and nothing
    after that. Of its deposit at most [D] was ever paid out, to the recipient its exit
    named or as the bounty. *)
Theorem note_lifecycle s c : reachable s ->
  let n := note_at c s in
  life c (exits (book s) !! c) (amount n) (status n) (about c (events s))
  /\ 0 <= paid (about c (events s)) <= amount n.
Proof.
  intros Hr n. assert (Hl : life_at c s).
  { destruct Hr as (m & server & kx & ky & v & s0 & l & H & ->). apply run_life. unfold constructor in H.
    destruct (server =? 0); [discriminate|]. unfold life_at, note_at.
    assert (Hs : book s0 = {| notes := ∅; exits := ∅; pausedTimeAtDeposit := ∅; operatorBalance := 0 |}
                 /\ events s0 = [OwnershipTransferred 0 (sender m); MerkleRootUpdated (empty_root poseidon) 0]) by (by injection H as <-).
    destruct Hs as [-> ->]. cbn [notes exits]. rewrite lookup_empty. constructor. }
  split; [exact Hl|]. eapply life_paid; [|exact Hl].
  destruct (reachable_sound poseidon keccak256 verifies chainid this C_MAX SLASH_BOUNTY Hmax s Hr) as (x & _ & Hs & _).
  unfold n, note_at. destruct (notes (book s) !! c) as [n'|] eqn:E; [|done]. apply (ns_amount _ _ _ _ _ (sd_notes _ _ _ _ _ Hs c n' E)).
Qed.

(** ** Exits *)

Definition exiting (c : Z) (e : Exit) (s : State) : Prop := status (note_at c s) = Exiting /\ exits (book s) !! c = Some e.

Definition slashes (c : Z) (a : action) : Prop :=
  match a with Transaction _ _ (Guarded (Slash k)) => hash poseidon k = c | _ => False end.

Lemma guarded_exiting m cb g s s' c e : guarded m cb g s = Returns (s', tt) -> exiting c e s ->
  (forall k, g = Slash k -> hash poseidon k <> c) ->
  exiting c e s' /\ amount (note_at c s') = amount (note_at c s)
  \/ In (WithdrawalFinalized c (recipient e) (payout e)) (events s').
Proof.
  intros H [Hs Hx] Hk. destruct (decide (subject g = Some c)) as [Hg|Hg].
  - destruct g as [c0|c0 to key proof n y p|c0|k|c0|]; cbn [Credits.guarded subject] in H, Hg; injection Hg as <- || discriminate Hg.
    + apply deposit_ok in H as (_ & _ & _ & Hn & _). congruence.
    + apply initiate_ok in H as (_ & Hn & _). congruence.
    + right. destruct (finalize_at _ _ _ _ _ _ H Hx) as (_ & _ & Ha).
      assert (Hin : In (WithdrawalFinalized c0 (recipient e) (payout e)) (about c0 (events s'))).
      { rewrite Ha. apply in_or_app. right. by left. }
      by apply List.filter_In, proj1 in Hin.
    + by destruct (Hk k eq_refl).
    + apply claim_ok in H as (_ & Hn & _). congruence.
  - left. destruct (guarded_other _ _ _ _ _ _ H Hg) as (H1 & H2 & _). unfold exiting. rewrite H1, H2. by split_and!.
Qed.

(** Events are only added. *)
Lemma guarded_grows m cb g s s' : guarded m cb g s = Returns (s', tt) -> exists more, events s' = events s ++ more.
Proof.
  assert (Hq : forall l1 l2 e, quiet l1 l2 -> exists more, l2 ++ [e] = l1 ++ more).
  { intros l1 l2 e (more & -> & _). exists (more ++ [e]). by rewrite app_assoc. }
  destruct g as [c0|c0 to key proof n y p|c0|k|c0|]; cbn [Credits.guarded]; intros H.
  - apply deposit_ok in H as (_ & _ & _ & _ & _ & elapsed & ->). eexists. cbn. by rewrite <- app_assoc.
  - apply initiate_ok in H as (_ & _ & _ & _ & _ & ->). eexists. cbn. by rewrite <- app_assoc.
  - apply finalize_ok in H as (_ & _ & _ & _ & s1 & (_ & _ & _ & _ & Hs) & ->). cbn [events logged]. by apply (Hq (events s)).
  - apply slash_ok in H as (_ & _ & s0 & s1 & _ & _ & _ & _ & _ & He & (_ & _ & _ & _ & Hs) & ->).
    cbn [events with_balance] in Hs. rewrite He in Hs. destruct (Hq _ _ (NoteSlashed (hash poseidon k) (sender m)
      (if amount (note_at (hash poseidon k) s) <? SLASH_BOUNTY then amount (note_at (hash poseidon k) s) else SLASH_BOUNTY)) Hs) as [more Hm].
    cbn [events logged]. rewrite Hm, <- app_assoc. by eexists.
  - apply claim_ok in H as (_ & _ & ->). eexists. cbn. by rewrite <- app_assoc.
  - apply withdraw_ok in H as (_ & s1 & (_ & _ & _ & _ & Hs) & ->). cbn [events logged]. by apply (Hq (events s)).
Qed.

Lemma act_grows s a : exists more, events (act s a) = events s ++ more.
Proof.
  assert (H0 : exists more, events s = events s ++ more) by (exists []; by rewrite app_nil_r).
  destruct a as [m cb x|v]; cbn [Credits.act]; [|exact H0].
  destruct (transact m cb x s) as [[s' []]|r] eqn:E; [|exact H0]. apply transact_ok in E as (_ & _ & E).
  destruct x as [g|a].
  - destruct E as (_ & s1 & H & ->). apply guarded_grows in H. exact H.
  - apply govern_ok in E as (_ & _ & _ & _ & more & H & _). by exists more.
Qed.

Lemma run_grows s l e : In e (events s) -> In e (events (run l s)).
Proof.
  revert s. induction l as [|a l IH]; intros s H; [done|]. apply (IH (act s a)).
  destruct (act_grows s a) as [more ->]. apply in_or_app. by left.
Qed.

Lemma run_exiting c e l s : exiting c e s -> Forall (fun a => ~ slashes c a) l ->
  exiting c e (run l s) /\ amount (note_at c (run l s)) = amount (note_at c s)
  \/ In (WithdrawalFinalized c (recipient e) (payout e)) (events (run l s)).
Proof.
  intros He Hl. revert s He. induction Hl as [|a l Ha Hl IH]; intros s He; [by left|].
  change (run (a :: l) s) with (run l (act s a)).
  assert (Hstep : exiting c e (act s a) /\ amount (note_at c (act s a)) = amount (note_at c s)
                  \/ In (WithdrawalFinalized c (recipient e) (payout e)) (events (act s a))).
  { destruct a as [m cb x|v]; cbn [Credits.act]; [|by left].
    destruct (transact m cb x s) as [[s' []]|r] eqn:E; [|by left]. apply transact_ok in E as (_ & _ & E). destruct x as [g|a].
    - destruct E as (_ & s1 & H & ->). apply (guarded_exiting _ _ _ _ _ c e H He). intros k ->. exact Ha.
    - apply govern_ok in E. apply (admin_only_same c) in E as (H1 & H2 & _). left. unfold exiting. rewrite H1, H2.
      destruct He. by split_and!. }
  destruct Hstep as [[He' Hd]|Hp]; [|right; by apply run_grows].
  destruct (IH _ He') as [[H1 H2]|H]; [left; split; [exact H1|by rewrite H2]|by right].
Qed.

(** ** Exits that run *)

Lemma returns_bind {A B} (m : Tx A) (f : A -> Tx B) s s1 a : m s = Returns (s1, a) -> (m ≫= f) s = f a s1.
Proof. intros H. unfold mbind, Tx_bind. by rewrite H. Qed.

Lemma in_uint256 z : 0 <= z < 2 ^ 256 -> (0 <=? z) && (z <? 2 ^ 256) = true.
Proof. intros H. apply andb_true_iff. split; [apply Z.leb_le|apply Z.ltb_lt]; lia. Qed.

Lemma initiate_runs m c to key proof n y p s :
  to <> 0 -> status (note_at c s) = Active -> _refundKeyId keccak256 key.1 key.2 ∈ acceptedRefundKeys (settings s) ->
  p <= amount (note_at c s) ->
  verifies (settlementVerifier (settings s)) proof
    (settlement_signals C_MAX c to key n y p (amount (note_at c s)) (withdrawalSignalX poseidon chainid this to)) = Some true ->
  0 <= timestamp m + CHALLENGE_WINDOW < 2 ^ 256 ->
  is_Some (leaves (tree s) !! Z.to_nat (leafIndex (note_at c s))) ->
  exists s', initiateWithdrawal poseidon keccak256 verifies chainid this C_MAX m c to key proof n y p s = Returns (s', tt).
Proof.
  intros Hto Hs Hk Hp Hv Ht [leaf Hl]. unfold initiateWithdrawal, on_book.
  rewrite revert_if_bind, (proj2 (Z.eqb_neq _ _) Hto), gets_bind, revert_if_bind, bool_decide_true by done. cbn [negb].
  rewrite gets_bind, revert_if_bind, bool_decide_true by done. cbn [negb].
  rewrite revert_if_bind, (proj2 (Z.ltb_ge _ _) Hp). cbv zeta. rewrite Hv. cbn [negb]. rewrite revert_if_bind, uint256_bind, in_uint256 by done.
  rewrite !update_bind. unfold mbind, Tx_bind. erewrite removeLeaf_eq by exact Hl. by eexists.
Qed.

Lemma finalize_runs x m cb c e s : sound x (book s) (tree s) (balance s) -> 0 <= x -> exiting c e s -> exitAt e <= timestamp m ->
  balance s < 2 ^ 256 -> cb.2 = true ->
  exists s', finalizeWithdrawal keccak256 m cb c s = Returns (s', tt).
Proof.
  intros Hs Hx0 [He Hx] Ht Hb Hcb. destruct Hs as [Hf Hop Hn _ _].
  assert (Hc : notes (book s) !! c = Some (note_at c s)) by (apply note_at_some; congruence).
  destruct (ns_exit _ _ _ _ _ (Hn c _ Hc) He) as (e' & He' & Hp). assert (e' = e) by congruence. subst e'.
  assert (Hheld : amount (note_at c s) <= owed (notes (book s))).
  { pose proof (owed_covers c (note_at c s) (notes (book s)) (fun c n H => proj1 (ns_amount _ _ _ _ _ (Hn c n H))) Hc) as Hle.
    unfold held in Hle. by rewrite He in Hle. }
  pose proof (ns_amount _ _ _ _ _ (Hn c _ Hc)) as Ha.
  unfold finalizeWithdrawal, add_operator, on_book, _pay.
  rewrite gets_bind, revert_if_bind, bool_decide_true by done. cbn [negb]. rewrite gets_bind, Hx. cbn [default from_option id].
  rewrite revert_if_bind, (proj2 (Z.ltb_ge _ _) Ht), update_bind, uint256_bind, in_uint256 by lia.
  rewrite bind_assoc, gets_bind, bind_assoc, uint256_bind. cbn [operatorBalance book with_book with_note].
  rewrite in_uint256 by lia.
  rewrite update_bind, bind_assoc, gets_bind, bind_assoc, revert_if_bind. cbn [balance with_book].
  replace (balance s <? payout e) with false by (symmetry; apply Z.ltb_ge; lia).
  rewrite bind_assoc, update_bind, bind_assoc, update_bind, revert_if_bind, Hcb. by eexists.
Qed.

Lemma exiting_finalizes m cb c e s : reachable s -> exiting c e s -> is_uint 256 c = true -> exitAt e <= timestamp m ->
  value m = 0 -> cb.2 = true -> balance s < 2 ^ 256 ->
  exists s', transact m cb (Guarded (FinalizeWithdrawal c)) s = Returns (s', tt)
    /\ In (WithdrawalFinalized c (recipient e) (payout e)) (events s') /\ balance s' = balance s - payout e.
Proof.
  intros Hr He Hd Ht Hv Hcb Hb.
  destruct (reachable_sound poseidon keccak256 verifies chainid this C_MAX SLASH_BOUNTY Hmax s Hr) as (x & Hx & Hs & Hent).
  set (s0 := with_entered true (with_balance (balance s + value m) s)).
  assert (Hbal : balance s0 = balance s) by (cbn; lia).
  destruct (finalize_runs x m cb c e s0) as [s1 H1]; try done; [by rewrite Hbal|by rewrite Hbal|].
  exists (with_entered false s1). split_and!; [by apply transact_runs| |].
  - destruct (finalize_at _ _ _ _ _ _ H1 (proj2 He)) as (_ & _ & Ha).
    assert (Hin : In (WithdrawalFinalized c (recipient e) (payout e)) (about c (events s1))) by (rewrite Ha; apply in_or_app; right; by left).
    by apply List.filter_In, proj1 in Hin.
  - apply finalize_ok in H1 as (_ & _ & _ & _ & s2 & (_ & _ & Hb2 & _) & ->).
    cbn [balance with_entered logged]. rewrite Hb2. change (book s0) with (book s). rewrite (proj2 He).
    cbn [default from_option id balance with_balance]. by rewrite Hbal.
Qed.

(** The exit an accepted call records. *)
Definition exit_of (m : Msg) (to n y p : Z) : Exit :=
  {| nullifier := n; signalX := withdrawalSignalX poseidon chainid this to; signalY := y; payout := p;
     recipient := to; exitAt := timestamp m + CHALLENGE_WINDOW |}.

Lemma exit_starts m cb c to key proof n y p s :
  reachable s -> status (note_at c s) = Active -> to <> 0 ->
  _refundKeyId keccak256 key.1 key.2 ∈ acceptedRefundKeys (settings s) -> p <= amount (note_at c s) ->
  verifies (settlementVerifier (settings s)) proof
    (settlement_signals C_MAX c to key n y p (amount (note_at c s)) (withdrawalSignalX poseidon chainid this to)) = Some true ->
  decodes (Guarded (InitiateWithdrawal c to key proof n y p)) = true -> value m = 0 ->
  0 <= timestamp m + CHALLENGE_WINDOW < 2 ^ 256 ->
  exists s1, transact m cb (Guarded (InitiateWithdrawal c to key proof n y p)) s = Returns (s1, tt)
    /\ reachable s1 /\ exiting c (exit_of m to n y p) s1.
Proof.
  intros Hr Hst Hto Hk Hp Hv Hd Hval Ht.
  destruct (reachable_sound poseidon keccak256 verifies chainid this C_MAX SLASH_BOUNTY Hmax s Hr) as (x & _ & Hs & He).
  set (s0 := with_entered true (with_balance (balance s + value m) s)).
  assert (Hc : notes (book s) !! c = Some (note_at c s)) by (apply note_at_some; congruence).
  destruct (initiate_runs m c to key proof n y p s0) as [s1 H1]; try done.
  { destruct (ns_leaf _ _ _ _ _ (sd_notes _ _ _ _ _ Hs c _ Hc) Hst) as [Hl _]. by eexists. }
  exists (with_entered false s1).
  pose proof (transact_runs poseidon keccak256 verifies chainid this C_MAX SLASH_BOUNTY m cb _ s s1 Hd (fun _ => Hval) He H1) as Htx.
  split; [exact Htx|]. split; [by eapply reachable_transact|].
  apply initiate_ok in H1 as (_ & _ & _ & _ & _ & ->). unfold exiting, note_at.
  cbn [book logged pushed with_tree with_book with_entered notes with_note with_exit exits]. by rewrite !lookup_insert_eq.
Qed.

(** What becomes of an exit, whatever happens short of a slash. *)
Lemma exit_goes_on c e s1 l : reachable s1 -> exiting c e s1 -> is_uint 256 c = true -> Forall (fun a => ~ slashes c a) l ->
  let s2 := run l s1 in
  In (WithdrawalFinalized c (recipient e) (payout e)) (events s2)
  \/ forall m' cb', exitAt e <= timestamp m' -> value m' = 0 -> cb'.2 = true -> balance s2 < 2 ^ 256 ->
       exists s3, transact m' cb' (Guarded (FinalizeWithdrawal c)) s2 = Returns (s3, tt)
         /\ In (WithdrawalFinalized c (recipient e) (payout e)) (events s3) /\ balance s3 = balance s2 - payout e.
Proof.
  intros Hr He Hd Hl s2. destruct (run_exiting c e l _ He Hl) as [[He2 _]|Hin]; [right|by left].
  intros m' cb' Ht' Hval' Hcb Hb. apply (exiting_finalizes m' cb' c e s2); try done. by apply reachable_run.
Qed.

(** C16: an exit cannot be stopped. Whoever holds an active note, an accepted refund key
    and a proof the verifier of the day accepts starts its exit, paused or not, whoever owns
    the contract. Once it has started, and whatever is sent to the contract then - changes of
    every setting, pauses, claims, other exits, callbacks - unless somebody who knows the
    secret key slashes the note, the recipient has been paid, or anyone can have it paid
    after three days: exactly the payout leaves the contract. *)
Theorem exit_cannot_be_stopped m cb c to key proof n y p s :
  reachable s -> status (note_at c s) = Active -> to <> 0 ->
  _refundKeyId keccak256 key.1 key.2 ∈ acceptedRefundKeys (settings s) -> p <= amount (note_at c s) ->
  verifies (settlementVerifier (settings s)) proof
    (settlement_signals C_MAX c to key n y p (amount (note_at c s)) (withdrawalSignalX poseidon chainid this to)) = Some true ->
  decodes (Guarded (InitiateWithdrawal c to key proof n y p)) = true -> value m = 0 ->
  0 <= timestamp m + CHALLENGE_WINDOW < 2 ^ 256 ->
  exists s1, transact m cb (Guarded (InitiateWithdrawal c to key proof n y p)) s = Returns (s1, tt)
  /\ forall l, Forall (fun a => ~ slashes c a) l ->
     let s2 := run l s1 in
     In (WithdrawalFinalized c to p) (events s2)
     \/ forall m' cb', timestamp m + CHALLENGE_WINDOW <= timestamp m' -> value m' = 0 -> cb'.2 = true -> balance s2 < 2 ^ 256 ->
          exists s3, transact m' cb' (Guarded (FinalizeWithdrawal c)) s2 = Returns (s3, tt)
            /\ In (WithdrawalFinalized c to p) (events s3) /\ balance s3 = balance s2 - p.
Proof.
  intros Hr Hst Hto Hk Hp Hv Hd Hval Ht.
  destruct (exit_starts m cb c to key proof n y p s Hr Hst Hto Hk Hp Hv Hd Hval Ht) as (s1 & Htx & Hr1 & He1).
  exists s1. split; [exact Htx|]. intros l Hl.
  apply (exit_goes_on c (exit_of m to n y p) s1 l Hr1 He1); [|exact Hl].
  by do 8 (apply andb_true_iff in Hd as [Hd _]).
Qed.
(** ** Slashes that run *)

Lemma slash_runs x m cb k s : let c := hash poseidon k in
  sound x (book s) (tree s) (balance s) -> 0 <= x -> status (note_at c s) = Active \/ status (note_at c s) = Exiting ->
  k < FIELD_MODULUS -> balance s < 2 ^ 256 -> cb.2 = true ->
  exists s', slash poseidon keccak256 SLASH_BOUNTY m cb k s = Returns (s', tt).
Proof.
  intros c [Hf Hop Hn _ _] Hx0 Hst Hk Hb Hcb.
  assert (Hc : notes (book s) !! c = Some (note_at c s)) by (apply note_at_some; destruct Hst; congruence).
  assert (Hheld : amount (note_at c s) <= owed (notes (book s))).
  { pose proof (owed_covers c (note_at c s) (notes (book s)) (fun c n H => proj1 (ns_amount _ _ _ _ _ (Hn c n H))) Hc) as Hle.
    unfold held in Hle. by destruct Hst as [He|He]; rewrite He in Hle. }
  pose proof (ns_amount _ _ _ _ _ (Hn c _ Hc)) as Ha.
  set (bounty := if amount (note_at c s) <? SLASH_BOUNTY then amount (note_at c s) else SLASH_BOUNTY).
  assert (Hbo : 0 <= bounty <= amount (note_at c s)) by (unfold bounty; destruct (Z.ltb_spec (amount (note_at c s)) SLASH_BOUNTY); lia).
  assert (Hstep : exists s1, (if bool_decide (status (note_at c s) = Active) then _removeLeaf poseidon (leafIndex (note_at c s))
                     else revert_if (negb (bool_decide (status (note_at c s) = Exiting))) NoteNotActive) s = Returns (s1, tt)
                   /\ book s1 = book s /\ balance s1 = balance s).
  { destruct Hst as [He|He].
    - rewrite bool_decide_true by done. destruct (ns_leaf _ _ _ _ _ (Hn c _ Hc) He) as [Hl _].
      eexists. split; [by eapply removeLeaf_eq|]. by split.
    - rewrite bool_decide_false by congruence. rewrite bool_decide_true by done. by exists s. }
  destruct Hstep as (s1 & H1 & Hbook & Hbal).
  unfold slash, add_operator, on_book, _pay. fold c.
  rewrite revert_if_bind, (proj2 (Z.leb_gt _ _) Hk), gets_bind, (returns_bind _ _ _ _ _ H1). fold bounty.
  rewrite update_bind, uint256_bind, in_uint256 by lia. rewrite bind_assoc, gets_bind, bind_assoc, uint256_bind.
  cbn [operatorBalance book with_book with_note]. rewrite Hbook. rewrite in_uint256 by lia.
  rewrite update_bind, bind_assoc, gets_bind, bind_assoc, revert_if_bind. cbn [balance with_book]. rewrite Hbal.
  replace (balance s <? bounty) with false by (symmetry; apply Z.ltb_ge; lia).
  rewrite bind_assoc, update_bind, bind_assoc, update_bind, revert_if_bind, Hcb. by eexists.
Qed.

(** Whoever knows the secret key of an open note can slash it, whatever its state. *)
Lemma known_key_slashes m cb k s : let c := hash poseidon k in
  let d := amount (note_at c s) in
  let bounty := if d <? SLASH_BOUNTY then d else SLASH_BOUNTY in
  reachable s -> status (note_at c s) = Active \/ status (note_at c s) = Exiting ->
  0 <= k < FIELD_MODULUS -> value m = 0 -> balance s < 2 ^ 256 -> cb.2 = true ->
  exists s', transact m cb (Guarded (Slash k)) s = Returns (s', tt)
    /\ status (note_at c s') = Slashed /\ balance s' = balance s - bounty
    /\ operatorBalance (book s') = operatorBalance (book s) + (d - bounty).
Proof.
  intros c d bounty Hr Hst Hk Hv Hb Hcb.
  destruct (reachable_sound poseidon keccak256 verifies chainid this C_MAX SLASH_BOUNTY Hmax s Hr) as (x & Hx & Hs & Hent).
  set (s0 := with_entered true (with_balance (balance s + value m) s)).
  assert (Hbal : balance s0 = balance s) by (cbn; lia).
  destruct (slash_runs x m cb k s0) as [s1 H1]; try done; [by rewrite Hbal|lia|by rewrite Hbal|].
  assert (Hd : decodes (Guarded (Slash k)) = true).
  { assert (Hp : FIELD_MODULUS < 2 ^ 256) by (apply Z.ltb_lt; vm_compute; reflexivity).
    apply in_uint256. split; [apply Hk|]. exact (Z.lt_trans _ _ _ (proj2 Hk) Hp). }
  exists (with_entered false s1). split; [by apply transact_runs|].
  apply slash_ok in H1 as (_ & _ & s2 & s3 & Hb2 & _ & _ & _ & Hbal2 & _ & Ha & ->).
  assert (Hn : note_at (hash poseidon k) s0 = note_at c s) by done. rewrite Hn in Hb2, Ha. fold d bounty in Hb2, Ha.
  destruct Ha as (Hbook & _ & Hbal3 & _). cbn [balance book with_entered logged with_balance] in Hbook, Hbal3 |- *.
  rewrite Hbal3, Hbal. unfold note_at. cbn [book with_entered logged]. rewrite Hbook, Hb2. unfold closing.
  cbn [operatorBalance notes with_operator with_note]. fold c. rewrite lookup_insert_eq. split_and!; [done|lia|done].
Qed.
End History.
