(* ===== verification/CreditsAdmin.v ===== *)
(** * The settings of the contract

    Who can change a setting of [Credits] and when: only through a proposal that waited,
    whatever the transactions and the callbacks of the payments. *)

From S2P Require Import Prelude Credits CreditsLedger.
Open Scope Z_scope.

(** The value of a setting, and the one a change would give it. *)
Definition set_value (t : Target) (x : Settings) : Z * Z :=
  match t with
  | SettlementVerifier => (settlementVerifier x, 0)
  | ServerAddress => (serverAddress x, 0)
  | RefundKey => serverPublicKey x
  end.

Definition change_value (t : Target) (c : PendingChange) : Z * Z :=
  match t with RefundKey => (keyX c, keyY c) | _ => (new_value c, 0) end.

Section Admin.
Context (poseidon : list Z -> Z) (keccak256 : list byte -> Z).
Context (verifies : Z -> list Z -> list Z -> option bool).
Context (chainid this C_MAX SLASH_BOUNTY : Z).

Abbreviation guarded := (guarded poseidon keccak256 verifies chainid this C_MAX SLASH_BOUNTY).
Abbreviation transact := (transact poseidon keccak256 verifies chainid this C_MAX SLASH_BOUNTY).
Abbreviation act := (act poseidon keccak256 verifies chainid this C_MAX SLASH_BOUNTY).
Abbreviation run := (run poseidon keccak256 verifies chainid this C_MAX SLASH_BOUNTY).

(** ** One administrative call *)

(** What a call at [now] can do to the settings. *)
Record settles (now : Z) (x x' : Settings) : Prop := {
  st_value : forall t, set_value t x' = set_value t x
    \/ eta (pendingChanges x t) <> 0 /\ eta (pendingChanges x t) <= now
       /\ set_value t x' = change_value t (pendingChanges x t);
  st_pending : forall t, pendingChanges x' t = pendingChanges x t \/ eta (pendingChanges x' t) = 0
    \/ eta (pendingChanges x' t) = now + ADMIN_DELAY;
  st_keys : acceptedRefundKeys x ⊆ acceptedRefundKeys x';
}.

Lemma settles_same now x x' : (forall t, set_value t x' = set_value t x) -> pendingChanges x' = pendingChanges x ->
  acceptedRefundKeys x' = acceptedRefundKeys x -> settles now x x'.
Proof. intros H1 H2 H3. split; [intros t; left; apply H1|intros t; left; by rewrite H2|by rewrite H3]. Qed.

Lemma settles_change now x t c : eta c = 0 \/ eta c = now + ADMIN_DELAY -> settles now x (set_change t c x).
Proof.
  intros Hc. split; cbn; [intros []; by left| |done]. intros u. destruct (decide (u = t)) as [_|_]; [right; exact Hc|by left].
Qed.

Lemma settles_execute now x t : eta (pendingChanges x t) <> 0 -> eta (pendingChanges x t) <= now ->
  settles now x (set_target keccak256 t (pendingChanges x t) (set_change t no_change x)).
Proof.
  intros H1 H2. split.
  - intros u. destruct (decide (u = t)) as [-> |Hne]; [right|left].
    + split; [done|]. split; [done|]. by destruct t.
    + by destruct u, t.
  - intros u. cbn [set_target pendingChanges set_change]. destruct (decide (u = t)) as [_|_]; [right; by left|by left].
  - destruct t; cbn; set_solver.
Qed.

Lemma govern_settles m a s s' : govern keccak256 m a s = Returns (s', tt) ->
  settles (timestamp m) (settings s) (settings s').
Proof.
  destruct a as [t v|x y|t|t| | |a|]; cbn [govern];
    [unfold proposeChange|unfold proposeRefundKey|unfold executeChange|unfold cancelChange|unfold pause, whenNotPaused
    |unfold unpause|unfold transferOwnership|unfold renounceOwnership]; unfold onlyOwner, on_settings, emit; intros H; tx_run H.
  - injection H as <-. apply settles_change. by right.
  - injection H as <-. apply settles_change. by right.
  - guards. destruct t; tx_run H; injection H as <-; by apply settles_execute.
  - injection H as <-. apply settles_change. by left.
  - injection H as <-. apply settles_same; [by intros []|done|done].
  - injection H as <-. apply settles_same; [by intros []|done|done].
  - injection H as <-. apply settles_same; [by intros []|done|done].
  - injection H as <-. apply settles_same; [by intros []|done|done].
Qed.

(** ** One transaction *)

(** Any number of such calls at one time. *)
Inductive steps (now : Z) : Settings -> Settings -> Prop :=
| steps_none x : steps now x x
| steps_more x y z : settles now x y -> steps now y z -> steps now x z.

Lemma steps_trans now x y z : steps now x y -> steps now y z -> steps now x z.
Proof. induction 1; [done|]. intros. econstructor; eauto. Qed.

(** A computation that touches the settings by such calls only. *)
Definition steady {A} (now : Z) (m : Tx A) : Prop :=
  forall s s' a, m s = Returns (s', a) -> steps now (settings s) (settings s').

Section Steady.
Context (now : Z).

Lemma steady_bind {A B} (m : Tx A) (k : A -> Tx B) : steady now m -> (forall a, steady now (k a)) -> steady now (m ≫= k).
Proof. intros Hm Hk s s' b H. apply bind_returns in H as (s1 & a & H1 & H2). eapply steps_trans; [by eapply Hm|by eapply Hk]. Qed.

Lemma steady_ret {A} (a : A) : steady now (mret a).
Proof. intros s s' b H. unfold mret, Tx_ret in H. injection H as <- _. constructor. Qed.

Lemma steady_revert {A} r : steady now (revert (A := A) r).
Proof. by intros s s' a H. Qed.

Lemma steady_gets {A} (f : State -> A) : steady now (gets f).
Proof. intros s s' a H. injection H as <- _. constructor. Qed.

Lemma steady_update f : (forall s, settings (f s) = settings s) -> steady now (update f).
Proof. intros Hf s s' a H. injection H as <-. rewrite Hf. constructor. Qed.

Lemma steady_emit e : steady now (emit e).
Proof. by apply steady_update. Qed.

Lemma steady_on_book f : steady now (on_book f).
Proof. by apply steady_update. Qed.

Lemma steady_revert_if b r : steady now (revert_if b r).
Proof. destruct b; [apply steady_revert|apply steady_ret]. Qed.

Lemma steady_uint256 z : steady now (uint256 z).
Proof. unfold uint256. destruct (_ && _); [apply steady_ret|apply steady_revert]. Qed.

Lemma reenter_steps cb s : steps now (settings s) (settings (reenter keccak256 now cb s)).
Proof.
  unfold reenter. revert s. induction cb as [|c cb IH]; intros s; cbn [fold_left]; [constructor|].
  destruct (govern _ _ _ s) as [[s1 []]|r] eqn:H; [|apply IH]. apply govern_settles in H. econstructor; [exact H|apply IH].
Qed.

Lemma steady_reenter cb : steady now (update (reenter keccak256 now cb)).
Proof. intros s s' a H. injection H as <-. apply reenter_steps. Qed.
End Steady.

(** Goes through a computation, call by call. *)
Ltac steady :=
  repeat lazymatch goal with
  | |- steady _ (mbind _ _) => apply steady_bind; [|intros]
  | |- steady _ (mret _) => apply steady_ret
  | |- steady _ (revert _) => apply steady_revert
  | |- steady _ (gets _) => apply steady_gets
  | |- steady _ (emit _) => apply steady_emit
  | |- steady _ (on_book _) => apply steady_on_book
  | |- steady _ (revert_if _ _) => apply steady_revert_if
  | |- steady _ (uint256 _) => apply steady_uint256
  | |- steady _ (update (reenter _ _ _)) => apply steady_reenter
  | |- steady _ (update _) => apply steady_update; intros; reflexivity
  | |- steady _ (match ?x with _ => _ end) => destruct x
  end.

Lemma updateLeaf_steady now i : steady now (_updateLeaf poseidon i).
Proof. unfold _updateLeaf, _pushRoot. steady. Qed.

Lemma removeLeaf_steady now i : steady now (_removeLeaf poseidon i).
Proof. unfold _removeLeaf. steady. apply updateLeaf_steady. Qed.

Lemma pausedTime_steady now t : steady now (_pausedTime t).
Proof. unfold _pausedTime. steady. Qed.

Lemma pay_steady m cb to v : steady (timestamp m) (_pay keccak256 m cb to v).
Proof. unfold _pay. steady. Qed.

Lemma add_operator_steady now v : steady now (add_operator v).
Proof. unfold add_operator. steady. Qed.

Lemma guarded_steady m cb g : steady (timestamp m) (guarded m cb g).
Proof.
  destruct g; cbn [Credits.guarded]; [unfold deposit|unfold initiateWithdrawal|unfold finalizeWithdrawal|unfold slash
    |unfold claimExpired, noteExpiry|unfold withdrawOperatorBalance]; unfold whenNotPaused; cbv zeta; steady;
    lazymatch goal with
    | |- steady _ (_updateLeaf _ _) => apply updateLeaf_steady
    | |- steady _ (_removeLeaf _ _) => apply removeLeaf_steady
    | |- steady _ (_pausedTime _) => apply pausedTime_steady
    | |- steady _ (_pay _ _ _ _ _) => apply pay_steady
    | |- steady _ (add_operator _) => apply add_operator_steady
    end.
Qed.

Lemma transact_steps m cb c s s' : transact m cb c s = Returns (s', tt) -> steps (timestamp m) (settings s) (settings s').
Proof.
  intros H. apply transact_ok in H as (_ & _ & H). destruct c as [g|a].
  - destruct H as (_ & s1 & H & ->). by apply guarded_steady in H.
  - apply govern_settles in H. econstructor; [exact H|constructor].
Qed.

(** ** The delay *)

Definition during (T : Z) (a : action) : Prop :=
  match a with Transaction m _ _ => T <= timestamp m < T + ADMIN_DELAY | Forced _ => True end.

(** What the settings [x] can be when they were [x0] at [T], less than the delay ago. *)
Record waiting (T : Z) (x0 x : Settings) : Prop := {
  w_value : forall t, set_value t x = set_value t x0
    \/ eta (pendingChanges x0 t) <> 0 /\ eta (pendingChanges x0 t) < T + ADMIN_DELAY /\ set_value t x = change_value t (pendingChanges x0 t);
  w_pending : forall t, pendingChanges x t = pendingChanges x0 t \/ eta (pendingChanges x t) = 0
    \/ T + ADMIN_DELAY <= eta (pendingChanges x t);
}.

Lemma settles_waiting T now x0 x x' : T <= now < T + ADMIN_DELAY -> waiting T x0 x -> settles now x x' -> waiting T x0 x'.
Proof.
  intros Hn [Hv Hp] [Sv Sp _]. split; intros t.
  - destruct (Sv t) as [-> |(H0 & Hle & ->)]; [apply Hv|]. right. destruct (Hp t) as [E|[E|E]]; [|congruence|lia].
    rewrite E in *. split_and!; [done|lia|done].
  - destruct (Sp t) as [-> |[E|E]]; [apply Hp|right; by left|right; right; lia].
Qed.

Lemma steps_waiting T now x0 x x' : T <= now < T + ADMIN_DELAY -> steps now x x' -> waiting T x0 x -> waiting T x0 x'.
Proof. intros Hn. induction 1; [done|]. eauto using settles_waiting. Qed.

Lemma run_waiting T x0 l s : Forall (during T) l -> waiting T x0 (settings s) -> waiting T x0 (settings (run l s)).
Proof.
  intros Hl. revert s. induction Hl as [|a l Ha _ IH]; intros s H; [done|]. apply (IH (act s a)).
  destruct a as [m cb c|v]; cbn [Credits.act]; [|done]. destruct (transact m cb c s) as [[s' []]|r] eqn:E; [|done].
  apply transact_steps in E. by eapply steps_waiting.
Qed.

Lemma act_keys s a : acceptedRefundKeys (settings s) ⊆ acceptedRefundKeys (settings (act s a)).
Proof.
  destruct a as [m cb c|v]; cbn [Credits.act]; [|done]. destruct (transact m cb c s) as [[s' []]|r] eqn:E; [|done].
  apply transact_steps in E. induction E as [|x y z H _ IH]; [done|]. etrans; [apply (st_keys _ _ _ H)|exact IH].
Qed.

Lemma run_keys l s : acceptedRefundKeys (settings s) ⊆ acceptedRefundKeys (settings (run l s)).
Proof. revert s. induction l as [|a l IH]; intros s; [done|]. etrans; [apply (act_keys s a)|apply IH]. Qed.

(** C29: no change of the settings lands sooner than its delay. Within seven days of any
    moment, the verifier, the operator's address and the refund key are what they were
    then, or what a change already pending then, and due within those days, makes them: no
    proposal made since can have taken effect, whoever owns the contract and whatever
    callbacks do. And a refund key once accepted is accepted for good, so that an
    accumulator signed with it can always exit. *)
Theorem changes_wait T l s : Forall (during T) l -> forall t,
  let x := settings s in
  let x' := settings (run l s) in
  (set_value t x' = set_value t x
   \/ eta (pendingChanges x t) <> 0 /\ eta (pendingChanges x t) < T + ADMIN_DELAY /\ set_value t x' = change_value t (pendingChanges x t))
  /\ acceptedRefundKeys x ⊆ acceptedRefundKeys x'.
Proof.
  intros Hl t x x'. split; [|apply run_keys].
  apply (w_value T x x'). apply run_waiting; [exact Hl|]. split; intros u; by left.
Qed.
End Admin.
