(* ===== verification/CreditsTree.v ===== *)
(** * The tree of the contract

    The nodes [Credits] stores are those of the full tree over its leaves, its proofs lead
    to its root, and the ring of recent roots holds the last thirty. *)

From S2P Require Import Prelude Modulus Credits CreditsLedger.
Open Scope Z_scope.

(** ** Ancestors *)

Definition anc (n : nat) (i : Z) : Z := Nat.iter n (fun i => i / 2) i.

Lemma anc_S n i : anc (S n) i = anc n (i / 2).
Proof. unfold anc. by rewrite Nat.iter_succ_r. Qed.

Lemma anc_div n i : 0 <= i -> anc n i = i / 2 ^ Z.of_nat n.
Proof.
  revert i. induction n as [|n IH]; intros i Hi; [by rewrite Z.div_1_r|].
  rewrite anc_S, IH by (apply Z.div_pos; lia). rewrite Z.div_div by lia.
  f_equal. rewrite Nat2Z.inj_succ, Z.pow_succ_r by lia. lia.
Qed.

Lemma anc_nonneg n i : 0 <= i -> 0 <= anc n i.
Proof. intros H. rewrite anc_div by done. apply Z.div_pos; lia. Qed.

Lemma sibling_ne i : _sibling i <> i.
Proof. unfold _sibling. destruct (_ =? _); lia. Qed.

Lemma sibling_nonneg i : 0 <= i -> 0 <= _sibling i.
Proof.
  unfold _sibling. intros H. destruct (Z.eqb_spec (i mod 2) 0); [lia|]. enough (i <> 0) by lia. by intros ->.
Qed.

Section Tree.
Context (poseidon : list Z -> Z).

Abbreviation hash2 := (hash2 poseidon).
Abbreviation _node := (_node poseidon).
Abbreviation climb := (climb poseidon).
Abbreviation merkle_path := (merkle_path poseidon).
Abbreviation rehashed := (rehashed poseidon).

(** ** The full tree *)

(** The leaf at an index; past the last one, the empty value. *)
Definition leaf_at (l : list Z) (i : Z) : Z := default 0 (l !! Z.to_nat i).

Fixpoint node_hash (l : list Z) (level : nat) (i : Z) : Z :=
  match level with
  | O => leaf_at l i
  | S level => hash2 (node_hash l level (2 * i)) (node_hash l level (2 * i + 1))
  end.

Definition tree_root (l : list Z) : Z := node_hash l TREE_DEPTH 0.

Lemma node_hash_pair l level i : node_hash l (S level) (i / 2)
  = if i mod 2 =? 0 then hash2 (node_hash l level i) (node_hash l level (_sibling i))
    else hash2 (node_hash l level (_sibling i)) (node_hash l level i).
Proof.
  cbn [node_hash]. unfold _sibling. pose proof (Z.div_mod i 2 ltac:(lia)) as H.
  pose proof (Z.mod_pos_bound i 2 ltac:(lia)). destruct (Z.eqb_spec (i mod 2) 0) as [E|E].
  - by replace (2 * (i / 2)) with i by lia.
  - replace (i mod 2) with 1 in H by lia. replace (2 * (i / 2) + 1) with i by lia. by replace (2 * (i / 2)) with (i - 1) by lia.
Qed.

(** Two lists of leaves that differ at [j] only. *)
Definition but (j : Z) (l l' : list Z) : Prop := forall k, 0 <= k -> k <> j -> leaf_at l' k = leaf_at l k.

Lemma node_hash_but j l l' level i : but j l l' -> 0 <= i -> i <> anc level j -> node_hash l' level i = node_hash l level i.
Proof.
  intros H. revert i. induction level as [|level IH]; intros i Hi Hne; cbn [node_hash]; [by apply H|].
  assert (Hanc : anc (S level) j = anc level j / 2) by reflexivity. rewrite Hanc in Hne.
  rewrite !IH; [done|lia| |lia|]; intros E; apply Hne; rewrite <- E.
  - rewrite Z.mul_comm, Z.div_add_l by lia. change (1 / 2) with 0. lia.
  - rewrite Z.mul_comm, Z.div_mul by lia. done.
Qed.

Lemma but_insert j l v : 0 <= j -> but j l (<[Z.to_nat j := v]> l).
Proof. intros Hj k Hk Hne. unfold leaf_at. rewrite list_lookup_insert_ne; [done|]. lia. Qed.

Lemma but_snoc l v : but (Z.of_nat (length l)) l (l ++ [v]).
Proof.
  intros k Hk Hne. unfold leaf_at. destruct (decide (k < Z.of_nat (length l))).
  - by rewrite lookup_app_l by lia.
  - rewrite !lookup_ge_None_2; [done|lia|]. rewrite length_app. cbn. lia.
Qed.

Lemma zeros_from_lookup n level z : (level < n)%nat ->
  zeros_from poseidon n z !! level = Some (Nat.iter level (fun z => hash2 z z) z).
Proof.
  revert level z. induction n as [|n IH]; intros level z H; [lia|]. destruct level as [|level]; [done|].
  cbn [zeros_from lookup list_lookup]. rewrite Nat.iter_succ_r. apply IH. lia.
Qed.

Lemma node_hash_empty level i : node_hash [] level i = Nat.iter level (fun z => hash2 z z) 0.
Proof. revert i. induction level as [|level IH]; intros i; cbn [node_hash Nat.iter]; [done|]. by rewrite !IH. Qed.

(** ** The stored nodes *)

Lemma node_insert_ne level i k v nodes : k <> (level, i) -> _node level i (<[k := v]> nodes) = _node level i nodes.
Proof. intros H. unfold Credits._node. by rewrite lookup_insert_ne. Qed.

(** The walk to the root writes the ancestors of a leaf and nothing else. *)
Lemma climb_spec l levels level index nodes :
  (forall k, (k < levels)%nat ->
     _node (level + k) (_sibling (anc k index)) nodes = node_hash l (level + k) (_sibling (anc k index))) ->
  let '(nodes', root) := climb levels level index (node_hash l level index) nodes in
  (forall k, (0 < k <= levels)%nat -> nodes' !! ((level + k)%nat, anc k index) = Some (node_hash l (level + k) (anc k index)))
  /\ (forall key, (forall k, (0 < k <= levels)%nat -> key <> ((level + k)%nat, anc k index)) -> nodes' !! key = nodes !! key)
  /\ root = node_hash l (level + levels) (anc levels index).
Proof.
  revert level index nodes. induction levels as [|levels IH]; intros level index nodes Hs.
  - cbn [Credits.climb]. rewrite Nat.add_0_r. split_and!; [lia|done|done].
  - cbn [Credits.climb]. pose proof (Hs 0%nat ltac:(lia)) as H0. rewrite Nat.add_0_r in H0. change (anc 0 index) with index in H0. rewrite H0.
    rewrite <- node_hash_pair.
    specialize (IH (S level) (index / 2) (<[(S level, index / 2) := node_hash l (S level) (index / 2)]> nodes)).
    destruct (Credits.climb _ _ _ _ _ _) as [nodes' root]. destruct IH as (H1 & H2 & H3).
    { intros k Hk. rewrite node_insert_ne.
      - rewrite <- anc_S. replace (S level + k)%nat with (level + S k)%nat by lia. apply Hs. lia.
      - intros E. injection E as E1 E2. destruct k as [|k]; [|lia]. change (anc 0 (index / 2)) with (index / 2) in E2. by apply (sibling_ne (index / 2)). }
    split_and!.
    + intros k Hk. destruct k as [|k]; [lia|]. rewrite anc_S. replace (level + S k)%nat with (S level + k)%nat by lia.
      destruct k as [|k]; [|apply H1; lia]. rewrite Nat.add_0_r. change (anc 0 (index / 2)) with (index / 2). rewrite H2; [apply lookup_insert_eq|].
      intros k Hk'. intros E. injection E as E1 _. lia.
    + intros key Hkey. rewrite H2.
      * rewrite lookup_insert_ne; [done|]. intros <-. apply (Hkey 1%nat); [lia|]. by rewrite Nat.add_1_r.
      * intros k Hk ->. apply (Hkey (S k)); [lia|]. rewrite anc_S. f_equal. lia.
    + rewrite H3, anc_S. f_equal. lia.
Qed.

(** The invariant: the nodes are those of the full tree, and so is the root. *)
Record tree_ok (t : Tree) : Prop := {
  tk_nodes : forall level i, (level < TREE_DEPTH)%nat -> 0 <= i -> _node level i (treeNodes t) = node_hash (leaves t) level i;
  tk_root : merkleRoot t = tree_root (leaves t);
}.

Lemma node_stored level i v nodes : nodes !! (level, i) = Some v -> v <> 0 -> _node level i nodes = v.
Proof. intros H Hv. unfold Credits._node. rewrite H. cbn [default from_option id]. by rewrite (proj2 (Z.eqb_neq _ _) Hv). Qed.

Lemma node_leaf i v nodes : nodes !! (0%nat, i) = Some v -> _node 0 i nodes = v.
Proof.
  intros H. unfold Credits._node. rewrite H. cbn [default from_option id]. destruct (Z.eqb_spec v 0) as [-> |]; [|done].
  unfold zeros. rewrite zeros_from_lookup; [done|]. unfold TREE_DEPTH. lia.
Qed.

(** The contract reads a stored 0 as an empty node. No node above the leaves hashed to it. *)
Definition nodes_nonzero (t : Tree) : Prop := map_Forall (fun key v => (0 < key.1)%nat -> v <> 0) (treeNodes t).

#[export] Instance nodes_nonzero_dec t : Decision (nodes_nonzero t).
Proof. unfold nodes_nonzero. apply _. Defined.

Lemma nodes_nonzero_at t level i v : nodes_nonzero t -> treeNodes t !! (level, i) = Some v -> (0 < level)%nat -> v <> 0.
Proof. intros H Hl. exact (H (level, i) v Hl). Qed.

Lemma node_same level i nodes nodes' : nodes' !! (level, i) = nodes !! (level, i) -> _node level i nodes' = _node level i nodes.
Proof. unfold Credits._node. by intros ->. Qed.

#[local] Transparent Credits.rehashed.

(** Writing one leaf keeps the tree: [l0] is what the leaves were. *)
Lemma rehashed_ok j leaf l0 t : 0 <= j < 2 ^ Z.of_nat TREE_DEPTH ->
  (forall level i, (level < TREE_DEPTH)%nat -> 0 <= i -> _node level i (treeNodes t) = node_hash l0 level i) ->
  but j l0 (leaves t) -> leaf_at (leaves t) j = leaf -> nodes_nonzero (rehashed j leaf t) ->
  tree_ok (rehashed j leaf t) /\ treeNodes (rehashed j leaf t) !! (TREE_DEPTH, 0) = Some (merkleRoot (rehashed j leaf t)).
Proof.
  intros Hj Ht Hbut Hleaf. unfold Credits.rehashed. set (nodes0 := <[(0%nat, j) := leaf]> (treeNodes t)).
  assert (Hsame : forall level i, (level < TREE_DEPTH)%nat -> 0 <= i -> i <> anc level j ->
    _node level i nodes0 = node_hash (leaves t) level i).
  { intros level i Hl Hi Hne. unfold nodes0. rewrite node_insert_ne, Ht, (node_hash_but j l0 (leaves t)) by done || (intros E; injection E as <- <-; by apply Hne).
    done. }
  pose proof (climb_spec (leaves t) TREE_DEPTH 0 j nodes0) as Hclimb. cbn [node_hash] in Hclimb. rewrite Hleaf in Hclimb.
  destruct (Credits.climb _ _ _ _ _ _) as [nodes root]. destruct Hclimb as (H1 & H2 & H3).
  { intros k Hk. apply Hsame; [lia| |apply sibling_ne]. apply sibling_nonneg, anc_nonneg. lia. }
  intros Hnz. split; [split|]; cbn [treeNodes leaves merkleRoot].
  - intros level i Hl Hi. destruct (decide (i = anc level j)) as [-> |Hne].
    + destruct level as [|level].
      * change (anc 0 j) with j. cbn [node_hash]. rewrite Hleaf. apply node_leaf. rewrite H2; [apply lookup_insert_eq|].
        intros k Hk E. injection E as E _. lia.
      * assert (Hst : nodes !! (S level, anc (S level) j) = Some (node_hash (leaves t) (S level) (anc (S level) j)))
             by (apply (H1 (S level)); lia).
           apply node_stored; [exact Hst|]. exact (nodes_nonzero_at _ _ _ _ Hnz Hst ltac:(lia)).
    + rewrite (node_same level i nodes0 nodes); [by apply Hsame|]. apply H2. intros k Hk E. injection E as -> ->. by apply Hne.
  - rewrite H3. unfold tree_root. cbn [Nat.add]. rewrite anc_div by lia. by rewrite Z.div_small.
  - rewrite H3. pose proof (H1 TREE_DEPTH ltac:(unfold TREE_DEPTH; lia)) as H. cbn [Nat.add] in H.
    rewrite anc_div, Z.div_small in H by lia. rewrite anc_div, Z.div_small by lia. exact H.
Qed.

(** What holds of a tree without a zero node: its nodes are right, and its root is stored
    once it has a leaf. *)
Definition tree_right (t : Tree) : Prop :=
  tree_ok t /\ (leaves t = [] \/ treeNodes t !! (TREE_DEPTH, 0) = Some (merkleRoot t)).

Lemma appended_ok leaf t : tree_ok t -> Z.of_nat (length (leaves t)) < 2 ^ Z.of_nat TREE_DEPTH ->
  nodes_nonzero (appended poseidon leaf t) -> tree_right (appended poseidon leaf t).
Proof.
  intros [Hn _] Hl Hnz. unfold appended in *. destruct (rehashed_ok (Z.of_nat (length (leaves t))) leaf (leaves t)
    (with_leaves (leaves t ++ [leaf]) t)) as [H1 H2]; [lia|exact Hn|apply but_snoc| |exact Hnz|by split; [|right]].
  unfold leaf_at. cbn [leaves with_leaves]. by rewrite Nat2Z.id, lookup_app_r, Nat.sub_diag by lia.
Qed.

Lemma removed_ok i t : tree_ok t -> 0 <= i < Z.of_nat (length (leaves t)) -> Z.of_nat (length (leaves t)) <= 2 ^ Z.of_nat TREE_DEPTH ->
  nodes_nonzero (removed poseidon i t) -> tree_right (removed poseidon i t).
Proof.
  intros [Hn _] Hi Hl Hnz. unfold removed in *. destruct (rehashed_ok i 0 (leaves t) (with_leaves (<[Z.to_nat i := 0]> (leaves t)) t))
    as [H1 H2]; [lia|exact Hn|apply but_insert; lia| |exact Hnz|by split; [|right]].
  unfold leaf_at. cbn [leaves with_leaves]. rewrite list_lookup_insert_eq by lia. done.
Qed.

(** ** Proofs of membership *)

(** The root a path leads to, the way [MerkleTreeChecker] hashes it. *)
Fixpoint path_root (current : Z) (path : list (Z * Z)) : Z :=
  match path with
  | [] => current
  | (sibling, side) :: path => path_root (if side =? 0 then hash2 current sibling else hash2 sibling current) path
  end.

Lemma merkle_path_root l nodes levels level i : 0 <= i ->
  (forall k j, (k < level + levels)%nat -> 0 <= j -> _node k j nodes = node_hash l k j) ->
  path_root (node_hash l level i) (merkle_path levels level i nodes) = node_hash l (level + levels) (anc levels i).
Proof.
  revert level i. induction levels as [|levels IH]; intros level i Hi Hn; cbn [Credits.merkle_path path_root].
  - by rewrite Nat.add_0_r.
  - rewrite Hn by (lia || by apply sibling_nonneg). rewrite <- node_hash_pair, IH.
    + rewrite anc_S. f_equal. lia.
    + apply Z.div_pos; lia.
    + intros k j Hk. apply Hn. lia.
Qed.

Lemma merkle_path_length levels level i nodes : length (merkle_path levels level i nodes) = levels.
Proof. revert level i. induction levels as [|levels IH]; intros level i; cbn [Credits.merkle_path length]; [done|]. by rewrite IH. Qed.

Lemma merkle_path_sides levels level i nodes : Forall (fun x => x.2 = 0 \/ x.2 = 1) (merkle_path levels level i nodes).
Proof.
  revert level i. induction levels as [|levels IH]; intros level i; cbn [Credits.merkle_path]; constructor; [|apply IH].
  cbn [snd]. pose proof (Z.mod_pos_bound i 2 ltac:(lia)). lia.
Qed.

Lemma path_leads_to_root t i : tree_ok t -> 0 <= i < 2 ^ Z.of_nat TREE_DEPTH ->
  path_root (leaf_at (leaves t) i) (merkle_path TREE_DEPTH 0 i (treeNodes t)) = merkleRoot t.
Proof.
  intros [Hn Hr] Hi. change (leaf_at (leaves t) i) with (node_hash (leaves t) 0 i).
  rewrite merkle_path_root; [|lia|exact Hn]. cbn [Nat.add]. rewrite Hr. unfold tree_root. rewrite anc_div by lia.
  rewrite Z.div_small by exact Hi. exact eq_refl.
Qed.
End Tree.

(** ** Over any transactions *)

(** The roots pushed, the last first. *)
Fixpoint pushed_roots (l : list Event) : list Z :=
  match l with
  | [] => []
  | e :: l => pushed_roots l ++ match e with MerkleRootUpdated root _ => [root] | _ => [] end
  end.

Lemma pushed_roots_app l1 l2 : pushed_roots (l1 ++ l2) = pushed_roots l2 ++ pushed_roots l1.
Proof. induction l1 as [|e l1 IH]; cbn [app pushed_roots]; [by rewrite app_nil_r|]. by rewrite IH, app_assoc. Qed.

Lemma pushed_roots_quiet l l' : quiet l l' -> pushed_roots l' = pushed_roots l.
Proof.
  intros (more & -> & H). rewrite pushed_roots_app. enough (pushed_roots more = []) as -> by done.
  induction H as [|e more He _ IH]; cbn [pushed_roots]; [done|]. rewrite IH. by destruct e.
Qed.

(** The ring holds the last roots, the newest at the current index, backwards from it. *)
Record ring_ok (t : Tree) (history : list Z) : Prop := {
  rg_index : 0 <= currentRootIndex t < ROOT_HISTORY_SIZE;
  rg_length : length (roots t) = Z.to_nat ROOT_HISTORY_SIZE;
  rg_roots : forall i, 0 <= i < ROOT_HISTORY_SIZE ->
    roots t !! Z.to_nat ((currentRootIndex t - i) mod ROOT_HISTORY_SIZE) = Some (default 0 (history !! Z.to_nat i));
  rg_last : head history = Some (merkleRoot t);
}.

Lemma ring_push poseidon index leaf t history : ring_ok t history ->
  ring_ok (rehashed poseidon index leaf t) (merkleRoot (rehashed poseidon index leaf t) :: history).
Proof.
  intros [Hi Hl Hr _]. destruct (rehashed_ring poseidon index leaf t) as [Ec Er].
  set (t' := rehashed poseidon index leaf t) in *. set (root := merkleRoot t') in *.
  unfold ROOT_HISTORY_SIZE in *. set (i := currentRootIndex t) in *.
  split; unfold ROOT_HISTORY_SIZE; rewrite ?Ec, ?Er; [pose proof (Z.mod_pos_bound (i + 1) 30); lia|by rewrite length_insert| |done].
  intros k Hk. destruct (decide (k = 0)) as [-> |Hne].
  - rewrite Z.sub_0_r, Z.mod_mod by lia. rewrite list_lookup_insert_eq; [done|]. rewrite Hl.
    pose proof (Z.mod_pos_bound (i + 1) 30). lia.
  - assert (E : ((i + 1) mod 30 - k) mod 30 = (i - (k - 1)) mod 30).
    { rewrite Zminus_mod_idemp_l. f_equal. lia. }
    rewrite E. rewrite list_lookup_insert_ne.
    + rewrite Hr by lia. replace (Z.to_nat k) with (S (Z.to_nat (k - 1))) by lia. done.
    + pose proof (Z.mod_pos_bound (i + 1) 30). pose proof (Z.mod_pos_bound (i - (k - 1)) 30).
      assert ((i + 1) mod 30 <> (i - (k - 1)) mod 30); [|lia]. Z.to_euclidean_division_equations. lia.
Qed.

Section Reachable.
Context (poseidon : list Z -> Z) (keccak256 : list byte -> Z).
Context (verifies : Z -> list Z -> list Z -> option bool).
Context (chainid this C_MAX SLASH_BOUNTY : Z).
Context (Hmax : 0 <= C_MAX).

Abbreviation guarded := (guarded poseidon keccak256 verifies chainid this C_MAX SLASH_BOUNTY).
Abbreviation transact := (transact poseidon keccak256 verifies chainid this C_MAX SLASH_BOUNTY).
Abbreviation act := (act poseidon keccak256 verifies chainid this C_MAX SLASH_BOUNTY).
Abbreviation run := (run poseidon keccak256 verifies chainid this C_MAX SLASH_BOUNTY).
Abbreviation reachable := (reachable poseidon keccak256 verifies chainid this C_MAX SLASH_BOUNTY).
Abbreviation sound := (sound poseidon).
Abbreviation removed := (removed poseidon).
Abbreviation appended := (appended poseidon).

(** How a transaction changes the tree and its events: not at all, or by one leaf with its root. *)
Inductive grown (t : Tree) (history : list Z) : Tree -> list Z -> Prop :=
| grown_not : grown t history t history
| grown_leaf leaf : Z.of_nat (length (leaves t)) <> 2 ^ Z.of_nat TREE_DEPTH ->
    grown t history (appended leaf t) (merkleRoot (appended leaf t) :: history)
| grown_removed i : 0 <= i < Z.of_nat (length (leaves t)) ->
    grown t history (removed i t) (merkleRoot (removed i t) :: history).

Lemma active_leaf x b t f c n : sound x b t f -> notes b !! c = Some n -> status n = Active ->
  0 <= leafIndex n < Z.of_nat (length (leaves t)).
Proof.
  intros Hs Hc Ha. destruct (ns_leaf _ _ _ _ _ (sd_notes _ _ _ _ _ Hs c n Hc) Ha) as [Hl Hp].
  apply lookup_lt_Some in Hl. lia.
Qed.

Lemma guarded_grown x f m cb g s s' : guarded m cb g s = Returns (s', tt) -> sound x (book s) (tree s) f ->
  grown (tree s) (pushed_roots (events s)) (tree s') (pushed_roots (events s')).
Proof.
  intros H Hs.
  assert (Hat : forall c, status (note_at c s) = Active -> 0 <= leafIndex (note_at c s) < Z.of_nat (length (leaves (tree s)))).
  { intros c Ha. apply (active_leaf x (book s) (tree s) f c); [exact Hs| |exact Ha]. apply note_at_some. congruence. }
  destruct g as [c0|c0 to key proof n y p|c0|k|c0|]; cbn [Credits.guarded] in H.
  - apply deposit_ok in H as (_ & _ & _ & _ & Hl & elapsed & ->). cbn [tree events logged pushed with_tree with_book].
    rewrite !pushed_roots_app. by constructor.
  - apply initiate_ok in H as (_ & Ha & _ & _ & _ & ->). cbn [tree events logged pushed with_tree with_book].
    rewrite !pushed_roots_app. constructor. by apply Hat.
  - apply finalize_ok in H as (_ & _ & _ & _ & s1 & (_ & Ht & _ & _ & Hq) & ->). cbn [tree events logged].
    rewrite Ht, pushed_roots_app, (pushed_roots_quiet _ _ Hq). constructor.
  - apply slash_ok in H as (_ & _ & s0 & s1 & _ & Ht0 & _ & _ & _ & He0 & (_ & Ht & _ & _ & Hq) & ->).
    cbn [tree events logged with_balance] in *. rewrite Ht, pushed_roots_app, (pushed_roots_quiet _ _ Hq), Ht0, He0.
    destruct (bool_decide _) eqn:Ha; rewrite pushed_roots_app; [|constructor].
    apply bool_decide_eq_true in Ha. constructor. by apply Hat.
  - apply claim_ok in H as (_ & Ha & ->). cbn [tree events logged pushed with_tree with_book].
    rewrite !pushed_roots_app. constructor. by apply Hat.
  - apply withdraw_ok in H as (_ & s1 & (_ & Ht & _ & _ & Hq) & ->). cbn [tree events logged].
    rewrite Ht, pushed_roots_app, (pushed_roots_quiet _ _ Hq). constructor.
Qed.

Definition tree_inv (s : State) : Prop :=
  Z.of_nat (length (leaves (tree s))) <= 2 ^ Z.of_nat TREE_DEPTH /\ ring_ok (tree s) (pushed_roots (events s)).

Lemma grown_inv s s' : grown (tree s) (pushed_roots (events s)) (tree s') (pushed_roots (events s')) -> tree_inv s -> tree_inv s'.
Proof.
  unfold tree_inv. generalize (pushed_roots (events s')) as h'. generalize (pushed_roots (events s)) as h. generalize (tree s') as t'.
  intros t' h h' H (Hl & Hr). destruct H as [|leaf Hlen|i Hi]; [done| |]; (split; [|apply ring_push; destruct Hr; by split]).
  - rewrite appended_leaves, length_app. cbn [length]. lia.
  - by rewrite removed_leaves, length_insert.
Qed.

Lemma grown_right t h t' h' : grown t h t' h' -> Z.of_nat (length (leaves t)) <= 2 ^ Z.of_nat TREE_DEPTH ->
  tree_right poseidon t -> nodes_nonzero t' -> tree_right poseidon t'.
Proof.
  intros [|leaf Hlen|i Hi] Hl Ht Hnz; [exact Ht| |].
  - apply appended_ok; [apply Ht|lia|exact Hnz].
  - apply removed_ok; [apply Ht|exact Hi|exact Hl|exact Hnz].
Qed.

Lemma act_grown x s a : sound x (book s) (tree s) (balance s) ->
  grown (tree s) (pushed_roots (events s)) (tree (act s a)) (pushed_roots (events (act s a))).
Proof.
  intros Hs. destruct a as [m cb c|v]; cbn [Credits.act]; [|constructor].
  destruct (transact m cb c s) as [[s' []]|r] eqn:E; [|constructor]. apply transact_ok in E as (_ & _ & E). destruct c as [g|a].
  - destruct E as (_ & s1 & H & ->). exact (guarded_grown x (balance s) _ _ _ _ _ H Hs).
  - apply govern_ok in E as (_ & Ht & _ & _ & Hq). rewrite Ht, (pushed_roots_quiet _ _ Hq). constructor.
Qed.

Lemma act_inv x s a : sound x (book s) (tree s) (balance s) -> tree_inv s -> tree_inv (act s a).
Proof. intros Hs. by apply grown_inv, (act_grown x). Qed.

Lemma run_inv x s l : sound x (book s) (tree s) (balance s) -> entered s = false -> tree_inv s -> tree_inv (run l s).
Proof.
  revert x s. induction l as [|a l IH]; intros x s Hs He Hi; [exact Hi|].
  destruct (act_sound poseidon keccak256 verifies chainid this C_MAX SLASH_BOUNTY Hmax x s a Hs He) as [Hs' He'].
  apply (IH _ (act s a) Hs' He'). by apply (act_inv x).
Qed.

Lemma constructor_tree m server keyx keyy verifier s : constructor poseidon keccak256 m server keyx keyy verifier = Returns s ->
  tree s = {| leaves := []; treeNodes := ∅; merkleRoot := empty_root poseidon;
              roots := <[1%nat := empty_root poseidon]> (replicate (Z.to_nat ROOT_HISTORY_SIZE) 0); currentRootIndex := 1 |}
  /\ pushed_roots (events s) = [merkleRoot (tree s)].
Proof. unfold constructor. destruct (server =? 0); [discriminate|]. intros H. by injection H as <-. Qed.

Lemma constructor_right m server keyx keyy verifier s : constructor poseidon keccak256 m server keyx keyy verifier = Returns s ->
  tree_right poseidon (tree s).
Proof.
  intros [-> _]%constructor_tree. split; [|by left]. split; cbn [leaves treeNodes merkleRoot].
  - intros level i Hl Hi. unfold _node. rewrite lookup_empty. cbn [default from_option id Z.eqb].
    unfold zeros. rewrite zeros_from_lookup by exact Hl. cbn [default from_option id]. by rewrite node_hash_empty.
  - unfold tree_root. by rewrite node_hash_empty.
Qed.

Lemma constructor_inv m server keyx keyy verifier s : constructor poseidon keccak256 m server keyx keyy verifier = Returns s -> tree_inv s.
Proof.
  intros [Ht He]%constructor_tree. unfold tree_inv. rewrite He, Ht. cbn [leaves length]. split; [done|].
  split; cbn [currentRootIndex roots merkleRoot]; unfold ROOT_HISTORY_SIZE; [lia|by rewrite length_insert, length_replicate| |done].
  intros i Hi. destruct (decide (i = 0)) as [-> |Hne].
  - change (Z.to_nat ((1 - 0) mod 30)) with 1%nat. rewrite list_lookup_insert_eq; [done|]. rewrite length_replicate. lia.
  - rewrite list_lookup_insert_ne.
    + rewrite lookup_replicate_2; [|pose proof (Z.mod_pos_bound (1 - i) 30); lia].
      rewrite lookup_ge_None_2; [done|]. cbn [length]. lia.
    + enough ((1 - i) mod 30 <> 1) by (pose proof (Z.mod_pos_bound (1 - i) 30); lia).
      Z.to_euclidean_division_equations. lia.
Qed.

Lemma reachable_inv s : reachable s -> tree_inv s.
Proof.
  intros (m & server & kx & ky & v & s0 & l & H & ->). pose proof (constructor_sound _ _ _ _ _ _ _ _ H) as [Hs He].
  apply (run_inv 0); [exact Hs|exact He|by eapply constructor_inv].
Qed.

(** A contract after any transactions since it was deployed, none of which stored a hash that
    is 0 above the leaves of its tree: with Poseidon, that takes a preimage of 0. *)
Inductive reachable_nonzero : State -> Prop :=
| nonzero_deployed m server keyx keyy verifier s :
    constructor poseidon keccak256 m server keyx keyy verifier = Returns s -> reachable_nonzero s
| nonzero_act s a : reachable_nonzero s -> nodes_nonzero (tree (act s a)) -> reachable_nonzero (act s a).

Lemma run_snoc l a s : run (l ++ [a]) s = act (run l s) a.
Proof. unfold Credits.run. by rewrite fold_left_app. Qed.

Lemma reachable_act s a : reachable s -> reachable (act s a).
Proof. exact (reachable_run _ _ _ _ _ _ _ s [a]). Qed.

Lemma nonzero_reachable s : reachable_nonzero s -> reachable s.
Proof.
  induction 1 as [m server kx ky v s H|s a _ IH _]; [by exists m, server, kx, ky, v, s, []|by apply reachable_act].
Qed.

Lemma nonzero_right s : reachable_nonzero s -> tree_right poseidon (tree s).
Proof.
  induction 1 as [m server kx ky v s H|s a H IH Hnz]; [by eapply constructor_right|].
  apply nonzero_reachable in H.
  destruct (reachable_sound poseidon keccak256 verifies chainid this C_MAX SLASH_BOUNTY Hmax s H) as (x & _ & Hs & _).
  destruct (reachable_inv s H) as [Hl _]. exact (grown_right _ _ _ _ (act_grown x s a Hs) Hl IH Hnz).
Qed.

Lemma getMerkleProof_path i s elements sides : getMerkleProof poseidon i s = Some (elements, sides) ->
  combine elements sides = merkle_path poseidon TREE_DEPTH 0 i (treeNodes (tree s))
  /\ length elements = TREE_DEPTH /\ length sides = TREE_DEPTH.
Proof.
  unfold getMerkleProof. destruct (_ <? _); [|discriminate]. intros H.
  pose proof (split_combine (merkle_path poseidon TREE_DEPTH 0 i (treeNodes (tree s)))) as Hc.
  pose proof (length_fst_split (merkle_path poseidon TREE_DEPTH 0 i (treeNodes (tree s)))) as H1.
  pose proof (length_snd_split (merkle_path poseidon TREE_DEPTH 0 i (treeNodes (tree s)))) as H2.
  rewrite merkle_path_length in H1, H2. destruct (List.split _) as [a b]. injection H as <- <-. split_and!; [by apply Hc|exact H1|exact H2].
Qed.

Lemma active_note_proved s c : reachable_nonzero s -> status (note_at c s) = Active ->
  exists elements sides, getMerkleProof poseidon (leafIndex (note_at c s)) s = Some (elements, sides)
    /\ length elements = TREE_DEPTH /\ length sides = TREE_DEPTH
    /\ path_root poseidon (hash2 poseidon c (amount (note_at c s))) (combine elements sides) = merkleRoot (tree s).
Proof.
  intros Hn Ha. pose proof (nonzero_right s Hn) as [Ht _]. pose proof (nonzero_reachable s Hn) as Hr.
  destruct (reachable_inv s Hr) as (Hlen & _).
  destruct (reachable_sound poseidon keccak256 verifies chainid this C_MAX SLASH_BOUNTY Hmax s Hr) as (x & _ & Hs & _).
  assert (Hc : notes (book s) !! c = Some (note_at c s)) by (apply note_at_some; congruence).
  pose proof (active_leaf _ _ _ _ _ _ Hs Hc Ha) as Hi.
  destruct (ns_leaf _ _ _ _ _ (sd_notes _ _ _ _ _ Hs c _ Hc) Ha) as [Hl _].
  destruct (getMerkleProof poseidon (leafIndex (note_at c s)) s) as [[elements sides]|] eqn:E.
  2: { unfold getMerkleProof in E. destruct (Z.ltb_spec (leafIndex (note_at c s)) (Z.of_nat (length (leaves (tree s))))); [discriminate|lia]. }
  exists elements, sides. destruct (getMerkleProof_path _ _ _ _ E) as (-> & H1 & H2). split_and!; [done..|].
  rewrite <- (path_leads_to_root poseidon (tree s) (leafIndex (note_at c s)) Ht) by lia.
  unfold leaf_at. by rewrite Hl.
Qed.

(** Whatever holds of hashes and of 0 holds of the elements of a path. *)
Lemma path_elements (P : Z -> Prop) s c elements sides : P 0 -> (forall a b, P (hash2 poseidon a b)) ->
  reachable_nonzero s -> status (note_at c s) = Active ->
  getMerkleProof poseidon (leafIndex (note_at c s)) s = Some (elements, sides) ->
  Forall P elements /\ Forall (fun s => s = 0 \/ s = 1) sides.
Proof.
  intros H0 Hh Hnz Ha E. pose proof (nonzero_right s Hnz) as [[Hn _] _]. pose proof (nonzero_reachable s Hnz) as Hr.
  destruct (reachable_sound poseidon keccak256 verifies chainid this C_MAX SLASH_BOUNTY Hmax s Hr) as (x & _ & Hs & _).
  assert (Hc : notes (book s) !! c = Some (note_at c s)) by (apply note_at_some; congruence).
  pose proof (active_leaf _ _ _ _ _ _ Hs Hc Ha) as Hi.
  assert (Hleaf : forall i, P (leaf_at (leaves (tree s)) i)).
  { intros i. unfold leaf_at. destruct (leaves (tree s) !! Z.to_nat i) as [v|] eqn:Ev; [|exact H0]. cbn [default from_option id].
    destruct (sd_leaves _ _ _ _ _ Hs _ v Ev) as [-> |(? & ? & _ & _ & _ & ->)]; [exact H0|apply Hh]. }
  assert (Hnode : forall level i, P (node_hash poseidon (leaves (tree s)) level i)) by (intros [|level] i; cbn [node_hash]; auto).
  assert (Hpath : forall levels level i, (levels + level <= TREE_DEPTH)%nat -> 0 <= i ->
            Forall P (List.split (merkle_path poseidon levels level i (treeNodes (tree s)))).1
            /\ Forall (fun s => s = 0 \/ s = 1) (List.split (merkle_path poseidon levels level i (treeNodes (tree s)))).2).
  { induction levels as [|levels IH]; intros level i Hle Hi0; cbn [merkle_path List.split]; [by split|].
    destruct (IH (S level) (i / 2) ltac:(lia) ltac:(apply Z.div_pos; lia)) as [H1 H2].
    destruct (List.split _) as [l1 l2]. cbn [fst snd] in *. split; constructor; [|exact H1| |exact H2].
    - rewrite Hn; [apply Hnode|lia|by apply sibling_nonneg].
    - pose proof (Z.mod_pos_bound i 2 ltac:(lia)). lia. }
  destruct (Hpath TREE_DEPTH 0%nat (leafIndex (note_at c s)) ltac:(lia) ltac:(lia)) as [H1 H2].
  unfold getMerkleProof in E. destruct (_ <? _); [|discriminate].
  destruct (List.split _) as [l1 l2]. cbn [fst snd] in H1, H2. injection E as <- <-. split; assumption.
Qed.

Lemma newest_root_known s c : reachable_nonzero s -> status (note_at c s) = Active -> isKnownRoot (merkleRoot (tree s)) s = true.
Proof.
  intros Hn Ha. pose proof (nonzero_right s Hn) as [_ Hst]. pose proof (nonzero_reachable s Hn) as Hr.
  destruct (reachable_inv s Hr) as (_ & [Hi Hl Hroots Hlast]).
  destruct (reachable_sound poseidon keccak256 verifies chainid this C_MAX SLASH_BOUNTY Hmax s Hr) as (x & _ & Hs & _).
  assert (Hc : notes (book s) !! c = Some (note_at c s)) by (apply note_at_some; congruence).
  pose proof (active_leaf _ _ _ _ _ _ Hs Hc Ha) as Hlf.
  unfold isKnownRoot. apply andb_true_iff. split.
  - apply negb_true_iff, Z.eqb_neq. destruct Hst as [E|Hst]; [rewrite E in Hlf; cbn [length] in Hlf; lia|].
    destruct Hn as [m server kx ky v s H|s a _ Hnz]; [|exact (nodes_nonzero_at _ _ _ _ Hnz Hst ltac:(unfold TREE_DEPTH; lia))].
    apply constructor_tree in H as [H _]. rewrite H in Hlf. cbn [leaves length] in Hlf. lia.
  - apply existsb_exists. exists (merkleRoot (tree s)). rewrite Z.eqb_refl. split; [|done]. apply list_elem_of_In.
    specialize (Hroots 0 ltac:(unfold ROOT_HISTORY_SIZE; lia)). destruct (pushed_roots (events s)) as [|r l]; [discriminate|].
    injection Hlast as ->. by apply list_elem_of_lookup_2 in Hroots.
Qed.

(** C17: the tree is the notes. After any transactions the root is that of the full tree of
    depth 20 over the leaves, whose nodes the contract keeps one path at a time; an active
    note has the leaf of its commitment and deposit, every other leaf is empty, so that a
    note that is leaving or has left can be proved under no later root; and the path the
    contract gives for an active note leads from its leaf to the root. The transactions are any in
    which no hash stored above the leaves was 0, which the contract reads as an empty node. *)
Theorem tree_is_the_notes s : reachable_nonzero s ->
  merkleRoot (tree s) = tree_root poseidon (leaves (tree s))
  /\ (forall i v, leaves (tree s) !! i = Some v -> v = 0 \/ exists c, status (note_at c s) = Active
       /\ Z.to_nat (leafIndex (note_at c s)) = i /\ v = hash2 poseidon c (amount (note_at c s)))
  /\ (forall c, status (note_at c s) = Active -> exists elements sides,
       getMerkleProof poseidon (leafIndex (note_at c s)) s = Some (elements, sides)
       /\ length elements = TREE_DEPTH /\ length sides = TREE_DEPTH
       /\ path_root poseidon (hash2 poseidon c (amount (note_at c s))) (combine elements sides) = merkleRoot (tree s)).
Proof.
  intros Hn. pose proof (nonzero_right s Hn) as [Ht _]. pose proof (nonzero_reachable s Hn) as Hr.
  destruct (reachable_sound poseidon keccak256 verifies chainid this C_MAX SLASH_BOUNTY Hmax s Hr) as (x & _ & Hs & _).
  split_and!; [apply Ht| |].
  - intros i v Hv. destruct (sd_leaves _ _ _ _ _ Hs i v Hv) as [H|(c & n & Hc & Ha & Hi & Hw)]; [by left|right]. exists c.
    unfold note_at. by rewrite Hc.
  - intros c Ha. by apply active_note_proved.
Qed.

Lemma existsb_in r l : existsb (Z.eqb r) l = true <-> r ∈ l.
Proof.
  rewrite existsb_exists, list_elem_of_In. split; [by intros (x & H & ->%Z.eqb_eq)|]. intros H. exists r. by rewrite Z.eqb_refl.
Qed.

(** The ring, read. *)
Lemma known_roots s r : reachable s ->
  isKnownRoot r s = true <-> r <> 0 /\ r ∈ take 30 (pushed_roots (events s)).
Proof.
  intros Hr. destruct (reachable_inv s Hr) as (_ & [Hi Hl Hroots _]).
  unfold isKnownRoot. rewrite andb_true_iff, negb_true_iff, Z.eqb_neq, existsb_in. unfold ROOT_HISTORY_SIZE in *.
  set (i := currentRootIndex (tree s)) in *. split; intros [Hne H]; (split; [exact Hne|]).
  - apply list_elem_of_lookup in H as [k Hk]. pose proof (lookup_lt_Some _ _ _ Hk) as Hlt. rewrite Hl in Hlt.
    specialize (Hroots ((i - Z.of_nat k) mod 30) (Z.mod_pos_bound _ 30 ltac:(lia))).
    assert (E : (i - (i - Z.of_nat k) mod 30) mod 30 = Z.of_nat k).
    { rewrite Zminus_mod_idemp_r. replace (i - (i - Z.of_nat k)) with (Z.of_nat k) by lia. apply Z.mod_small. lia. }
    rewrite E, Nat2Z.id, Hk in Hroots. injection Hroots as Hroots.
    pose proof (Z.mod_pos_bound (i - Z.of_nat k) 30 ltac:(lia)) as Hb.
    destruct (pushed_roots (events s) !! Z.to_nat ((i - Z.of_nat k) mod 30)) as [v|] eqn:Ev; [|done]. cbn in Hroots. subst v.
    apply list_elem_of_lookup. exists (Z.to_nat ((i - Z.of_nat k) mod 30)). rewrite lookup_take_lt by lia. exact Ev.
  - apply list_elem_of_lookup in H as [k Hk]. apply lookup_take_Some in Hk as [Hk Hlt].
    specialize (Hroots (Z.of_nat k) ltac:(lia)). rewrite Nat2Z.id, Hk in Hroots. cbn in Hroots.
    by apply list_elem_of_lookup_2 in Hroots.
Qed.

(** C30: the roots a request may use are the last thirty. After any transactions
    [isKnownRoot] accepts exactly the roots among the last thirty pushed, one per deposit
    and per note that left the tree: it counts updates, not time. *)
Theorem known_roots_are_the_last_thirty s r : reachable s ->
  isKnownRoot r s = true <-> r <> 0 /\ r ∈ take 30 (pushed_roots (events s)).
Proof. apply known_roots. Qed.
End Reachable.
