(* ===== verification/CreditsMembership.v ===== *)
(** * Membership in the tree of the contract

    What a path to a known root proves: a root the contract knows is that of one of its
    recent states, and whoever has a path from a leaf to it has the leaf of a note that was
    active in that state, or two inputs of one hash, one of them hashed by the contract. *)

From S2P Require Import Prelude Credits CreditsLedger CreditsTree.
Open Scope Z_scope.

Section Membership.
Context (poseidon : list Z -> Z) (keccak256 : list byte -> Z).
Context (verifies : Z -> list Z -> list Z -> option bool).
Context (chainid this C_MAX SLASH_BOUNTY : Z) (Hmax : 0 <= C_MAX).

Abbreviation hash2 := (hash2 poseidon).
Abbreviation node_hash := (node_hash poseidon).
Abbreviation path_root := (path_root poseidon).
Abbreviation act := (act poseidon keccak256 verifies chainid this C_MAX SLASH_BOUNTY).
Abbreviation run := (run poseidon keccak256 verifies chainid this C_MAX SLASH_BOUNTY).
Abbreviation reachable_nonzero := (reachable_nonzero poseidon keccak256 verifies chainid this C_MAX SLASH_BOUNTY).

(** ** The states behind the known roots *)

Lemma grown_pushed t h t' h' : grown poseidon t h t' h' -> h' = h \/ exists r, h' = r :: h.
Proof. intros []; [by left|right; by eexists..]. Qed.

(** [s1] is a past state of [s], when [n] fewer roots had been pushed. *)
Definition past (s : State) (n : nat) (s1 : State) : Prop :=
  reachable_nonzero s1 /\ (exists l, s = run l s1) /\ pushed_roots (events s1) = drop n (pushed_roots (events s)).

Lemma past_self s : reachable_nonzero s -> past s 0 s.
Proof. intros H. split; [exact H|]. split; [by exists []|]. by rewrite drop_0. Qed.

Lemma past_act s a n k s1 : past s k s1 -> drop k (pushed_roots (events s)) = drop n (pushed_roots (events (act s a))) ->
  past (act s a) n s1.
Proof.
  intros (H1 & (l & E) & H2) Hd. split; [exact H1|]. split; [|by rewrite H2].
  exists (l ++ [a]). by rewrite run_snoc, <- E.
Qed.

(** Each root pushed is that of a past state, which had pushed the roots before it. *)
Lemma root_of_past_state s n : reachable_nonzero s -> (n < length (pushed_roots (events s)))%nat -> exists s1, past s n s1.
Proof.
  intros H. revert n. induction H as [m server kx ky v s H|s a Hr IH Hnz]; intros n Hn.
  - pose proof (constructor_tree _ _ _ _ _ _ _ _ H) as [_ E]. destruct n as [|n]; [|rewrite E in Hn; cbn [length] in Hn; lia].
    eexists. apply past_self. by eapply nonzero_deployed.
  - destruct n as [|n]; [eexists; by apply past_self, nonzero_act|].
    destruct (reachable_sound _ _ _ _ _ _ _ Hmax s (nonzero_reachable _ _ _ _ _ _ _ s Hr)) as (x & _ & Hs & _).
    assert (Hd : exists k, (k < length (pushed_roots (events s)))%nat
              /\ drop k (pushed_roots (events s)) = drop (S n) (pushed_roots (events (act s a)))).
    { destruct (grown_pushed _ _ _ _ (act_grown poseidon keccak256 verifies chainid this C_MAX SLASH_BOUNTY x s a Hs)) as [E|(r & E)];
        rewrite E in Hn |- *; [by exists (S n)|]. exists n. cbn [length] in Hn. split; [lia|done]. }
    destruct Hd as (k & Hk & Hd). destruct (IH k Hk) as (s1 & Hp). exists s1. by apply (past_act s a (S n) k).
Qed.

(** A known root is that of a state at most 29 updates back. *)
Lemma known_root_state s r : reachable_nonzero s -> isKnownRoot r s = true ->
  exists s0 l, reachable_nonzero s0 /\ s = run l s0 /\ merkleRoot (tree s0) = r
    /\ (length (pushed_roots (events s)) < length (pushed_roots (events s0)) + 30)%nat.
Proof.
  intros Hr Hk. apply (known_roots poseidon keccak256 verifies chainid this C_MAX SLASH_BOUNTY Hmax) in Hk as [_ Hk];
    [|by apply nonzero_reachable].
  apply list_elem_of_lookup in Hk as [n Hn]. apply lookup_take_Some in Hn as [Hn Hlt].
  destruct (root_of_past_state s n Hr (lookup_lt_Some _ _ _ Hn)) as (s0 & Hr0 & (l & E) & Ep).
  exists s0, l. split; [exact Hr0|]. split; [exact E|].
  destruct (reachable_inv poseidon keccak256 verifies chainid this C_MAX SLASH_BOUNTY Hmax s0 (nonzero_reachable _ _ _ _ _ _ _ s0 Hr0))
    as (_ & [_ _ _ Hlast]).
  rewrite Ep in Hlast |- *. rewrite (drop_S _ _ _ Hn) in Hlast. injection Hlast as Hlast. split; [by symmetry|].
  rewrite length_drop. lia.
Qed.

(** ** Paths *)

(** The pairs a path hashes, from the leaf up. *)
Fixpoint path_pairs (current : Z) (path : list (Z * Z)) : list (Z * Z) :=
  match path with
  | [] => []
  | (sibling, side) :: path =>
      let pair := if side =? 0 then (current, sibling) else (sibling, current) in
      pair :: path_pairs (hash2 pair.1 pair.2) path
  end.

(** The pairs the contract hashed for its tree: the children of its nodes, and the
    commitment and deposit of each leaf. *)
Inductive hashed (s : State) : Z * Z -> Prop :=
| hashed_node level i : (level < TREE_DEPTH)%nat -> 0 <= i ->
    hashed s (node_hash (leaves (tree s)) level (2 * i), node_hash (leaves (tree s)) level (2 * i + 1))
| hashed_leaf c : status (note_at c s) = Active -> hashed s (c, amount (note_at c s)).

(** One of [pairs] and another pair, hashed by the contract, have one hash. *)
Definition collision (s : State) (pairs : list (Z * Z)) : Prop :=
  exists p q, p ∈ pairs /\ hashed s q /\ p <> q /\ hash2 p.1 p.2 = hash2 q.1 q.2.

Lemma collision_cons s p pairs : collision s pairs -> collision s (p :: pairs).
Proof. intros (p' & q & Hp & H). exists p', q. split; [by right|exact H]. Qed.

(** A path to a node of the tree starts from a leaf of it. *)
Lemma path_from_leaf s path leaf level i :
  path_root leaf path = node_hash (leaves (tree s)) (level + length path) i -> (level + length path <= TREE_DEPTH)%nat -> 0 <= i ->
  (exists j, 0 <= j /\ leaf = node_hash (leaves (tree s)) level j) \/ collision s (path_pairs leaf path).
Proof.
  revert leaf level. induction path as [|[e side] path IH]; intros leaf level H Hle Hi; cbn [CreditsTree.path_root path_pairs length] in *.
  - left. exists i. rewrite Nat.add_0_r in H. by split.
  - set (pair := if side =? 0 then (leaf, e) else (e, leaf)).
    replace (if side =? 0 then hash2 leaf e else hash2 e leaf) with (hash2 pair.1 pair.2) in H by (unfold pair; by destruct (side =? 0)).
    replace (level + S (length path))%nat with (S level + length path)%nat in H, Hle by lia.
    destruct (IH (hash2 pair.1 pair.2) (S level) H Hle Hi) as [(j & Hj & E)|Hc]; [|right; by apply collision_cons].
    cbn [CreditsTree.node_hash] in E.
    destruct (decide (pair = (node_hash (leaves (tree s)) level (2 * j), node_hash (leaves (tree s)) level (2 * j + 1)))) as [Ep|Hne].
    + left. unfold pair in Ep. destruct (side =? 0); injection Ep as E1 E2; [exists (2 * j)|exists (2 * j + 1)]; split; assumption || lia.
    + right. eexists pair, _. split; [left|]. split; [apply (hashed_node s level j); lia|]. by split.
Qed.

Lemma path_to_root s path leaf : length path = TREE_DEPTH -> path_root leaf path = tree_root poseidon (leaves (tree s)) ->
  (exists j, leaf = leaf_at (leaves (tree s)) j) \/ collision s (path_pairs leaf path).
Proof.
  unfold tree_root. intros Hl H. rewrite <- Hl in H.
  destruct (path_from_leaf s path leaf 0 0 H) as [(j & _ & E)|Hc]; [rewrite <- Hl; lia|lia| |by right].
  left. by exists j.
Qed.

(** A path from the leaf of a commitment and a deposit to the root: the note was active
    with that deposit, or the leaf is 0, which is also an empty one, or there is a
    collision. *)
Lemma path_from_note s c d path : reachable_nonzero s -> length path = TREE_DEPTH ->
  path_root (hash2 c d) path = merkleRoot (tree s) ->
  status (note_at c s) = Active /\ amount (note_at c s) = d \/ hash2 c d = 0 \/ collision s ((c, d) :: path_pairs (hash2 c d) path).
Proof.
  intros Hr Hl H. destruct (decide (hash2 c d = 0)) as [|Hnz]; [by right; left|].
  pose proof (nonzero_right _ _ _ _ _ _ _ Hmax s Hr) as [Ht _].
  destruct (reachable_sound poseidon keccak256 verifies chainid this C_MAX SLASH_BOUNTY Hmax s (nonzero_reachable _ _ _ _ _ _ _ s Hr))
    as (x & _ & Hs & _).
  rewrite (tk_root _ _ Ht) in H. destruct (path_to_root s path (hash2 c d) Hl H) as [(j & E)|Hc]; [|do 2 right; by apply collision_cons].
  unfold leaf_at in E.
  destruct (leaves (tree s) !! Z.to_nat j) as [v|] eqn:Ev; cbn [default from_option id] in E; [|done].
  destruct (sd_leaves _ _ _ _ _ Hs _ v Ev) as [-> |(c' & n & Hn & Ha & _ & Hv)]; [done|].
  assert (En : note_at c' s = n) by (unfold note_at; by rewrite Hn).
  destruct (decide ((c, d) = (c', amount n))) as [Ep|Hne].
  - left. injection Ep as -> ->. by rewrite En.
  - do 2 right. exists (c, d), (c', amount n). split; [left|]. split; [|by split; [|cbn [fst snd]; congruence]].
    rewrite <- En. apply hashed_leaf. congruence.
Qed.
End Membership.
