(* ===== verification/CreditsFixture.v ===== *)
(** * A contract at work

    A small deployment of [Credits], with toy hashes and a verifier that accepts: the
    theorems on it, and what the ring of roots still accepts after an exit is final. *)

From S2P Require Import Prelude Credits CreditsLedger CreditsHistory CreditsAdmin CreditsTree.
Open Scope Z_scope.

Definition toy_hash (l : list Z) : Z := 1 + fold_left (fun a x => (31 * a + x) mod 1000003) l 7.
Definition toy_keccak (l : list byte) : Z := Z.of_nat (length l).
Definition toy_verifies (verifier : Z) (proof signals : list Z) : option bool := Some true.

(** The chain has the id 1, the contract the address 77, C_MAX and the bounty are 2. *)
Abbreviation toy_run := (run toy_hash toy_keccak toy_verifies 1 77 2 2).
Abbreviation toy_transact := (transact toy_hash toy_keccak toy_verifies 1 77 2 2).

Definition deployment : outcome State :=
  constructor toy_hash toy_keccak {| sender := 1; value := 0; timestamp := 0 |} 5 11 12 99.

Definition deployed : State :=
  {| book := {| notes := ∅; exits := ∅; pausedTimeAtDeposit := ∅; operatorBalance := 0 |};
     tree := {| leaves := []; treeNodes := ∅; merkleRoot := empty_root toy_hash;
                roots := <[1%nat := empty_root toy_hash]> (replicate (Z.to_nat ROOT_HISTORY_SIZE) 0);
                currentRootIndex := 1 |};
     settings := {| owner := 1; serverAddress := 5; serverPublicKey := (11, 12); acceptedRefundKeys := {[64]};
                    settlementVerifier := 99; pendingChanges := fun _ => no_change; paused := false;
                    totalPausedTime := 0; pausedAt := 0 |};
     entered := false; balance := 0; events := [OwnershipTransferred 0 1; MerkleRootUpdated (empty_root toy_hash) 0] |}.

Lemma deployment_ok : deployment = Returns deployed.
Proof. reflexivity. Qed.

Definition no_callback : Callback := ([], true).

Definition user (v t : Z) : Msg := {| sender := 9; value := v; timestamp := t |}.

(** A note of 10 wei under the commitment 42, and its exit with a payout of 6. *)
Definition opening_note : action := Transaction (user 10 100) no_callback (Guarded (Deposit 42)).

Definition toy_exit : guarded_call := InitiateWithdrawal 42 9 (11, 12) (replicate 8 0) 3 4 6.

Definition leaving : action := Transaction (user 0 200) no_callback (Guarded toy_exit).

Definition left : action := Transaction (user 0 (200 + CHALLENGE_WINDOW)) no_callback (Guarded (FinalizeWithdrawal 42)).

Definition opened : State := toy_run [opening_note] deployed.

Lemma toy_reachable l : reachable toy_hash toy_keccak toy_verifies 1 77 2 2 (toy_run l deployed).
Proof. eexists _, 5, 11, 12, 99, deployed, l. split; [exact deployment_ok|reflexivity]. Qed.

Lemma every_wei_is_accounted_witness :
  balance (toy_run [opening_note; leaving; Forced 3; left] deployed) = 4 + 0 + 3.
Proof.
  assert (Hmax : 0 <= 2) by lia.
  destruct (every_wei_is_accounted toy_hash toy_keccak toy_verifies 1 77 2 2 Hmax _ 5 11 12 99 deployed
              [opening_note; leaving; Forced 3; left] deployment_ok) as [H _].
  rewrite H. vm_compute. reflexivity.
Defined.

Lemma note_lifecycle_witness :
  let s := toy_run [opening_note; leaving; left] deployed in
  status (note_at 42 s) = Closed /\ 0 <= paid (about 42 (events s)) <= 10.
Proof.
  assert (Hmax : 0 <= 2) by lia. intros s.
  destruct (note_lifecycle toy_hash toy_keccak toy_verifies 1 77 2 2 Hmax Hmax s 42 (toy_reachable _)) as [_ H].
  split; [vm_compute; reflexivity|]. exact H.
Defined.

Lemma exit_cannot_be_stopped_witness : exists s1,
  toy_transact (user 0 200) no_callback (Guarded toy_exit) opened = Returns (s1, tt)
  /\ let s2 := toy_run [Transaction {| sender := 1; value := 0; timestamp := 300 |} no_callback (Admin Pause)] s1 in
     exists s3, toy_transact (user 0 (200 + CHALLENGE_WINDOW)) no_callback (Guarded (FinalizeWithdrawal 42)) s2 = Returns (s3, tt)
       /\ balance s3 = balance s2 - 6.
Proof.
  assert (Hmax : 0 <= 2) by lia.
  destruct (exit_cannot_be_stopped toy_hash toy_keccak toy_verifies 1 77 2 2 Hmax (user 0 200) no_callback 42 9 (11, 12)
              (replicate 8 0) 3 4 6 opened (toy_reachable _)) as (s1 & H1 & H2).
  - vm_compute. reflexivity.
  - lia.
  - apply (bool_decide_unpack _). vm_compute. exact I.
  - apply Z.leb_le. vm_compute. reflexivity.
  - reflexivity.
  - vm_compute. reflexivity.
  - reflexivity.
  - unfold CHALLENGE_WINDOW. cbn [user timestamp]. lia.
  - exists s1. split; [exact H1|]. intros s2.
    assert (E : toy_transact (user 0 200) no_callback (Guarded toy_exit) opened = Returns (toy_run [leaving] opened, tt))
      by (vm_compute; reflexivity).
    assert (Es : s1 = toy_run [leaving] opened) by (apply (f_equal (fun r => match r with Returns x => x.1 | _ => opened end)) in E;
      unfold toy_exit in E; rewrite H1 in E; exact E).
    destruct (H2 [Transaction {| sender := 1; value := 0; timestamp := 300 |} no_callback (Admin Pause)]) as [Hin|Hf].
    + constructor; [|constructor]. intros [].
    + exfalso. rewrite Es in Hin.
      assert (Hb : existsb (fun e => match e with WithdrawalFinalized _ _ _ => true | _ => false end)
                     (events (toy_run [Transaction {| sender := 1; value := 0; timestamp := 300 |} no_callback (Admin Pause)]
                                (toy_run [leaving] opened))) = false) by (vm_compute; reflexivity).
      apply Bool.not_true_iff_false in Hb. apply Hb. apply existsb_exists. eexists. split; [exact Hin|reflexivity].
    + destruct (Hf (user 0 (200 + CHALLENGE_WINDOW)) no_callback) as (s3 & H3 & _ & H4); [cbn; lia|done|done| |].
      * rewrite Es. apply Z.ltb_lt. vm_compute. reflexivity.
      * exists s3. split; [exact H3|exact H4].
Defined.

(** A refund key proposed at 1000: seven days later it is in force, before that it is not. *)
Definition new_key : action := Transaction {| sender := 1; value := 0; timestamp := 1000 |} no_callback (Admin (ProposeRefundKey 21 22)).
Definition too_soon : action := Transaction {| sender := 1; value := 0; timestamp := 604799 |} no_callback (Admin (ExecuteChange RefundKey)).

Lemma changes_wait_witness : serverPublicKey (settings (toy_run [new_key; too_soon] opened)) = (11, 12).
Proof.
  destruct (changes_wait toy_hash toy_keccak toy_verifies 1 77 2 2 0 [new_key; too_soon] opened) with (t := RefundKey) as [[H|H] _].
  - repeat first [apply Forall_nil_2|apply Forall_cons_2]; cbn; unfold ADMIN_DELAY; lia.
  - exact H.
  - destruct H as [H _]. exfalso. apply H. vm_compute. reflexivity.
Defined.

Lemma opened_nonzero : reachable_nonzero toy_hash toy_keccak toy_verifies 1 77 2 2 opened.
Proof.
  apply (nonzero_act _ _ _ _ _ _ _ deployed opening_note); [exact (nonzero_deployed _ _ _ _ _ _ _ _ 5 11 12 99 deployed deployment_ok)|].
  apply (bool_decide_unpack _). vm_compute. exact I.
Qed.

Lemma tree_is_the_notes_witness : exists elements sides,
  getMerkleProof toy_hash 0 opened = Some (elements, sides)
  /\ path_root toy_hash (hash2 toy_hash 42 10) (combine elements sides) = merkleRoot (tree opened).
Proof.
  assert (Hmax : 0 <= 2) by lia.
  destruct (tree_is_the_notes toy_hash toy_keccak toy_verifies 1 77 2 2 Hmax opened opened_nonzero) as (_ & _ & H).
  destruct (H 42) as (elements & sides & H1 & _ & _ & H2); [vm_compute; reflexivity|]. exists elements, sides.
  split; [exact H1|exact H2].
Defined.

(** The root the note was in, before its exit. *)
Definition old_root : Z := merkleRoot (tree opened).

Lemma known_roots_are_the_last_thirty_witness :
  isKnownRoot old_root (toy_run [leaving; left] opened) = true.
Proof.
  assert (Hmax : 0 <= 2) by lia.
  apply (known_roots_are_the_last_thirty toy_hash toy_keccak toy_verifies 1 77 2 2 Hmax (toy_run [leaving; left] opened) old_root).
  - apply reachable_run. exact (toy_reachable [opening_note]).
  - split; [by apply Z.eqb_neq; vm_compute|]. apply (bool_decide_unpack _). vm_compute. exact I.
Defined.

(** A root that holds a note is still accepted after the exit of the note is final, three
    days later, when fewer than thirty deposits and exits came between. *)
Lemma final_exit_root_still_known :
  let s := toy_run [leaving; left] opened in
  status (note_at 42 s) = Closed /\ isKnownRoot old_root s = true
  /\ path_root toy_hash (hash2 toy_hash 42 10) (match getMerkleProof toy_hash 0 opened with Some (e, b) => combine e b | None => [] end)
     = old_root.
Proof. split_and!; vm_compute; reflexivity. Qed.
