(* ===== verification/Circuits.v ===== *)
(** * The circuits

    [circuits/request.circom], [circuits/settlement.circom] and the templates they are made
    of: a template is the function from its input signals to its output signals, [None] when
    no assignment satisfies its constraints. Signals are elements of the scalar field; the
    templates of circomlib are a parameter, with what it documents of them. *)

From S2P Require Import Prelude Field Accumulator RefundSigner.
Open Scope Z_scope.

(** ** circomlib *)

(** The templates used: [Num2Bits n] and [LessEqThan n] by their width, the arrays of
    [EscalarMulFix] and [MultiMux1] as lists. [EdDSAPoseidonVerifier enabled A R8 S M] has
    no output: it says whether its constraints hold. *)
Record Templates : Type := {
  Poseidon : list Z -> Z;
  Num2Bits : nat -> Z -> option (list Z);
  Num2Bits_strict : Z -> option (list Z);
  EscalarMulFix : Point -> list Z -> Point;
  BabyAdd : Point -> Point -> Point;
  LessEqThan : nat -> Z -> Z -> option Z;
  MultiMux1 : list (Z * Z) -> Z -> list Z;
  EdDSAPoseidonVerifier : Z -> Point -> Point -> Z -> Z -> bool;
}.

Definition GENERATOR_G : Point :=
  (18891097169288653087893319358176119911434283417707569988321287040614592813441,
   7860657952746490641010431794884102523135412871148967527117598022318856757355).
Definition GENERATOR_J : Point :=
  (9355242946826564246596339623000927660947180691373501561174839848920096889098,
   5781297037533749164671578987434977586939883164721324158318402311010617548447).
Definition GENERATOR_K : Point :=
  (10091301215100818316994948506512801193726841756990533464310239660356987896404,
   18942670726857660232249921857623130179002007525955879997549966126382094771891).
Definition GENERATOR_H : Point :=
  (13556252777791168262952330903992668184110251936673810894841963303519998714808,
   6394268297776531876912426155015605865041308032211543906119719637484169236582).

Definition circuit_generators : Generators :=
  {| gen_G := GENERATOR_G; gen_J := GENERATOR_J; gen_K := GENERATOR_K; gen_H := GENERATOR_H |}.

Definition TREE_DEPTH : nat := 20.

(** ** Signals of the two circuits *)

Record RequestSignals : Type := {
  rq_secretKey : Z; rq_deposit : Z;
  rq_pathElements : list Z; rq_pathIndices : list Z;
  rq_isGenesis : Z; rq_refunds : Z; rq_index : Z; rq_blinding : Z;
  rq_signatureR8 : Point; rq_signatureS : Z; rq_rerandomizer : Z;
  rq_merkleRoot : Z; rq_maxCost : Z; rq_signalX : Z; rq_serverPublicKey : Point;
}.

Record RequestOutputs : Type := { ro_nullifier : Z; ro_signalY : Z; ro_accumulator : Point }.

Record SettlementSignals : Type := {
  st_secretKey : Z; st_isGenesis : Z; st_refunds : Z; st_index : Z; st_blinding : Z;
  st_signatureR8 : Point; st_signatureS : Z; st_claimedIndex : Z;
  st_commitment : Z; st_deposit : Z; st_maxCost : Z; st_serverPublicKey : Point;
  st_recipient : Z; st_signalX : Z;
}.

Record SettlementOutputs : Type := { so_nullifier : Z; so_signalY : Z; so_payout : Z }.

(** The order of the public signals: the outputs, then the public inputs as declared. *)
Definition request_public (i : RequestSignals) (o : RequestOutputs) : list Z :=
  [ro_nullifier o; ro_signalY o; (ro_accumulator o).1; (ro_accumulator o).2;
   rq_merkleRoot i; rq_maxCost i; rq_signalX i; (rq_serverPublicKey i).1; (rq_serverPublicKey i).2].

Definition settlement_public (i : SettlementSignals) (o : SettlementOutputs) : list Z :=
  [so_nullifier o; so_signalY o; so_payout o; st_commitment i; st_deposit i; st_maxCost i;
   (st_serverPublicKey i).1; (st_serverPublicKey i).2; st_recipient i; st_signalX i].

(** [a === b]. *)
Definition equal (a b : Z) : option unit := if mod_p a =? mod_p b then Some tt else None.

Section Constraints.
Context (T : Templates) (gens : Generators).

(** ** templates/accumulator.circom *)

Definition FixedBaseMul (BITS : nat) (BASE : Point) (scalar : Z) : option Point :=
  bits ← Num2Bits T BITS scalar;
  Some (EscalarMulFix T BASE bits).

Definition FieldBaseMul (BASE : Point) (scalar : Z) : option Point :=
  bits ← Num2Bits_strict T scalar;
  Some (EscalarMulFix T BASE bits).

Definition AccumulatorCommitment (o : Opening) : option Point :=
  refundsTerm ← FixedBaseMul 128 (gen_G gens) (refunds o);
  indexTerm ← FixedBaseMul 32 (gen_J gens) (index o);
  commitmentTerm ← FieldBaseMul (gen_K gens) (commitment o);
  blindingTerm ← FieldBaseMul (gen_H gens) (blinding o);
  let sum1 := BabyAdd T refundsTerm indexTerm in
  let sum2 := BabyAdd T sum1 commitmentTerm in
  Some (BabyAdd T sum2 blindingTerm).

Definition SignedAccumulator (isGenesis : Z) (o : Opening) (R8 : Point) (S : Z) (key : Point) : option Point :=
  equal (isGenesis * (1 - isGenesis)) 0 ;;
  equal (isGenesis * refunds o) 0 ;;
  equal (isGenesis * index o) 0 ;;
  equal (isGenesis * blinding o) 0 ;;
  accumulator ← AccumulatorCommitment o;
  let message := Poseidon T [accumulator.1; accumulator.2] in
  if EdDSAPoseidonVerifier T (mod_p (1 - isGenesis)) key R8 S message then Some accumulator else None.

Definition Rerandomize (in_ : Point) (blinding : Z) : option Point :=
  blindingTerm ← FieldBaseMul (gen_H gens) blinding;
  Some (BabyAdd T in_ blindingTerm).

(** ** templates/merkle_tree.circom *)

(** One level per pair of a sibling and a side, from the leaf up. *)
Fixpoint MerkleTreeChecker (leaf : Z) (path : list (Z * Z)) : option Z :=
  match path with
  | [] => Some leaf
  | (element, side) :: path =>
      equal (side * (1 - side)) 0 ;;
      MerkleTreeChecker (Poseidon T (MultiMux1 T [(leaf, element); (element, leaf)] side)) path
  end.

(** ** templates/rln.circom *)

(** The nullifier and the signal. *)
Definition RlnSignal (secretKey index signalX : Z) : Z * Z :=
  let aHash := Poseidon T [secretKey; index] in
  (Poseidon T [aHash], mod_p (secretKey + aHash * signalX)).

(** ** request.circom *)

Definition Request (i : RequestSignals) : option RequestOutputs :=
  let commitment := Poseidon T [rq_secretKey i] in
  let leaf := Poseidon T [commitment; rq_deposit i] in
  root ← MerkleTreeChecker leaf (combine (rq_pathElements i) (rq_pathIndices i));
  equal root (rq_merkleRoot i) ;;
  accumulator ← SignedAccumulator (rq_isGenesis i)
    {| refunds := rq_refunds i; index := rq_index i; Accumulator.commitment := commitment; blinding := rq_blinding i |}
    (rq_signatureR8 i) (rq_signatureS i) (rq_serverPublicKey i);
  published ← Rerandomize accumulator (rq_rerandomizer i);
  Num2Bits T 128 (rq_deposit i) ;;
  Num2Bits T 128 (rq_maxCost i) ;;
  let required := mod_p ((rq_index i + 1) * rq_maxCost i) in
  solvency ← LessEqThan T 161 required (mod_p (rq_deposit i + rq_refunds i));
  equal solvency 1 ;;
  let rln := RlnSignal (rq_secretKey i) (rq_index i) (rq_signalX i) in
  Some {| ro_nullifier := rln.1; ro_signalY := rln.2; ro_accumulator := published |}.

(** ** settlement.circom *)

(** Its last constraint, that [recipientSquare] is the square of the recipient, can always
    be satisfied. *)
Definition Settlement (i : SettlementSignals) : option SettlementOutputs :=
  equal (Poseidon T [st_secretKey i]) (st_commitment i) ;;
  SignedAccumulator (st_isGenesis i)
    {| refunds := st_refunds i; index := st_index i; commitment := st_commitment i; blinding := st_blinding i |}
    (st_signatureR8 i) (st_signatureS i) (st_serverPublicKey i) ;;
  Num2Bits T 32 (st_claimedIndex i) ;;
  claimCoversUsage ← LessEqThan T 32 (st_index i) (st_claimedIndex i);
  equal claimCoversUsage 1 ;;
  Num2Bits T 128 (st_deposit i) ;;
  Num2Bits T 128 (st_maxCost i) ;;
  let spent := mod_p (st_claimedIndex i * st_maxCost i) in
  let payout := mod_p (st_deposit i + st_refunds i - spent) in
  Num2Bits T 129 payout ;;
  let rln := RlnSignal (st_secretKey i) (st_claimedIndex i) (st_signalX i) in
  Some {| so_nullifier := rln.1; so_signalY := rln.2; so_payout := payout |}.

(** ** What they mean *)

Fixpoint to_bits (n : nat) (z : Z) : list Z :=
  match n with
  | O => []
  | S n => z mod 2 :: to_bits n (z / 2)
  end.

Definition of_bits (l : list Z) : Z := foldr (fun b rest => b + 2 * rest) 0 l.

Definition bit (z : Z) : Prop := z = 0 \/ z = 1.

(** What circomlib documents: a decomposition into [n] bits exists exactly below [2^n] and
    is unique, the points are those of Baby Jubjub, comparisons are right on their width. *)
Record templates_ok : Prop := {
  tk_poseidon l : in_field (Poseidon T l);
  tk_bits n z : (n < 254)%nat -> in_field z ->
    Num2Bits T n z = if z <? 2 ^ Z.of_nat n then Some (to_bits n z) else None;
  tk_strict z : in_field z -> Num2Bits_strict T z = Some (to_bits 254 z);
  tk_mul B bits : B ∈ [gen_G gens; gen_J gens; gen_K gens; gen_H gens] -> (length bits <= 254)%nat ->
    Forall bit bits -> EscalarMulFix T B bits = mulPoint B (of_bits bits);
  tk_add p q : isOnCurve p = true -> isOnCurve q = true -> BabyAdd T p q = addPoints p q;
  tk_le n a b : (n <= 252)%nat -> 0 <= a < 2 ^ Z.of_nat n -> 0 <= b < 2 ^ Z.of_nat n ->
    LessEqThan T n a b = Some (if a <=? b then 1 else 0);
  tk_mux c s : bit s -> MultiMux1 T c s = map (fun p => if s =? 0 then p.1 else p.2) c;
}.

(** The root a path leads to. *)
Fixpoint root_of (current : Z) (path : list (Z * Z)) : Z :=
  match path with
  | [] => current
  | (sibling, side) :: path =>
      root_of (if side =? 0 then Poseidon T [current; sibling] else Poseidon T [sibling; current]) path
  end.

Definition opening_in_field (o : Opening) : Prop :=
  in_field (refunds o) /\ in_field (index o) /\ in_field (commitment o) /\ in_field (blinding o).

(** The opening [o] has its bounds; its accumulator is the genesis one or the server's. *)
Record certified (isGenesis : Z) (o : Opening) (R8 : Point) (S : Z) (key : Point) : Prop := {
  ce_genesis : isGenesis = 1 /\ refunds o = 0 /\ index o = 0 /\ blinding o = 0 \/ isGenesis = 0;
  ce_refunds : refunds o < 2 ^ 128;
  ce_index : index o < 2 ^ 32;
  ce_signed : EdDSAPoseidonVerifier T (1 - isGenesis) key R8 S
                (Poseidon T [(commit gens o).1; (commit gens o).2]) = true;
}.

Context (Ht : templates_ok) (Hg : generators_ok gens).

Lemma to_bits_length n z : length (to_bits n z) = n.
Proof. revert z. induction n as [|n IH]; intros z; cbn [to_bits length]; [done|]. by rewrite IH. Qed.

Lemma to_bits_bit n z : Forall bit (to_bits n z).
Proof.
  revert z. induction n as [|n IH]; intros z; cbn [to_bits]; constructor; [|apply IH].
  unfold bit. pose proof (Z.mod_pos_bound z 2 ltac:(lia)). lia.
Qed.

Lemma of_to_bits n z : 0 <= z < 2 ^ Z.of_nat n -> of_bits (to_bits n z) = z.
Proof.
  revert z. induction n as [|n IH]; intros z Hz; cbn [to_bits of_bits foldr].
  - change (2 ^ Z.of_nat 0) with 1 in Hz. lia.
  - fold (of_bits (to_bits n (z / 2))). rewrite Nat2Z.inj_succ, Z.pow_succ_r in Hz by lia. rewrite IH.
    + pose proof (Z.div_mod z 2 ltac:(lia)). lia.
    + split; [apply Z.div_pos; lia|]. apply Z.div_lt_upper_bound; lia.
Qed.

Lemma field_lt_254 : FIELD_MODULUS < 2 ^ Z.of_nat 254.
Proof. apply Z.ltb_lt. vm_compute. reflexivity. Qed.

Lemma equal_iff a b : equal a b = Some tt <-> mod_p a = mod_p b.
Proof. unfold equal. destruct (Z.eqb_spec (mod_p a) (mod_p b)); by split. Qed.

Lemma equal_in_field a b : in_field a -> in_field b -> equal a b = Some tt <-> a = b.
Proof. intros Ha Hb. by rewrite equal_iff, !mod_p_small. Qed.

Lemma mod_p_product a b : mod_p (a * b) = mod_p 0 <-> mod_p a = 0 \/ mod_p b = 0.
Proof.
  rewrite !mod_p_spec, Z.mod_0_l by (pose proof FIELD_MODULUS_pos; lia). rewrite !Z.mod_divide by (pose proof FIELD_MODULUS_pos; lia).
  split.
  - intros H. by apply Z.divide_prime_mul in H; [|exact FIELD_MODULUS_prime].
  - intros [H|H]; [by apply Z.divide_mul_l|by apply Z.divide_mul_r].
Qed.

Lemma zero_in_field : in_field 0.
Proof. pose proof FIELD_MODULUS_pos. unfold in_field. lia. Qed.

(** [s * (1 - s) === 0]. *)
Lemma equal_bit s : in_field s -> equal (s * (1 - s)) 0 = Some tt <-> bit s.
Proof.
  intros Hs. rewrite equal_iff, mod_p_product, (mod_p_small s Hs). unfold bit, in_field in *. pose proof FIELD_MODULUS_gt as Hgt. split.
  - intros [?|H]; [by left|]. destruct (decide (s = 0)) as [->|]; [by left|right].
    rewrite mod_p_spec in H. apply Z.mod_divide in H as [k Hk]; [|lia].
    destruct (Z.lt_trichotomy k 0) as [Hlt|[-> |Hlt]]; [nia|lia|nia].
  - intros [-> | ->]; [by left|right]. by rewrite mod_p_spec, Z.mod_0_l by lia.
Qed.

(** [s * z === 0] with a bit [s]. *)
Lemma equal_product s z : bit s -> in_field z -> equal (s * z) 0 = Some tt <-> (s = 1 -> z = 0).
Proof.
  intros Hs Hz. rewrite equal_iff, mod_p_product, (mod_p_small z Hz). destruct Hs as [-> | ->].
  - split; [lia|]. intros _. left. by rewrite mod_p_small by apply zero_in_field.
  - rewrite mod_p_small by (pose proof FIELD_MODULUS_gt; lia). intuition lia.
Qed.

(** ** The accumulator in the circuits *)

Lemma FixedBaseMul_eq n B z : (n < 254)%nat -> B ∈ [gen_G gens; gen_J gens; gen_K gens; gen_H gens] -> in_field z ->
  FixedBaseMul n B z = if z <? 2 ^ Z.of_nat n then Some (mulPoint B z) else None.
Proof.
  intros Hn HB Hz. unfold FixedBaseMul. rewrite (tk_bits Ht) by done. destruct (Z.ltb_spec z (2 ^ Z.of_nat n)); [|done].
  cbn [mbind option_bind]. rewrite (tk_mul Ht); [|done|rewrite to_bits_length; lia|apply to_bits_bit].
  rewrite of_to_bits; [done|]. destruct Hz. lia.
Qed.

Lemma FieldBaseMul_eq B z : B ∈ [gen_G gens; gen_J gens; gen_K gens; gen_H gens] -> in_field z ->
  FieldBaseMul B z = Some (mulPoint B z).
Proof.
  intros HB Hz. unfold FieldBaseMul. rewrite (tk_strict Ht) by done. cbn [mbind option_bind].
  rewrite (tk_mul Ht); [|done|rewrite to_bits_length; lia|apply to_bits_bit].
  rewrite of_to_bits; [done|]. pose proof field_lt_254. destruct Hz. lia.
Qed.

Lemma generators_in :
  gen_G gens ∈ [gen_G gens; gen_J gens; gen_K gens; gen_H gens] /\ gen_J gens ∈ [gen_G gens; gen_J gens; gen_K gens; gen_H gens]
  /\ gen_K gens ∈ [gen_G gens; gen_J gens; gen_K gens; gen_H gens] /\ gen_H gens ∈ [gen_G gens; gen_J gens; gen_K gens; gen_H gens].
Proof. split_and!; repeat first [apply list_elem_of_here|apply list_elem_of_further]. Qed.

Lemma AccumulatorCommitment_eq o : opening_in_field o ->
  AccumulatorCommitment o = if (refunds o <? 2 ^ 128) && (index o <? 2 ^ 32) then Some (commit gens o) else None.
Proof.
  intros (H1 & H2 & H3 & H4). destruct Hg as ([? _] & [? _] & [? _] & [? _]).
  destruct generators_in as (HG & HJ & HK & HH). unfold AccumulatorCommitment.
  rewrite (FixedBaseMul_eq 128); [|lia|assumption|exact H1]. change (2 ^ Z.of_nat 128) with (2 ^ 128).
  destruct (refunds o <? 2 ^ 128); [|done]. cbn [mbind option_bind andb].
  rewrite (FixedBaseMul_eq 32); [|lia|assumption|exact H2]. change (2 ^ Z.of_nat 32) with (2 ^ 32).
  destruct (index o <? 2 ^ 32); [|done]. cbn [mbind option_bind].
  rewrite !FieldBaseMul_eq; [|assumption..]. cbn [mbind option_bind]. unfold commit.
  rewrite (tk_add Ht (mulPoint (gen_G gens) _)) by auto with longjing.
  rewrite (tk_add Ht (addPoints _ _) (mulPoint (gen_K gens) _)) by auto with longjing.
  by rewrite (tk_add Ht) by auto with longjing.
Qed.

Lemma SignedAccumulator_iff isGenesis o R8 S key A : in_field isGenesis -> opening_in_field o ->
  SignedAccumulator isGenesis o R8 S key = Some A <-> certified isGenesis o R8 S key /\ A = commit gens o.
Proof.
  intros Hi Ho. pose proof Ho as (H1 & H2 & _ & H4). unfold SignedAccumulator.
  split.
  - intros ([] & Hb & H)%bind_Some. apply (equal_bit _ Hi) in Hb.
    apply bind_Some in H as ([] & E1 & H). apply bind_Some in H as ([] & E2 & H). apply bind_Some in H as ([] & E3 & H).
    rewrite equal_product in E1, E2, E3 by assumption.
    apply bind_Some in H as (A' & HA & H). rewrite AccumulatorCommitment_eq in HA by exact Ho.
    destruct (Z.ltb_spec (refunds o) (2 ^ 128)); [|done]. destruct (Z.ltb_spec (index o) (2 ^ 32)); [|done].
    injection HA as <-. destruct (EdDSAPoseidonVerifier _ _ _ _ _ _) eqn:Ev; [|done]. injection H as <-.
    split; [|done]. assert (Hm : mod_p (1 - isGenesis) = 1 - isGenesis) by (apply mod_p_small; pose proof FIELD_MODULUS_gt; destruct Hb; lia).
    rewrite Hm in Ev. split; [|assumption..]. destruct Hb as [-> | ->]; [by right|left]. auto.
  - intros [[Hg' Hr Hx Hs] ->].
    assert (Hb : bit isGenesis) by (destruct Hg' as [[? _]|?]; [by right|by left]).
    rewrite (proj2 (equal_bit _ Hi) Hb). cbn [mbind option_bind].
    assert (Hz : forall z, in_field z -> (isGenesis = 1 -> z = 0) -> equal (isGenesis * z) 0 = Some tt)
      by (intros z Hz; by apply equal_product).
    rewrite !Hz by (assumption || lia). cbn [mbind option_bind].
    rewrite AccumulatorCommitment_eq by exact Ho.
    rewrite (proj2 (Z.ltb_lt _ _) Hr), (proj2 (Z.ltb_lt _ _) Hx). cbn [andb mbind option_bind].
    rewrite mod_p_small by (pose proof FIELD_MODULUS_gt; destruct Hb; lia). by rewrite Hs.
Qed.

Lemma Rerandomize_eq A s : isOnCurve A = true -> in_field s -> Rerandomize A s = Some (rerandomize gens A s).
Proof.
  intros HA Hs. destruct Hg as (_ & _ & _ & [? _]). destruct generators_in as (_ & _ & _ & HH).
  unfold Rerandomize. rewrite FieldBaseMul_eq by assumption. cbn [mbind option_bind].
  unfold rerandomize. by rewrite (tk_add Ht) by auto with longjing.
Qed.

Lemma MerkleTreeChecker_iff leaf path root : Forall (fun p => in_field p.2) path ->
  MerkleTreeChecker leaf path = Some root <-> Forall (fun p => bit p.2) path /\ root_of leaf path = root.
Proof.
  intros Hp. revert leaf. induction Hp as [|[e s] path Hs Hp IH]; intros leaf; cbn [MerkleTreeChecker root_of].
  - split; [intros [= ->]; by split|]. by intros [_ ->].
  - cbn [snd] in Hs. split.
    + intros ([] & Hb & H)%bind_Some. apply (equal_bit _ Hs) in Hb. rewrite (tk_mux Ht) in H by done.
      apply IH in H as [H <-]. split; [by constructor|]. cbn [map fst snd]. by destruct (s =? 0).
    + intros [[Hb H]%Forall_cons Hr]. cbn [snd] in Hb. rewrite (proj2 (equal_bit _ Hs) Hb). cbn [mbind option_bind].
      rewrite (tk_mux Ht) by done. apply IH. split; [done|]. rewrite <- Hr. cbn [map fst snd]. by destruct (s =? 0).
Qed.

Lemma root_of_in_field x path : in_field x -> in_field (root_of x path).
Proof.
  revert x. induction path as [|[e s] path IH]; intros x Hx; cbn [root_of]; [done|].
  apply IH. destruct (s =? 0); apply Ht.
Qed.

(** [Num2Bits n] as a guard. *)
Lemma Num2Bits_guard {A} n z (k : option A) r : (n < 254)%nat -> in_field z ->
  (Num2Bits T n z ;; k) = Some r <-> z < 2 ^ Z.of_nat n /\ k = Some r.
Proof.
  intros Hn Hz. rewrite (tk_bits Ht) by done. destruct (Z.ltb_spec z (2 ^ Z.of_nat n)) as [H|H]; cbn [mbind option_bind].
  - intuition.
  - split; [done|]. lia.
Qed.

(** [LessEqThan n] as a guard. *)
Lemma LessEqThan_guard {A} n a b (k : option A) r : (n <= 252)%nat -> 0 <= a < 2 ^ Z.of_nat n -> 0 <= b < 2 ^ Z.of_nat n ->
  (LessEqThan T n a b ≫= fun x => equal x 1 ;; k) = Some r <-> a <= b /\ k = Some r.
Proof.
  intros Hn Ha Hb. rewrite (tk_le Ht) by done. cbn [mbind option_bind]. pose proof FIELD_MODULUS_gt as Hgt.
  destruct (Z.leb_spec a b) as [H|H].
  - rewrite (proj2 (equal_iff 1 1) eq_refl). cbn [mbind option_bind]. intuition.
  - destruct (equal 0 1) as [[]|] eqn:E; [|split; [done|lia]]. apply equal_iff in E.
    rewrite !mod_p_small in E by lia. done.
Qed.

(** ** Requests *)

Record request_signals_ok (i : RequestSignals) : Prop := {
  rs_elements : length (rq_pathElements i) = length (rq_pathIndices i);
  rs_indices : Forall in_field (rq_pathIndices i);
  rs_root : in_field (rq_merkleRoot i);
  rs_deposit : in_field (rq_deposit i);
  rs_maxCost : in_field (rq_maxCost i);
  rs_isGenesis : in_field (rq_isGenesis i);
  rs_refunds : in_field (rq_refunds i);
  rs_index : in_field (rq_index i);
  rs_blinding : in_field (rq_blinding i);
  rs_rerandomizer : in_field (rq_rerandomizer i);
}.

Definition request_opening (i : RequestSignals) : Opening :=
  {| refunds := rq_refunds i; index := rq_index i; commitment := Poseidon T [rq_secretKey i]; blinding := rq_blinding i |}.

Definition request_path (i : RequestSignals) : list (Z * Z) := combine (rq_pathElements i) (rq_pathIndices i).

(** What a request proves: the note is in the tree, its opening certified, and it can pay
    one more request, over the integers. *)
Record request_holds (i : RequestSignals) : Prop := {
  rh_member : root_of (Poseidon T [Poseidon T [rq_secretKey i]; rq_deposit i]) (request_path i) = rq_merkleRoot i;
  rh_sides : Forall bit (rq_pathIndices i);
  rh_certified : certified (rq_isGenesis i) (request_opening i) (rq_signatureR8 i) (rq_signatureS i) (rq_serverPublicKey i);
  rh_deposit : rq_deposit i < 2 ^ 128;
  rh_maxCost : rq_maxCost i < 2 ^ 128;
  rh_solvent : (rq_index i + 1) * rq_maxCost i <= rq_deposit i + rq_refunds i;
}.

(** What it publishes. *)
Definition request_outputs (i : RequestSignals) : RequestOutputs :=
  let a := Poseidon T [rq_secretKey i; rq_index i] in
  {| ro_nullifier := Poseidon T [a]; ro_signalY := mod_p (rq_secretKey i + a * rq_signalX i);
     ro_accumulator := rerandomize gens (commit gens (request_opening i)) (rq_rerandomizer i) |}.

Lemma Forall_combine_snd (P : Z -> Prop) (l1 l2 : list Z) : length l1 = length l2 ->
  Forall (fun p => P p.2) (combine l1 l2) <-> Forall P l2.
Proof.
  revert l2. induction l1 as [|x l1 IH]; intros [|y l2] H; try discriminate; cbn [combine]; [by split; constructor|].
  injection H as H. rewrite !Forall_cons. cbn [snd]. by rewrite IH.
Qed.

Lemma request_opening_in_field i : request_signals_ok i -> opening_in_field (request_opening i).
Proof. intros H. repeat split; try apply H; apply Ht. Qed.

Lemma required_exact i : request_signals_ok i -> rq_index i < 2 ^ 32 -> rq_maxCost i < 2 ^ 128 ->
  mod_p ((rq_index i + 1) * rq_maxCost i) = (rq_index i + 1) * rq_maxCost i
  /\ 0 <= (rq_index i + 1) * rq_maxCost i < 2 ^ Z.of_nat 161.
Proof.
  intros H Hi Hc. destruct (rs_index i H) as [Hi0 _]. destruct (rs_maxCost i H) as [Hc0 _].
  assert (Hb : 0 <= (rq_index i + 1) * rq_maxCost i <= 2 ^ 32 * 2 ^ 128) by (split; [nia|apply Z.mul_le_mono_nonneg; lia]).
  pose proof FIELD_MODULUS_big. split; [apply mod_p_small|change (2 ^ Z.of_nat 161) with (2 ^ 161)]; lia.
Qed.

Lemma available_exact d r : in_field d -> in_field r -> d < 2 ^ 128 -> r < 2 ^ 128 ->
  mod_p (d + r) = d + r /\ 0 <= d + r < 2 ^ Z.of_nat 161.
Proof.
  intros [Hd0 _] [Hr0 _] Hd Hr. pose proof FIELD_MODULUS_big.
  split; [apply mod_p_small|change (2 ^ Z.of_nat 161) with (2 ^ 161)]; lia.
Qed.

Lemma Request_sound i o : request_signals_ok i -> Request i = Some o -> request_holds i /\ o = request_outputs i.
Proof.
  intros Hs. unfold Request, RlnSignal. cbv zeta. cbn [fst snd].
  assert (Hind : Forall (fun p => in_field p.2) (combine (rq_pathElements i) (rq_pathIndices i)))
    by (apply Forall_combine_snd; apply Hs).
  intros (root & Hm & H)%bind_Some. apply MerkleTreeChecker_iff in Hm as [Hb Hm]; [|exact Hind].
  apply bind_Some in H as ([] & He & H). apply equal_in_field in He; [|rewrite <- Hm; apply root_of_in_field, Ht|apply Hs].
  apply bind_Some in H as (A & HA & H). apply SignedAccumulator_iff in HA as [HA ->]; [|apply Hs|by apply request_opening_in_field].
  apply bind_Some in H as (P & HP & H). rewrite Rerandomize_eq in HP by (apply commit_on, Hg || apply Hs). injection HP as <-.
  apply Num2Bits_guard in H as [Hd H]; [|lia|apply Hs]. apply Num2Bits_guard in H as [Hc H]; [|lia|apply Hs].
  destruct (required_exact i Hs (ce_index _ _ _ _ _ HA) Hc) as [E1 B1].
  destruct (available_exact _ _ (rs_deposit i Hs) (rs_refunds i Hs) Hd (ce_refunds _ _ _ _ _ HA)) as [E2 B2].
  rewrite E1, E2 in H. apply LessEqThan_guard in H as [Hle H]; [|lia|exact B1|exact B2].
  injection H as <-. split; [|reflexivity]. split; try assumption.
  + unfold request_path. congruence.
  + by apply (Forall_combine_snd _ (rq_pathElements i)); [apply Hs|].
Qed.

Lemma Request_complete i : request_signals_ok i -> request_holds i -> Request i = Some (request_outputs i).
Proof.
  intros Hs. unfold Request, RlnSignal. cbv zeta. cbn [fst snd].
  assert (Hind : Forall (fun p => in_field p.2) (combine (rq_pathElements i) (rq_pathIndices i)))
    by (apply Forall_combine_snd; apply Hs).
  intros [Hm Hb HA Hd Hc Hle].
  rewrite (proj2 (MerkleTreeChecker_iff _ _ (rq_merkleRoot i) Hind)).
  2: { split; [|exact Hm]. by apply Forall_combine_snd; [apply Hs|]. }
  cbn [mbind option_bind]. rewrite (proj2 (equal_iff _ _) eq_refl). cbn [mbind option_bind].
  rewrite (proj2 (SignedAccumulator_iff _ _ _ _ _ (commit gens (request_opening i)) (rs_isGenesis i Hs) (request_opening_in_field i Hs))) by done.
  cbn [mbind option_bind]. rewrite Rerandomize_eq by (apply commit_on, Hg || apply Hs). cbn [mbind option_bind].
  apply Num2Bits_guard; [lia|apply Hs|split; [exact Hd|]]. apply Num2Bits_guard; [lia|apply Hs|split; [exact Hc|]].
  destruct (required_exact i Hs (ce_index _ _ _ _ _ HA) Hc) as [E1 B1].
  destruct (available_exact _ _ (rs_deposit i Hs) (rs_refunds i Hs) Hd (ce_refunds _ _ _ _ _ HA)) as [E2 B2].
  rewrite E1, E2. by apply LessEqThan_guard; [lia|exact B1|exact B2|split].
Qed.

(** C10: what a request proof proves. For any assignment of its inputs, a cheating one
    included, the request circuit is satisfied exactly when the leaf of the secret key and
    the deposit is under the root, the accumulator opens to the balance and the index with
    their bounds and is the genesis one or passes the signature check, and
    [(i + 1) C_MAX <= D + R] holds over the integers, no sum or product wrapping around the
    field; and its outputs are then determined: the nullifier and the signal of that key and
    index, and the accumulator rerandomized. *)
Theorem request_circuit_exact i o : request_signals_ok i ->
  Request i = Some o <-> request_holds i /\ o = request_outputs i.
Proof. intros Hs. split; [by apply Request_sound|]. intros [H ->]. by apply Request_complete. Qed.

(** ** Exits *)

Record settlement_signals_ok (i : SettlementSignals) : Prop := {
  ss_commitment : in_field (st_commitment i);
  ss_deposit : in_field (st_deposit i);
  ss_maxCost : in_field (st_maxCost i);
  ss_isGenesis : in_field (st_isGenesis i);
  ss_refunds : in_field (st_refunds i);
  ss_index : in_field (st_index i);
  ss_blinding : in_field (st_blinding i);
  ss_claimedIndex : in_field (st_claimedIndex i);
}.

Definition settlement_opening (i : SettlementSignals) : Opening :=
  {| refunds := st_refunds i; index := st_index i; commitment := st_commitment i; blinding := st_blinding i |}.

(** [P = D + R - n C_MAX], over the integers. *)
Definition settlement_payout (i : SettlementSignals) : Z :=
  st_deposit i + st_refunds i - st_claimedIndex i * st_maxCost i.

(** What an exit proves: the key is the note's, the opening certified, the claim covers
    every index the accumulator used, and the payout is not negative. *)
Record settlement_holds (i : SettlementSignals) : Prop := {
  sh_key : Poseidon T [st_secretKey i] = st_commitment i;
  sh_certified : certified (st_isGenesis i) (settlement_opening i) (st_signatureR8 i) (st_signatureS i) (st_serverPublicKey i);
  sh_claimed : st_claimedIndex i < 2 ^ 32;
  sh_covers : st_index i <= st_claimedIndex i;
  sh_deposit : st_deposit i < 2 ^ 128;
  sh_maxCost : st_maxCost i < 2 ^ 128;
  sh_payout : 0 <= settlement_payout i;
}.

Definition settlement_outputs (i : SettlementSignals) : SettlementOutputs :=
  let a := Poseidon T [st_secretKey i; st_claimedIndex i] in
  {| so_nullifier := Poseidon T [a]; so_signalY := mod_p (st_secretKey i + a * st_signalX i);
     so_payout := settlement_payout i |}.

(** A payout that wraps around the field does not fit in 129 bits. *)
Lemma payout_exact i : settlement_signals_ok i -> st_refunds i < 2 ^ 128 -> st_claimedIndex i < 2 ^ 32 ->
  st_deposit i < 2 ^ 128 -> st_maxCost i < 2 ^ 128 ->
  let p := mod_p (st_deposit i + st_refunds i - mod_p (st_claimedIndex i * st_maxCost i)) in
  (p < 2 ^ 129 <-> 0 <= settlement_payout i) /\ (0 <= settlement_payout i -> p = settlement_payout i).
Proof.
  intros [_ [Hd0 _] [Hc0 _] _ [Hr0 _] _ _ [Hn0 _]] Hr Hn Hd Hc p. unfold p, settlement_payout. pose proof FIELD_MODULUS_big.
  assert (Hb : 0 <= st_claimedIndex i * st_maxCost i <= 2 ^ 32 * 2 ^ 128) by (split; [nia|apply Z.mul_le_mono_nonneg; lia]).
  rewrite (mod_p_small (st_claimedIndex i * st_maxCost i)) by lia.
  set (v := st_deposit i + st_refunds i - st_claimedIndex i * st_maxCost i).
  assert (Hv : - 2 ^ 160 <= v < 2 ^ 129) by (unfold v; lia). destruct (Z.le_gt_cases 0 v) as [H0|H0].
  - rewrite mod_p_small by lia. split; [lia|done].
  - split; [split; [|lia]|lia]. intros Hlt. exfalso. rewrite mod_p_spec in Hlt.
    rewrite <- (Z_mod_plus_full v 1), Z.mod_small in Hlt by lia. lia.
Qed.

Lemma Settlement_sound i o : settlement_signals_ok i -> Settlement i = Some o -> settlement_holds i /\ o = settlement_outputs i.
Proof.
  intros Hs. unfold Settlement, RlnSignal. cbv zeta. cbn [fst snd].
  assert (Hop : opening_in_field (settlement_opening i)) by (repeat split; apply Hs).
  assert (H32 : forall z, in_field z -> z < 2 ^ 32 -> 0 <= z < 2 ^ Z.of_nat 32) by (intros z [? _]; change (2 ^ Z.of_nat 32) with (2 ^ 32); lia).
  assert (Hpf : in_field (mod_p (st_deposit i + st_refunds i - mod_p (st_claimedIndex i * st_maxCost i)))) by apply mod_p_range.
  intros ([] & Hk & H)%bind_Some. apply equal_in_field in Hk; [|apply Ht|apply Hs].
  apply bind_Some in H as (A & HA & H). apply SignedAccumulator_iff in HA as [HA ->]; [|apply Hs|exact Hop].
  apply Num2Bits_guard in H as [Hn H]; [|lia|apply Hs].
  apply LessEqThan_guard in H as [Hle H]; [|lia|apply H32; [apply Hs|exact (ce_index _ _ _ _ _ HA)]|apply H32; [apply Hs|exact Hn]].
  apply Num2Bits_guard in H as [Hd H]; [|lia|apply Hs]. apply Num2Bits_guard in H as [Hc H]; [|lia|apply Hs].
  apply Num2Bits_guard in H as [Hp H]; [|lia|exact Hpf].
  destruct (payout_exact i Hs (ce_refunds _ _ _ _ _ HA) Hn Hd Hc) as [Hfit Hexact]. apply Hfit in Hp.
  rewrite (Hexact Hp) in H. injection H as <-. split; [|reflexivity]. by split.
Qed.

Lemma Settlement_complete i : settlement_signals_ok i -> settlement_holds i -> Settlement i = Some (settlement_outputs i).
Proof.
  intros Hs. unfold Settlement, RlnSignal. cbv zeta. cbn [fst snd].
  assert (Hop : opening_in_field (settlement_opening i)) by (repeat split; apply Hs).
  assert (H32 : forall z, in_field z -> z < 2 ^ 32 -> 0 <= z < 2 ^ Z.of_nat 32) by (intros z [? _]; change (2 ^ Z.of_nat 32) with (2 ^ 32); lia).
  assert (Hpf : in_field (mod_p (st_deposit i + st_refunds i - mod_p (st_claimedIndex i * st_maxCost i)))) by apply mod_p_range.
  intros [Hk HA Hn Hle Hd Hc Hp].
  rewrite (proj2 (equal_iff _ _)) by (by rewrite Hk). cbn [mbind option_bind].
  rewrite (proj2 (SignedAccumulator_iff _ _ _ _ _ (commit gens (settlement_opening i)) (ss_isGenesis i Hs) Hop)) by done.
  cbn [mbind option_bind]. apply Num2Bits_guard; [lia|apply Hs|split; [exact Hn|]].
  apply LessEqThan_guard; [lia|apply H32; [apply Hs|exact (ce_index _ _ _ _ _ HA)]|apply H32; [apply Hs|exact Hn]|split; [exact Hle|]].
  apply Num2Bits_guard; [lia|apply Hs|split; [exact Hd|]]. apply Num2Bits_guard; [lia|apply Hs|split; [exact Hc|]].
  destruct (payout_exact i Hs (ce_refunds _ _ _ _ _ HA) Hn Hd Hc) as [Hfit Hexact].
  apply Num2Bits_guard; [lia|exact Hpf|]. split; [by apply Hfit|]. by rewrite (Hexact Hp).
Qed.

(** C11: what a withdrawal proof proves. For any assignment of its inputs, the settlement
    circuit is satisfied exactly when the key hashes to the commitment, the accumulator
    opens and is the genesis one or passes the signature check, the claimed count covers its
    index, and [D + R - n C_MAX] is not negative as an integer; it then publishes that
    payout, and the nullifier and signal of the claimed index. *)
Theorem settlement_circuit_exact i o : settlement_signals_ok i ->
  Settlement i = Some o <-> settlement_holds i /\ o = settlement_outputs i.
Proof. intros Hs. split; [by apply Settlement_sound|]. intros [H ->]. by apply Settlement_complete. Qed.
End Constraints.

(** ** Concrete templates *)

Lemma circuit_generators_ok : generators_ok circuit_generators.
Proof.
  assert (H : forall x y, (0 <=? x) && (x <? FIELD_MODULUS) && (0 <=? y) && (y <? FIELD_MODULUS) && isOnCurve (x, y) = true ->
            isOnCurve (x, y) = true /\ reduced (x, y)).
  { intros x y [[[[H1%Z.leb_le H2%Z.ltb_lt]%andb_true_iff H3%Z.leb_le]%andb_true_iff H4%Z.ltb_lt]%andb_true_iff H5]%andb_true_iff.
    split; [exact H5|]. by split. }
  split; [|split; [|split]]; apply H; vm_compute; reflexivity.
Qed.

(** Templates that do what circomlib documents, around any hash and signature check. *)
Definition plain_templates (hash : list Z -> Z) (verify : Z -> Point -> Point -> Z -> Z -> bool) : Templates :=
  {| Poseidon := hash;
     Num2Bits n z := if z <? 2 ^ Z.of_nat n then Some (to_bits n z) else None;
     Num2Bits_strict z := Some (to_bits 254 z);
     EscalarMulFix B bits := mulPoint B (of_bits bits);
     BabyAdd := addPoints;
     LessEqThan n a b := Some (if a <=? b then 1 else 0);
     MultiMux1 c s := map (fun p => if s =? 0 then p.1 else p.2) c;
     EdDSAPoseidonVerifier := verify |}.

Lemma plain_templates_ok gens hash verify : (forall l, in_field (hash l)) -> templates_ok (plain_templates hash verify) gens.
Proof. intros H. by split. Qed.

Definition toy_poseidon (l : list Z) : Z := 1 + fold_left (fun a x => (31 * a + x) mod 65537) l 7.

Lemma toy_poseidon_in_field l : in_field (toy_poseidon l).
Proof.
  unfold toy_poseidon. assert (H : forall l a, 0 <= a < 65537 -> 0 <= fold_left (fun a x => (31 * a + x) mod 65537) l a < 65537).
  { clear. induction l as [|x l IH]; intros a Ha; cbn [fold_left]; [done|]. apply IH, Z.mod_pos_bound. lia. }
  specialize (H l 7 ltac:(lia)). pose proof FIELD_MODULUS_gt. unfold in_field. lia.
Qed.

Definition toy_templates : Templates := plain_templates toy_poseidon (fun _ _ _ _ _ => true).

Definition toy_path : list (Z * Z) := repeat (3, 1) TREE_DEPTH.

(** The note of the key 5 with a deposit of 100, two requests in, 30 refunded. *)
Definition toy_request : RequestSignals :=
  {| rq_secretKey := 5; rq_deposit := 100; rq_pathElements := repeat 3 TREE_DEPTH; rq_pathIndices := repeat 1 TREE_DEPTH;
     rq_isGenesis := 0; rq_refunds := 30; rq_index := 2; rq_blinding := 8; rq_signatureR8 := (1, 2); rq_signatureS := 3;
     rq_rerandomizer := 9;
     rq_merkleRoot := root_of toy_templates (toy_poseidon [toy_poseidon [5]; 100]) toy_path;
     rq_maxCost := 40; rq_signalX := 6; rq_serverPublicKey := (7, 8) |}.

Definition toy_settlement : SettlementSignals :=
  {| st_secretKey := 5; st_isGenesis := 0; st_refunds := 30; st_index := 2; st_blinding := 8; st_signatureR8 := (1, 2);
     st_signatureS := 3; st_claimedIndex := 3; st_commitment := toy_poseidon [5]; st_deposit := 100; st_maxCost := 40;
     st_serverPublicKey := (7, 8); st_recipient := 11; st_signalX := 12 |}.

Lemma small_in_field z : 0 <= z < 1000000 -> in_field z.
Proof. pose proof FIELD_MODULUS_gt. unfold in_field. lia. Qed.

Lemma request_circuit_exact_witness : Request toy_templates circuit_generators toy_request
  = Some (request_outputs toy_templates circuit_generators toy_request).
Proof.
  apply (request_circuit_exact toy_templates circuit_generators (plain_templates_ok _ _ _ toy_poseidon_in_field) circuit_generators_ok).
  - split; try (apply small_in_field; split; [apply Z.leb_le|apply Z.ltb_lt]; vm_compute; reflexivity); [reflexivity|].
    apply Forall_forall. intros x Hx%list_elem_of_In%repeat_spec. subst x. apply small_in_field. lia.
  - split; [|reflexivity]. split; try (apply Z.leb_le; vm_compute; reflexivity); try (apply Z.ltb_lt; vm_compute; reflexivity).
    + reflexivity.
    + apply Forall_forall. intros x Hx%list_elem_of_In%repeat_spec. by right.
    + split; [by right|apply Z.ltb_lt; vm_compute; reflexivity..|reflexivity].
Defined.

Lemma settlement_circuit_exact_witness : Settlement toy_templates circuit_generators toy_settlement
  = Some {| so_nullifier := toy_poseidon [toy_poseidon [5; 3]]; so_signalY := mod_p (5 + toy_poseidon [5; 3] * 12); so_payout := 10 |}.
Proof.
  apply (settlement_circuit_exact toy_templates circuit_generators (plain_templates_ok _ _ _ toy_poseidon_in_field) circuit_generators_ok).
  - split; apply small_in_field; split; first [apply Z.leb_le|apply Z.ltb_lt]; vm_compute; reflexivity.
  - split; [|reflexivity]. split; try (apply Z.leb_le; vm_compute; reflexivity); try (apply Z.ltb_lt; vm_compute; reflexivity).
    + reflexivity.
    + split; [by right|apply Z.ltb_lt; vm_compute; reflexivity..|reflexivity].
Defined.
