(* ===== verification/Proving.v ===== *)
(** * snarkjs around the circuits

    How [scripts/client/note.ts] reaches [Circuits]: the texts of its inputs are read as
    field elements, the public signals come back as decimal texts, and a proof of an exit
    is split into the words the verifier contract takes. *)

From Stdlib Require Import String.
From S2P Require Import Prelude Field JsText FieldElement HexText Accumulator Slashing Json JsonText Gateway RefundSigner.
From S2P Require Import NoteClient NoteProtocol Circuits.
Open Scope Z_scope.

(** ** Inputs *)

(** An input text: an integer, reduced. *)
Definition signal (t : string) : result Z := rmap mod_p (BigInt t).

Definition point_signal (p : string * string) : result Point :=
  let* x := signal p.1 in
  let* y := signal p.2 in
  Ok (x, y).

(** An array has the length of its signal. *)
Definition array_signal (n : nat) (l : list string) : result (list Z) :=
  if (length l =? n)%nat then map_result signal l else Throw (Error "Not enough values for input signal").

Definition read_request (i : RequestInputs) : result RequestSignals :=
  let a := ri_accumulator i in
  let* k := signal (ri_secretKey i) in
  let* d := signal (ri_deposit i) in
  let* elements := array_signal TREE_DEPTH (merklePathElements i) in
  let* sides := array_signal TREE_DEPTH (merklePathIndices i) in
  let* g := signal (isGenesis a) in
  let* r := signal (ai_refunds a) in
  let* m := signal (ai_index a) in
  let* b := signal (ai_blinding a) in
  let* r8 := point_signal (signatureR8x a, signatureR8y a) in
  let* s := signal (signatureS a) in
  let* s' := signal (ri_rerandomizer i) in
  let* root := signal (ri_merkleRoot i) in
  let* cMax := signal (ri_maxCost i) in
  let* x := signal (ri_signalX i) in
  let* key := point_signal (ri_serverPublicKey i) in
  Ok {| rq_secretKey := k; rq_deposit := d; rq_pathElements := elements; rq_pathIndices := sides; rq_isGenesis := g;
        rq_refunds := r; rq_index := m; rq_blinding := b; rq_signatureR8 := r8; rq_signatureS := s;
        rq_rerandomizer := s'; rq_merkleRoot := root; rq_maxCost := cMax; rq_signalX := x; rq_serverPublicKey := key |}.

Definition read_settlement (i : WithdrawalInputs) : result SettlementSignals :=
  let a := wi_accumulator i in
  let* k := signal (wi_secretKey i) in
  let* g := signal (isGenesis a) in
  let* r := signal (ai_refunds a) in
  let* m := signal (ai_index a) in
  let* b := signal (ai_blinding a) in
  let* r8 := point_signal (signatureR8x a, signatureR8y a) in
  let* s := signal (signatureS a) in
  let* n := signal (wi_claimedIndex i) in
  let* c := signal (wi_commitment i) in
  let* d := signal (wi_deposit i) in
  let* cMax := signal (wi_maxCost i) in
  let* key := point_signal (wi_serverPublicKey i) in
  let* to := signal (wi_recipient i) in
  let* x := signal (wi_signalX i) in
  Ok {| st_secretKey := k; st_isGenesis := g; st_refunds := r; st_index := m; st_blinding := b; st_signatureR8 := r8;
        st_signatureS := s; st_claimedIndex := n; st_commitment := c; st_deposit := d; st_maxCost := cMax;
        st_serverPublicKey := key; st_recipient := to; st_signalX := x |}.

Section Proving.
Context (T : Templates) (gens : Generators) (lib : Libraries).

(** The public signals of the witness snarkjs computes; it throws when there is none. *)
Definition request_witness (i : RequestInputs) : result (list Z) :=
  let* s := read_request i in
  let* o := of_option (Error "Assert Failed") (Request T gens s) in
  Ok (request_public s o).

Definition settlement_witness (i : WithdrawalInputs) : result (list Z) :=
  let* s := read_settlement i in
  let* o := of_option (Error "Assert Failed") (Settlement T gens s) in
  Ok (settlement_public s o).

(** What snarkjs documents of [fullProve]: it proves exactly the inputs that have a witness,
    and returns the public signals of that witness in decimal. *)
Record proves : Prop := {
  pr_request i pub : request_witness i = Ok pub ->
    exists proof b0 b1, proveRequestCircuit lib i = Ok (proof, map toString pub) /\ g_b proof = [b0; b1; ["1"; "0"]%string];
  pr_request_only i proof signals : proveRequestCircuit lib i = Ok (proof, signals) ->
    exists pub, request_witness i = Ok pub /\ signals = map toString pub;
  pr_settlement i pub : settlement_witness i = Ok pub ->
    exists proof, proveSettlementCircuit lib i = Ok (proof, map toString pub);
}.

(** ** Reading *)

Lemma signal_toString z : in_field z -> signal (toString z) = Ok z.
Proof. intros H. unfold signal. rewrite toString_ok. unfold rmap. cbn [rbind]. by rewrite mod_p_small by exact H. Qed.

Lemma signal_in_field t z : signal t = Ok z -> in_field z.
Proof. unfold signal, rmap. intros H. apply rbind_ok in H as (v & _ & [= <-]). apply mod_p_range. Qed.

Lemma signal_of t z v : signal t = Ok v -> t = toString z -> in_field z -> v = z.
Proof. intros H -> Hz. rewrite signal_toString in H by done. by injection H as <-. Qed.

Lemma map_result_length {A B} (f : A -> result B) l l' : map_result f l = Ok l' -> length l' = length l.
Proof.
  revert l'. induction l as [|x l IH]; cbn [map_result]; intros l' H; [by injection H as <-|].
  apply rbind_ok in H as (y & _ & H). apply rbind_ok in H as (ys & Hys & H). injection H as <-.
  cbn [length]. by rewrite (IH ys Hys).
Qed.

Lemma array_signal_ok n l l' : array_signal n l = Ok l' -> length l' = n /\ Forall in_field l'.
Proof.
  unfold array_signal. destruct (Nat.eqb_spec (length l) n) as [Hn|]; [|done]. intros H.
  split; [by rewrite (map_result_length _ _ _ H)|]. revert l' H. clear Hn.
  induction l as [|x l IH]; cbn [map_result]; intros l' H; [by injection H as <-|].
  apply rbind_ok in H as (y & Hy & H). apply rbind_ok in H as (ys & Hys & H). injection H as <-.
  constructor; [by eapply signal_in_field|by apply IH].
Qed.

(** What the signals of a request are. *)
Lemma read_request_inv i s : read_request i = Ok s -> request_signals_ok s
  /\ signal (ri_secretKey i) = Ok (rq_secretKey s) /\ signal (ai_refunds (ri_accumulator i)) = Ok (rq_refunds s)
  /\ signal (ai_index (ri_accumulator i)) = Ok (rq_index s) /\ signal (ai_blinding (ri_accumulator i)) = Ok (rq_blinding s)
  /\ signal (ri_rerandomizer i) = Ok (rq_rerandomizer s).
Proof.
  unfold read_request. cbv zeta. intros H.
  repeat (apply rbind_ok in H as (? & ? & H)). injection H as <-.
  cbn [rq_secretKey rq_refunds rq_index rq_blinding rq_rerandomizer].
  repeat match goal with E : array_signal _ _ = Ok _ |- _ => apply array_signal_ok in E as [? ?] end.
  split; [|done]. split; cbn; try (by eapply signal_in_field); congruence || assumption.
Qed.

(** The circuit publishes the accumulator its inputs open, rerandomized. *)
Lemma request_publishes : templates_ok T gens -> generators_ok gens -> Poseidon T = poseidon (circom lib) ->
  proves -> circuit_publishes gens lib.
Proof.
  intros Ht Hg Hp Hpr inputs proof signals k o s H Hk Hr Hm Hb Hs Ek Ec Er Em Eb Es.
  destruct (pr_request_only Hpr inputs proof signals H) as (pub & Hw & ->).
  unfold request_witness in Hw. apply rbind_ok in Hw as (sg & Hsg & Hw). apply rbind_ok in Hw as (out & Ho & Hw). injection Hw as <-.
  destruct (read_request_inv inputs sg Hsg) as (Hok & H1 & H2 & H3 & H4 & H5).
  destruct (Request T gens sg) as [out'|] eqn:E; [|done]. injection Ho as ->.
  apply (Request_sound T gens Ht Hg sg out Hok) in E as [_ ->].
  apply (signal_of _ k) in H1; [|assumption..]. apply (signal_of _ (refunds o)) in H2; [|assumption..].
  apply (signal_of _ (index o)) in H3; [|assumption..]. apply (signal_of _ (blinding o)) in H4; [|assumption..].
  apply (signal_of _ s) in H5; [|assumption..].
  assert (Eo : request_opening T sg = o).
  { unfold request_opening. rewrite H1, H2, H3, H4, Hp, <- Ec. by destruct o. }
  cbn [request_public request_outputs ro_accumulator ro_nullifier ro_signalY map]. rewrite Eo, H5. by split.
Qed.
End Proving.
