(* ===== verification/System.v ===== *)
(** * The client, the circuits, the gateway's slasher and the contract together

    What each side promises the other, end to end: a certified note on the contract can
    prove its next request under a root the contract knows; its exit is proved, accepted and
    paid to the wei; and whoever uses one index for two messages, requests or exits, is
    slashed by what they published. *)

From Stdlib Require Import String.
From S2P Require Import Prelude Field JsText FieldElement HexText Accumulator Slashing.
From S2P Require Import Json JsonText Gateway RefundSigner.
From S2P Require Import Credits CreditsLedger CreditsHistory CreditsTree.
From S2P Require Import NoteClient NoteProtocol Circuits Proving.
Open Scope Z_scope.

Section Whole.
Context (T : Templates) (gens : Generators) (Ht : templates_ok T gens) (Hg : generators_ok gens).
Context (keccak256 : list byte -> Z) (verifies : Z -> list Z -> list Z -> option bool).
Context (chainid this C_MAX SLASH_BOUNTY : Z) (Hmax : 0 <= C_MAX) (Hbounty : 0 <= SLASH_BOUNTY).

Abbreviation hash := (Credits.hash (Poseidon T)).
Abbreviation transact := (Credits.transact (Poseidon T) keccak256 verifies chainid this C_MAX SLASH_BOUNTY).
Abbreviation run := (Credits.run (Poseidon T) keccak256 verifies chainid this C_MAX SLASH_BOUNTY).
Abbreviation reachable := (CreditsLedger.reachable (Poseidon T) keccak256 verifies chainid this C_MAX SLASH_BOUNTY).
Abbreviation reachable_nonzero := (CreditsTree.reachable_nonzero (Poseidon T) keccak256 verifies chainid this C_MAX SLASH_BOUNTY).

(** ** One index, two messages *)

(** A satisfied circuit published a nullifier and a signal for the key [k] at the index [i]
    and the message [x]. *)
Inductive published (k i x : Z) : Z -> Z -> Prop :=
| by_request r o : request_signals_ok r -> Request T gens r = Some o ->
    rq_secretKey r = k -> rq_index r = i -> rq_signalX r = x -> published k i x (ro_nullifier o) (ro_signalY o)
| by_exit e o : settlement_signals_ok e -> Settlement T gens e = Some o ->
    st_secretKey e = k -> st_claimedIndex e = i -> st_signalX e = x -> published k i x (so_nullifier o) (so_signalY o).

(** All of them are on the line of the key and the index. *)
Lemma published_line k i x n y : published k i x n y ->
  n = Poseidon T [Poseidon T [k; i]] /\ y = mod_p (k + Poseidon T [k; i] * x).
Proof.
  intros [r o Hr Ho <- <- <-|e o He Ho <- <- <-].
  - apply (Request_sound T gens Ht Hg r o Hr) in Ho as [_ ->]. by split.
  - apply (Settlement_sound T gens Ht Hg e o He) in Ho as [_ ->]. by split.
Qed.

(** C7: one index, two messages, end to end. Whoever publishes from satisfied circuits two
    signals of one key and one index for different messages - two requests, or a request
    and the exit that claims not to have made it - publishes the same nullifier, which the
    gateway's store keeps under one key; from the two signals the slasher sends exactly the
    secret key; and the contract accepts it, whatever happened to it before, as long as the
    note is open: the caller gets the bounty and the operator the rest of the deposit. *)
Theorem index_used_twice_is_slashed k i x1 n1 y1 x2 n2 y2 b m cb s :
  published k i x1 n1 y1 -> published k i x2 n2 y2 ->
  in_field k -> in_field x1 -> in_field x2 -> x1 <> x2 -> isEnabled b = true ->
  reachable s -> status (note_at (hash k) s) = Active \/ status (note_at (hash k) s) = Exiting ->
  value m = 0 -> balance s < 2 ^ 256 -> cb.2 = true ->
  toString n1 = toString n2
  /\ slashRevealed b {| st_x := toString x1; st_y := toString y1 |} {| st_x := toString x2; st_y := toString y2 |} = [k]
  /\ exists s', transact m cb (Guarded (Slash k)) s = Returns (s', tt)
       /\ status (note_at (hash k) s') = Slashed
       /\ let d := amount (note_at (hash k) s) in
          let bounty := Z.min d SLASH_BOUNTY in
          balance s' = balance s - bounty /\ operatorBalance (book s') = operatorBalance (book s) + (d - bounty).
Proof.
  intros H1 H2 Hk Hx1 Hx2 Hx Hb Hr Hst Hv Hbal Hcb.
  apply published_line in H1 as [-> ->]. apply published_line in H2 as [-> ->]. split; [reflexivity|]. split.
  - rewrite (slashRevealed_line b k (Poseidon T [k; i])).
    + rewrite Hb, !mod_p_small by assumption. cbn [andb]. by rewrite (proj2 (Z.eqb_neq _ _) Hx).
    + apply mod_p_small, mod_p_range.
    + apply mod_p_small, mod_p_range.
  - destruct (known_key_slashes (Poseidon T) keccak256 verifies chainid this C_MAX SLASH_BOUNTY Hmax Hbounty m cb k s)
      as (s' & Htx & Hs' & Hbal' & Hop'); try assumption.
    exists s'. split; [exact Htx|]. split; [exact Hs'|]. cbv zeta in *.
    replace (Z.min (amount (note_at (hash k) s)) SLASH_BOUNTY)
      with (if amount (note_at (hash k) s) <? SLASH_BOUNTY then amount (note_at (hash k) s) else SLASH_BOUNTY)
      by (destruct (Z.ltb_spec (amount (note_at (hash k) s)) SLASH_BOUNTY); lia).
    by split.
Qed.

(** ** The contract as the client reads it *)

Definition status_code (st : Status) : Z :=
  match st with NoNote => 0 | Active => 1 | Exiting => 2 | Closed => 3 | Slashed => 4 | Expired => 5 end.

(** What ethers answers for a contract in the state [s]: [bytes32] in hexadecimal. *)
Definition chain_view (s : State) : Contract :=
  {| getNote t := let* c := BigInt t in
                  let n := note_at c s in
                  Ok (amount n, depositedAt n, leafIndex n, status_code (status n));
     getMerkleProof i := match Credits.getMerkleProof (Poseidon T) i s with
                         | Some (elements, sides) => Ok (map hex64 elements, sides)
                         | None => Throw (Error "Leaf index out of bounds")
                         end;
     merkleRoot := Ok (hex64 (Credits.merkleRoot (tree s)));
     NoteClient.C_MAX := Ok C_MAX;
     serverPublicKey := let key := Credits.serverPublicKey (settings s) in Ok (hex64 key.1, hex64 key.2);
     withdrawalSignalX t := let* to := BigInt t in Ok (Credits.withdrawalSignalX (Poseidon T) chainid this to) |}.

(** The call the arguments of a withdrawal encode. *)
Definition withdrawal_call (a : WithdrawalArgs) : result guarded_call :=
  let* c := BigInt (wa_commitment a) in
  let* to := BigInt (wa_recipient a) in
  let* kx := BigInt (wa_refundKey a).1 in
  let* ky := BigInt (wa_refundKey a).2 in
  let* proof := map_result BigInt (wa_proof a) in
  let* n := BigInt (wa_nullifier a) in
  let* y := BigInt (wa_signalY a) in
  let* p := BigInt (wa_payout a) in
  Ok (InitiateWithdrawal c to (kx, ky) proof n y p).

Section Honest.
Context (lib : Libraries) (Hc : circomlib_ok (circom lib)).
Context (Hhex : forall z, in_field z -> exists t, toBeHex32 lib z = Ok t /\ BigInt t = Ok z).
Context (Hprove : proves T gens lib).

(** circomlib and circomlibjs are the same hash and the same signature: [F.e] reduces, a
    signature that verifies satisfies the circuit's check, its [S] being below the order of
    the subgroup, and the check is off when not enabled. *)
Record agrees : Prop := {
  ag_hash : Poseidon T = poseidon (circom lib);
  ag_element z : F_e (circom lib) z = mod_p z;
  ag_accepts K M R8 S : verifyPoseidon (circom lib) M (R8, S) (prv2pub (circom lib) K) = true ->
    in_field S /\ EdDSAPoseidonVerifier T 1 (prv2pub (circom lib) K) R8 S M = true;
  ag_skips K M : EdDSAPoseidonVerifier T 0 (prv2pub (circom lib) K) IDENTITY 0 M = true;
}.

(** The verifier contract at an address takes the calldata of the proofs of this circuit. *)
Definition verifies_exits (verifier : Z) : Prop := forall i pub proof,
  settlement_witness T gens i = Ok pub -> proveSettlementCircuit lib i = Ok (proof, map toString pub) ->
  exists a b c w, soliditySplit lib proof (map toString pub) = Ok (a, b, c)
    /\ map_result BigInt (a ++ concat b ++ c) = Ok w /\ length w = 8%nat /\ forallb (is_uint 256) w = true
    /\ verifies verifier w pub = Some true.

Context (Hag : agrees).

(** The texts of a key, in decimal. *)
Definition key_text (K : list byte) : string * string :=
  (toString (prv2pub (circom lib) K).1, toString (prv2pub (circom lib) K).2).

(** The server's key [K] signed the note, or is the contract's when nothing was signed. *)
Definition signer_of (n : NoteFile) (s : State) (K : list byte) : Prop :=
  match signedBy n with
  | Some key => key = key_text K
  | None => Credits.serverPublicKey (settings s) = prv2pub (circom lib) K
  end.

Lemma key_signal K : point_signal (key_text K) = Ok (prv2pub (circom lib) K).
Proof.
  destruct (ck_public _ Hc K) as [H1 H2]. unfold point_signal, key_text. cbn [fst snd].
  rewrite !signal_toString by assumption. cbn [rbind]. by rewrite <- surjective_pairing.
Qed.

(** The signals of a certified note satisfy the circuits. *)
Lemma note_signals n o K M : note_ok gens lib n o -> refunds o < 2 ^ 128 -> index o < 2 ^ 32 ->
  (forall key, signedBy n = Some key -> key = key_text K) ->
  M = accumulatorInputs n ->
  exists g R8 S, signal (isGenesis M) = Ok g /\ signal (ai_refunds M) = Ok (refunds o)
    /\ signal (ai_index M) = Ok (index o) /\ signal (ai_blinding M) = Ok (blinding o)
    /\ point_signal (signatureR8x M, signatureR8y M) = Ok R8 /\ signal (signatureS M) = Ok S
    /\ in_field g /\ opening_in_field o /\ certified T gens g o R8 S (prv2pub (circom lib) K).
Proof.
  intros H HR HI Hkey ->. pose proof (ok_opening gens lib n o H) as [(HR0 & HI0 & _ & HB0) HB].
  pose proof FIELD_MODULUS_big as Hbig. pose proof SUBGROUP_ORDER_lt as Hlt.
  destruct (ok_key gens lib n o H) as (k & _ & _ & Hcm). pose proof (ok_text gens lib n o H) as Htext.
  assert (Hf : opening_in_field o) by (repeat split; try lia; rewrite Hcm; apply (ck_poseidon _ Hc)).
  pose proof (ok_signed gens lib n o H) as Hsg. unfold accumulatorInputs. cbn [isGenesis ai_refunds ai_index ai_blinding signatureR8x signatureR8y signatureS].
  rewrite Htext. cbn [t_refunds t_index t_blinding opening_text]. rewrite !signal_toString by apply Hf.
  destruct (signature n) as [sg|], (signedBy n) as [key|] eqn:Ek; try contradiction.
  - rewrite (Hkey key eq_refl) in Hsg. unfold signature_valid in Hsg. apply rbind_ok in Hsg as (r8x & E1 & Hsg).
    apply rbind_ok in Hsg as (r8y & E2 & Hsg). apply rbind_ok in Hsg as (t & E3 & Hsg).
    unfold key_text in Hsg. cbn [fst snd] in Hsg. rewrite !toString_ok in Hsg. cbn [rbind] in Hsg. injection Hsg as Hsg.
    destruct (ck_public _ Hc K) as [H1 H2]. rewrite !(ag_element Hag), (mod_p_small _ H1), (mod_p_small _ H2), <- surjective_pairing in Hsg.
    rewrite (mod_p_small (poseidon _ _)) in Hsg by apply (ck_poseidon _ Hc).
    apply (ag_accepts Hag) in Hsg as [Hst Hv]. exists 0, (mod_p r8x, mod_p r8y), t.
    unfold point_signal, signal. cbn [fst snd]. rewrite E1, E2, E3. unfold rmap. cbn [rbind]. rewrite (mod_p_small t Hst).
    do 6 (split; [reflexivity|]). split; [apply zero_in_field|]. split; [exact Hf|]. split; [by right|exact HR|exact HI|].
    rewrite (ag_hash Hag). exact Hv.
  - destruct Hsg as (Er & Ei & Eb). exists 1, IDENTITY, 0. do 6 (split; [reflexivity|]).
    split; [unfold in_field; lia|]. split; [exact Hf|]. split; [by left|exact HR|exact HI|]. apply (ag_skips Hag).
Qed.

Lemma onchainNote_active n o s : note_ok gens lib n o -> status (note_at (commitment o) s) = Active ->
  exists t, onchainNote lib n (chain_view s)
    = Ok (t, amount (note_at (commitment o) s), leafIndex (note_at (commitment o) s)) /\ BigInt t = Ok (commitment o).
Proof.
  intros H Ha. destruct (note_commitment gens lib Hc Hhex n o H) as (t & Et & Eb & _). exists t. split; [|exact Eb].
  unfold onchainNote, chain_view. rewrite Et. cbn [rbind getNote]. rewrite Eb. cbn [rbind]. rewrite Ha. reflexivity.
Qed.

Lemma serverKey_view s K : Credits.serverPublicKey (settings s) = prv2pub (circom lib) K ->
  serverKey (chain_view s) = Ok (key_text K).
Proof.
  intros H. destruct (ck_public _ Hc K) as [[H1 _] [H2 _]]. unfold serverKey, chain_view, dec, rmap. cbn [serverPublicKey].
  rewrite H. cbn [rbind fst snd]. rewrite !BigInt_hex64 by assumption. reflexivity.
Qed.

Lemma active_amount c s : reachable s -> status (note_at c s) = Active -> 0 <= amount (note_at c s) < 2 ^ 128.
Proof.
  intros Hr Ha. destruct (reachable_sound (Poseidon T) keccak256 verifies chainid this C_MAX SLASH_BOUNTY Hmax s Hr) as (x & _ & Hsd & _).
  apply (ns_amount _ _ _ _ _ (sd_notes _ _ _ _ _ Hsd c _ (note_at_some c s ltac:(congruence)))).
Qed.

(** ** Exits *)

(** The indices a note may have used: those of its accumulator, and the one of a request
    that is not answered yet. *)
Definition used (n : NoteFile) (o : Opening) : Z := index o + match pending n with Some _ => 1 | None => 0 end.

(** The signals of the exit of a note. *)
Definition exit_signals (n : NoteFile) (o : Opening) (k : Z) (K : list byte) (g : Z) (R8 : Point) (S : Z) (to : Z) (s : State) : SettlementSignals :=
  {| st_secretKey := k; st_isGenesis := g; st_refunds := refunds o; st_index := index o; st_blinding := blinding o;
     st_signatureR8 := R8; st_signatureS := S; st_claimedIndex := used n o; st_commitment := commitment o;
     st_deposit := amount (note_at (commitment o) s); st_maxCost := C_MAX; st_serverPublicKey := prv2pub (circom lib) K;
     st_recipient := to; st_signalX := Credits.withdrawalSignalX (Poseidon T) chainid this to |}.

(** An exit of the note that the contract owes: the balance covers what was used, and was
    refunded no more than that. *)
Record exit_due (n : NoteFile) (o : Opening) (K : list byte) (s : State) : Prop := {
  du_note : note_ok gens lib n o;
  du_active : status (note_at (commitment o) s) = Active;
  du_maxCost : C_MAX < 2 ^ 128;
  du_used : used n o < 2 ^ 32;
  du_refunds : refunds o < 2 ^ 128;
  du_covered : used n o * C_MAX <= amount (note_at (commitment o) s) + refunds o;
  du_refunded : refunds o <= used n o * C_MAX;
  du_signer : signer_of n s K;
}.

Lemma dec_toString z t : BigInt t = Ok z -> dec t = Ok (toString z).
Proof. intros H. unfold dec, rmap. by rewrite H. Qed.

Lemma map_result_dec l w : map_result BigInt l = Ok w -> map_result dec l = Ok (map toString w).
Proof.
  revert w. induction l as [|x l IH]; cbn [map_result]; intros w H; [by injection H as <-|].
  apply rbind_ok in H as (y & Hy & H). apply rbind_ok in H as (ys & Hys & H). injection H as <-.
  rewrite (dec_toString y x Hy), (IH ys Hys). reflexivity.
Qed.

Lemma map_result_texts l : map_result BigInt (map toString l) = Ok l.
Proof. induction l as [|x l IH]; cbn [map map_result]; [done|]. rewrite toString_ok. cbn [rbind]. by rewrite IH. Qed.

Lemma withdrawalSignalX_in_field to : in_field (Credits.withdrawalSignalX (Poseidon T) chainid this to).
Proof. apply Ht. Qed.

Lemma address_in_field to : 0 <= to < 2 ^ 160 -> in_field to.
Proof. pose proof FIELD_MODULUS_big. unfold in_field. lia. Qed.

(** The exit the client asks for has a witness. *)
Lemma exit_witness n o K s k to : exit_due n o K s -> 0 <= amount (note_at (commitment o) s) < 2 ^ 128 -> secretKey n = toString k -> in_field k ->
  commitment o = poseidon (circom lib) [k] -> 0 <= to < 2 ^ 160 ->
  exists g R8 S, let e := exit_signals n o k K g R8 S to s in
    settlement_signals_ok e /\ settlement_holds T gens e
    /\ read_settlement {| wi_secretKey := secretKey n; wi_accumulator := accumulatorInputs n;
         wi_claimedIndex := toString (used n o); wi_commitment := toString (commitment o);
         wi_deposit := toString (amount (note_at (commitment o) s)); wi_maxCost := toString C_MAX;
         wi_serverPublicKey := key_text K; wi_recipient := toString to;
         wi_signalX := toString (Credits.withdrawalSignalX (Poseidon T) chainid this to) |} = Ok e.
Proof.
  intros [H Ha Hm Hu HR Hcov Href Hsig] Hd Hk Hkf Hcm Hto. pose proof FIELD_MODULUS_big as Hbig.
  pose proof (ok_opening gens lib n o H) as [(HR0 & HI0 & _ & HB0) HB].
  assert (Hle : index o <= used n o) by (unfold used; destruct (pending n); lia).
  destruct (note_signals n o K (accumulatorInputs n) H HR ltac:(lia)) as (g & R8 & S & E1 & E2 & E3 & E4 & E5 & E6 & Hg0 & Hf & Hce);
    [by intros key Hkey; unfold signer_of in Hsig; rewrite Hkey in Hsig|reflexivity|].
  exists g, R8, S. cbv zeta. split; [|split].
  - unfold exit_signals; split; cbn; try apply Hf; try exact Hg0; unfold in_field; lia.
  - unfold exit_signals. split; cbn; try assumption; try lia.
    + by rewrite (ag_hash Hag).
    + unfold settlement_opening. cbn. by destruct o.
    + unfold settlement_payout. cbn. lia.
  - unfold read_settlement. cbv zeta. cbn [wi_secretKey wi_accumulator wi_claimedIndex wi_commitment wi_deposit wi_maxCost wi_serverPublicKey wi_recipient wi_signalX].
    rewrite Hk, (signal_toString k Hkf). cbn [rbind]. rewrite E1, E2, E3, E4, E5, E6. cbn [rbind].
    rewrite (signal_toString (used n o)) by (unfold in_field; lia). cbn [rbind].
    rewrite (signal_toString (commitment o)) by apply Hf. cbn [rbind].
    rewrite (signal_toString (amount _)) by (unfold in_field; lia). cbn [rbind].
    rewrite (signal_toString C_MAX) by (unfold in_field; lia). cbn [rbind].
    rewrite key_signal. cbn [rbind]. rewrite (signal_toString to) by (by apply address_in_field). cbn [rbind].
    rewrite signal_toString by apply withdrawalSignalX_in_field. reflexivity.
Qed.

(** What [pnpm prove withdrawal] prints is a call the contract accepts. *)
Lemma withdrawal_proved n o K s recipient to address verifier : exit_due n o K s ->
  0 <= amount (note_at (commitment o) s) < 2 ^ 128 -> verifies_exits verifier ->
  BigInt recipient = Ok to -> 0 <= to < 2 ^ 160 -> getAddress lib recipient = Ok address -> BigInt address = Ok to ->
  let p := amount (note_at (commitment o) s) + refunds o - used n o * C_MAX in
  exists args w N y, proveWithdrawal lib n (chain_view s) recipient None = Ok args
    /\ withdrawal_call args = Ok (InitiateWithdrawal (commitment o) to (prv2pub (circom lib) K) w N y p)
    /\ length w = 8%nat /\ forallb (is_uint 256) w = true /\ in_field N /\ in_field y
    /\ verifies verifier w (settlement_signals C_MAX (commitment o) to (prv2pub (circom lib) K) N y p
         (amount (note_at (commitment o) s)) (Credits.withdrawalSignalX (Poseidon T) chainid this to)) = Some true.
Proof.
  intros Hdue Hd Hver Hrec Hto Haddr Hback p. pose proof Hdue as [H Ha _ _ _ _ _ Hsig].
  destruct (ok_key gens lib n o H) as (k & Hk & Hkf & Hcm).
  destruct (exit_witness n o K s k to Hdue Hd Hk Hkf Hcm Hto) as (g & R8 & S & Hok & Hholds & Hread).
  set (e := exit_signals n o k K g R8 S to s) in *.
  pose proof (Settlement_complete T gens Ht Hg e Hok Hholds) as Hset.
  match type of Hread with read_settlement ?i = _ => set (inputs := i) in * end.
  assert (Hw : settlement_witness T gens inputs = Ok (settlement_public e (settlement_outputs T e))).
  { unfold settlement_witness. rewrite Hread. cbn [rbind]. rewrite Hset. reflexivity. }
  destruct (pr_settlement T gens lib Hprove inputs _ Hw) as [proof Hproof].
  destruct (Hver inputs _ proof Hw Hproof) as (a & b & c3 & w & Hsplit & Hwords & Hlen & Hrange & Haccept).
  destruct (onchainNote_active n o s H Ha) as (t & Hon & Ht').
  destruct (ck_public _ Hc K) as [Hx Hy]. destruct (Hhex _ Hx) as (tx & Htx & Htx'). destruct (Hhex _ Hy) as (ty & Hty & Hty').
  assert (Hkey : match signedBy n with Some key => Ok key | None => serverKey (chain_view s) end = Ok (key_text K)).
  { unfold signer_of in Hsig. destruct (signedBy n); [by rewrite Hsig|by apply serverKey_view]. }
  exists {| wa_commitment := t; wa_recipient := address; wa_refundKey := (tx, ty); wa_proof := map toString w;
            wa_nullifier := toString (so_nullifier (settlement_outputs T e)); wa_signalY := toString (so_signalY (settlement_outputs T e));
            wa_payout := toString p |}, w, (so_nullifier (settlement_outputs T e)), (so_signalY (settlement_outputs T e)).
  split; [|split; [|split; [exact Hlen|split; [exact Hrange|split; [apply Ht|split; [apply mod_p_range|]]]]]].
  - unfold proveWithdrawal. rewrite Hon. cbn [rbind]. rewrite (ok_text gens lib n o H). cbn [t_index opening_text].
    rewrite toString_ok. cbn [rbind default]. fold (used n o).
    replace (used n o <? index o) with false by (symmetry; apply Z.ltb_ge; unfold used; destruct (pending n); lia).
    cbn [chain_view NoteClient.C_MAX withdrawalSignalX rbind]. rewrite Hrec. cbn [rbind]. rewrite Hkey. cbn [rbind].
    rewrite (dec_toString _ _ Ht'), (dec_toString _ _ Hrec). cbn [rbind].
    change (proveSettlementCircuit lib _) with (proveSettlementCircuit lib inputs). rewrite Hproof. cbn [rbind].
    rewrite Hsplit. cbn [rbind]. rewrite Haddr. cbn [rbind]. unfold key_text. cbn [fst snd]. rewrite !toString_ok. cbn [rbind].
    rewrite Htx. cbn [rbind]. rewrite Hty. cbn [rbind]. rewrite (map_result_dec _ _ Hwords). reflexivity.
  - unfold withdrawal_call. cbn [wa_commitment wa_recipient wa_refundKey wa_proof wa_nullifier wa_signalY wa_payout fst snd].
    rewrite Ht', Hback, Htx', Hty'. cbn [rbind]. rewrite map_result_texts, !toString_ok. cbn [rbind]. by rewrite <- surjective_pairing.
  - exact Haccept.
Qed.

(** C8: an honest exit, end to end. Take a note the client holds in a certified state, open
    on the contract, whose refunds stay within its use, and whose signer the contract has
    accepted, whatever key it has now. The withdrawal the client proves, read as a call, is
    accepted by the contract in any state of its settings, paused or not; and whatever is
    sent then, unless the note is slashed, exactly [D + R - n C_MAX] reaches the recipient,
    or anyone can have it sent once three days have passed. *)
Theorem honest_exit_is_paid n o K s recipient to address m cb :
  reachable s -> exit_due n o K s -> verifies_exits (settlementVerifier (settings s)) ->
  _refundKeyId keccak256 (prv2pub (circom lib) K).1 (prv2pub (circom lib) K).2 ∈ acceptedRefundKeys (settings s) ->
  BigInt recipient = Ok to -> 0 < to < 2 ^ 160 -> getAddress lib recipient = Ok address -> BigInt address = Ok to ->
  value m = 0 -> 0 <= timestamp m + CHALLENGE_WINDOW < 2 ^ 256 ->
  let c := commitment o in
  let p := amount (note_at c s) + refunds o - used n o * C_MAX in
  exists args call s1, proveWithdrawal lib n (chain_view s) recipient None = Ok args
    /\ withdrawal_call args = Ok call /\ transact m cb (Guarded call) s = Returns (s1, tt)
    /\ forall l, Forall (fun a => ~ slashes (Poseidon T) c a) l ->
       let s2 := run l s1 in
       In (WithdrawalFinalized c to p) (events s2)
       \/ forall m' cb', timestamp m + CHALLENGE_WINDOW <= timestamp m' -> value m' = 0 -> cb'.2 = true -> balance s2 < 2 ^ 256 ->
            exists s3, transact m' cb' (Guarded (FinalizeWithdrawal c)) s2 = Returns (s3, tt)
              /\ In (WithdrawalFinalized c to p) (events s3) /\ balance s3 = balance s2 - p.
Proof.
  intros Hr Hdue Hver Hkey Hrec Hto Haddr Hback Hv Htime c p. pose proof Hdue as [H Ha Hm _ HR Hcov Href _].
  pose proof (active_amount c s Hr Ha) as Hd.
  destruct (withdrawal_proved n o K s recipient to address _ Hdue Hd Hver Hrec ltac:(lia) Haddr Hback)
    as (args & w & N & y & Hargs & Hcall & Hlen & Hrange & HN & Hy & Hacc). fold c p in Hcall, Hacc.
  assert (Hc256 : is_uint 256 c = true /\ decodes (Guarded (InitiateWithdrawal c to (prv2pub (circom lib) K) w N y p)) = true).
  { assert (Hp : FIELD_MODULUS < 2 ^ 256) by (apply Z.ltb_lt; vm_compute; reflexivity).
    assert (Hf : forall z, in_field z -> is_uint 256 z = true).
    { intros z [Hz0 Hz]. apply in_uint256. split; [exact Hz0|]. exact (Z.lt_trans _ _ _ Hz Hp). }
    destruct (ok_key gens lib n o H) as (k & _ & _ & Hcm). destruct (ck_public _ Hc K) as [Hkx Hky].
    assert (Hcf : is_uint 256 c = true) by (apply Hf; unfold c; rewrite Hcm; apply (ck_poseidon _ Hc)).
    split; [exact Hcf|]. cbn [decodes]. rewrite Hcf, (Hf _ Hkx), (Hf _ Hky), (Hf _ HN), (Hf _ Hy), Hrange, Hlen. cbn [andb Nat.eqb].
    rewrite !andb_true_r. apply andb_true_iff. unfold is_uint. split; apply andb_true_iff; (split; [apply Z.leb_le|apply Z.ltb_lt]); unfold p in *; fold c in Hd, Hcov; lia. }
  destruct Hc256 as [Hc256 Hdec].
  destruct (exit_starts (Poseidon T) keccak256 verifies chainid this C_MAX SLASH_BOUNTY Hmax m cb c to (prv2pub (circom lib) K) w N y p s)
    as (s1 & Htx & Hr1 & He1); try assumption; [lia|unfold p; lia|].
  exists args, (InitiateWithdrawal c to (prv2pub (circom lib) K) w N y p), s1. do 3 (split; [assumption|]). intros l Hl.
  exact (exit_goes_on (Poseidon T) keccak256 verifies chainid this C_MAX SLASH_BOUNTY Hmax c _ s1 l Hr1 He1 Hc256 Hl).
Qed.

(** ** Requests *)

Context (sha256 : list byte -> list byte).

Lemma root_of_path leaf path : root_of T leaf path = path_root (Poseidon T) leaf path.
Proof. revert leaf. induction path as [|[e s] path IH]; intros leaf; cbn [root_of path_root]; [done|]. apply IH. Qed.

Lemma dec_texts l : Forall in_field l -> map_result dec (map hex64 l) = Ok (map toString l).
Proof.
  induction 1 as [|z l [Hz _] _ IH]; cbn [map map_result]; [done|].
  rewrite (dec_toString z _ (BigInt_hex64 z Hz)), IH. reflexivity.
Qed.

Lemma array_texts n l : length l = n -> Forall in_field l -> array_signal n (map toString l) = Ok l.
Proof.
  intros Hn Hl. unfold array_signal. rewrite length_map, Hn, Nat.eqb_refl. clear Hn.
  induction Hl as [|z l Hz _ IH]; cbn [map map_result]; [done|]. rewrite (signal_toString z Hz), IH. reflexivity.
Qed.

Lemma randomBelow_ok bound bytes : bytes <> [] -> exists z, randomBelow bound bytes = Ok z.
Proof. intros H. unfold randomBelow. rewrite (BigInt_to_hex bytes H). by eexists. Qed.

Lemma payloadSignalX_ok payload nonce : (forall l, sha256 l <> []) ->
  exists d, payloadSignalX sha256 (poseidon (circom lib)) payload nonce = Ok (poseidon (circom lib) [d; nonce]).
Proof.
  intros H. unfold payloadSignalX, payloadDigest. rewrite (BigInt_to_hex _ (H _)). cbn [rbind]. by eexists.
Qed.

(** What the client sends of a proof can be printed. *)
Lemma wire_prints proof b0 b1 rest : g_b proof = b0 :: b1 :: rest ->
  exists w t, wire proof = Ok w /\ JSON_stringify w = Some t.
Proof.
  intros E. unfold wire, nested. rewrite E. cbn [lookup list_lookup of_option rbind]. eexists.
  assert (Hj : forall l i, exists t, JSON_stringify (json_at l i) = Some t).
  { intros l i. unfold json_at. destruct (l !! i); cbn [JSON_stringify]; by eexists. }
  destruct (Hj (g_a proof) 0%nat) as [t1 H1], (Hj (g_a proof) 1%nat) as [t2 H2], (Hj b0 1%nat) as [t3 H3], (Hj b0 0%nat) as [t4 H4].
  destruct (Hj b1 1%nat) as [t5 H5], (Hj b1 0%nat) as [t6 H6], (Hj (g_c proof) 0%nat) as [t7 H7], (Hj (g_c proof) 1%nat) as [t8 H8].
  eexists. split; [reflexivity|]. cbn [JSON_stringify mbind option_bind].
  rewrite H1, H2, H3, H4, H5, H6, H7, H8. cbn [mbind option_bind]. reflexivity.
Qed.

(** The request the client asks for has a witness under the newest root. *)
Lemma request_proved n o K s elements sides k x s' :
  reachable_nonzero s ->
  note_ok gens lib n o -> status (note_at (commitment o) s) = Active ->
  C_MAX < 2 ^ 128 -> refunds o < 2 ^ 128 -> index o < 2 ^ 32 ->
  (index o + 1) * C_MAX <= amount (note_at (commitment o) s) + refunds o ->
  (forall key, signedBy n = Some key -> key = key_text K) ->
  Credits.getMerkleProof (Poseidon T) (leafIndex (note_at (commitment o) s)) s = Some (elements, sides) ->
  secretKey n = toString k -> in_field k -> commitment o = poseidon (circom lib) [k] -> in_field x -> in_field s' ->
  exists proof b0 b1 pub, proveRequestCircuit lib
    {| ri_secretKey := secretKey n; ri_deposit := toString (amount (note_at (commitment o) s));
       merklePathElements := map toString elements; merklePathIndices := map toString sides;
       ri_accumulator := accumulatorInputs n; ri_rerandomizer := toString s';
       ri_merkleRoot := toString (Credits.merkleRoot (tree s)); ri_maxCost := toString C_MAX; ri_signalX := toString x;
       ri_serverPublicKey := key_text K |} = Ok (proof, map toString pub)
    /\ g_b proof = [b0; b1; ["1"; "0"]%string].
Proof.
  intros Hnz H Ha Hm HR HI Hcov Hkey Hpath Hk Hkf Hcm Hx Hs'. pose proof FIELD_MODULUS_big as Hbig.
  pose proof (nonzero_reachable _ _ _ _ _ _ _ s Hnz) as Hr.
  pose proof (active_amount _ s Hr Ha) as Hd.
  destruct (active_note_proved (Poseidon T) keccak256 verifies chainid this C_MAX SLASH_BOUNTY Hmax s (commitment o) Hnz Ha)
    as (elements' & sides' & E & Hl1 & Hl2 & Hroot). rewrite Hpath in E. injection E as <- <-.
  destruct (path_elements (Poseidon T) keccak256 verifies chainid this C_MAX SLASH_BOUNTY Hmax in_field s (commitment o) elements sides
              zero_in_field (fun a b => tk_poseidon T gens Ht [a; b]) Hnz Ha Hpath) as [Hel Hsd].
  assert (Hsf : Forall in_field sides) by (eapply Forall_impl; [exact Hsd|]; intros z Hz; unfold in_field; destruct Hz; lia).
  destruct (note_signals n o K (accumulatorInputs n) H HR HI Hkey eq_refl) as (g & R8 & S & E1 & E2 & E3 & E4 & E5 & E6 & Hg0 & Hf & Hce).
  set (r := {| rq_secretKey := k; rq_deposit := amount (note_at (commitment o) s); rq_pathElements := elements; rq_pathIndices := sides;
               rq_isGenesis := g; rq_refunds := refunds o; rq_index := index o; rq_blinding := blinding o; rq_signatureR8 := R8;
               rq_signatureS := S; rq_rerandomizer := s'; rq_merkleRoot := Credits.merkleRoot (tree s); rq_maxCost := C_MAX;
               rq_signalX := x; rq_serverPublicKey := prv2pub (circom lib) K |}).
  assert (Hrf : in_field (Credits.merkleRoot (tree s))).
  { rewrite <- Hroot, <- root_of_path. apply (root_of_in_field T gens Ht), Ht. }
  assert (Hok : request_signals_ok r) by (split; cbn; try apply Hf; try assumption; try (unfold in_field; lia); congruence).
  assert (Hop : request_opening T r = o) by (unfold request_opening; cbn; rewrite (ag_hash Hag), <- Hcm; by destruct o).
  assert (Hh : request_holds T gens r).
  { split; cbn; try assumption; try lia.
    - unfold request_path. cbn. rewrite root_of_path, (ag_hash Hag), <- Hcm. rewrite (ag_hash Hag) in Hroot. exact Hroot.
    - by rewrite Hop. }
  match goal with |- exists proof b0 b1 pub, proveRequestCircuit lib ?i = _ /\ _ => set (inputs := i) end.
  assert (Hread : read_request inputs = Ok r).
  { unfold read_request. cbv zeta. cbn [inputs ri_secretKey ri_deposit merklePathElements merklePathIndices ri_accumulator ri_rerandomizer ri_merkleRoot ri_maxCost ri_signalX ri_serverPublicKey].
    rewrite Hk, (signal_toString k Hkf). cbn [rbind]. rewrite (signal_toString (amount _)) by (unfold in_field; lia). cbn [rbind].
    rewrite (array_texts Circuits.TREE_DEPTH elements Hl1 Hel). cbn [rbind]. rewrite (array_texts Circuits.TREE_DEPTH sides Hl2 Hsf). cbn [rbind].
    rewrite E1, E2, E3, E4, E5, E6. cbn [rbind]. rewrite (signal_toString s' Hs'). cbn [rbind].
    rewrite (signal_toString _ Hrf). cbn [rbind]. rewrite (signal_toString C_MAX) by (unfold in_field; lia). cbn [rbind].
    rewrite (signal_toString x Hx). cbn [rbind]. rewrite key_signal. reflexivity. }
  assert (Hw : request_witness T gens inputs = Ok (request_public r (request_outputs T gens r))).
  { unfold request_witness. rewrite Hread. cbn [rbind]. rewrite (Request_complete T gens Ht Hg r Hok Hh). reflexivity. }
  destruct (pr_request T gens lib Hprove inputs _ Hw) as (proof & b0 & b1 & Hp & Hb). by exists proof, b0, b1, (request_public r (request_outputs T gens r)).
Qed.

End Honest.
End Whole.
