(* ===== verification/SystemFixture.v ===== *)
(** * A small system

    Client, circuits and contract with toy hashes and signatures, around the generators of
    the circuits: the theorems of [System] on a note of 100 wei. *)

From Stdlib Require Import String.
From S2P Require Import Prelude Field JsText FieldElement HexText Accumulator Slashing Gateway RefundSigner.
From S2P Require Import Credits CreditsLedger CreditsHistory CreditsTree.
From S2P Require Import NoteClient NoteProtocol Circuits Proving System.
Open Scope Z_scope.

(** ** Libraries *)

Definition small_verify (M : Z) (sg : (Z * Z) * Z) (key : Z * Z) : bool :=
  (sg.1.2 =? M) && (0 <=? sg.2) && (sg.2 <? 1000) && (key.1 =? 2) && (key.2 =? 3).

Definition small_circomlib : Circomlib :=
  {| poseidon := toy_poseidon; prv2pub := fun _ => (2, 3); signPoseidon := fun _ m => ((4, mod_p m), 6);
     verifyPoseidon := small_verify; F_e := mod_p; F_toString16 := toString16 |}.

Lemma small_circomlib_ok : circomlib_ok small_circomlib.
Proof.
  split; cbn [poseidon prv2pub signPoseidon verifyPoseidon F_e F_toString16 small_circomlib fst snd].
  - apply toy_poseidon_in_field.
  - intros _. split; apply small_in_field; lia.
  - intros _ m. split; [apply small_in_field; lia|]. split; [apply mod_p_range|lia].
  - intros _ m Hm. unfold small_verify. cbn [fst snd]. rewrite mod_p_small by exact Hm. by rewrite Z.eqb_refl.
  - intros z Hz. by apply mod_p_small.
  - done.
Qed.

Definition small_templates : Templates :=
  plain_templates toy_poseidon (fun enabled A R8 S M => (enabled =? 0) || small_verify M (R8, S) A).

Lemma small_templates_ok : templates_ok small_templates circuit_generators.
Proof. apply plain_templates_ok, toy_poseidon_in_field. Qed.

Definition small_proof : Groth16Proof :=
  {| g_a := ["11"; "12"; "1"]; g_b := [["21"; "22"]; ["23"; "24"]; ["1"; "0"]]; g_c := ["31"; "32"; "1"] |}%string.

Definition small_libraries : Libraries :=
  {| circom := small_circomlib;
     proveRequestCircuit i := let* pub := request_witness small_templates circuit_generators i in Ok (small_proof, map toString pub);
     proveSettlementCircuit i := let* pub := settlement_witness small_templates circuit_generators i in Ok (small_proof, map toString pub);
     soliditySplit := fun _ _ => Ok (["1"; "2"], [["3"; "4"]; ["5"; "6"]], ["7"; "8"])%string;
     toBeHex32 z := Ok (hex64 z); getAddress a := Ok a |}.

Lemma small_hex z : in_field z -> exists t, toBeHex32 small_libraries z = Ok t /\ BigInt t = Ok z.
Proof. intros [Hz _]. exists (hex64 z). split; [reflexivity|]. by apply BigInt_hex64. Qed.

Lemma small_proves : proves small_templates circuit_generators small_libraries.
Proof.
  split; unfold small_libraries; cbn [proveRequestCircuit proveSettlementCircuit].
  - intros i pub ->. cbn [rbind]. by exists small_proof, ["21"; "22"]%string, ["23"; "24"]%string.
  - intros i proof signals H. apply rbind_ok in H as (pub & Hp & H). injection H as _ <-. by exists pub.
  - intros i pub ->. cbn [rbind]. by exists small_proof.
Qed.

Lemma small_agrees : agrees small_templates small_libraries.
Proof.
  split; cbn [small_libraries circom small_circomlib poseidon F_e prv2pub verifyPoseidon]; try done.
  intros _ M R8 S H. split.
  - unfold small_verify in H. cbn [fst snd] in H. repeat (apply andb_true_iff in H as [H ?]).
    apply small_in_field. split; [by apply Z.leb_le|]. enough (S < 1000) by lia. by apply Z.ltb_lt.
  - change (small_verify M (R8, S) (2, 3) = true). exact H.
Qed.

(** ** The contract: C_MAX is 40, the bounty 2, one note of 100 for the key 5 *)

Definition small_keccak (l : list byte) : Z := Z.of_nat (length l).
Definition small_verifies (verifier : Z) (proof signals : list Z) : option bool := Some true.

Abbreviation small_run := (run toy_poseidon small_keccak small_verifies 1 77 40 2).
Abbreviation small_transact := (transact toy_poseidon small_keccak small_verifies 1 77 40 2).

Definition small_commitment : Z := toy_poseidon [5].

Definition small_opening_call : action :=
  Transaction {| sender := 9; value := 100; timestamp := 100 |} ([], true) (Guarded (Deposit small_commitment)).

Definition small_deployment : outcome State :=
  constructor toy_poseidon small_keccak {| sender := 1; value := 0; timestamp := 0 |} 6 2 3 99.

Definition small_deployed : State :=
  match small_deployment with
  | Returns s => s
  | Reverts _ => {| book := {| notes := ∅; exits := ∅; pausedTimeAtDeposit := ∅; operatorBalance := 0 |};
      tree := {| leaves := []; treeNodes := ∅; Credits.merkleRoot := 0; roots := []; currentRootIndex := 0 |};
      settings := {| owner := 0; serverAddress := 0; Credits.serverPublicKey := (0, 0); acceptedRefundKeys := ∅;
                     settlementVerifier := 0; pendingChanges := fun _ => no_change; paused := false; totalPausedTime := 0; pausedAt := 0 |};
      entered := false; balance := 0; events := [] |}
  end.

Definition small_state : State := small_run [small_opening_call] small_deployed.

Lemma small_reachable : reachable toy_poseidon small_keccak small_verifies 1 77 40 2 small_state.
Proof. eexists _, 6, 2, 3, 99, small_deployed, [small_opening_call]. split; reflexivity. Qed.

Lemma small_nonzero : reachable_nonzero toy_poseidon small_keccak small_verifies 1 77 40 2 small_state.
Proof.
  apply (nonzero_act _ _ _ _ _ _ _ small_deployed small_opening_call);
    [exact (nonzero_deployed _ _ _ _ _ _ _ {| sender := 1; value := 0; timestamp := 0 |} 6 2 3 99 small_deployed eq_refl)|].
  apply (bool_decide_unpack _). vm_compute. exact I.
Qed.

Lemma small_active : status (note_at small_commitment small_state) = Active.
Proof. vm_compute. reflexivity. Qed.

Lemma small_amount : amount (note_at small_commitment small_state) = 100.
Proof. vm_compute. reflexivity. Qed.

(** ** The note *)

Definition small_opening : Opening := {| refunds := 0; index := 0; commitment := small_commitment; blinding := 0 |}.

(** A fresh note, with or without a request that is not answered. *)
Definition small_note (p : option Pending) : NoteFile :=
  {| secretKey := "5"; rpcUrl := "rpc"; contract := "0xc"; opening := {| t_refunds := "0"; t_index := "0"; t_blinding := "0" |};
     signature := None; signedBy := None; pending := p |}.

Definition small_pending : Pending :=
  {| rerandomizer := "7";
     body := {| req_payload := []; req_nonce := "1"; req_nullifier := "2"; req_signal := {| signal_x := "3"; signal_y := "4" |};
                req_proof := []; req_merkleRoot := "5"; req_accumulator := {| acc_x := "6"; acc_y := "7" |}; req_model := None |} |}.

Lemma small_note_ok p : p = None \/ p = Some small_pending -> note_ok circuit_generators small_libraries (small_note p) small_opening.
Proof.
  intros Hp. split; cbn [opening signature signedBy pending secretKey small_note].
  - reflexivity.
  - split; [|exact eq_refl]. repeat split; cbn [refunds index commitment blinding small_opening]; try lia. apply toy_poseidon_in_field.
  - exists 5. split; [reflexivity|]. split; [apply small_in_field; lia|reflexivity].
  - by split.
  - destruct Hp as [-> | ->]; [done|]. exists 7. split; [reflexivity|]. split; [lia|exact eq_refl].
Qed.


Lemma honest_exit_is_paid_witness : exists args call s1,
  proveWithdrawal small_libraries (small_note (Some small_pending)) (chain_view small_templates 1 77 40 small_state) "0x9" None = Ok args
  /\ withdrawal_call args = Ok call
  /\ small_transact {| sender := 9; value := 0; timestamp := 200 |} ([], true) (Guarded call) small_state = Returns (s1, tt).
Proof.
  destruct (honest_exit_is_paid small_templates circuit_generators small_templates_ok circuit_generators_ok
              small_keccak small_verifies 1 77 40 2 ltac:(lia) small_libraries small_circomlib_ok small_hex small_proves small_agrees
              (small_note (Some small_pending)) small_opening [] small_state "0x9"%string 9 "0x9"%string
              {| sender := 9; value := 0; timestamp := 200 |} ([], true))
    as (args & call & s1 & H1 & H2 & H3 & _).
  - exact small_reachable.
  - split; cbn [commitment refunds small_opening]; unfold used; cbn [index pending small_note small_opening];
      rewrite ?small_amount; try lia.
    + apply small_note_ok. by right.
    + exact small_active.
    + vm_compute. reflexivity.
  - intros i pub proof _ _. do 3 eexists. exists [1; 2; 3; 4; 5; 6; 7; 8]. split; [reflexivity|]. split; [reflexivity|].
    split; [reflexivity|]. split; [vm_compute; reflexivity|reflexivity].
  - apply (bool_decide_unpack _). vm_compute. exact I.
  - reflexivity.
  - lia.
  - reflexivity.
  - reflexivity.
  - reflexivity.
  - unfold CHALLENGE_WINDOW. cbn [timestamp]. lia.
  - exists args, call, s1. split; [exact H1|]. split; [exact H2|exact H3].
Defined.

(** ** The first index used twice: for a request, and for an exit that hides it *)

Definition small_path : list (Z * Z) := repeat (3, 1) Circuits.TREE_DEPTH.

Definition first_request : RequestSignals :=
  {| rq_secretKey := 5; rq_deposit := 100; rq_pathElements := repeat 3 Circuits.TREE_DEPTH;
     rq_pathIndices := repeat 1 Circuits.TREE_DEPTH; rq_isGenesis := 1; rq_refunds := 0; rq_index := 0; rq_blinding := 0;
     rq_signatureR8 := IDENTITY; rq_signatureS := 0; rq_rerandomizer := 9;
     rq_merkleRoot := root_of small_templates (toy_poseidon [small_commitment; 100]) small_path;
     rq_maxCost := 40; rq_signalX := 6; rq_serverPublicKey := (2, 3) |}.

Definition hiding_exit : SettlementSignals :=
  {| st_secretKey := 5; st_isGenesis := 1; st_refunds := 0; st_index := 0; st_blinding := 0; st_signatureR8 := IDENTITY;
     st_signatureS := 0; st_claimedIndex := 0; st_commitment := small_commitment; st_deposit := 100; st_maxCost := 40;
     st_serverPublicKey := (2, 3); st_recipient := 11; st_signalX := 12 |}.

Ltac small_numbers :=
  first [ apply small_in_field; split; [apply Z.leb_le|apply Z.ltb_lt]; vm_compute; reflexivity
        | apply Z.leb_le; vm_compute; reflexivity
        | apply Z.ltb_lt; vm_compute; reflexivity ].

Lemma first_request_published : let o := request_outputs small_templates circuit_generators first_request in
  published small_templates circuit_generators 5 0 6 (ro_nullifier o) (ro_signalY o).
Proof.
  intros o. assert (Hok : request_signals_ok first_request).
  { split; try small_numbers; [reflexivity|].
    apply Forall_forall. intros x Hx%list_elem_of_In%repeat_spec. subst x. apply small_in_field. lia. }
  apply (by_request _ _ _ _ _ first_request o Hok); [|reflexivity..].
  apply (Request_complete _ _ small_templates_ok circuit_generators_ok _ Hok). split; try small_numbers.
  - reflexivity.
  - apply Forall_forall. intros x Hx%list_elem_of_In%repeat_spec. by right.
  - split; [by left|small_numbers|small_numbers|reflexivity].
Qed.

Lemma hiding_exit_published : let o := settlement_outputs small_templates hiding_exit in
  published small_templates circuit_generators 5 0 12 (so_nullifier o) (so_signalY o).
Proof.
  intros o. assert (Hok : settlement_signals_ok hiding_exit) by (split; small_numbers).
  apply (by_exit _ _ _ _ _ hiding_exit o Hok); [|reflexivity..].
  apply (Settlement_complete _ _ small_templates_ok circuit_generators_ok _ Hok). split; try small_numbers.
  - reflexivity.
  - split; [by left|small_numbers|small_numbers|reflexivity].
Qed.

Definition small_slasher : Slasher :=
  {| getSigner := Some "0x1"%string; getContractAddress := Some "0x4d"%string; submit := fun _ => Ok "0x2"%string; confirm := fun _ => Ok tt |}.

Lemma index_used_twice_is_slashed_witness : exists y1 y2 s',
  slashRevealed small_slasher {| st_x := "6"; st_y := y1 |} {| st_x := "12"; st_y := y2 |} = [5]
  /\ small_transact {| sender := 9; value := 0; timestamp := 300 |} ([], true) (Guarded (Slash 5)) small_state = Returns (s', tt)
  /\ balance s' = 98.
Proof.
  destruct (index_used_twice_is_slashed small_templates circuit_generators small_templates_ok circuit_generators_ok
              small_keccak small_verifies 1 77 40 2 ltac:(lia) ltac:(lia) 5 0 6 _ _ 12 _ _ small_slasher
              {| sender := 9; value := 0; timestamp := 300 |} ([], true) small_state
              first_request_published hiding_exit_published) as (_ & H1 & s' & H2 & _ & H3 & _).
  - apply small_in_field. lia.
  - apply small_in_field. lia.
  - apply small_in_field. lia.
  - lia.
  - reflexivity.
  - exact small_reachable.
  - left. exact small_active.
  - reflexivity.
  - apply Z.ltb_lt. vm_compute. reflexivity.
  - reflexivity.
  - do 2 eexists. exists s'. split; [exact H1|]. split; [exact H2|]. rewrite H3. vm_compute. reflexivity.
Defined.
