(* ===== verification/Solvency.v ===== *)
(** * What stands behind a request that is served

    From the gateway through the proof verifier, the circuit and the contract: the provider
    is called only for a request that a note of the contract can pay for. *)

From Stdlib Require Import Ascii String.
From S2P Require Import Prelude JsText JsNumber FieldElement Field Profile Json Accumulator RefundSigner ProofVerifier ClaudePricing Gateway.
From S2P Require Import NullifierStore EthRate GatewayWorld NoteProtocol Blockchain.
From S2P Require Import Credits CreditsLedger CreditsTree CreditsMembership Circuits.
Open Scope Z_scope.

(** ** Reading a root *)

Definition binary_prefix (s : string) : bool := startsWith s "0b" || startsWith s "0B".

Lemma parse_digits_none l : forallb is_digit l = false -> parse_digits l = None.
Proof. destruct l as [|c l]; [done|]. unfold parse_digits. by intros ->. Qed.

Lemma hex_digit_code c : is_hex_digit c = true -> (48 <= code c <= 57 \/ 97 <= code c <= 102 \/ 65 <= code c <= 70)
  /\ (code (lower c) = 98 -> c = "b"%char \/ c = "B"%char) /\ code (lower c) <> 120 /\ code (lower c) <> 111.
Proof.
  intros H. split.
  - unfold is_hex_digit, is_digit, between in H. lia.
  - revert H. destruct c as [[] [] [] [] [] [] [] []]; intros H; vm_compute in H; try discriminate H;
      vm_compute; (split; [|split]; try discriminate; auto).
Qed.

(** [BigInt] takes no hexadecimal without its prefix, except what it reads in binary. *)
Lemma BigInt_bare_hex s : chars s <> [] -> forallb is_hex_digit (chars s) = true -> forallb is_digit (chars s) = false ->
  binary_prefix s = false -> BigInt_of_string s = None.
Proof.
  intros Hne Hh Hd Hb. unfold BigInt_of_string. rewrite trim_printable by (by apply hex_printable).
  unfold binary_prefix, startsWith in Hb. destruct (chars s) as [|c0 [|c1 l]]; [done|by apply parse_digits_none|].
  cbn [forallb] in Hh. apply andb_true_iff in Hh as [H0 Hh]. apply andb_true_iff in Hh as [H1 _].
  apply hex_digit_code in H0 as (R0 & _). apply hex_digit_code in H1 as (R1 & Hbin & Hx & Ho).
  rewrite (proj2 (Z.eqb_neq _ _) Hx), (proj2 (Z.eqb_neq _ _) Ho), !andb_false_r.
  rewrite (proj2 (Z.eqb_neq (code c0) 45) ltac:(lia)), (proj2 (Z.eqb_neq (code c0) 43) ltac:(lia)).
  destruct (Z.eqb_spec (code c0) 48) as [E0|]; cbn [andb]; [|by apply parse_digits_none].
  destruct (Z.eqb_spec (code (lower c1)) 98) as [E1|]; [|by apply parse_digits_none].
  assert (Hc0 : c0 = "0"%char) by (apply code_inj; exact E0). subst c0.
  by destruct (Hbin E1) as [-> | ->].
Qed.

Lemma reading_printable s : reading s -> printable (chars s).
Proof.
  assert (Hp : forall p l, forallb is_hex_digit l = true -> printable (chars p) -> printable (chars p ++ l)).
  { intros p l Hl Hp. apply Forall_app. split; [exact Hp|by apply hex_printable]. }
  intros [l -> _ Hl|_ Hl _|_ Hl|l -> _ Hl].
  - apply Hp; [exact Hl|]. repeat (constructor; [vm_compute; split; discriminate|]). constructor.
  - by apply hex_printable.
  - by apply hex_printable, digits_are_hex.
  - apply Hp; [by apply digits_are_hex|]. repeat (constructor; [vm_compute; split; discriminate|]). constructor.
Qed.

(** On a root the DTO accepts, the reader of the contract and the verifier's agree, but for
    the texts [BigInt] reads in binary. *)
Lemma root_readers_agree s z : IsFieldElement s = true -> binary_prefix s = false ->
  BigInt s = Ok z -> 0 <= z -> toBigInt s = Ok z.
Proof.
  unfold IsFieldElement. intros [Hlen H]%andb_true_iff Hb Hz Hz0. apply andb_true_iff in Hlen as [Hlen _]. apply negb_true_iff in Hlen.
  apply pattern_reading in H. unfold toBigInt. rewrite Hlen, trim_printable by (by apply reading_printable).
  destruct (startsWith s "0x" || startsWith s "-0x") eqn:Hx; [exact Hz|].
  match goal with |- context [if ?b then _ else _] => destruct b eqn:Hd end.
  { rewrite Hz. cbn [rbind]. by destruct (Z.ltb_spec z 0); [lia|]. }
  exfalso. destruct H as [l Hs Hne Hl|Hne Hl Hn|Hne Hl|l Hs Hne Hl].
  - unfold startsWith in Hx. by rewrite Hs, chars_prefix_app in Hx.
  - unfold BigInt in Hz. by rewrite BigInt_bare_hex in Hz.
  - unfold after_prefix in Hd. rewrite hex_no_prefix in Hd by (done || by apply digits_are_hex).
    unfold all_digits, str_all in Hd. by rewrite Hl, nonempty_ne in Hd.
  - by rewrite Hs, after_prefix_app, Hl, nonempty_ne in Hd.
Qed.

(** There they differ: the contract is asked about the root 3, and the proof is verified
    against 2833. *)
Example root_read_twice : IsFieldElement "0b11" = true /\ BigInt "0b11" = Ok 3 /\ toBigInt "0b11" = Ok 2833.
Proof. vm_compute. done. Qed.

Lemma toBigInt_toString z : 0 <= z -> toBigInt (toString z) = Ok z.
Proof.
  intros Hz. destruct (dec_digits_text z Hz) as (l & E & Hne & Hd). rewrite <- E in Hne, Hd.
  destruct (reading_dec (toString z) Hne Hd) as (n & _ & Hp & ->). rewrite parse_toString in Hp by exact Hz. congruence.
Qed.

Lemma map_result_cons {A B} (f : A -> result B) x l y ys : map_result f (x :: l) = Ok (y :: ys) -> f x = Ok y /\ map_result f l = Ok ys.
Proof.
  cbn [map_result]. intros H. apply rbind_ok in H as (y' & Hy & H). apply rbind_ok in H as (ys' & Hys & H). injection H as -> ->. by split.
Qed.

(** ** What a run keeps of the verifier *)

Section Verifier.
Context (groth16_verify : jsv -> list string -> snarkjs_proof -> result bool) (files : artifacts).

Lemma inner_snark sr d p v : snark (verifyAgainstChainAndCircuit groth16_verify files sr d p v).1 = snark v.
Proof.
  unfold verifyAgainstChainAndCircuit, ProofVerifier.isAvailable.
  destruct (ProofVerifier.isKnownRoot sr (pi_merkleRoot p)) as [[[]|]|]; try done;
    cbn [snark count_verification];
    (destruct (isSetup (snark v)) eqn:Ha; [|done]); cbn [negb];
    (destruct (public_signals sr p); [|done]);
    rewrite verifyProof_available by exact Ha; by destruct (match rbind _ _ with Ok _ => _ | Throw _ => _ end).
Qed.

Lemma verify_snark sr proof p v : snark (verify groth16_verify files sr proof p v).1 = snark v.
Proof.
  destruct (verify_cases groth16_verify files sr proof p v) as [[E _]|(d & l & _ & _ & _ & E)]; rewrite E; [done|].
  pose proof (inner_snark sr d p (with_limiter l v)) as H.
  by destruct (verifyAgainstChainAndCircuit _ _ _ _ _ _) as [v' r].
Qed.
End Verifier.

(** ** The answers in the log of a run *)

Section Answers.
Context {E : Type -> Type} {W : Type} (handle : forall X, E X -> W -> W * X).

(** The answer of an event is the one of the world [w]. *)
Definition answered (w : W) (e : event E) : Prop := match e with Ev op x => (handle _ op w).2 = x end.

(** Each was given in a world that satisfies what every operation keeps. *)
Lemma run_log_answered (I : W -> Prop) : (forall X (op : E X) w, I w -> I (handle X op w).1) ->
  forall A (p : prog E A) w w' a log e, run_log handle p w = (w', a, log) -> I w -> e ∈ log ->
  exists w1, I w1 /\ answered w1 e.
Proof.
  intros Hop A p. induction p as [a|Y op k IH]; intros w w' b log e H Hw Hin; cbn [run_log] in H.
  - injection H as _ _ <-. by apply not_elem_of_nil in Hin.
  - pose proof (Hop Y op w Hw) as Hw1. destruct (handle Y op w) as [w1 y] eqn:Eh.
    destruct (run_log handle (k y) w1) as [[w2 a2] log2] eqn:Er. injection H as <- <- <-.
    apply elem_of_cons in Hin as [-> |Hin]; [|by eapply IH].
    exists w. split; [exact Hw|]. cbn [answered]. by rewrite Eh.
Qed.
End Answers.

(** ** A request that is served *)

Section Served.
Context (T : Templates) (gens : Generators) (Ht : templates_ok T gens) (Hg : generators_ok gens).
Context (keccak256 : list byte -> Z) (verifies : Z -> list Z -> list Z -> option bool).
Context (chainid this C_MAX SLASH_BOUNTY : Z) (Hmax : 0 <= C_MAX).
Context (sha256 : list byte -> list byte) (apiKey : bool) (out : Outside).
(** ethers: a 32 byte text is read back. *)
Context (toBeHex32 : Z -> result string) (Hhex : forall z t, toBeHex32 z = Ok t -> 0 <= z /\ BigInt t = Ok z).

Abbreviation run := (Credits.run (Poseidon T) keccak256 verifies chainid this C_MAX SLASH_BOUNTY).
Abbreviation reachable_nonzero := (CreditsTree.reachable_nonzero (Poseidon T) keccak256 verifies chainid this C_MAX SLASH_BOUNTY).

(** The proof this request carries is no forgery: signals it is accepted for are those of a
    satisfied circuit. It is what the knowledge soundness of Groth16 gives of one proof,
    but for a negligible chance. *)
Definition not_forged (req : LongjingRequestDto) (vkey : jsv) : Prop := forall d proof signals,
  JSON_parse (req_proof req) = Ok d -> to_snarkjs d = Ok proof -> o_groth16_verify out vkey signals proof = Ok true ->
  exists i o, request_signals_ok i /\ length (rq_pathElements i) = Circuits.TREE_DEPTH
    /\ Request T gens i = Some o /\ signals = map toString (request_public i o).

(** In production at the time [t], with the refund key [key], the gateway reads the contract
    in the state [s] over the connection [chain]. *)
Record reads (s : State) (key : Point) (chain : BlockchainService) (t : Z) : Prop := {
  rd_production : isProd (sr_env (o_surroundings out t)) = Ok true;
  rd_root root : sr_isKnownRoot (o_surroundings out t) root
    = Blockchain.isKnownRoot toBeHex32 (fun hex => let* r := BigInt hex in Ok (Credits.isKnownRoot r s)) root chain;
  rd_key : sr_serverKey (o_surroundings out t) = Ok (toString key.1, toString key.2);
  rd_key_field : in_field key.1 /\ in_field key.2;
  rd_getCMax : o_getCMax out t = Blockchain.getCMax chain;
  rd_cMax : cMax chain = Some C_MAX;
}.

(** The public signals of an accepted proof are those of a request the circuit holds for,
    under a root the contract knows. *)
Lemma accepted_request req v v' s key chain t : reads s key chain t -> not_forged req (vKey (snark v)) ->
  IsFieldElement (req_merkleRoot req) = true -> binary_prefix (req_merkleRoot req) = false ->
  verify (o_groth16_verify out) (o_artifacts out) (o_surroundings out t) (req_proof req) (public_inputs req C_MAX) v = (v', Ok true) ->
  exists i, request_signals_ok i /\ length (rq_pathElements i) = Circuits.TREE_DEPTH /\ request_holds T gens i
    /\ toBigInt (req_nullifier req) = Ok (ro_nullifier (request_outputs T gens i))
    /\ Credits.isKnownRoot (rq_merkleRoot i) s = true /\ rq_maxCost i = C_MAX /\ rq_serverPublicKey i = key.
Proof.
  intros [Hprod Hroot Hkey [Hk1 Hk2] _ _] Hsound Hfe Hbin H. apply verify_sound in H as (d & key' & ns & sp & Hd & _ & Hsp & Ek & Hns & Hv & Hr).
  rewrite Hkey in Ek. injection Ek as <-. cbn [fst snd] in Hns.
  destruct (Hsound _ _ _ Hd Hsp Hv) as (i & o & Hok & Hlen & HR & Eps). apply (list_fmap_eq_inj toString) in Eps; [|exact toString_inj]. subst ns.
  apply (Request_sound T gens Ht Hg i o Hok) in HR as [Hh ->].
  destruct Hr as [[_ Hr]|[Hp _]]; [|congruence]. rewrite Hroot in Hr. unfold Blockchain.isKnownRoot in Hr.
  apply rbind_ok in Hr as (a & _ & Hr). apply rbind_ok in Hr as (z & Hz & Hr). apply rbind_ok in Hr as (hex & Hhx & Hr).
  destruct (Hhex z hex Hhx) as [Hz0 Hb]. rewrite Hb in Hr. cbn [rbind] in Hr. injection Hr as Hr.
  unfold public_inputs in *. cbn [pi_nullifier pi_signalY pi_accumulatorX pi_accumulatorY pi_merkleRoot pi_maxCost pi_signalX] in *.
  unfold request_public in Hns.
  repeat (let E := fresh "E" in apply map_result_cons in Hns as [E Hns]).
  exists i. split; [exact Hok|]. split; [exact Hlen|]. split; [exact Hh|]. split; [assumption|].
  rewrite (root_readers_agree _ z Hfe Hbin Hz Hz0) in *. rewrite !toBigInt_toString in * by (apply Hk1 || apply Hk2 || exact Hmax).
  split; [congruence|]. split; [congruence|]. rewrite (surjective_pairing (rq_serverPublicKey i)), (surjective_pairing key). congruence.
Qed.
(** What the contract had, in its state [s], behind the request of the signals [i]. *)
Record backed (s : State) (key : Point) (i : RequestSignals) : Prop := {
  bk_note : let c := Poseidon T [rq_secretKey i] in
    let leaf := hash2 (Poseidon T) c (rq_deposit i) in
    exists s0 l, reachable_nonzero s0 /\ s = run l s0
      /\ (length (pushed_roots (events s)) < length (pushed_roots (events s0)) + 30)%nat
      /\ (status (note_at c s0) = Active /\ amount (note_at c s0) = rq_deposit i
          \/ leaf = 0 \/ collision (Poseidon T) s0 ((c, rq_deposit i) :: path_pairs (Poseidon T) leaf (request_path i)));
  bk_certified : certified T gens (rq_isGenesis i) (request_opening T i) (rq_signatureR8 i) (rq_signatureS i) key;
  bk_solvent : (rq_index i + 1) * C_MAX <= rq_deposit i + rq_refunds i;
}.

Lemma path_root_of leaf path : path_root (Poseidon T) leaf path = root_of T leaf path.
Proof. revert leaf. induction path as [|[e side] path IH]; intros leaf; cbn [path_root root_of]; [done|]. apply IH. Qed.

Lemma request_backed s key i : reachable_nonzero s ->
  request_signals_ok i -> length (rq_pathElements i) = Circuits.TREE_DEPTH -> request_holds T gens i ->
  Credits.isKnownRoot (rq_merkleRoot i) s = true -> rq_maxCost i = C_MAX -> rq_serverPublicKey i = key -> backed s key i.
Proof.
  intros Hr Hok Hlen [Hm _ Hc _ _ Hs] Hk Hmc Hkey. rewrite Hmc in Hs. rewrite Hkey in Hc. split; [|exact Hc|exact Hs].
  destruct (known_root_state _ _ _ _ _ _ _ Hmax s _ Hr Hk) as (s0 & l & Hr0 & E & Eroot & Hn). exists s0, l.
  split; [exact Hr0|]. split; [exact E|]. split; [exact Hn|].
  apply (path_from_note _ _ _ _ _ _ _ Hmax s0 _ _ _ Hr0).
  - unfold request_path. rewrite length_combine, <- (rs_elements i Hok), Nat.min_id. exact Hlen.
  - rewrite path_root_of, Eroot. exact Hm.
Qed.

Lemma serve_op_verifier {X} (op : gw X) w : snark (verifier (serve_op out op w).1) = snark (verifier w).
Proof.
  destruct op; cbn [serve_op]; try done.
  - by destruct (checkRateLimit _ _ _).
  - by destruct (usdToWei _ _ _ _ _ _).
  - pose proof (verify_snark (o_groth16_verify out) (o_artifacts out) (o_surroundings out (clock w)) proof inputs (verifier w)) as H.
    by destruct (verify _ _ _ _ _ _).
  - by destruct (checkAndSet _ _ _).
Qed.

(** The nullifier that was recorded is the one the proof published. *)
Lemma nullifier_read s n z : IsFieldElement s = true -> parseFieldElement s = Ok n -> toBigInt s = Ok z -> n = z.
Proof.
  intros H Hn Hz. destruct (field_element_readers_agree s H) as [(m & _ & H1 & H2)|(l & _ & _ & H1 & _)]; congruence.
Qed.

End Served.
