(* ===== verification/SolvencyFixture.v ===== *)
(** * A request served by a small system

    The theorem of [Solvency] on the contract of [SystemFixture]: the first request of its
    note, accepted by a gateway in production. *)

From Stdlib Require Import String.
From S2P Require Import Prelude JsText JsNumber FieldElement Field Json Accumulator Slashing RefundSigner ProofVerifier ClaudePricing Gateway.
From S2P Require Import NullifierStore EthRate GatewayWorld Blockchain.
From S2P Require Import Credits CreditsLedger CreditsTree CreditsMembership Circuits SystemFixture Solvency.
Open Scope Z_scope.

Definition served_path : list Z * list Z := default ([], []) (Credits.getMerkleProof toy_poseidon 0 small_state).

Definition served_payload : list Z := code_units "hi".

Definition served_signalX : Z := match payloadSignalX toy_sha256 toy_poseidon served_payload 5 with Ok x => x | Throw _ => 0 end.

Definition served_signals : RequestSignals :=
  {| rq_secretKey := 5; rq_deposit := 100; rq_pathElements := served_path.1; rq_pathIndices := served_path.2;
     rq_isGenesis := 1; rq_refunds := 0; rq_index := 0; rq_blinding := 0; rq_signatureR8 := IDENTITY; rq_signatureS := 0;
     rq_rerandomizer := 9; rq_merkleRoot := Credits.merkleRoot (tree small_state); rq_maxCost := 40; rq_signalX := served_signalX;
     rq_serverPublicKey := (2, 3) |}.

(** With the identity for every generator its accumulator is the identity. *)
Lemma mulPoint_IDENTITY n : mulPoint IDENTITY n = IDENTITY.
Proof.
  assert (H : addPoints IDENTITY IDENTITY = IDENTITY) by (apply addPoints_id_l, IDENTITY_reduced).
  assert (Hl : forall e, mul_loop e IDENTITY IDENTITY = IDENTITY).
  { intros e. induction e as [e IH|e IH|]; cbn [mul_loop]; by rewrite ?H. }
  destruct n as [|e|e]; cbn [mulPoint]; auto.
Qed.

Lemma toy_accumulator o r : rerandomize toy_gens (commit toy_gens o) r = IDENTITY.
Proof.
  unfold rerandomize, commit. cbn [gen_G gen_J gen_K gen_H toy_gens].
  by rewrite !mulPoint_IDENTITY, !addPoints_id_l by apply IDENTITY_reduced.
Qed.

Lemma toy_gens_ok : generators_ok toy_gens.
Proof. assert (H : isOnCurve IDENTITY = true /\ reduced IDENTITY) by (split; [vm_compute; reflexivity|apply IDENTITY_reduced]). by split_and!. Qed.

Definition served_outputs : RequestOutputs :=
  let a := toy_poseidon [5; 0] in
  {| ro_nullifier := toy_poseidon [a]; ro_signalY := mod_p (5 + a * served_signalX); ro_accumulator := IDENTITY |}.

Lemma served_outputs_eq : request_outputs small_templates toy_gens served_signals = served_outputs.
Proof. unfold request_outputs. rewrite toy_accumulator. reflexivity. Qed.

(** Its proof is the only one accepted. *)
Definition served_texts : list string := map toString (request_public served_signals served_outputs).

Definition small_toBeHex32 (z : Z) : result string := if 0 <=? z then Ok (toString z) else Throw (Error "negative").

Lemma small_toBeHex32_ok z t : small_toBeHex32 z = Ok t -> 0 <= z /\ BigInt t = Ok z.
Proof. unfold small_toBeHex32. destruct (Z.leb_spec 0 z); [|done]. intros [= <-]. split; [assumption|apply toString_ok]. Qed.

Definition small_connection : BlockchainService :=
  with_cMax (Some 40) (build None 1 new_blockchain).

Definition small_outside : Outside :=
  let o := toy_out true in
  {| o_kraken := o_kraken o; o_chainlink := o_chainlink o; o_feed_delay := o_feed_delay o;
     o_surroundings := fun _ =>
       {| sr_env := sr_env sample_surroundings; sr_chain_available := true;
          sr_isKnownRoot := fun root => Blockchain.isKnownRoot small_toBeHex32 (fun hex => let* r := BigInt hex in Ok (Credits.isKnownRoot r small_state)) root small_connection;
          sr_serverKey := Ok (toString 2, toString 3) |};
     o_groth16_verify := fun _ signals _ => Ok (bool_decide (signals = served_texts));
     o_artifacts := o_artifacts o; o_getCMax := fun _ => Blockchain.getCMax small_connection;
     o_createMessage := o_createMessage o; o_random := o_random o; o_sign := o_sign o; o_slasher := o_slasher o |}.

Definition served_request : LongjingRequestDto :=
  {| req_payload := served_payload; req_nonce := "5"; req_nullifier := toString (ro_nullifier served_outputs);
     req_signal := {| signal_x := toString served_signalX; signal_y := toString (ro_signalY served_outputs) |};
     req_proof := sample_proof; req_merkleRoot := toString (rq_merkleRoot served_signals);
     req_accumulator := {| acc_x := toString (ro_accumulator served_outputs).1; acc_y := toString (ro_accumulator served_outputs).2 |};
     req_model := None |}.

Abbreviation served_run :=
  (run_log (fun X => serve_op small_outside (X:=X)) (handleRequest toy_sha256 toy_poseidon toy_gens true served_request) (toy_world ∅)).

Lemma served_run_serves : existsb provider_event served_run.2 = true.
Proof. vm_compute. reflexivity. Qed.

Lemma served_signals_ok : request_signals_ok served_signals.
Proof.
  split; try small_numbers; [vm_compute; reflexivity|].
  assert (H : forallb (fun z => (0 <=? z) && (z <? 1000000)) (rq_pathIndices served_signals) = true) by (vm_compute; reflexivity).
  apply Forall_forall. intros z Hz. rewrite forallb_forall in H. specialize (H z (proj1 (list_elem_of_In _ _) Hz)).
  apply small_in_field. lia.
Qed.

Lemma served_request_holds : request_holds small_templates toy_gens served_signals.
Proof.
  split; try small_numbers.
  - vm_compute. reflexivity.
  - assert (H : forallb (fun z => (z =? 0) || (z =? 1)) (rq_pathIndices served_signals) = true) by (vm_compute; reflexivity).
    apply Forall_forall. intros z Hz. rewrite forallb_forall in H. specialize (H z (proj1 (list_elem_of_In _ _) Hz)). unfold bit. lia.
  - split; [by left|small_numbers|small_numbers|reflexivity].
Qed.

Lemma served_not_forged vkey : not_forged small_templates toy_gens small_outside served_request vkey.
Proof.
  intros d proof signals _ _ H. injection H as H. apply bool_decide_eq_true in H. subst signals.
  exists served_signals, served_outputs. split; [exact served_signals_ok|]. split; [vm_compute; reflexivity|]. split; [|reflexivity].
  rewrite <- served_outputs_eq. apply Request_complete; [apply plain_templates_ok, toy_poseidon_in_field|exact toy_gens_ok|exact served_signals_ok|exact served_request_holds].
Qed.

Lemma small_reads t : reads 40 small_outside small_toBeHex32 small_state (2, 3) small_connection t.
Proof.
  split; try reflexivity. cbn [fst snd]. split; apply small_in_field; lia.
Qed.

